(** * Software rasterizer core: a shallow embedding of [Engine.cpp]

    The development follows the C++ source function by function.  The single
    global [State g] of the source becomes an explicit [State] value: a
    [void] function is a [State -> State] transformer, a function that
    returns a value and mutates is [State -> A * State], and a function that
    only reads is [State -> A].

    Numbers.
    - [int] is a [Z] and every [int] operation that can leave the 32-bit
      range is written with its two's-complement wrap-around ([cast_int]).
      Signed overflow is undefined in C++; the theorems carry the range
      hypotheses under which no wrap happens.
    - [uint8_t], [uint32_t] and [size_t] are [Z] reduced modulo [2^8],
      [2^32] and [2^64] at the casts of the source.
    - [float] is IEEE-754 binary32, taken from the standard library's
      [SpecFloat] at precision 24 and maximal exponent 128 (round to nearest
      even).  The C library functions [exp] and [pow] have no bit-exact
      specification and are an interface ([LibM]).
    - A [std::vector] is a list.  An index outside the vector is undefined
      in C++; here a read yields a default (0 for bytes, NaN for floats,
      [true] for the result flags of [draw_mesh]) and a write does
      nothing. *)

From Stdlib Require Import ZArith Bool Lia.
From Stdlib Require Import Floats.SpecFloat.
From stdpp Require Import base list.

Open Scope Z_scope.

(* ===================================================================== *)
(** * Machine integers *)
(* ===================================================================== *)

Definition INT_MAX : Z := 2147483647.
Definition INT_MIN : Z := -2147483648.

Definition cast_int (z : Z) : Z := (z + 2147483648) mod 4294967296 - 2147483648.
Definition cast_u8 (z : Z) : Z := z mod 256.
Definition cast_u32 (z : Z) : Z := z mod 4294967296.
Definition cast_size_t (z : Z) : Z := z mod 18446744073709551616.

Definition iadd (a b : Z) : Z := cast_int (a + b).
Definition isub (a b : Z) : Z := cast_int (a - b).
Definition imul (a b : Z) : Z := cast_int (a * b).
(** C++ [/] and [%] on [int] truncate toward zero. *)
Definition idiv (a b : Z) : Z := cast_int (Z.quot a b).
Definition irem (a b : Z) : Z := Z.rem a b.
Definition iabs (a : Z) : Z := cast_int (Z.abs a).

(** [size_t] addition, as in [i + 3]. *)
Definition sadd (a b : Z) : Z := cast_size_t (a + b).
Definition smul (a b : Z) : Z := cast_size_t (a * b).

(** Inside [( ... )%int] the operators are those of [int], at every depth. *)
Declare Scope int_scope.
Delimit Scope int_scope with int.
Arguments iadd (a b)%_int.
Arguments isub (a b)%_int.
Arguments imul (a b)%_int.
Arguments idiv (a b)%_int.
Infix "+" := iadd : int_scope.
Infix "-" := isub : int_scope.
Infix "*" := imul : int_scope.
Infix "/" := idiv : int_scope.

(** [std::min], [std::max] on [int]; [clampi] of the source. *)
Definition clampi (v a b : Z) : Z := Z.max a (Z.min b v).

(* ===================================================================== *)
(** * binary32 floats *)
(* ===================================================================== *)

Definition float : Type := spec_float.

Definition f32_prec : Z := 24.
Definition f32_emax : Z := 128.

Definition fadd : float -> float -> float := SFadd f32_prec f32_emax.
Definition fsub : float -> float -> float := SFsub f32_prec f32_emax.
Definition fmul : float -> float -> float := SFmul f32_prec f32_emax.
Definition fdiv : float -> float -> float := SFdiv f32_prec f32_emax.
Definition fneg : float -> float := SFopp.
Definition fabs : float -> float := SFabs.

Definition flt (x y : float) : bool := SFltb x y.
Definition fle (x y : float) : bool := SFleb x y.
Definition fgt (x y : float) : bool := SFltb y x.
Definition fge (x y : float) : bool := SFleb y x.
Definition feq (x y : float) : bool := SFeqb x y.

Declare Scope f32_scope.
Delimit Scope f32_scope with f32.
Infix "+" := fadd : f32_scope.
Infix "-" := fsub : f32_scope.
Infix "*" := fmul : f32_scope.
Infix "/" := fdiv : f32_scope.
Notation "- x" := (fneg x) : f32_scope.
Infix "<?" := flt : f32_scope.
Infix "<=?" := fle : f32_scope.
Infix ">?" := fgt : f32_scope.
Infix ">=?" := fge : f32_scope.
Infix "=?" := feq : f32_scope.

Definition f_nan : float := S754_nan.
Definition is_nan (x : float) : bool :=
  match x with S754_nan => true | _ => false end.
(** Zero or finite: neither an infinity nor a NaN. *)
Definition is_finite (x : float) : bool :=
  match x with S754_zero _ | S754_finite _ _ _ => true | _ => false end.
Definition is_zero (x : float) : bool :=
  match x with S754_zero _ => true | _ => false end.

(** The literals of the source, as mantissa and exponent of the nearest
    binary32 value. *)
Definition f_0 : float := S754_zero false.
Definition f_0_5 : float := S754_finite false 8388608 (-24).
Definition f_1 : float := S754_finite false 8388608 (-23).
Definition f_2 : float := S754_finite false 8388608 (-22).
Definition f_3 : float := S754_finite false 12582912 (-22).
Definition f_255 : float := S754_finite false 16711680 (-16).
Definition f_1_2 : float := S754_finite false 10066330 (-23).
Definition f_0_1 : float := S754_finite false 13421773 (-27).
Definition f_1em4 : float := S754_finite false 13743895 (-37).
Definition f_1em6 : float := S754_finite false 8796093 (-43).
Definition f_1em8 : float := S754_finite false 11258999 (-50).
Definition f_1em12 : float := S754_finite false 9223372 (-63).
Definition f_0_2126 : float := S754_finite false 14267344 (-26).
Definition f_0_7152 : float := S754_finite false 11999065 (-24).
Definition f_0_0722 : float := S754_finite false 9690520 (-27).
Definition f_0_75 : float := S754_finite false 12582912 (-24).
Definition f_1_25 : float := S754_finite false 10485760 (-23).
Definition f_2_2 : float := S754_finite false 9227469 (-22).
Definition f_6 : float := S754_finite false 12582912 (-21).

(** [m * 2^e] with [2^23 <= m < 2^24] is the binary32 value nearest to
    [num / den]: twice the distance is at most one unit in the last place. *)
Definition nearest_f32 (m : positive) (e : Z) (num den : Z) : bool :=
  (8388608 <=? Zpos m) && (Zpos m <? 16777216) && (e <? 0) &&
  (2 * Z.abs (Zpos m * den - num * 2 ^ (- e)) <=? den).

(** [(float)i] for an [int] (also the implicit conversion of a [uint8_t]). *)
Definition float_of_int (z : Z) : float :=
  binary_normalize f32_prec f32_emax z 0 false.

(** The magnitude of a finite float cut toward zero. *)
Definition trunc_mag (m : positive) (e : Z) : Z :=
  if 0 <=? e then Zpos m * 2 ^ e else Zpos m / 2 ^ (- e).

(** [(int)f]: truncation toward zero.  Out of range (and NaN) is undefined
    in C++; the model returns [INT_MIN], the x86 "integer indefinite". *)
Definition int_of_float (f : float) : Z :=
  match f with
  | S754_zero _ => 0
  | S754_finite s m e =>
      let v := cond_Zopp s (trunc_mag m e) in
      if (INT_MIN <=? v) && (v <=? INT_MAX) then v else INT_MIN
  | _ => INT_MIN
  end.

(** [std::floor] and [std::ceil]: the result is an integer-valued float, a
    zero result keeps the sign of the argument. *)
Definition ffloor (f : float) : float :=
  match f with
  | S754_finite s m e =>
      if 0 <=? e then f
      else binary_normalize f32_prec f32_emax
             (cond_Zopp s (Zpos m) / 2 ^ (- e)) 0 s
  | _ => f
  end.

Definition fceil (f : float) : float :=
  match f with
  | S754_finite s m e =>
      if 0 <=? e then f
      else binary_normalize f32_prec f32_emax
             (- ((- cond_Zopp s (Zpos m)) / 2 ^ (- e))) 0 s
  | _ => f
  end.

(** [std::lround]: nearest integer, halfway cases away from zero.  The
    result for an infinity or a NaN is unspecified by C; the model gives 0. *)
Definition lround (f : float) : Z :=
  match f with
  | S754_finite s m e =>
      cond_Zopp s (if 0 <=? e then Zpos m * 2 ^ e
                   else (2 * Zpos m + 2 ^ (- e)) / 2 ^ (1 - e))
  | _ => 0
  end.

(** [std::min(a, b)] is [(b < a) ? b : a], [std::max(a, b)] is
    [(a < b) ? b : a]; with a NaN operand the first argument wins. *)
Definition fmin (x y : float) : float := if (y <? x)%f32 then y else x.
Definition fmax (x y : float) : float := if (x <? y)%f32 then y else x.

(** [std::min({a, b, c})] and [std::max({a, b, c})]: a left-to-right scan
    that keeps the first of equal elements. *)
Definition fmin3 (x y z : float) : float :=
  let m := if (y <? x)%f32 then y else x in if (z <? m)%f32 then z else m.
Definition fmax3 (x y z : float) : float :=
  let m := if (x <? y)%f32 then y else x in if (m <? z)%f32 then z else m.

Definition clampf (v a b : float) : float := fmax a (fmin b v).

(** The C math library. *)
Class LibM := {
  expf : float -> float;
  powf : float -> float -> float
}.

(* ===================================================================== *)
(** * Vectors *)
(* ===================================================================== *)

(** [v[i]] and [v[i] = x] for an index [i]. *)
Definition vget {A} (d : A) (v : list A) (i : Z) : A :=
  if i <? 0 then d else default d (v !! Z.to_nat i).
Definition vset {A} (v : list A) (i : Z) (x : A) : list A :=
  if i <? 0 then v else <[Z.to_nat i := x]> v.

Definition byte_at (v : list Z) (i : Z) : Z := vget 0 v i.
Definition float_at (v : list float) (i : Z) : float := vget f_nan v i.

(** [for (i = lo; i < hi; ++i) body]. *)
Fixpoint for_loop {S} (n : nat) (i : Z) (body : Z -> S -> S) (s : S) : S :=
  match n with
  | O => s
  | Datatypes.S n' => for_loop n' (i + 1) body (body i s)
  end.
Definition for_range {S} (lo hi : Z) (body : Z -> S -> S) (s : S) : S :=
  for_loop (Z.to_nat (hi - lo)) lo body s.

(** The same loop with [break]: the body returns [None] to leave the loop. *)
Fixpoint for_loop_break {S} (n : nat) (i : Z) (body : Z -> S -> option S)
    (s : S) : S :=
  match n with
  | O => s
  | Datatypes.S n' =>
      match body i s with
      | Some s' => for_loop_break n' (i + 1) body s'
      | None => s
      end
  end.
Definition for_range_break {S} (lo hi : Z) (body : Z -> S -> option S)
    (s : S) : S :=
  for_loop_break (Z.to_nat (hi - lo)) lo body s.

(* ===================================================================== *)
(** * Data model ([Engine.h] and [struct State]) *)
(* ===================================================================== *)

Record Vec2 := mkVec2 { v2_x : float; v2_y : float }.
Record Vec3 := mkVec3 { v3_x : float; v3_y : float; v3_z : float }.
Record Vec4 := mkVec4 { v4_x : float; v4_y : float; v4_z : float; v4_w : float }.

(** [float m[16]], column-major. *)
Record Mat4 := mkMat4 { mat_m : list float }.
Definition m_at (a : Mat4) (k : nat) : float := nth k (mat_m a) f_0.

(** Four [uint8_t] channels; [Color c{}] is opaque black. *)
Record Color := mkColor { col_r : Z; col_g : Z; col_b : Z; col_a : Z }.
Definition Color_default : Color := mkColor 0 0 0 255.

Definition u8_ok (z : Z) : Prop := 0 <= z < 256.
Definition Color_ok (c : Color) : Prop :=
  u8_ok (col_r c) /\ u8_ok (col_g c) /\ u8_ok (col_b c) /\ u8_ok (col_a c).

Inductive BlendMode := Overwrite | Alpha | Additive | Multiply.

Record Image := mkImage { img_w : Z; img_h : Z; img_rgba : list Z }.
Definition Image_valid (t : Image) : bool :=
  (img_w t >? 0) && (img_h t >? 0) &&
  (cast_int (Z.of_nat (length (img_rgba t))) =? ((img_w t * img_h t) * 4)%int).

Record BloomSettings := mkBloomSettings {
  bloom_enabled : bool;
  threshold : float;
  intensity : float;
  downsample : Z;
  sigma : float
}.

Record ToneSettings := mkToneSettings {
  tone_enabled : bool;
  exposure : float;
  gamma : float
}.

Record PostProcessSettings := mkPostProcessSettings {
  pp_bloom : BloomSettings;
  pp_tone : ToneSettings
}.

Record Vertex3D := mkVertex3D { vt_pos : Vec3; vt_color : Vec3; vt_uv : Vec2 }.

(** [struct BloomBuffers]. *)
Record BloomBuffers := mkBloomBuffers {
  bb_w : Z;
  bb_h : Z;
  bb_a : list float;
  bb_b : list float;
  bb_tmp : list float;
  bb_kernel : list float;
  bb_radius : Z
}.
Definition BloomBuffers_reset : BloomBuffers := mkBloomBuffers 0 0 [] [] [] [] 0.

(** The fields of [struct State] that the rasterizer and the post-processor
    use, grouped by concern: the presenter handles, the clip rectangle and
    the dirty rectangle are sub-records, the other fields keep their place.
    Window, input, timing and capture-path fields are not read by any
    function below and are left out. *)
Record Presenter := mkPresenter {
  gl_ready : bool;
  can_present : bool;
  max_tex_size : Z;
  tex : Z;
  vao : Z;
  vbo : Z;
  program : Z;
  present_linear : bool
}.

Record ClipRect := mkClipRect {
  clip_on : bool;
  clip_x : Z;
  clip_y : Z;
  clip_w : Z;
  clip_h : Z
}.

Record DirtyRect := mkDirtyRect {
  dirty_on : bool;
  dirty_empty : bool;
  dirty_minx : Z;
  dirty_miny : Z;
  dirty_maxx : Z;
  dirty_maxy : Z
}.

Record State := Build_State {
  gl : Presenter;
  fb_w : Z;
  fb_h : Z;
  color : list Z;
  depth_on : bool;
  depth : list float;
  clip : ClipRect;
  blend : BlendMode;
  dirty : DirtyRect;
  post : PostProcessSettings;
  post_out : list Z;
  bloom : BloomBuffers
}.

Definition set_gl (v : Presenter) (st : State) : State :=
  Build_State v (fb_w st) (fb_h st) (color st) (depth_on st) (depth st)
    (clip st) (blend st) (dirty st) (post st) (post_out st) (bloom st).
Definition set_fb_w (v : Z) (st : State) : State :=
  Build_State (gl st) v (fb_h st) (color st) (depth_on st) (depth st)
    (clip st) (blend st) (dirty st) (post st) (post_out st) (bloom st).
Definition set_fb_h (v : Z) (st : State) : State :=
  Build_State (gl st) (fb_w st) v (color st) (depth_on st) (depth st)
    (clip st) (blend st) (dirty st) (post st) (post_out st) (bloom st).
Definition set_color (v : list Z) (st : State) : State :=
  Build_State (gl st) (fb_w st) (fb_h st) v (depth_on st) (depth st)
    (clip st) (blend st) (dirty st) (post st) (post_out st) (bloom st).
Definition set_depth_on (v : bool) (st : State) : State :=
  Build_State (gl st) (fb_w st) (fb_h st) (color st) v (depth st) (clip st)
    (blend st) (dirty st) (post st) (post_out st) (bloom st).
Definition set_depth (v : list float) (st : State) : State :=
  Build_State (gl st) (fb_w st) (fb_h st) (color st) (depth_on st) v
    (clip st) (blend st) (dirty st) (post st) (post_out st) (bloom st).
Definition set_clip (v : ClipRect) (st : State) : State :=
  Build_State (gl st) (fb_w st) (fb_h st) (color st) (depth_on st)
    (depth st) v (blend st) (dirty st) (post st) (post_out st) (bloom st).
Definition set_blend (v : BlendMode) (st : State) : State :=
  Build_State (gl st) (fb_w st) (fb_h st) (color st) (depth_on st)
    (depth st) (clip st) v (dirty st) (post st) (post_out st) (bloom st).
Definition set_dirty (v : DirtyRect) (st : State) : State :=
  Build_State (gl st) (fb_w st) (fb_h st) (color st) (depth_on st)
    (depth st) (clip st) (blend st) v (post st) (post_out st) (bloom st).
Definition set_post (v : PostProcessSettings) (st : State) : State :=
  Build_State (gl st) (fb_w st) (fb_h st) (color st) (depth_on st)
    (depth st) (clip st) (blend st) (dirty st) v (post_out st) (bloom st).
Definition set_post_out (v : list Z) (st : State) : State :=
  Build_State (gl st) (fb_w st) (fb_h st) (color st) (depth_on st)
    (depth st) (clip st) (blend st) (dirty st) (post st) v (bloom st).
Definition set_bloom (v : BloomBuffers) (st : State) : State :=
  Build_State (gl st) (fb_w st) (fb_h st) (color st) (depth_on st)
    (depth st) (clip st) (blend st) (dirty st) (post st) (post_out st) v.

(* ===================================================================== *)
(** * Helpers *)
(* ===================================================================== *)

Definition to_u8 (v01 : float) : Z :=
  let v := cast_int (lround (clampf v01 f_0 f_1 * f_255)%f32) in
  cast_u8 (clampi v 0 255).

(** [(size_t)((y * w + x) * 4)]. *)
Definition idx_rgba (w x y : Z) : Z := cast_size_t ((y * w + x) * 4)%int.

(* ===================================================================== *)
(** * Dirty rectangle, clip test *)
(* ===================================================================== *)

Definition dirty_add (x y : Z) (st : State) : State :=
  let d := dirty st in
  if negb (dirty_on d) then st
  else if (x <? 0) || (y <? 0) || (x >=? fb_w st) || (y >=? fb_h st) then st
  else if dirty_empty d then
    set_dirty (mkDirtyRect (dirty_on d) false x y x y) st
  else
    set_dirty (mkDirtyRect (dirty_on d) (dirty_empty d)
                 (Z.min (dirty_minx d) x) (Z.min (dirty_miny d) y)
                 (Z.max (dirty_maxx d) x) (Z.max (dirty_maxy d) y)) st.

Definition dirty_add_rect (x y w h : Z) (st : State) : State :=
  if negb (dirty_on (dirty st)) then st
  else
    let st := dirty_add x y st in
    let st := dirty_add (x + w - 1)%int y st in
    let st := dirty_add x (y + h - 1)%int st in
    dirty_add (x + w - 1)%int (y + h - 1)%int st.

Definition in_clip (st : State) (x y : Z) : bool :=
  let c := clip st in
  if negb (clip_on c) then true
  else (x >=? clip_x c) && (y >=? clip_y c) &&
       (x <? (clip_x c + clip_w c)%int) && (y <? (clip_y c + clip_h c)%int).

Definition in_bounds (st : State) (x y : Z) : bool :=
  negb ((x <? 0) || (y <? 0) || (x >=? fb_w st) || (y >=? fb_h st)).

(* ===================================================================== *)
(** * Blend write *)
(* ===================================================================== *)

(** The [blend_chan] lambda of the Alpha case. *)
Definition blend_chan (sa : float) (sc dc : Z) : Z :=
  let s := (float_of_int sc / f_255)%f32 in
  let d := (float_of_int dc / f_255)%f32 in
  let o := (s * sa + d * (f_1 - sa))%f32 in
  cast_u8 (clampi (cast_int (lround (o * f_255)%f32)) 0 255).

Definition blend_out (m : BlendMode) (src dst : Color) : Color :=
  match m with
  | Overwrite => src
  | Alpha =>
      let sa := (float_of_int (col_a src) / f_255)%f32 in
      let da := (float_of_int (col_a dst) / f_255)%f32 in
      let oa := (sa + da * (f_1 - sa))%f32 in
      mkColor (blend_chan sa (col_r src) (col_r dst))
              (blend_chan sa (col_g src) (col_g dst))
              (blend_chan sa (col_b src) (col_b dst))
              (cast_u8 (clampi (cast_int (lround (oa * f_255)%f32)) 0 255))
  | Additive =>
      mkColor (cast_u8 (clampi (col_r dst + col_r src)%int 0 255))
              (cast_u8 (clampi (col_g dst + col_g src)%int 0 255))
              (cast_u8 (clampi (col_b dst + col_b src)%int 0 255))
              255
  | Multiply =>
      mkColor (cast_u8 ((col_r dst * col_r src) / 255)%int)
              (cast_u8 ((col_g dst * col_g src) / 255)%int)
              (cast_u8 ((col_b dst * col_b src) / 255)%int)
              255
  end.

(** Reading and storing the four bytes of the pixel at byte offset [i]. *)
Definition load_color (v : list Z) (i : Z) : Color :=
  mkColor (byte_at v (sadd i 0)) (byte_at v (sadd i 1))
          (byte_at v (sadd i 2)) (byte_at v (sadd i 3)).
Definition store_color (v : list Z) (i : Z) (c : Color) : list Z :=
  let v := vset v (sadd i 0) (col_r c) in
  let v := vset v (sadd i 1) (col_g c) in
  let v := vset v (sadd i 2) (col_b c) in
  vset v (sadd i 3) (col_a c).

Definition write_pixel (x y : Z) (src : Color) (st : State) : State :=
  if (x <? 0) || (y <? 0) || (x >=? fb_w st) || (y >=? fb_h st) then st
  else if negb (in_clip st x y) then st
  else
    let i := idx_rgba (fb_w st) x y in
    let dst := load_color (color st) i in
    let out := blend_out (blend st) src dst in
    let st := set_color (store_color (color st) i out) st in
    dirty_add x y st.

(* ===================================================================== *)
(** * Depth test *)
(* ===================================================================== *)

Definition depth_test_write (x y : Z) (z01 : float) (st : State)
    : bool * State :=
  if negb (depth_on st) then (true, st)
  else if (x <? 0) || (y <? 0) || (x >=? fb_w st) || (y >=? fb_h st)
  then (false, st)
  else if negb (in_clip st x y) then (false, st)
  else if negb (z01 =? z01)%f32 then (false, st)
  else
    let idx := cast_size_t (y * fb_w st + x)%int in
    if (z01 <? float_at (depth st) idx)%f32
    then (true, set_depth (vset (depth st) idx z01) st)
    else (false, st).

(* ===================================================================== *)
(** * Public pixel access *)
(* ===================================================================== *)

Definition set_pixel (x y : Z) (c : Color) (st : State) : State :=
  write_pixel x y c st.

Definition get_pixel (st : State) (x y : Z) : Color :=
  if (x <? 0) || (y <? 0) || (x >=? fb_w st) || (y >=? fb_h st)
  then Color_default
  else load_color (color st) (idx_rgba (fb_w st) x y).

(** [for (i = lo; i < hi; i += step) body], [step > 0]. *)
Fixpoint for_loop_step {S} (n : nat) (i step : Z) (body : Z -> S -> S)
    (s : S) : S :=
  match n with
  | O => s
  | Datatypes.S n' => for_loop_step n' (i + step) step body (body i s)
  end.
Definition for_range_step {S} (lo hi step : Z) (body : Z -> S -> S) (s : S)
    : S :=
  for_loop_step (Z.to_nat ((hi - lo + step - 1) / step)) lo step body s.

(* ===================================================================== *)
(** * Triangle rasterization (2D) *)
(* ===================================================================== *)

Definition edge_fn (a b p : Vec2) : float :=
  ((v2_x p - v2_x a) * (v2_y b - v2_y a)
   - (v2_y p - v2_y a) * (v2_x b - v2_x a))%f32.

(** Returns [(minx, miny, maxx, maxy)]. *)
Definition tri_bounds (st : State) (a b c : Vec2) : Z * Z * Z * Z :=
  let fx0 := fmin3 (v2_x a) (v2_x b) (v2_x c) in
  let fy0 := fmin3 (v2_y a) (v2_y b) (v2_y c) in
  let fx1 := fmax3 (v2_x a) (v2_x b) (v2_x c) in
  let fy1 := fmax3 (v2_y a) (v2_y b) (v2_y c) in
  let minx := int_of_float (ffloor fx0) in
  let miny := int_of_float (ffloor fy0) in
  let maxx := int_of_float (fceil fx1) in
  let maxy := int_of_float (fceil fy1) in
  (clampi minx 0 (fb_w st - 1)%int, clampi miny 0 (fb_h st - 1)%int,
   clampi maxx 0 (fb_w st - 1)%int, clampi maxy 0 (fb_h st - 1)%int).

(** The pixel centre [((float)x + 0.5f, (float)y + 0.5f)]. *)
Definition pixel_center (x y : Z) : Vec2 :=
  mkVec2 (float_of_int x + f_0_5)%f32 (float_of_int y + f_0_5)%f32.

Definition inside (w0 w1 w2 : float) : bool :=
  (w0 >=? f_0)%f32 && (w1 >=? f_0)%f32 && (w2 >=? f_0)%f32.

Definition draw_tri_flat (a b c : Vec2) (col : Color) (st : State) : State :=
  let '(minx, miny, maxx, maxy) := tri_bounds st a b c in
  let area := edge_fn a b c in
  if (fabs area <? f_1em8)%f32 then st
  else
    let flip := (area <? f_0)%f32 in
    let A := a in
    let B := if flip then c else b in
    let C := if flip then b else c in
    let st :=
      for_range miny (maxy + 1) (fun y st =>
        for_range minx (maxx + 1) (fun x st =>
          let p := pixel_center x y in
          let w0 := edge_fn B C p in
          let w1 := edge_fn C A p in
          let w2 := edge_fn A B p in
          if inside w0 w1 w2 then write_pixel x y col st else st) st) st in
    dirty_add_rect minx miny (maxx - minx + 1)%int (maxy - miny + 1)%int st.

(** One interpolated channel of [draw_tri_grad]. *)
Definition grad_chan (ca cb cc : Z) (l0 l1 l2 : float) : float :=
  ((float_of_int ca * l0 + float_of_int cb * l1 + float_of_int cc * l2)
   / f_255)%f32.

Definition draw_tri_grad (a : Vec2) (ca : Color) (b : Vec2) (cb : Color)
    (c : Vec2) (cc : Color) (st : State) : State :=
  let area := edge_fn a b c in
  if (fabs area <? f_1em8)%f32 then st
  else
    let swap := (area <? f_0)%f32 in
    let A := a in
    let B := if swap then c else b in
    let C := if swap then b else c in
    let CA := ca in
    let CB := if swap then cc else cb in
    let CC := if swap then cb else cc in
    let area := if swap then (- area)%f32 else area in
    let '(minx, miny, maxx, maxy) := tri_bounds st A B C in
    let invA := (f_1 / area)%f32 in
    let st :=
      for_range miny (maxy + 1) (fun y st =>
        for_range minx (maxx + 1) (fun x st =>
          let p := pixel_center x y in
          let w0 := edge_fn B C p in
          let w1 := edge_fn C A p in
          let w2 := edge_fn A B p in
          if inside w0 w1 w2 then
            let l0 := (w0 * invA)%f32 in
            let l1 := (w1 * invA)%f32 in
            let l2 := (w2 * invA)%f32 in
            let r := grad_chan (col_r CA) (col_r CB) (col_r CC) l0 l1 l2 in
            let gch := grad_chan (col_g CA) (col_g CB) (col_g CC) l0 l1 l2 in
            let bch := grad_chan (col_b CA) (col_b CB) (col_b CC) l0 l1 l2 in
            write_pixel x y (mkColor (to_u8 r) (to_u8 gch) (to_u8 bch) 255) st
          else st) st) st in
    dirty_add_rect minx miny (maxx - minx + 1)%int (maxy - miny + 1)%int st.

Definition sample_tex_nearest (t : Image) (u v : float) (tint : Color)
    : Color :=
  let u := clampf u f_0 f_1 in
  let v := clampf v f_0 f_1 in
  let x := int_of_float
             (ffloor (u * float_of_int (img_w t - 1)%int + f_0_5)%f32) in
  let y := int_of_float
             (ffloor (v * float_of_int (img_h t - 1)%int + f_0_5)%f32) in
  let x := clampi x 0 (img_w t - 1)%int in
  let y := clampi y 0 (img_h t - 1)%int in
  let i := idx_rgba (img_w t) x y in
  mkColor
    (cast_u8 ((byte_at (img_rgba t) (sadd i 0) * col_r tint) / 255)%int)
    (cast_u8 ((byte_at (img_rgba t) (sadd i 1) * col_g tint) / 255)%int)
    (cast_u8 ((byte_at (img_rgba t) (sadd i 2) * col_b tint) / 255)%int)
    (cast_u8 ((byte_at (img_rgba t) (sadd i 3) * col_a tint) / 255)%int).

Definition draw_tri_tex (a ua b ub c uc : Vec2) (t : Image) (tint : Color)
    (st : State) : State :=
  if negb (Image_valid t) then st
  else
    let area := edge_fn a b c in
    if (fabs area <? f_1em8)%f32 then st
    else
      let swap := (area <? f_0)%f32 in
      let A := a in
      let B := if swap then c else b in
      let C := if swap then b else c in
      let UA := ua in
      let UB := if swap then uc else ub in
      let UC := if swap then ub else uc in
      let area := if swap then (- area)%f32 else area in
      let '(minx, miny, maxx, maxy) := tri_bounds st A B C in
      let invA := (f_1 / area)%f32 in
      let st :=
        for_range miny (maxy + 1) (fun y st =>
          for_range minx (maxx + 1) (fun x st =>
            let p := pixel_center x y in
            let w0 := edge_fn B C p in
            let w1 := edge_fn C A p in
            let w2 := edge_fn A B p in
            if inside w0 w1 w2 then
              let l0 := (w0 * invA)%f32 in
              let l1 := (w1 * invA)%f32 in
              let l2 := (w2 * invA)%f32 in
              let u := (v2_x UA * l0 + v2_x UB * l1 + v2_x UC * l2)%f32 in
              let v := (v2_y UA * l0 + v2_y UB * l1 + v2_y UC * l2)%f32 in
              write_pixel x y (sample_tex_nearest t u v tint) st
            else st) st) st in
      dirty_add_rect minx miny (maxx - minx + 1)%int (maxy - miny + 1)%int st.

(* ===================================================================== *)
(** * 3D pipeline *)
(* ===================================================================== *)

Definition mat4_mul_vec (a : Mat4) (v : Vec4) : Vec4 :=
  let row (i0 i1 i2 i3 : nat) :=
    (m_at a i0 * v4_x v + m_at a i1 * v4_y v + m_at a i2 * v4_z v
     + m_at a i3 * v4_w v)%f32 in
  mkVec4 (row 0%nat 4%nat 8%nat 12%nat) (row 1%nat 5%nat 9%nat 13%nat)
         (row 2%nat 6%nat 10%nat 14%nat) (row 3%nat 7%nat 11%nat 15%nat).

Record VOut := mkVOut {
  vo_x : float;
  vo_y : float;
  vo_z : float;
  vo_invw : float;
  vo_col : Vec3;
  vo_uv : Vec2
}.
(** [VOut{}]: the member initializers of the struct. *)
Definition VOut_default : VOut :=
  mkVOut f_0 f_0 f_1 f_1 (mkVec3 f_0 f_0 f_0) (mkVec2 f_0 f_0).

(** The result flag and the value left in the [out] parameter. *)
Definition project_vertex (st : State) (vin : Vertex3D) (mvp : Mat4)
    (out : VOut) : bool * VOut :=
  let p := mkVec4 (v3_x (vt_pos vin)) (v3_y (vt_pos vin)) (v3_z (vt_pos vin))
                  f_1 in
  let clip := mat4_mul_vec mvp p in
  if (fabs (v4_w clip) <? f_1em8)%f32 then (false, out)
  else
    let invw := (f_1 / v4_w clip)%f32 in
    let ndc_x := (v4_x clip * invw)%f32 in
    let ndc_y := (v4_y clip * invw)%f32 in
    let ndc_z := (v4_z clip * invw)%f32 in
    if (ndc_z <? - f_1_2)%f32 || (ndc_z >? f_1_2)%f32 then (false, out)
    else
      (true,
       mkVOut ((ndc_x * f_0_5 + f_0_5) * float_of_int (fb_w st))%f32
              ((f_1 - (ndc_y * f_0_5 + f_0_5)) * float_of_int (fb_h st))%f32
              (ndc_z * f_0_5 + f_0_5)%f32
              invw (vt_color vin) (vt_uv vin)).

(** [attr_A * invw_A * lA + attr_B * invw_B * lB + attr_C * invw_C * lC]. *)
Definition persp3 (xa xb xc : float) (A0 B0 C0 : VOut) (lA lB lC : float)
    : float :=
  (xa * vo_invw A0 * lA + xb * vo_invw B0 * lB + xc * vo_invw C0 * lC)%f32.

(** The body of the inner loop of [draw_tri_3d] for one covered pixel. *)
Definition shade_3d (A0 B0 C0 : VOut) (t : option Image) (depth_test : bool)
    (x y : Z) (lA lB lC : float) (st : State) : State :=
  let iw := (vo_invw A0 * lA + vo_invw B0 * lB + vo_invw C0 * lC)%f32 in
  if (iw <=? f_1em12)%f32 then st
  else
    let w := (f_1 / iw)%f32 in
    let z := (persp3 (vo_z A0) (vo_z B0) (vo_z C0) A0 B0 C0 lA lB lC * w)%f32 in
    let '(pass, st) :=
      if depth_test && depth_on st then depth_test_write x y z st
      else (true, st) in
    if negb pass then st
    else
      let cx := (persp3 (v3_x (vo_col A0)) (v3_x (vo_col B0))
                   (v3_x (vo_col C0)) A0 B0 C0 lA lB lC * w)%f32 in
      let cy := (persp3 (v3_y (vo_col A0)) (v3_y (vo_col B0))
                   (v3_y (vo_col C0)) A0 B0 C0 lA lB lC * w)%f32 in
      let cz := (persp3 (v3_z (vo_col A0)) (v3_z (vo_col B0))
                   (v3_z (vo_col C0)) A0 B0 C0 lA lB lC * w)%f32 in
      let ux := (persp3 (v2_x (vo_uv A0)) (v2_x (vo_uv B0))
                   (v2_x (vo_uv C0)) A0 B0 C0 lA lB lC * w)%f32 in
      let uy := (persp3 (v2_y (vo_uv A0)) (v2_y (vo_uv B0))
                   (v2_y (vo_uv C0)) A0 B0 C0 lA lB lC * w)%f32 in
      let out :=
        match t with
        | Some im =>
            if Image_valid im then
              sample_tex_nearest im ux uy
                (mkColor (to_u8 cx) (to_u8 cy) (to_u8 cz) 255)
            else mkColor (to_u8 cx) (to_u8 cy) (to_u8 cz) 255
        | None => mkColor (to_u8 cx) (to_u8 cy) (to_u8 cz) 255
        end in
      write_pixel x y out st.

Definition draw_tri_3d (a b c : VOut) (t : option Image) (depth_test : bool)
    (st : State) : State :=
  let AA := mkVec2 (vo_x a) (vo_y a) in
  let BB := mkVec2 (vo_x b) (vo_y b) in
  let CC := mkVec2 (vo_x c) (vo_y c) in
  let '(minx, miny, maxx, maxy) := tri_bounds st AA BB CC in
  let area := edge_fn AA BB CC in
  if (fabs area <? f_1em8)%f32 then st
  else
    let swap := (area <? f_0)%f32 in
    let A0 := a in
    let B0 := if swap then c else b in
    let C0 := if swap then b else c in
    let BB' := if swap then CC else BB in
    let CC' := if swap then BB else CC in
    let area := if swap then (- area)%f32 else area in
    let invA := (f_1 / area)%f32 in
    let st :=
      for_range miny (maxy + 1) (fun y st =>
        for_range minx (maxx + 1) (fun x st =>
          let p := pixel_center x y in
          let wA := edge_fn BB' CC' p in
          let wB := edge_fn CC' AA p in
          let wC := edge_fn AA BB' p in
          if inside wA wB wC then
            shade_3d A0 B0 C0 t depth_test x y
              (wA * invA)%f32 (wB * invA)%f32 (wC * invA)%f32 st
          else st) st) st in
    dirty_add_rect minx miny (maxx - minx + 1)%int (maxy - miny + 1)%int st.

(** The first loop of [draw_mesh]: the vectors [proj] and [ok]. *)
Definition project_all (st : State) (vs : list Vertex3D) (vcount : Z)
    (mvp : Mat4) : list VOut * list bool :=
  let dv : Vertex3D :=
    mkVertex3D (mkVec3 f_0 f_0 f_0) (mkVec3 f_0 f_0 f_0) (mkVec2 f_0 f_0) in
  let n := Z.to_nat (cast_size_t vcount) in
  for_range 0 vcount (fun i '(proj, ok) =>
    let si := cast_size_t i in
    let '(res, out) :=
      project_vertex st (vget dv vs i) mvp (vget VOut_default proj si) in
    (vset proj si out, vset ok si res))
    (replicate n VOut_default, replicate n false).

(** The body of the second loop: the triangle whose indices start at [i].
    A read of [ok] outside the vector yields [true]: nothing but the index
    test of the source keeps a triangle with such an index from being
    drawn. *)
Definition mesh_triangle (ix : list Z) (proj : list VOut) (ok : list bool)
    (vcount : Z) (texture : option Image) (enable_depth_test : bool)
    (i : Z) (st : State) : State :=
  let ia := vget 0 ix (i + 0)%int in
  let ib := vget 0 ix (i + 1)%int in
  let ic := vget 0 ix (i + 2)%int in
  if (ia >=? cast_u32 vcount) || (ib >=? cast_u32 vcount)
     || (ic >=? cast_u32 vcount) then st
  else if negb (vget true ok ia) || negb (vget true ok ib)
          || negb (vget true ok ic) then st
  else
    draw_tri_3d (vget VOut_default proj ia) (vget VOut_default proj ib)
      (vget VOut_default proj ic) texture enable_depth_test st.

(** [verts] and [indices] are pointers: [None] is the null pointer.  The
    index array holds [uint32_t] values. *)
Definition draw_mesh (verts : option (list Vertex3D)) (vcount : Z)
    (indices : option (list Z)) (icount : Z) (mvp : Mat4)
    (texture : option Image) (enable_depth_test : bool) (st : State)
    : State :=
  match verts, indices with
  | Some vs, Some ix =>
      if (vcount <=? 0) || (icount <=? 0) then st
      else if negb (irem icount 3 =? 0) then st
      else
        let '(proj, ok) := project_all st vs vcount mvp in
        for_range_step 0 icount 3
          (mesh_triangle ix proj ok vcount texture enable_depth_test) st
  | _, _ => st
  end.

(** ** The index handling of [draw_mesh], in the words of the specification

    "Per triangle (from an index list, always interpreted in groups of
    three): skip if any of its three vertices failed projection or any
    index is out of range."  [draw_mesh_spec] is written after these
    words, not after the source: it takes the index list three indices at
    a time and rasterizes, with [draw_tri_3d], every triple that it does
    not skip.  The theorems compare it with [draw_mesh]. *)
Fixpoint index_triples (ix : list Z) : list (Z * Z * Z) :=
  match ix with
  | ia :: ib :: ic :: rest => (ia, ib, ic) :: index_triples rest
  | _ => []
  end.

(** The projection of the vertex with index [i]. *)
Definition project_index (st : State) (vs : list Vertex3D) (mvp : Mat4)
    (i : Z) : bool * VOut :=
  project_vertex st
    (vget (mkVertex3D (mkVec3 f_0 f_0 f_0) (mkVec3 f_0 f_0 f_0)
             (mkVec2 f_0 f_0)) vs i)
    mvp VOut_default.

(** One triple, drawn on [s]; the vertices are projected for the surface
    [st0] of the call. *)
Definition triangle_by_spec (st0 : State) (vs : list Vertex3D) (vcount : Z)
    (mvp : Mat4) (texture : option Image) (enable_depth_test : bool)
    (t : Z * Z * Z) (s : State) : State :=
  let '(ia, ib, ic) := t in
  if (vcount <=? ia) || (vcount <=? ib) || (vcount <=? ic) then s
  else
    let a := project_index st0 vs mvp ia in
    let b := project_index st0 vs mvp ib in
    let c := project_index st0 vs mvp ic in
    if negb (fst a) || negb (fst b) || negb (fst c) then s
    else draw_tri_3d (snd a) (snd b) (snd c) texture enable_depth_test s.

Definition draw_mesh_spec (vs : list Vertex3D) (vcount : Z)
    (ix : list Z) (mvp : Mat4) (texture : option Image)
    (enable_depth_test : bool) (st : State) : State :=
  foldl (fun s t =>
           triangle_by_spec st vs vcount mvp texture enable_depth_test t s)
    st (index_triples ix).

(* ===================================================================== *)
(** * Bloom *)
(* ===================================================================== *)

(** [kernel] is the vector passed by reference; the result is the vector
    after the call and the [radius] out parameter. *)
Definition build_gaussian_kernel `{LibM} (sigma : float) (kernel : list float)
    : list float * Z :=
  let sigma := fmax f_0_1 sigma in
  let radius := int_of_float (fceil (f_3 * sigma)%f32) in
  let radius := clampi radius 1 32 in
  let kernel :=
    resize (Z.to_nat (cast_size_t (radius * 2 + 1)%int)) f_0 kernel in
  let inv2s2 := (f_1 / (f_2 * sigma * sigma))%f32 in
  let '(kernel, sum) :=
    for_range (- radius) (radius + 1) (fun i '(kernel, sum) =>
      let w := expf (- float_of_int (i * i)%int * inv2s2)%f32 in
      (vset kernel (cast_size_t (i + radius)%int) w, (sum + w)%f32))
      (kernel, f_0) in
  (map (fun w => (w / sum)%f32) kernel, radius).

(** [(size_t)w * h * k]. *)
Definition size3 (w h k : Z) : Z :=
  smul (smul (cast_size_t w) (cast_size_t h)) k.

Definition bloom_ensure_buffers (w h : Z) (st : State) : State :=
  let bl := bloom st in
  if (bb_w bl =? w) && (bb_h bl =? h)
     && negb (bool_decide (bb_a bl = [])) && negb (bool_decide (bb_b bl = []))
  then st
  else
    set_bloom
      (mkBloomBuffers w h
         (replicate (Z.to_nat (size3 w h 3)) f_0)
         (replicate (Z.to_nat (size3 w h 3)) f_0)
         (bb_tmp bl) (bb_kernel bl) (bb_radius bl)) st.

Definition set_bb_a (v : list float) (bl : BloomBuffers) : BloomBuffers :=
  mkBloomBuffers (bb_w bl) (bb_h bl) v (bb_b bl) (bb_tmp bl) (bb_kernel bl)
    (bb_radius bl).
Definition set_bb_b (v : list float) (bl : BloomBuffers) : BloomBuffers :=
  mkBloomBuffers (bb_w bl) (bb_h bl) (bb_a bl) v (bb_tmp bl) (bb_kernel bl)
    (bb_radius bl).
Definition set_bb_kernel (k : list float) (r : Z) (bl : BloomBuffers)
    : BloomBuffers :=
  mkBloomBuffers (bb_w bl) (bb_h bl) (bb_a bl) (bb_b bl) (bb_tmp bl) k r.

(** Storing three consecutive floats at offset [i]. *)
Definition store3 (v : list float) (i : Z) (x y z : float) : list float :=
  vset (vset (vset v (sadd i 0) x) (sadd i 1) y) (sadd i 2) z.

(** The luminance of a pixel and its bright-pass factor. *)
Definition luminance (fr fg fb : float) : float :=
  (f_0_2126 * fr + f_0_7152 * fg + f_0_0722 * fb)%f32.

(** The accumulation of one source pixel into [(r, gc, b, count)]. *)
Definition brightpass_pixel (st : State) (thr : float) (x y : Z)
    (acc : float * float * float * Z) : float * float * float * Z :=
  let '(r, gc, b, count) := acc in
  let i := idx_rgba (fb_w st) x y in
  let fr := (float_of_int (byte_at (color st) (sadd i 0)) / f_255)%f32 in
  let fg := (float_of_int (byte_at (color st) (sadd i 1)) / f_255)%f32 in
  let fb := (float_of_int (byte_at (color st) (sadd i 2)) / f_255)%f32 in
  let lum := luminance fr fg fb in
  let k := (lum - thr)%f32 in
  let '(r, gc, b) :=
    if (k >? f_0)%f32 then
      let k := (k / fmax f_1em6 (f_1 - thr))%f32 in
      ((r + fr * k)%f32, (gc + fg * k)%f32, (b + fb * k)%f32)
    else (r, gc, b) in
  (r, gc, b, (count + 1)%int).

(** The two inner loops over the [ds * ds] block at [(x0, y0)]. *)
Definition brightpass_block (st : State) (thr : float) (ds x0 y0 : Z)
    : float * float * float * Z :=
  for_range_break 0 ds (fun oy acc =>
    let y := (y0 + oy)%int in
    if y >=? fb_h st then None
    else
      Some (for_range_break 0 ds (fun ox acc =>
              let x := (x0 + ox)%int in
              if x >=? fb_w st then None
              else Some (brightpass_pixel st thr x y acc)) acc))
    (f_0, f_0, f_0, 0).

(** The body of the two outer loops: the block of bloom texel
    [(b_x, b_y)] is summed, averaged and stored in buffer [a]. *)
Definition brightpass_cell (thr : float) (ds bw b_x b_y : Z) (st : State)
    : State :=
  let x0 := (b_x * ds)%int in
  let y0 := (b_y * ds)%int in
  let '(r, gc, b, count) := brightpass_block st thr ds x0 y0 in
  let '(r, gc, b) :=
    if count >? 0 then
      ((r / float_of_int count)%f32, (gc / float_of_int count)%f32,
       (b / float_of_int count)%f32)
    else (r, gc, b) in
  let bi := cast_size_t ((b_y * bw + b_x) * 3)%int in
  set_bloom (set_bb_a (store3 (bb_a (bloom st)) bi r gc b) (bloom st)) st.

Definition bloom_brightpass_downsample (bs : BloomSettings) (st : State)
    : State :=
  let ds := Z.max 2 (downsample bs) in
  let bw := ((fb_w st + ds - 1) / ds)%int in
  let bh := ((fb_h st + ds - 1) / ds)%int in
  let st := bloom_ensure_buffers bw bh st in
  let thr := clampf (threshold bs) f_0 f_1 in
  for_range 0 bh (fun b_y st =>
    for_range 0 bw (fun b_x st => brightpass_cell thr ds bw b_x b_y st) st) st.

(** One output texel of a blur pass: the weighted sum over [k = -R .. R] of
    the texels of [src] at offset [off k]. *)
Definition blur_tap (src K : list float) (R : Z) (off : Z -> Z)
    : float * float * float :=
  for_range (- R) (R + 1) (fun k '(rr, gg, bb) =>
    let si := off k in
    let w := float_at K (cast_size_t (k + R)%int) in
    ((rr + float_at src (sadd si 0) * w)%f32,
     (gg + float_at src (sadd si 1) * w)%f32,
     (bb + float_at src (sadd si 2) * w)%f32)) (f_0, f_0, f_0).

(** The bodies of the horizontal pass (a -> b) and of the vertical pass
    (b -> a) for the texel [(x, y)]. *)
Definition blur_h_cell (K : list float) (R bw x y : Z) (st : State) : State :=
  let '(rr, gg, bb) :=
    blur_tap (bb_a (bloom st)) K R (fun k =>
      let sx := clampi (x + k)%int 0 (bw - 1)%int in
      cast_size_t ((y * bw + sx) * 3)%int) in
  let di := cast_size_t ((y * bw + x) * 3)%int in
  set_bloom (set_bb_b (store3 (bb_b (bloom st)) di rr gg bb) (bloom st)) st.

Definition blur_v_cell (K : list float) (R bw bh x y : Z) (st : State)
    : State :=
  let '(rr, gg, bb) :=
    blur_tap (bb_b (bloom st)) K R (fun k =>
      let sy := clampi (y + k)%int 0 (bh - 1)%int in
      cast_size_t ((sy * bw + x) * 3)%int) in
  let di := cast_size_t ((y * bw + x) * 3)%int in
  set_bloom (set_bb_a (store3 (bb_a (bloom st)) di rr gg bb) (bloom st)) st.

Definition bloom_blur_separable `{LibM} (bs : BloomSettings) (st : State)
    : State :=
  let bw := bb_w (bloom st) in
  let bh := bb_h (bloom st) in
  if (bw <=? 0) || (bh <=? 0) then st
  else
    let '(K, R) := build_gaussian_kernel (sigma bs) (bb_kernel (bloom st)) in
    let st := set_bloom (set_bb_kernel K R (bloom st)) st in
    (* Horizontal: a -> b *)
    let st :=
      for_range 0 bh (fun y st =>
        for_range 0 bw (fun x st => blur_h_cell K R bw x y st) st) st in
    (* Vertical: b -> a *)
    for_range 0 bh (fun y st =>
      for_range 0 bw (fun x st => blur_v_cell K R bw bh x y st) st) st.

(** [a * (1 - t) + b * t]; the literal [1] is converted to [float]. *)
Definition lerp (a b t : float) : float := (a * (f_1 - t) + b * t)%f32.

(** The three results are the [r], [gch], [b] reference parameters. *)
Definition bloom_sample_bilinear (st : State) (u v : float)
    : float * float * float :=
  let bw := bb_w (bloom st) in
  let bh := bb_h (bloom st) in
  if (bw <=? 0) || (bh <=? 0) then (f_0, f_0, f_0)
  else
    let u := clampf u f_0 (float_of_int (bw - 1)%int) in
    let v := clampf v f_0 (float_of_int (bh - 1)%int) in
    let x0 := int_of_float (ffloor u) in
    let y0 := int_of_float (ffloor v) in
    let x1 := clampi (x0 + 1)%int 0 (bw - 1)%int in
    let y1 := clampi (y0 + 1)%int 0 (bh - 1)%int in
    let tx := (u - float_of_int x0)%f32 in
    let ty := (v - float_of_int y0)%f32 in
    let fetch (x y : Z) (k : Z) : float :=
      float_at (bb_a (bloom st)) (sadd (cast_size_t ((y * bw + x) * 3)%int) k) in
    let chan (k : Z) : float :=
      let c0 := lerp (fetch x0 y0 k) (fetch x1 y0 k) tx in
      let c1 := lerp (fetch x0 y1 k) (fetch x1 y1 k) tx in
      lerp c0 c1 ty in
    (chan 0, chan 1, chan 2).

(* ===================================================================== *)
(** * Post-processing *)
(* ===================================================================== *)

(** The pointer returned by [build_postprocess_output]: [g.color.data()] or
    [g.post_out.data()]. *)
Inductive BufferRef := BufColor | BufPostOut.
Definition buffer_of (st : State) (p : BufferRef) : list Z :=
  match p with BufColor => color st | BufPostOut => post_out st end.

Definition set_dirty_empty (e : bool) (st : State) : State :=
  let d := dirty st in
  set_dirty (mkDirtyRect (dirty_on d) e (dirty_minx d) (dirty_miny d)
               (dirty_maxx d) (dirty_maxy d)) st.

(** The tone curve of one channel: exposure, then gamma. *)
Definition tone_chan `{LibM} (exposure invGamma c : float) : float :=
  let c := (f_1 - expf (- c * exposure))%f32 in
  powf (clampf c f_0 f_1) invGamma.

(** The body of the per-pixel loop of [build_postprocess_output]. *)
Definition postprocess_pixel `{LibM} (bloom_on tone_on : bool)
    (exposure invGamma : float) (ds : Z) (bloom_intensity : float)
    (x y : Z) (st : State) : State :=
  let i := idx_rgba (fb_w st) x y in
  let r := (float_of_int (byte_at (color st) (sadd i 0)) / f_255)%f32 in
  let gch := (float_of_int (byte_at (color st) (sadd i 1)) / f_255)%f32 in
  let b := (float_of_int (byte_at (color st) (sadd i 2)) / f_255)%f32 in
  let '(r, gch, b) :=
    if bloom_on then
      let bu := ((float_of_int x + f_0_5) / float_of_int ds - f_0_5)%f32 in
      let bv := ((float_of_int y + f_0_5) / float_of_int ds - f_0_5)%f32 in
      let '(br, bg, bb) := bloom_sample_bilinear st bu bv in
      ((r + br * bloom_intensity)%f32, (gch + bg * bloom_intensity)%f32,
       (b + bb * bloom_intensity)%f32)
    else (r, gch, b) in
  let '(r, gch, b) :=
    if tone_on then
      (tone_chan exposure invGamma r, tone_chan exposure invGamma gch,
       tone_chan exposure invGamma b)
    else (r, gch, b) in
  set_post_out
    (store_color (post_out st) i (mkColor (to_u8 r) (to_u8 gch) (to_u8 b) 255))
    st.

Definition build_postprocess_output `{LibM} (apply_post : bool) (st : State)
    : BufferRef * State :=
  if negb apply_post then (BufColor, st)
  else
    let bloom_on := bloom_enabled (pp_bloom (post st)) in
    let tone_on := tone_enabled (pp_tone (post st)) in
    if negb bloom_on && negb tone_on then (BufColor, st)
    else
      let st :=
        set_post_out
          (resize (Z.to_nat (size3 (fb_w st) (fb_h st) 4)) 0 (post_out st))
          st in
      let st :=
        if bloom_on then
          bloom_blur_separable (pp_bloom (post st))
            (bloom_brightpass_downsample (pp_bloom (post st)) st)
        else st in
      let exposure := fmax f_1em4 (exposure (pp_tone (post st))) in
      let gamma := fmax f_0_1 (gamma (pp_tone (post st))) in
      let invGamma := (f_1 / gamma)%f32 in
      let ds := Z.max 2 (downsample (pp_bloom (post st))) in
      let bloom_intensity := intensity (pp_bloom (post st)) in
      let st :=
        for_range 0 (fb_h st) (fun y st =>
          for_range 0 (fb_w st) (fun x st =>
            postprocess_pixel bloom_on tone_on exposure invGamma ds
              bloom_intensity x y st) st) st in
      (BufPostOut, set_dirty_empty true st).

(* ===================================================================== *)
(** * Framebuffer and state API *)
(* ===================================================================== *)

(** What the OpenGL driver answers to the calls of [create_presenter]. *)
Class GLDriver := {
  gl_max_texture_size : Z;
  gl_new_vao : Z;
  gl_new_vbo : Z;
  gl_new_tex : Z;
  gl_new_program : Z;
  gl_compile_ok : bool;
  gl_link_ok : bool
}.

Definition create_presenter `{GLDriver} (st : State) : bool * State :=
  let p := gl st in
  let mx := gl_max_texture_size in
  if (fb_w st >? mx) || (fb_h st >? mx) then
    (true,
     set_gl (mkPresenter (gl_ready p) false mx (tex p) (vao p) (vbo p)
               (program p) (present_linear p)) st)
  else if negb gl_compile_ok then
    (false,
     set_gl (mkPresenter (gl_ready p) (can_present p) mx gl_new_tex gl_new_vao
               gl_new_vbo (program p) (present_linear p)) st)
  else if negb gl_link_ok then
    (false,
     set_gl (mkPresenter (gl_ready p) (can_present p) mx gl_new_tex gl_new_vao
               gl_new_vbo gl_new_program (present_linear p)) st)
  else
    (true,
     set_gl (mkPresenter (gl_ready p) true mx gl_new_tex gl_new_vao gl_new_vbo
               gl_new_program (present_linear p)) st).

Definition resize_framebuffer `{GLDriver} (new_w new_h : Z) (st : State)
    : State :=
  let new_w := Z.max 1 new_w in
  let new_h := Z.max 1 new_h in
  let st := set_fb_h new_h (set_fb_w new_w st) in
  let st := set_color (replicate (Z.to_nat (size3 new_w new_h 4)) 0) st in
  let st :=
    for_range 0 new_h (fun y st =>
      for_range 0 new_w (fun x st =>
        set_color (vset (color st) (sadd (idx_rgba new_w x y) 3) 255) st) st)
      st in
  let st :=
    if depth_on st then
      set_depth
        (replicate (Z.to_nat (smul (cast_size_t new_w) (cast_size_t new_h)))
           f_1) st
    else st in
  let st := set_post_out [] st in
  let st := set_bloom BloomBuffers_reset st in
  let st := set_dirty_empty true st in
  if gl_ready (gl st) then
    let p := gl st in
    let st :=
      set_gl (mkPresenter (gl_ready p) false (max_tex_size p)
                (if tex p =? 0 then tex p else 0) (vao p) (vbo p) (program p)
                (present_linear p)) st in
    snd (create_presenter st)
  else st.

Definition enable_depth (enabled : bool) (st : State) : State :=
  let st := set_depth_on enabled st in
  if enabled then
    set_depth
      (replicate (Z.to_nat (smul (cast_size_t (fb_w st)) (cast_size_t (fb_h st))))
         f_1) st
  else set_depth [] st.

Definition set_blend_mode (m : BlendMode) (st : State) : State :=
  set_blend m st.

Definition set_clip_rect (x y w h : Z) (st : State) : State :=
  let cx := clampi x 0 (fb_w st) in
  let cy := clampi y 0 (fb_h st) in
  set_clip (mkClipRect true cx cy (clampi w 0 (fb_w st - cx)%int)
              (clampi h 0 (fb_h st - cy)%int)) st.

Definition disable_clip_rect (st : State) : State :=
  let c := clip st in
  set_clip (mkClipRect false (clip_x c) (clip_y c) (clip_w c) (clip_h c)) st.

Definition clear_color (c : Color) (st : State) : State :=
  let st :=
    for_range 0 (fb_h st) (fun y st =>
      for_range 0 (fb_w st) (fun x st =>
        set_color (store_color (color st) (idx_rgba (fb_w st) x y) c) st) st)
      st in
  set_dirty (mkDirtyRect (dirty_on (dirty st)) false 0 0 (fb_w st - 1)%int
               (fb_h st - 1)%int) st.

Definition set_postprocess (s : PostProcessSettings) (st : State) : State :=
  set_post s st.

(** The public triangle entry points. *)
Definition draw_triangle_filled (a b c : Vec2) (col : Color) (st : State)
    : State := draw_tri_flat a b c col st.
Definition draw_triangle_filled_grad (a : Vec2) (ca : Color) (b : Vec2)
    (cb : Color) (c : Vec2) (cc : Color) (st : State) : State :=
  draw_tri_grad a ca b cb c cc st.
Definition draw_triangle_textured (a ua b ub c uc : Vec2) (t : Image)
    (tint : Color) (st : State) : State :=
  draw_tri_tex a ua b ub c uc t tint st.

(* ===================================================================== *)
(** * Initial state and invariants *)
(* ===================================================================== *)

(** The member initializers of [BloomSettings], [ToneSettings] and of
    [static State g]. *)
Definition PostProcessSettings_default : PostProcessSettings :=
  mkPostProcessSettings (mkBloomSettings true f_0_75 f_1_25 4 f_6)
                        (mkToneSettings true f_1_25 f_2_2).

Definition State_initial : State :=
  Build_State (mkPresenter false false 0 0 0 0 0 false)
    0 0 [] false []
    (mkClipRect false 0 0 0 0)
    Overwrite
    (mkDirtyRect true true 0 0 0 0)
    PostProcessSettings_default [] BloomBuffers_reset.

(** A driver for a headless run: no call reaches it. *)
Definition headless_driver : GLDriver :=
  Build_GLDriver 0 0 0 0 0 false false.

(** The invariant of the color buffer stated in the data model: [W * H * 4]
    bytes, with the byte count inside the range of [int] (the index
    arithmetic of [idx_rgba] is done in [int]). *)
Definition surface_ok (st : State) : Prop :=
  0 <= fb_w st /\ 0 <= fb_h st /\
  fb_w st * fb_h st * 4 <= INT_MAX /\
  Z.of_nat (length (color st)) = fb_w st * fb_h st * 4.

(** Every stored byte is a [uint8_t]. *)
Definition bytes_ok (v : list Z) : Prop := Forall u8_ok v.

(** The depth buffer holds [W * H] floats while depth testing is on. *)
Definition depth_ok (st : State) : Prop :=
  0 <= fb_w st /\ 0 <= fb_h st /\
  fb_w st * fb_h st <= INT_MAX /\
  Z.of_nat (length (depth st)) = fb_w st * fb_h st.

(** The depth stored for pixel [(x, y)], row-major. *)
Definition depth_at (st : State) (x y : Z) : float :=
  float_at (depth st) (y * fb_w st + x).

(** The clip test of the specification: no clip rectangle, or the pixel
    lies in [[cx, cx + cw) x [cy, cy + ch)]. *)
Definition clipped_out (st : State) (x y : Z) : bool := negb (in_clip st x y).

(* ===================================================================== *)
(** * Sample states *)
(* ===================================================================== *)

(** A headless 2 x 2 surface, as [resize_framebuffer(2, 2)] leaves it, and
    the same surface with a depth buffer. *)
Definition surface_2x2 : State :=
  resize_framebuffer (H := headless_driver) 2 2 State_initial.
Definition surface_2x2_depth : State := enable_depth true surface_2x2.

(** [mat4_identity()]. *)
Definition mat4_identity : Mat4 :=
  mkMat4 [f_1; f_0; f_0; f_0;  f_0; f_1; f_0; f_0;
          f_0; f_0; f_1; f_0;  f_0; f_0; f_0; f_1].

(** Three white vertices of a triangle in the [z = 0] plane. *)
Definition sample_vertices : list Vertex3D :=
  let white := mkVec3 f_1 f_1 f_1 in
  [mkVertex3D (mkVec3 (- f_0_5)%f32 (- f_0_5)%f32 f_0) white (mkVec2 f_0 f_0);
   mkVertex3D (mkVec3 f_0_5 (- f_0_5)%f32 f_0) white (mkVec2 f_1 f_0);
   mkVertex3D (mkVec3 f_0 f_0_5 f_0) white (mkVec2 f_0 f_1)].

(** A stand-in for the C math library in closed examples: constant [exp],
    identity [pow].  No theorem depends on these values. *)
Definition libm_sample : LibM := Build_LibM (fun _ => f_1) (fun x _ => x).

(** The state of the color buffer while [resize_framebuffer] fills in the
    alpha bytes: [n] bytes, the alpha byte of the first [p] pixels is 255,
    every other byte is 0. *)
Definition alpha_done (n p : Z) (v : list Z) : Prop :=
  Z.of_nat (length v) = n /\
  forall j, 0 <= j < n ->
    vget 0 v j = if (j mod 4 =? 3) && (j / 4 <? p) then 255 else 0.

(* ===================================================================== *)
(** * Predicates on floats used by the proofs *)
(* ===================================================================== *)

(** The shape of a rounded result of sign [sx] whose exponent before a
    possible carry is [e1]: never a NaN, the sign is kept, the mantissa has
    at most 24 bits, and the exponent is [e1], or [e1 + 1] with mantissa
    [2^23] after a carry. *)
Definition rounded_shape (sx : bool) (e1 : Z) (r : float) : Prop :=
  match r with
  | S754_zero s => s = sx
  | S754_infinity s => s = sx /\ 104 <= e1
  | S754_nan => False
  | S754_finite s m e =>
      s = sx /\ e <= 104 /\
      ((e = e1 /\ Zpos m < 16777216) \/ (e = e1 + 1 /\ Zpos m = 8388608))
  end.

(** A zero of either sign. *)
Definition zero_f (x : float) : Prop := is_zero x = true.

(** No greater than one: a zero, a negative finite number, or [m * 2^e]
    with [m <= 2^(-e)]. *)
Definition le_one (x : float) : Prop :=
  match x with
  | S754_zero _ => True
  | S754_finite true _ _ => True
  | S754_finite false m e => e <= 0 /\ Zpos m <= 2 ^ (- e)
  | _ => False
  end.

(** Finite with magnitude below [2^k]. *)
Definition mag_le (k : Z) (x : float) : Prop :=
  match x with
  | S754_zero _ => True
  | S754_finite _ m e => Zpos (digits2_pos m) + e <= k
  | _ => False
  end.

(** A finite number carries a mantissa of at most 24 bits. *)
Definition mant24 (x : float) : Prop :=
  match x with
  | S754_finite _ m _ => Zpos m < 16777216
  | _ => True
  end.

(** The value of a non-negative float as an integer multiple of [2^(-k)],
    when it is one. *)
Definition scaled (k : Z) (x : float) : option Z :=
  match x with
  | S754_zero _ => Some 0
  | S754_finite false m e =>
      if 0 <=? e + k then Some (Zpos m * 2 ^ (e + k)) else None
  | _ => None
  end.

(** Structural equality of floats. *)
Definition float_beq (x y : float) : bool :=
  match x, y with
  | S754_zero s, S754_zero s' => Bool.eqb s s'
  | S754_infinity s, S754_infinity s' => Bool.eqb s s'
  | S754_nan, S754_nan => true
  | S754_finite s m e, S754_finite s' m' e' =>
      Bool.eqb s s' && Pos.eqb m m' && Z.eqb e e'
  | _, _ => false
  end.

(** The channel value [c / 255.0f] of a byte, and the 256 bytes. *)
Definition byte_float (c : Z) : float := (float_of_int c / f_255)%f32.
Definition all_bytes : list Z := map Z.of_nat (seq 0 256).

(** The three terms of the luminance of a pixel, for every byte. *)
Definition lum_terms (k : float) : list float :=
  map (fun c => (k * byte_float c)%f32) all_bytes.

(** The largest partial sum [0.2126f * 1 + 0.7152f * 1] and the scaled
    value of the largest third term [0.0722f * 1]. *)
Definition lum_rg_max : float :=
  Eval vm_compute in (f_0_2126 * byte_float 255 + f_0_7152 * byte_float 255)%f32.
Definition lum_b_max : Z :=
  Eval vm_compute in default 0 (scaled 60 (f_0_0722 * byte_float 255)%f32).

(** The checks run over all bytes: a partial sum is the largest one or
    leaves room for the largest third term below one; a third term is at
    most the largest one; the largest partial sum plus a third term does
    not pass the bright-pass test against the threshold one. *)
Definition lum_check_rg (x y : float) : bool :=
  float_beq (x + y)%f32 lum_rg_max ||
  match scaled 60 (x + y)%f32 with
  | Some v => v + lum_b_max <? 2 ^ 60
  | None => false
  end.
Definition lum_check_b (z : float) : bool :=
  match scaled 60 z with Some v => v <=? lum_b_max | None => false end.
Definition lum_check_top (z : float) : bool :=
  negb ((lum_rg_max + z - f_1) >? f_0)%f32.

(** A byte survives the conversion to a channel value and back, and its
    channel value is [+0] or a finite number. *)
Definition byte_roundtrip (c : Z) : bool :=
  (to_u8 (byte_float c) =? c) &&
  match byte_float c with
  | S754_zero false | S754_finite _ _ _ => true
  | _ => false
  end.

(* ===================================================================== *)
(** * Invariants of the bloom buffers *)
(* ===================================================================== *)

(** A float buffer of [n] cells whose first [p] cells are [+0]. *)
Definition zeros_upto (n p : Z) (v : list float) : Prop :=
  Z.of_nat (length v) = n /\ forall j, 0 <= j < p -> float_at v j = f_0.

(** The same with a property [P] of the first [p] cells. *)
Definition cells_upto (P : float -> Prop) (n p : Z) (v : list float) : Prop :=
  Z.of_nat (length v) = n /\ forall j, 0 <= j < p -> P (float_at v j).

(** The two bloom buffers hold [w * h * 3] floats, as
    [bloom_ensure_buffers] and [BloomBuffers::reset] leave them. *)
Definition bloom_ok (bl : BloomBuffers) : Prop :=
  Z.of_nat (length (bb_a bl)) = size3 (bb_w bl) (bb_h bl) 3 /\
  Z.of_nat (length (bb_b bl)) = size3 (bb_w bl) (bb_h bl) 3.

(** The size of the bloom buffers for a surface of [n] pixels in one
    direction: [(n + ds - 1) / ds] with [ds = max(2, downsample)]. *)
Definition bloom_dim (n : Z) (bs : BloomSettings) : Z :=
  let ds := Z.max 2 (downsample bs) in ((n + ds - 1) / ds)%int.

(** The pixel at [(x, y)] of an RGBA buffer of width [w]. *)
Definition buffer_pixel (w : Z) (v : list Z) (x y : Z) : Color :=
  load_color v (idx_rgba w x y).

(** A 2 x 2 surface with one transparent pixel and one white pixel, bloom
    at threshold one and tone mapping off. *)
Definition bloom_only_settings : PostProcessSettings :=
  mkPostProcessSettings (mkBloomSettings true f_1 f_1_25 4 f_6)
                        (mkToneSettings false f_1_25 f_2_2).
Definition surface_bloom_sample : State :=
  set_postprocess bloom_only_settings
    (set_pixel 1 1 (mkColor 255 255 255 255)
       (set_pixel 0 0 (mkColor 0 0 0 0) surface_2x2)).


(* ===================================================================== *)
(** * More of the public API: depth clear, rectangles, images *)
(* ===================================================================== *)

(** [std::fill(g.depth.begin(), g.depth.end(), z)]. *)
Definition clear_depth (z : float) (st : State) : State :=
  if negb (depth_on st) then st
  else set_depth (map (fun _ => z) (depth st)) st.

Definition draw_rect (x y w h : Z) (c : Color) (filled : bool)
    (thickness : Z) (st : State) : State :=
  if (w <=? 0) || (h <=? 0) then st
  else
    let st :=
      if filled then
        for_range y (y + h)%int (fun yy st =>
          for_range x (x + w)%int (fun xx st => write_pixel xx yy c st) st) st
      else
        let thickness := if thickness <? 1 then 1 else thickness in
        for_range_break 0 thickness (fun t st =>
          let xx0 := (x + t)%int in
          let yy0 := (y + t)%int in
          let ww := (w - 2 * t)%int in
          let hh := (h - 2 * t)%int in
          if (ww <=? 0) || (hh <=? 0) then None
          else
            let st :=
              for_range xx0 (xx0 + ww)%int (fun xx st =>
                write_pixel xx (yy0 + hh - 1)%int c (write_pixel xx yy0 c st))
                st in
            Some
              (for_range yy0 (yy0 + hh)%int (fun yy st =>
                 write_pixel (xx0 + ww - 1)%int yy c (write_pixel xx0 yy c st))
                 st)) st in
    dirty_add_rect x y w h st.

(** The brush of [draw_line_bres]: the square of side [2 * rad + 1]
    around [(x0, y0)]. *)
Definition line_stamp (x0 y0 rad : Z) (c : Color) (st : State) : State :=
  for_range (cast_int (- rad)) (rad + 1) (fun oy st =>
    for_range (cast_int (- rad)) (rad + 1) (fun ox st =>
      write_pixel (x0 + ox)%int (y0 + oy)%int c st) st) st.

(** The [for (;;)] loop of [draw_line_bres].  The loop has no bound in
    the source; [fuel] bounds the number of iterations, and [None] is a
    run that has not reached its [break] within [fuel] iterations. *)
Fixpoint bres_loop (fuel : nat) (x0 y0 x1 y1 dx dy sx sy err rad : Z)
    (c : Color) (st : State) : option State :=
  match fuel with
  | O => None
  | Datatypes.S fuel =>
      let st := line_stamp x0 y0 rad c st in
      if (x0 =? x1) && (y0 =? y1) then Some st
      else
        let e2 := (2 * err)%int in
        let '(err, x0) :=
          if e2 >=? dy then ((err + dy)%int, (x0 + sx)%int) else (err, x0) in
        let '(err, y0) :=
          if e2 <=? dx then ((err + dx)%int, (y0 + sy)%int) else (err, y0) in
        bres_loop fuel x0 y0 x1 y1 dx dy sx sy err rad c st
  end.

Definition draw_line_bres (fuel : nat) (x0 y0 x1 y1 : Z) (c : Color)
    (thickness : Z) (st : State) : option State :=
  let thickness := if thickness <? 1 then 1 else thickness in
  let dx := iabs (x1 - x0)%int in
  let sx := if x0 <? x1 then 1 else -1 in
  let dy := cast_int (- iabs (y1 - y0)%int) in
  let sy := if y0 <? y1 then 1 else -1 in
  let err := (dx + dy)%int in
  let rad := (thickness / 2)%int in
  bres_loop fuel x0 y0 x1 y1 dx dy sx sy err rad c st.

Definition draw_line (fuel : nat) (x0 y0 x1 y1 : Z) (c : Color)
    (thickness : Z) (st : State) : option State :=
  match draw_line_bres fuel x0 y0 x1 y1 c thickness st with
  | None => None
  | Some st =>
      Some (dirty_add_rect (Z.min x0 x1) (Z.min y0 y1)
              (iabs (x1 - x0) + 1)%int (iabs (y1 - y0) + 1)%int st)
  end.

(** [for (i = hi; i > lo; --i) body], for a body that can fail. *)
Fixpoint for_down {S} (n : nat) (i : Z) (body : Z -> S -> option S) (s : S)
    : option S :=
  match n with
  | O => Some s
  | Datatypes.S n' =>
      match body i s with
      | Some s' => for_down n' (i - 1)%int body s'
      | None => None
      end
  end.
Definition for_range_down {S} (hi lo : Z) (body : Z -> S -> option S) (s : S)
    : option S :=
  for_down (Z.to_nat (hi - lo)) hi body s.

(** The [while (x >= y)] loop of [draw_circle_outline]: one ring of
    radius [rr], eight octants at a time.  [fuel] bounds the number of
    loop tests, and [None] is a run that has not left the loop within
    [fuel] tests. *)
Fixpoint circle_ring (fuel : nat) (cx cy x y err : Z) (c : Color)
    (st : State) : option State :=
  match fuel with
  | O => None
  | Datatypes.S fuel =>
      if x >=? y then
        let st := write_pixel (cx + x)%int (cy + y)%int c st in
        let st := write_pixel (cx + y)%int (cy + x)%int c st in
        let st := write_pixel (cx - y)%int (cy + x)%int c st in
        let st := write_pixel (cx - x)%int (cy + y)%int c st in
        let st := write_pixel (cx - x)%int (cy - y)%int c st in
        let st := write_pixel (cx - y)%int (cy - x)%int c st in
        let st := write_pixel (cx + y)%int (cy - x)%int c st in
        let st := write_pixel (cx + x)%int (cy - y)%int c st in
        let '(y, err) :=
          if err <=? 0
          then let y := (y + 1)%int in (y, (err + (2 * y + 1))%int)
          else (y, err) in
        let '(x, err) :=
          if err >? 0
          then let x := (x - 1)%int in (x, (err - (2 * x + 1))%int)
          else (x, err) in
        circle_ring fuel cx cy x y err c st
      else Some st
  end.

Definition draw_circle_outline (fuel : nat) (cx cy r : Z) (c : Color)
    (thickness : Z) (st : State) : option State :=
  if r <=? 0 then Some st
  else
    let thickness := if thickness <? 1 then 1 else thickness in
    let t := thickness in
    for_range_down r (Z.max 0 (r - t)%int)
      (fun rr st => circle_ring fuel cx cy rr 0 0 c st) st.

(** The texel of [img] whose first byte is at offset [si]. *)
Definition image_texel (img : Image) (si : Z) : Color :=
  mkColor (byte_at (img_rgba img) (sadd si 0))
          (byte_at (img_rgba img) (sadd si 1))
          (byte_at (img_rgba img) (sadd si 2))
          (byte_at (img_rgba img) (sadd si 3)).


(** [bool on = ((x / cell) ^ (y / cell)) & 1]. *)
Definition checker_on (cell x y : Z) : bool :=
  negb (Z.land (Z.lxor (x / cell)%int (y / cell)%int) 1 =? 0).

Definition make_checker_rgba (w h cell : Z) : Image :=
  let rgba := resize (Z.to_nat (size3 w h 4)) 0 [] in
  let cell := Z.max 1 cell in
  let rgba :=
    for_range 0 h (fun y rgba =>
      for_range 0 w (fun x rgba =>
        let c := if checker_on cell x y then 230 else 40 in
        let i := idx_rgba w x y in
        vset (vset (vset (vset rgba (sadd i 0) c) (sadd i 1) c) (sadd i 2) c)
             (sadd i 3) 255) rgba) rgba in
  mkImage w h rgba.

(* ===================================================================== *)
(** * Input state *)
(* ===================================================================== *)

(** [double] is IEEE-754 binary64. *)
Definition double : Type := spec_float.
Definition dadd : double -> double -> double := SFadd 53 1024.
Definition dsub : double -> double -> double := SFsub 53 1024.
Definition deq (x y : double) : bool := SFeqb x y.
Definition d_0 : double := S754_zero false.

Definition KEY_MAX : Z := 512.
Definition MOUSE_BUTTON_MAX : Z := 16.
(** The constants of the GLFW header. *)
Definition GLFW_RELEASE : Z := 0.
Definition GLFW_PRESS : Z := 1.
Definition GLFW_TRUE : Z := 1.

(** The window, input and timing fields of [struct State]; [bool a[N]]
    is a list of [N] booleans. *)
Record Input := mkInput {
  in_headless : bool;
  in_display_w : Z;
  in_display_h : Z;
  in_key_down : list bool;
  in_key_pressed : list bool;
  in_key_released : list bool;
  in_mouse_x : double;
  in_mouse_y : double;
  in_mouse_prev_x : double;
  in_mouse_prev_y : double;
  in_mouse_dx : double;
  in_mouse_dy : double;
  in_mouse_moved : bool;
  in_mouse_down : list bool;
  in_mouse_pressed : list bool;
  in_mouse_released : list bool;
  in_mouse_scroll_x : double;
  in_mouse_scroll_y : double;
  in_mouse_scrolled : bool;
  in_mouse_in_window : bool;
  in_mouse_entered : bool;
  in_mouse_left : bool;
  in_last_time : double;
  in_dt : double
}.

Definition set_keys (d p r : list bool) (i : Input) : Input :=
  mkInput (in_headless i) (in_display_w i) (in_display_h i) d p r
    (in_mouse_x i) (in_mouse_y i) (in_mouse_prev_x i) (in_mouse_prev_y i)
    (in_mouse_dx i) (in_mouse_dy i) (in_mouse_moved i)
    (in_mouse_down i) (in_mouse_pressed i) (in_mouse_released i)
    (in_mouse_scroll_x i) (in_mouse_scroll_y i) (in_mouse_scrolled i)
    (in_mouse_in_window i) (in_mouse_entered i) (in_mouse_left i)
    (in_last_time i) (in_dt i).

Definition set_buttons (d p r : list bool) (i : Input) : Input :=
  mkInput (in_headless i) (in_display_w i) (in_display_h i)
    (in_key_down i) (in_key_pressed i) (in_key_released i)
    (in_mouse_x i) (in_mouse_y i) (in_mouse_prev_x i) (in_mouse_prev_y i)
    (in_mouse_dx i) (in_mouse_dy i) (in_mouse_moved i) d p r
    (in_mouse_scroll_x i) (in_mouse_scroll_y i) (in_mouse_scrolled i)
    (in_mouse_in_window i) (in_mouse_entered i) (in_mouse_left i)
    (in_last_time i) (in_dt i).

Definition set_display (w h : Z) (i : Input) : Input :=
  mkInput (in_headless i) w h
    (in_key_down i) (in_key_pressed i) (in_key_released i)
    (in_mouse_x i) (in_mouse_y i) (in_mouse_prev_x i) (in_mouse_prev_y i)
    (in_mouse_dx i) (in_mouse_dy i) (in_mouse_moved i)
    (in_mouse_down i) (in_mouse_pressed i) (in_mouse_released i)
    (in_mouse_scroll_x i) (in_mouse_scroll_y i) (in_mouse_scrolled i)
    (in_mouse_in_window i) (in_mouse_entered i) (in_mouse_left i)
    (in_last_time i) (in_dt i).

(** The cursor fields: position, previous position, deltas, moved flag. *)
Definition set_cursor (x y px py dx dy : double) (moved : bool) (i : Input)
    : Input :=
  mkInput (in_headless i) (in_display_w i) (in_display_h i)
    (in_key_down i) (in_key_pressed i) (in_key_released i)
    x y px py dx dy moved
    (in_mouse_down i) (in_mouse_pressed i) (in_mouse_released i)
    (in_mouse_scroll_x i) (in_mouse_scroll_y i) (in_mouse_scrolled i)
    (in_mouse_in_window i) (in_mouse_entered i) (in_mouse_left i)
    (in_last_time i) (in_dt i).

Definition set_scroll (sx sy : double) (scrolled : bool) (i : Input) : Input :=
  mkInput (in_headless i) (in_display_w i) (in_display_h i)
    (in_key_down i) (in_key_pressed i) (in_key_released i)
    (in_mouse_x i) (in_mouse_y i) (in_mouse_prev_x i) (in_mouse_prev_y i)
    (in_mouse_dx i) (in_mouse_dy i) (in_mouse_moved i)
    (in_mouse_down i) (in_mouse_pressed i) (in_mouse_released i)
    sx sy scrolled
    (in_mouse_in_window i) (in_mouse_entered i) (in_mouse_left i)
    (in_last_time i) (in_dt i).

Definition set_hover (inw entered left : bool) (i : Input) : Input :=
  mkInput (in_headless i) (in_display_w i) (in_display_h i)
    (in_key_down i) (in_key_pressed i) (in_key_released i)
    (in_mouse_x i) (in_mouse_y i) (in_mouse_prev_x i) (in_mouse_prev_y i)
    (in_mouse_dx i) (in_mouse_dy i) (in_mouse_moved i)
    (in_mouse_down i) (in_mouse_pressed i) (in_mouse_released i)
    (in_mouse_scroll_x i) (in_mouse_scroll_y i) (in_mouse_scrolled i)
    inw entered left
    (in_last_time i) (in_dt i).

Definition set_timer (last dt : double) (i : Input) : Input :=
  mkInput (in_headless i) (in_display_w i) (in_display_h i)
    (in_key_down i) (in_key_pressed i) (in_key_released i)
    (in_mouse_x i) (in_mouse_y i) (in_mouse_prev_x i) (in_mouse_prev_y i)
    (in_mouse_dx i) (in_mouse_dy i) (in_mouse_moved i)
    (in_mouse_down i) (in_mouse_pressed i) (in_mouse_released i)
    (in_mouse_scroll_x i) (in_mouse_scroll_y i) (in_mouse_scrolled i)
    (in_mouse_in_window i) (in_mouse_entered i) (in_mouse_left i)
    last dt.

(** The callbacks registered with GLFW. *)
Definition glfw_key_cb (key action : Z) (i : Input) : Input :=
  if (key <? 0) || (key >=? KEY_MAX) then i
  else if action =? GLFW_PRESS then
    let p :=
      if negb (vget false (in_key_down i) key)
      then vset (in_key_pressed i) key true else in_key_pressed i in
    set_keys (vset (in_key_down i) key true) p (in_key_released i) i
  else if action =? GLFW_RELEASE then
    set_keys (vset (in_key_down i) key false) (in_key_pressed i)
      (vset (in_key_released i) key true) i
  else i.

Definition glfw_window_size_cb (w h : Z) (i : Input) : Input :=
  set_display (Z.max 1 w) (Z.max 1 h) i.

Definition glfw_cursor_pos_cb (x y : double) (i : Input) : Input :=
  let prev_x := in_mouse_x i in
  let prev_y := in_mouse_y i in
  let dx := dsub x prev_x in
  let dy := dsub y prev_y in
  set_cursor x y prev_x prev_y (dadd (in_mouse_dx i) dx)
    (dadd (in_mouse_dy i) dy)
    (if negb (deq dx d_0) || negb (deq dy d_0) then true
     else in_mouse_moved i) i.

Definition glfw_mouse_button_cb (button action : Z) (i : Input) : Input :=
  if (button <? 0) || (button >=? MOUSE_BUTTON_MAX) then i
  else if action =? GLFW_PRESS then
    let p :=
      if negb (vget false (in_mouse_down i) button)
      then vset (in_mouse_pressed i) button true else in_mouse_pressed i in
    set_buttons (vset (in_mouse_down i) button true) p (in_mouse_released i) i
  else if action =? GLFW_RELEASE then
    set_buttons (vset (in_mouse_down i) button false) (in_mouse_pressed i)
      (vset (in_mouse_released i) button true) i
  else i.

Definition glfw_scroll_cb (xoffset yoffset : double) (i : Input) : Input :=
  set_scroll (dadd (in_mouse_scroll_x i) xoffset)
    (dadd (in_mouse_scroll_y i) yoffset)
    (if negb (deq xoffset d_0) || negb (deq yoffset d_0) then true
     else in_mouse_scrolled i) i.

Definition glfw_cursor_enter_cb (entered : Z) (i : Input) : Input :=
  if entered =? GLFW_TRUE
  then set_hover true true (in_mouse_left i) i
  else set_hover false (in_mouse_entered i) true i.

(** What [glfwPollEvents()] delivers: a sequence of callback invocations. *)
Inductive Event :=
| EvKey (key action : Z)
| EvWindowSize (w h : Z)
| EvCursorPos (x y : double)
| EvMouseButton (button action : Z)
| EvScroll (xoffset yoffset : double)
| EvCursorEnter (entered : Z).

Definition dispatch (i : Input) (e : Event) : Input :=
  match e with
  | EvKey k a => glfw_key_cb k a i
  | EvWindowSize w h => glfw_window_size_cb w h i
  | EvCursorPos x y => glfw_cursor_pos_cb x y i
  | EvMouseButton b a => glfw_mouse_button_cb b a i
  | EvScroll x y => glfw_scroll_cb x y i
  | EvCursorEnter en => glfw_cursor_enter_cb en i
  end.

(** [events] is what GLFW delivers during the call (nothing is polled in
    a headless run) and [now] is the reading of the clock. *)
Definition poll_events (events : list Event) (now : double) (i : Input)
    : Input :=
  let i :=
    for_range 0 KEY_MAX (fun k i =>
      set_keys (in_key_down i) (vset (in_key_pressed i) k false)
        (vset (in_key_released i) k false) i) i in
  let i :=
    for_range 0 MOUSE_BUTTON_MAX (fun k i =>
      set_buttons (in_mouse_down i) (vset (in_mouse_pressed i) k false)
        (vset (in_mouse_released i) k false) i) i in
  let i :=
    set_cursor (in_mouse_x i) (in_mouse_y i) (in_mouse_x i) (in_mouse_y i)
      d_0 d_0 false i in
  let i := set_scroll d_0 d_0 false i in
  let i := set_hover (in_mouse_in_window i) false false i in
  let i := if in_headless i then i else foldl dispatch i events in
  let dt := dsub now (in_last_time i) in
  let dt := if deq (in_last_time i) d_0 then d_0 else dt in
  set_timer now dt i.

Definition key_down (key : Z) (i : Input) : bool :=
  if (key <? 0) || (key >=? KEY_MAX) then false
  else vget false (in_key_down i) key.
Definition key_pressed (key : Z) (i : Input) : bool :=
  if (key <? 0) || (key >=? KEY_MAX) then false
  else vget false (in_key_pressed i) key.
Definition key_released (key : Z) (i : Input) : bool :=
  if (key <? 0) || (key >=? KEY_MAX) then false
  else vget false (in_key_released i) key.

Definition mouse_down (button : Z) (i : Input) : bool :=
  if (button <? 0) || (button >=? MOUSE_BUTTON_MAX) then false
  else vget false (in_mouse_down i) button.
Definition mouse_pressed (button : Z) (i : Input) : bool :=
  if (button <? 0) || (button >=? MOUSE_BUTTON_MAX) then false
  else vget false (in_mouse_pressed i) button.
Definition mouse_released (button : Z) (i : Input) : bool :=
  if (button <? 0) || (button >=? MOUSE_BUTTON_MAX) then false
  else vget false (in_mouse_released i) button.

(** The input fields of [static State g] before [init]: every array is
    value-initialized. *)
Definition Input_initial (headless : bool) : Input :=
  mkInput headless 0 0
    (replicate (Z.to_nat KEY_MAX) false) (replicate (Z.to_nat KEY_MAX) false)
    (replicate (Z.to_nat KEY_MAX) false)
    d_0 d_0 d_0 d_0 d_0 d_0 false
    (replicate (Z.to_nat MOUSE_BUTTON_MAX) false)
    (replicate (Z.to_nat MOUSE_BUTTON_MAX) false)
    (replicate (Z.to_nat MOUSE_BUTTON_MAX) false)
    d_0 d_0 false false false false d_0 d_0.

(** The arrays have their declared sizes. *)
Definition Input_ok (i : Input) : Prop :=
  Z.of_nat (length (in_key_down i)) = KEY_MAX /\
  Z.of_nat (length (in_key_pressed i)) = KEY_MAX /\
  Z.of_nat (length (in_key_released i)) = KEY_MAX /\
  Z.of_nat (length (in_mouse_down i)) = MOUSE_BUTTON_MAX /\
  Z.of_nat (length (in_mouse_pressed i)) = MOUSE_BUTTON_MAX /\
  Z.of_nat (length (in_mouse_released i)) = MOUSE_BUTTON_MAX.

(* ===================================================================== *)
(** * Predicates of the statements *)
(* ===================================================================== *)

(** The dirty rectangle is not empty and contains [(x, y)]. *)
Definition dirty_covers (st : State) (x y : Z) : Prop :=
  dirty_empty (dirty st) = false /\
  dirty_minx (dirty st) <= x <= dirty_maxx (dirty st) /\
  dirty_miny (dirty st) <= y <= dirty_maxy (dirty st).

(** Everything of the state that a color write must not touch. *)
Definition same_frame (st st' : State) : Prop :=
  gl st' = gl st /\ fb_w st' = fb_w st /\ fb_h st' = fb_h st /\
  length (color st') = length (color st) /\
  depth_on st' = depth_on st /\ depth st' = depth st /\
  clip st' = clip st /\ blend st' = blend st /\
  post st' = post st /\ post_out st' = post_out st /\ bloom st' = bloom st.

(** The arguments of a line for which no [int] operation of
    [draw_line] wraps around. *)
Definition line_arg_ok (v : Z) : Prop := - 2 ^ 27 <= v <= 2 ^ 27.

(** [(px, py)] lies in the rectangle of size [w * h] at [(x, y)]. *)
Definition in_rect (x y w h px py : Z) : bool :=
  (x <=? px) && (px <? x + w) && (y <=? py) && (py <? y + h).

(** A drawing [s] made on [st] with color [c] that stays in the
    rectangle of size [w * h] at [(x, y)]: the frame is kept, the buffer
    stays made of bytes, and no pixel outside the rectangle changes. *)
Definition drawn_in_box (st : State) (c : Color) (x y w h : Z) (s : State)
    : Prop :=
  same_frame st s /\
  (bytes_ok (color st) -> (blend st = Overwrite -> Color_ok c) ->
   bytes_ok (color s)) /\
  forall px py, in_bounds st px py = true ->
    in_rect x y w h px py = false ->
    get_pixel s px py = get_pixel st px py.

(** A byte [c] survives the conversion to a channel value, a product
    with [1.0f] and the conversion back; the channel value and the
    product are [+0] or positive finite numbers. *)
Definition pos_or_zero (x : float) : bool :=
  match x with
  | S754_zero false | S754_finite false _ _ => true
  | _ => false
  end.
Definition byte_unit_check (c : Z) : bool :=
  pos_or_zero (byte_float c) && pos_or_zero (byte_float c * f_1)%f32 &&
  (cast_u8 (clampi (cast_int (lround (byte_float c * f_1 * f_255)%f32)) 0 255)
   =? c).

(* ===================================================================== *)
(** * More sample values *)
(* ===================================================================== *)

(** A 2 x 1 image. *)
Definition image_2x1 : Image := mkImage 2 1 [10; 20; 30; 40; 50; 60; 70; 80].

(** The gray level of the checker cell of pixel [(x, y)]: 230 when the
    cell coordinates have an odd sum, 40 otherwise. *)
Definition checker_gray (cell x y : Z) : Color :=
  let c := if Z.odd (x / cell + y / cell) then 230 else 40 in
  mkColor c c c 255.

(** The coverage test of the 2D rasterizers for the pixel [(x, y)]: the
    three edge functions at the pixel centre, after the vertices have
    been put in a consistent orientation. *)
Definition tri_covers (a b c : Vec2) (x y : Z) : bool :=
  let flip := (edge_fn a b c <? f_0)%f32 in
  let B := if flip then c else b in
  let C := if flip then b else c in
  let p := pixel_center x y in
  inside (edge_fn B C p) (edge_fn C a p) (edge_fn a B p).

(** The clamped bounding box of a triangle contains [(px, py)]. *)
Definition in_tri_bounds (st : State) (a b c : Vec2) (px py : Z) : bool :=
  let '(minx, miny, maxx, maxy) := tri_bounds st a b c in
  (minx <=? px) && (px <=? maxx) && (miny <=? py) && (py <=? maxy).



(** [project_vertex] rejects the vertex: its clip-space [w] is within
    [1e-8] of zero, or its depth in normalized device coordinates is
    outside [-1.2, 1.2]. *)
Definition vertex_culled (st : State) (v : Vertex3D) (mvp : Mat4) : bool :=
  negb (fst (project_vertex st v mvp VOut_default)).

(** The default vertex read by [project_all] past the end of [verts]. *)
Definition Vertex3D_zero : Vertex3D :=
  mkVertex3D (mkVec3 f_0 f_0 f_0) (mkVec3 f_0 f_0 f_0) (mkVec2 f_0 f_0).

(** A matrix that sends every point to clip-space [w = 0]. *)
Definition mat4_zero : Mat4 :=
  mkMat4 [f_0; f_0; f_0; f_0;  f_0; f_0; f_0; f_0;
          f_0; f_0; f_0; f_0;  f_0; f_0; f_0; f_0].

(** A texel multiplied by a tint, channel by channel:
    [(uint8_t)((texel * tint) / 255)]. *)
Definition tint_texel (c tint : Color) : Color :=
  mkColor (cast_u8 ((col_r c * col_r tint) / 255)%int)
          (cast_u8 ((col_g c * col_g tint) / 255)%int)
          (cast_u8 ((col_b c * col_b tint) / 255)%int)
          (cast_u8 ((col_a c * col_a tint) / 255)%int).

(** What post-processing must not touch: everything but the output
    buffer, the bloom buffers and the dirty rectangle. *)
Definition same_core (st st' : State) : Prop :=
  gl st' = gl st /\ fb_w st' = fb_w st /\ fb_h st' = fb_h st /\
  color st' = color st /\ depth_on st' = depth_on st /\
  depth st' = depth st /\ clip st' = clip st /\ blend st' = blend st /\
  post st' = post st.



(* ===================================================================== *)
(** * Casts and indices inside their range *)
(* ===================================================================== *)

Lemma cast_int_id (z : Z) : INT_MIN <= z <= INT_MAX -> cast_int z = z.
Proof.
  unfold INT_MIN, INT_MAX, cast_int. intros Hz.
  rewrite Z.mod_small by lia. lia.
Qed.

Lemma cast_size_t_id (z : Z) :
  0 <= z < 18446744073709551616 -> cast_size_t z = z.
Proof. unfold cast_size_t. intros Hz. now rewrite Z.mod_small. Qed.

Lemma cast_u8_id (z : Z) : u8_ok z -> cast_u8 z = z.
Proof. unfold cast_u8, u8_ok. intros Hz. now rewrite Z.mod_small. Qed.

Lemma sadd_id (i k : Z) : 0 <= i -> 0 <= k -> i + k <= INT_MAX -> sadd i k = i + k.
Proof.
  unfold sadd, INT_MAX. intros Hi Hk Hik. apply cast_size_t_id. lia.
Qed.

(** Inside a surface of [w * h] pixels whose byte count fits an [int], the
    [int] arithmetic of [idx_rgba] does not wrap. *)
Lemma idx_rgba_eq (w h x y : Z) :
  0 <= x < w -> 0 <= y < h -> w * h * 4 <= INT_MAX ->
  idx_rgba w x y = (y * w + x) * 4.
Proof.
  intros Hx Hy Hwh. unfold idx_rgba, imul, iadd.
  assert (Hyw : 0 <= y * w) by nia.
  assert (Hlt : (y * w + x) * 4 + 4 <= w * h * 4) by nia.
  unfold INT_MAX in *.
  rewrite (cast_int_id (y * w)) by (unfold INT_MIN, INT_MAX; lia).
  rewrite (cast_int_id (y * w + x)) by (unfold INT_MIN, INT_MAX; lia).
  rewrite (cast_int_id ((y * w + x) * 4)) by (unfold INT_MIN, INT_MAX; lia).
  apply cast_size_t_id. lia.
Qed.

Lemma idx_rgba_bound (w h x y : Z) :
  0 <= x < w -> 0 <= y < h ->
  0 <= (y * w + x) * 4 /\ (y * w + x) * 4 + 3 < w * h * 4.
Proof.
  intros Hx Hy.
  assert (0 <= y * w) by nia.
  assert ((y + 1) * w <= h * w) by nia.
  lia.
Qed.

(** Two pixels of the surface share a byte offset only if they are equal. *)
Lemma pixel_offset_inj (w x y x' y' : Z) :
  0 <= x < w -> 0 <= x' < w -> 0 <= y -> 0 <= y' ->
  y * w + x = y' * w + x' -> x = x' /\ y = y'.
Proof.
  intros Hx Hx' Hy Hy' E.
  assert (Hyy : y = y').
  { destruct (Z.lt_trichotomy y y') as [Hlt | [Heq | Hgt]]; [| exact Heq |].
    - assert ((y + 1) * w <= y' * w) by nia. lia.
    - assert ((y' + 1) * w <= y * w) by nia. lia. }
  subst y'. split; [lia | reflexivity].
Qed.

(* ===================================================================== *)
(** * Vector reads and writes *)
(* ===================================================================== *)

Section Vectors.
Context {A : Type}.
Implicit Types (v : list A) (i j : Z) (x d : A).

Lemma length_vset v i x : length (vset v i x) = length v.
Proof. unfold vset. destruct (i <? 0); [done | apply length_insert]. Qed.

Lemma vget_vset_eq d v i x :
  0 <= i < Z.of_nat (length v) -> vget d (vset v i x) i = x.
Proof.
  intros Hi. unfold vget, vset.
  destruct (Z.ltb_spec i 0) as [Hneg | _]; [lia |].
  rewrite list_lookup_insert_eq by lia. done.
Qed.

Lemma vget_vset_ne d v i j x : i <> j -> vget d (vset v i x) j = vget d v j.
Proof.
  intros Hij. unfold vget, vset.
  destruct (Z.ltb_spec j 0) as [Hj | Hj]; [done |].
  destruct (Z.ltb_spec i 0) as [Hi | Hi]; [done |].
  rewrite list_lookup_insert_ne by lia. done.
Qed.

Lemma vget_in_range d v i :
  0 <= i < Z.of_nat (length v) -> exists x, v !! Z.to_nat i = Some x /\ vget d v i = x.
Proof.
  intros Hi. unfold vget.
  destruct (Z.ltb_spec i 0) as [Hneg | _]; [lia |].
  destruct (lookup_lt_is_Some_2 v (Z.to_nat i)) as [x Hx]; [lia |].
  exists x. now rewrite Hx.
Qed.

Lemma vget_Forall (P : A -> Prop) d v i :
  Forall P v -> 0 <= i < Z.of_nat (length v) -> P (vget d v i).
Proof.
  intros HP Hi. destruct (vget_in_range d v i Hi) as (x & Hx & ->).
  eapply Forall_lookup_1; eauto.
Qed.
End Vectors.

Lemma length_store_color (v : list Z) (i : Z) (c : Color) :
  length (store_color v i c) = length v.
Proof. unfold store_color. now rewrite !length_vset. Qed.

(** Storing a pixel and loading it back at the same offset. *)
Lemma load_store_color (v : list Z) (i : Z) (c : Color) :
  0 <= i -> i + 3 < Z.of_nat (length v) -> i + 3 <= INT_MAX ->
  load_color (store_color v i c) i = c.
Proof.
  intros Hi Hlen Hmax. unfold load_color, store_color.
  rewrite !sadd_id by lia.
  destruct c as [cr cg cb ca]; cbn [col_r col_g col_b col_a]. f_equal.
  - rewrite !(vget_vset_ne 0 _ (i + 3)), !(vget_vset_ne 0 _ (i + 2)),
      !(vget_vset_ne 0 _ (i + 1)) by lia.
    apply vget_vset_eq. lia.
  - rewrite !(vget_vset_ne 0 _ (i + 3)), !(vget_vset_ne 0 _ (i + 2)) by lia.
    apply vget_vset_eq. rewrite length_vset. lia.
  - rewrite !(vget_vset_ne 0 _ (i + 3)) by lia.
    apply vget_vset_eq. rewrite !length_vset. lia.
  - apply vget_vset_eq. rewrite !length_vset. lia.
Qed.

(** A pixel stored at another offset is not disturbed. *)
Lemma load_store_color_other (v : list Z) (i j : Z) (c : Color) :
  0 <= i -> 0 <= j -> i + 3 <= INT_MAX -> j + 3 <= INT_MAX ->
  i + 3 < j \/ j + 3 < i ->
  load_color (store_color v i c) j = load_color v j.
Proof.
  intros Hi Hj Hmi Hmj Hdis. unfold load_color, store_color, byte_at.
  rewrite !sadd_id by lia.
  f_equal; rewrite !vget_vset_ne by lia; reflexivity.
Qed.

Lemma load_color_ok (v : list Z) (i : Z) :
  bytes_ok v -> 0 <= i -> i + 3 < Z.of_nat (length v) -> i + 3 <= INT_MAX ->
  Color_ok (load_color v i).
Proof.
  intros Hv Hi Hlen Hmax. unfold load_color, Color_ok, byte_at.
  rewrite !sadd_id by lia. cbn [col_r col_g col_b col_a].
  repeat split; apply (vget_Forall u8_ok); auto; lia.
Qed.

(* ===================================================================== *)
(** * Field access through the state updates *)
(* ===================================================================== *)

Lemma in_bounds_spec (st : State) (x y : Z) :
  in_bounds st x y = true <-> 0 <= x < fb_w st /\ 0 <= y < fb_h st.
Proof. unfold in_bounds. lia. Qed.

Lemma dirty_add_frame (x y : Z) (st : State) :
  fb_w (dirty_add x y st) = fb_w st /\ fb_h (dirty_add x y st) = fb_h st /\
  color (dirty_add x y st) = color st /\ depth (dirty_add x y st) = depth st /\
  depth_on (dirty_add x y st) = depth_on st /\
  clip (dirty_add x y st) = clip st /\ blend (dirty_add x y st) = blend st.
Proof.
  unfold dirty_add.
  repeat match goal with |- context [if ?c then _ else _] => destruct c end;
  repeat split; reflexivity.
Qed.

(** Comparing a float with itself fails exactly for the NaN. *)
Lemma feq_self_nan (z : float) : (z =? z)%f32 = negb (is_nan z).
Proof.
  unfold feq, SFeqb.
  destruct z as [s | s | | s m e]; cbn; try (destruct s; reflexivity).
  - reflexivity.
  - destruct s; rewrite Z.compare_refl, Pos.compare_cont_refl; reflexivity.
Qed.

(* ===================================================================== *)
(** * Loops *)
(* ===================================================================== *)

Section Loops.
Context {S : Type}.
Implicit Types (body : Z -> S -> S) (s : S).

(** Invariant rule for [for (i = lo; i < hi; ++i)]. *)
Lemma for_loop_ind (P : Z -> S -> Prop) body (n : nat) (lo : Z) s :
  P lo s ->
  (forall i s', lo <= i < lo + Z.of_nat n -> P i s' -> P (i + 1) (body i s')) ->
  P (lo + Z.of_nat n) (for_loop n lo body s).
Proof.
  revert lo s. induction n as [| n IH]; intros lo s H0 Hstep.
  - cbn. now rewrite Z.add_0_r.
  - cbn [for_loop].
    replace (lo + Z.of_nat (Datatypes.S n)) with (lo + 1 + Z.of_nat n) by lia.
    apply IH.
    + apply Hstep; [lia | exact H0].
    + intros i s' Hi. apply Hstep. lia.
Qed.

Lemma for_range_ind (P : Z -> S -> Prop) body (lo hi : Z) s :
  lo <= hi ->
  P lo s ->
  (forall i s', lo <= i < hi -> P i s' -> P (i + 1) (body i s')) ->
  P hi (for_range lo hi body s).
Proof.
  intros Hle H0 Hstep. unfold for_range.
  replace hi with (lo + Z.of_nat (Z.to_nat (hi - lo))) at 1 by lia.
  apply for_loop_ind; [exact H0 |].
  intros i s' Hi. apply Hstep. lia.
Qed.

(** A loop whose range is empty does nothing. *)
Lemma for_range_empty body (lo hi : Z) s :
  hi <= lo -> for_range lo hi body s = s.
Proof.
  intros Hle. unfold for_range.
  replace (Z.to_nat (hi - lo)) with O by lia. reflexivity.
Qed.

(** Loops with step. *)
Lemma for_loop_step_app body (n1 n2 : nat) (i step : Z) s :
  for_loop_step (n1 + n2) i step body s
  = for_loop_step n2 (i + step * Z.of_nat n1) step body
      (for_loop_step n1 i step body s).
Proof.
  revert i s. induction n1 as [| n1 IH]; intros i s.
  - cbn. f_equal. lia.
  - cbn [Nat.add for_loop_step]. rewrite IH. f_equal. lia.
Qed.

Lemma for_loop_step_ext body1 body2 (n : nat) (i step : Z) s :
  (forall k s', 0 <= k < Z.of_nat n ->
                body1 (i + step * k) s' = body2 (i + step * k) s') ->
  for_loop_step n i step body1 s = for_loop_step n i step body2 s.
Proof.
  revert i s. induction n as [| n IH]; intros i s Hext; [reflexivity |].
  cbn [for_loop_step].
  assert (E : body1 i s = body2 i s).
  { pose proof (Hext 0 s) as H0.
    replace (i + step * 0) with i in H0 by lia. apply H0. lia. }
  rewrite <- E.
  apply IH. intros k s' Hk.
  replace (i + step + step * k) with (i + step * (k + 1)) by lia.
  apply Hext. lia.
Qed.

Lemma for_loop_step_shift body (n : nat) (i d step : Z) s :
  for_loop_step n (i + d) step body s
  = for_loop_step n i step (fun j => body (j + d)) s.
Proof.
  revert i s. induction n as [| n IH]; intros i s; [reflexivity |].
  cbn [for_loop_step].
  replace (i + d + step) with (i + step + d) by lia. apply IH.
Qed.
End Loops.


(* ===================================================================== *)
(** * Pixel writes and reads *)
(* ===================================================================== *)

(** A write that passes the bounds and clip tests, read back at the same
    pixel, gives the blend of the source with the old destination. *)
Lemma get_pixel_write_pixel (st : State) (x y : Z) (src : Color) :
  surface_ok st -> in_bounds st x y = true -> in_clip st x y = true ->
  get_pixel (write_pixel x y src st) x y
  = blend_out (blend st) src (get_pixel st x y).
Proof.
  intros (Hw & Hh & Hmax & Hlen) Hb Hc.
  apply in_bounds_spec in Hb as Hxy. destruct Hxy as [Hx Hy].
  assert (Hcond : (x <? 0) || (y <? 0) || (x >=? fb_w st) || (y >=? fb_h st)
                  = false) by lia.
  unfold write_pixel, get_pixel. rewrite Hcond, Hc. cbn [negb].
  destruct (dirty_add_frame x y
              (set_color (store_color (color st) (idx_rgba (fb_w st) x y)
                 (blend_out (blend st) src
                    (load_color (color st) (idx_rgba (fb_w st) x y)))) st))
    as (Ew & Eh & Ec & _).
  rewrite Ew, Eh, Ec. cbn [fb_w fb_h color set_color]. rewrite Hcond.
  rewrite (idx_rgba_eq (fb_w st) (fb_h st)) by assumption.
  destruct (idx_rgba_bound (fb_w st) (fb_h st) x y Hx Hy) as [Hlo Hhi].
  apply load_store_color; lia.
Qed.

(** Inside the surface the pixel read is a color of four bytes. *)
Lemma get_pixel_ok (st : State) (x y : Z) :
  surface_ok st -> bytes_ok (color st) -> in_bounds st x y = true ->
  Color_ok (get_pixel st x y).
Proof.
  intros (Hw & Hh & Hmax & Hlen) Hbytes Hb.
  apply in_bounds_spec in Hb as Hxy. destruct Hxy as [Hx Hy].
  assert (Hcond : (x <? 0) || (y <? 0) || (x >=? fb_w st) || (y >=? fb_h st)
                  = false) by lia.
  unfold get_pixel. rewrite Hcond.
  rewrite (idx_rgba_eq (fb_w st) (fb_h st)) by assumption.
  destruct (idx_rgba_bound (fb_w st) (fb_h st) x y Hx Hy) as [Hlo Hhi].
  apply load_color_ok; auto; lia.
Qed.

Lemma additive_chan (d s : Z) :
  u8_ok d -> u8_ok s -> cast_u8 (clampi (d + s)%int 0 255) = Z.min (d + s) 255.
Proof.
  unfold u8_ok, clampi, iadd. intros Hd Hs.
  rewrite cast_int_id by (unfold INT_MIN, INT_MAX; lia).
  rewrite cast_u8_id by (unfold u8_ok; lia). lia.
Qed.

Lemma multiply_chan (d s : Z) :
  u8_ok d -> u8_ok s -> cast_u8 ((d * s) / 255)%int = d * s / 255.
Proof.
  unfold u8_ok, idiv, imul. intros Hd Hs.
  assert (Hds : 0 <= d * s <= 255 * 255) by nia.
  rewrite (cast_int_id (d * s)) by (unfold INT_MIN, INT_MAX; lia).
  rewrite Z.quot_div_nonneg by lia.
  assert (Hq : 0 <= d * s / 255 <= 255).
  { split; [apply Z.div_pos; lia |].
    apply Z.div_le_upper_bound; lia. }
  rewrite cast_int_id by (unfold INT_MIN, INT_MAX; lia).
  apply cast_u8_id. unfold u8_ok. lia.
Qed.

Lemma surface_2x2_ok : surface_ok surface_2x2.
Proof. unfold surface_ok. vm_compute. repeat split; congruence. Qed.

Lemma surface_2x2_bytes : bytes_ok (color surface_2x2).
Proof.
  unfold bytes_ok. vm_compute.
  repeat (apply Forall_cons; split; [split; congruence |]). apply Forall_nil_2.
Qed.

(** C2.  Write invariant: under Overwrite, a pixel written inside the
    surface and inside the clip rectangle is read back unchanged, in all
    four channels. *)
Theorem write_read_overwrite (st : State) (x y : Z) (c : Color) :
  surface_ok st -> in_bounds st x y = true -> in_clip st x y = true ->
  blend st = Overwrite ->
  get_pixel (set_pixel x y c st) x y = c.
Proof.
  intros Hok Hb Hc Hblend. unfold set_pixel.
  rewrite get_pixel_write_pixel by assumption.
  now rewrite Hblend.
Qed.

Lemma write_read_overwrite_witness :
  get_pixel (set_pixel 1 0 (mkColor 10 20 30 40) surface_2x2) 1 0
  = mkColor 10 20 30 40.
Proof.
  apply (write_read_overwrite surface_2x2 1 0 (mkColor 10 20 30 40)).
  - unfold surface_ok. vm_compute. repeat split; congruence.
  - reflexivity.
  - reflexivity.
  - reflexivity.
Defined.

(** C9.  Additive blending stores the saturating channel sums and Multiply
    blending the channel products divided by 255 (integer division), both
    with alpha 255. *)
Theorem write_pixel_additive_multiply (st : State) (x y : Z) (s : Color) :
  surface_ok st -> bytes_ok (color st) -> Color_ok s ->
  in_bounds st x y = true -> in_clip st x y = true ->
  let d := get_pixel st x y in
  (blend st = Additive ->
   get_pixel (write_pixel x y s st) x y
   = mkColor (Z.min (col_r d + col_r s) 255) (Z.min (col_g d + col_g s) 255)
             (Z.min (col_b d + col_b s) 255) 255) /\
  (blend st = Multiply ->
   get_pixel (write_pixel x y s st) x y
   = mkColor (col_r d * col_r s / 255) (col_g d * col_g s / 255)
             (col_b d * col_b s / 255) 255).
Proof.
  intros Hok Hbytes (Hsr & Hsg & Hsb & Hsa) Hb Hc d.
  destruct (get_pixel_ok st x y Hok Hbytes Hb) as (Hdr & Hdg & Hdb & Hda).
  fold d in Hdr, Hdg, Hdb, Hda.
  split; intros Hblend; rewrite get_pixel_write_pixel by assumption;
    rewrite Hblend; fold d; cbn [blend_out].
  - now rewrite !additive_chan.
  - now rewrite !multiply_chan.
Qed.

Lemma write_pixel_additive_multiply_witness :
  get_pixel (write_pixel 0 1 (mkColor 200 100 7 9)
               (set_blend_mode Additive
                  (set_pixel 0 1 (mkColor 100 50 3 255) surface_2x2))) 0 1
  = mkColor 255 150 10 255.
Proof.
  pose (st := set_blend_mode Additive
                (set_pixel 0 1 (mkColor 100 50 3 255) surface_2x2)).
  assert (Hok : surface_ok st).
  { unfold surface_ok. vm_compute. repeat split; congruence. }
  assert (Hbytes : bytes_ok (color st)).
  { unfold bytes_ok. vm_compute.
    repeat (apply Forall_cons; split; [split; congruence |]).
    apply Forall_nil_2. }
  assert (Hs : Color_ok (mkColor 200 100 7 9)).
  { unfold Color_ok, u8_ok. cbn. lia. }
  exact (proj1 (write_pixel_additive_multiply st 0 1 (mkColor 200 100 7 9)
                  Hok Hbytes Hs eq_refl eq_refl) eq_refl).
Defined.

(** C10.  Outside the surface [get_pixel] answers opaque black.  It is a
    reader of the state: its embedding returns no state, so nothing is
    modified. *)
Theorem get_pixel_out_of_bounds (st : State) (x y : Z) :
  in_bounds st x y = false ->
  get_pixel st x y = mkColor 0 0 0 255.
Proof.
  unfold in_bounds, get_pixel. intros Hb.
  apply negb_false_iff in Hb. now rewrite Hb.
Qed.

Lemma get_pixel_out_of_bounds_witness :
  get_pixel surface_2x2 2 0 = mkColor 0 0 0 255.
Proof. apply (get_pixel_out_of_bounds surface_2x2 2 0). reflexivity. Defined.


(* ===================================================================== *)
(** * Depth test *)
(* ===================================================================== *)

Lemma depth_index_eq (st : State) (x y : Z) :
  depth_ok st -> in_bounds st x y = true ->
  cast_size_t (y * fb_w st + x)%int = y * fb_w st + x /\
  0 <= y * fb_w st + x < Z.of_nat (length (depth st)).
Proof.
  intros (Hw & Hh & Hmax & Hlen) Hb.
  apply in_bounds_spec in Hb as [Hx Hy].
  assert (H0 : 0 <= y * fb_w st) by nia.
  assert (H1 : (y + 1) * fb_w st <= fb_w st * fb_h st) by nia.
  unfold iadd, imul, INT_MAX in *.
  rewrite (cast_int_id (y * fb_w st)) by (unfold INT_MIN, INT_MAX; lia).
  rewrite cast_int_id by (unfold INT_MIN, INT_MAX; lia).
  rewrite cast_size_t_id by lia. lia.
Qed.

(** The guards of [depth_test_write] that reject a pixel. *)
Lemma depth_test_write_reject (st : State) (x y : Z) (z : float) :
  depth_on st = true ->
  in_bounds st x y = false \/ in_clip st x y = false \/ is_nan z = true ->
  depth_test_write x y z st = (false, st).
Proof.
  intros Hon Hrej. unfold depth_test_write. rewrite Hon. cbn [negb].
  unfold in_bounds in Hrej.
  destruct ((x <? 0) || (y <? 0) || (x >=? fb_w st) || (y >=? fb_h st));
    [reflexivity |].
  destruct (in_clip st x y); [| reflexivity]. cbn [negb].
  rewrite feq_self_nan.
  destruct (is_nan z); [reflexivity |].
  destruct Hrej as [H | [H | H]]; discriminate H.
Qed.

(** Past the guards, the outcome is the comparison with the stored depth. *)
Lemma depth_test_write_compare (st : State) (x y : Z) (z : float) :
  depth_ok st -> depth_on st = true ->
  in_bounds st x y = true -> in_clip st x y = true -> is_nan z = false ->
  depth_test_write x y z st
  = if (z <? depth_at st x y)%f32
    then (true, set_depth (vset (depth st) (y * fb_w st + x) z) st)
    else (false, st).
Proof.
  intros Hok Hon Hb Hc Hnan.
  destruct (depth_index_eq st x y Hok Hb) as [Hidx _].
  unfold depth_test_write, depth_at. rewrite Hon, Hc, feq_self_nan, Hnan.
  unfold in_bounds in Hb. apply negb_true_iff in Hb. rewrite Hb.
  cbn [negb]. now rewrite Hidx.
Qed.

(** C1 (amended).  With depth testing off every pixel passes and nothing is
    stored.  With depth testing on, a pixel outside the surface or outside
    the clip rectangle, or a NaN depth, is rejected with the state
    unchanged; otherwise the depth is compared with the one stored at
    [(x, y)]: a smaller depth is stored there (the other pixels keep their
    depth) and the call returns true, else the call returns false and the
    state is unchanged. *)
Theorem depth_test_write_spec (st : State) (x y : Z) (z : float) :
  (depth_on st = true -> depth_ok st) ->
  (depth_on st = false -> depth_test_write x y z st = (true, st)) /\
  (depth_on st = true ->
   in_bounds st x y = false \/ in_clip st x y = false \/ is_nan z = true ->
   depth_test_write x y z st = (false, st)) /\
  (depth_on st = true ->
   in_bounds st x y = true -> in_clip st x y = true -> is_nan z = false ->
   let '(pass, st') := depth_test_write x y z st in
   if (z <? depth_at st x y)%f32 then
     pass = true /\ depth_at st' x y = z /\
     st' = set_depth (depth st') st /\
     (forall x' y', in_bounds st x' y' = true -> (x', y') <> (x, y) ->
                    depth_at st' x' y' = depth_at st x' y')
   else pass = false /\ st' = st).
Proof.
  intros Hok. split; [| split].
  - intros Hoff. unfold depth_test_write. now rewrite Hoff.
  - intros Hon Hrej. now apply depth_test_write_reject.
  - intros Hon Hb Hc Hnan. specialize (Hok Hon).
    rewrite depth_test_write_compare by assumption.
    destruct (z <? depth_at st x y)%f32; [| split; reflexivity].
    destruct (depth_index_eq st x y Hok Hb) as [_ Hrange].
    split; [reflexivity |]. split; [| split].
    + unfold depth_at, float_at. cbn [depth fb_w set_depth].
      now apply vget_vset_eq.
    + reflexivity.
    + intros x' y' Hb' Hne. unfold depth_at, float_at.
      cbn [depth fb_w set_depth]. apply vget_vset_ne.
      intros E. apply Hne.
      apply in_bounds_spec in Hb as [Hx Hy].
      apply in_bounds_spec in Hb' as [Hx' Hy'].
      destruct (pixel_offset_inj (fb_w st) x y x' y') as [-> ->];
        auto; lia.
Qed.

Lemma depth_test_write_spec_witness :
  depth_test_write 1 1 f_0_5 surface_2x2 = (true, surface_2x2) /\
  fst (depth_test_write 1 1 f_0_5 surface_2x2_depth) = true /\
  depth_at (snd (depth_test_write 1 1 f_0_5 surface_2x2_depth)) 1 1 = f_0_5.
Proof.
  split.
  - apply (depth_test_write_spec surface_2x2 1 1 f_0_5);
      [intros H; discriminate H | reflexivity].
  - assert (Hok : depth_on surface_2x2_depth = true ->
                  depth_ok surface_2x2_depth).
    { intros _. unfold depth_ok. vm_compute. repeat split; congruence. }
    pose proof (proj2 (proj2 (depth_test_write_spec surface_2x2_depth 1 1
                                f_0_5 Hok))
                  eq_refl eq_refl eq_refl eq_refl) as H.
    destruct (depth_test_write 1 1 f_0_5 surface_2x2_depth) as [pass st'] eqn:E.
    assert (Hlt : (f_0_5 <? depth_at surface_2x2_depth 1 1)%f32 = true)
      by reflexivity.
    rewrite Hlt in H. destruct H as (Hp & Hd & _). cbn [fst snd]. auto.
Defined.

(** The claim as stated fails where depth testing is off: the call answers
    true, not false. *)
Lemma depth_test_write_off_counterexample :
  depth_on surface_2x2 = false /\
  fst (depth_test_write 0 0 f_0_5 surface_2x2) <> false.
Proof. split; [reflexivity | vm_compute; discriminate]. Qed.

(** C8.  With depth testing on, a NaN depth at a pixel inside the surface
    and the clip rectangle is rejected and the state, so also the stored
    depth at [(x, y)], is unchanged: no NaN enters the depth buffer. *)
Theorem depth_test_write_nan (st : State) (x y : Z) (z : float) :
  depth_on st = true ->
  in_bounds st x y = true -> in_clip st x y = true -> is_nan z = true ->
  depth_test_write x y z st = (false, st) /\
  depth_at (snd (depth_test_write x y z st)) x y = depth_at st x y.
Proof.
  intros Hon Hb Hc Hnan.
  assert (E : depth_test_write x y z st = (false, st)).
  { apply depth_test_write_reject; auto. }
  rewrite E. split; reflexivity.
Qed.

Lemma depth_test_write_nan_witness :
  depth_test_write 0 1 f_nan surface_2x2_depth = (false, surface_2x2_depth).
Proof.
  apply (depth_test_write_nan surface_2x2_depth 0 1 f_nan); reflexivity.
Defined.


(* ===================================================================== *)
(** * Post-processing switched off *)
(* ===================================================================== *)

(** C5.  With bloom and tone both disabled, post-processing returns the raw
    color buffer, the same result as the call without post-processing, and
    the state (color and scratch buffers included) is unchanged. *)
Theorem postprocess_passthrough `{LibM} (st : State) :
  bloom_enabled (pp_bloom (post st)) = false ->
  tone_enabled (pp_tone (post st)) = false ->
  build_postprocess_output true st = (BufColor, st) /\
  buffer_of (snd (build_postprocess_output true st))
            (fst (build_postprocess_output true st)) = color st /\
  build_postprocess_output true st = build_postprocess_output false st.
Proof.
  intros Hb Ht. unfold build_postprocess_output. rewrite Hb, Ht. cbn.
  repeat split; reflexivity.
Qed.

Lemma postprocess_passthrough_witness :
  let st :=
    set_postprocess
      (mkPostProcessSettings (mkBloomSettings false f_0_75 f_1_25 4 f_6)
                             (mkToneSettings false f_1_25 f_2_2))
      surface_2x2 in
  build_postprocess_output (H := libm_sample) true st = (BufColor, st).
Proof.
  intros st.
  exact (proj1 (postprocess_passthrough (H := libm_sample) st eq_refl eq_refl)).
Defined.

(* ===================================================================== *)
(** * Degenerate triangles *)
(* ===================================================================== *)

(** C6.  A triangle whose edge function satisfies [|edge(a, b, c)| < 1e-8]
    is skipped by the four triangle rasterizers (flat, gradient, textured
    and the mesh triangle whose projected vertices are [a], [b], [c]): each
    returns the state it was given, so the color buffer, the depth buffer
    and the dirty rectangle are unchanged. *)
Theorem degenerate_triangle_skipped (st : State) (a b c : Vec2) :
  (fabs (edge_fn a b c) <? f_1em8)%f32 = true ->
  (forall col, draw_triangle_filled a b c col st = st) /\
  (forall ca cb cc, draw_triangle_filled_grad a ca b cb c cc st = st) /\
  (forall ua ub uc t tint,
      draw_triangle_textured a ua b ub c uc t tint st = st) /\
  (forall va vb vc t depth_test,
      mkVec2 (vo_x va) (vo_y va) = a -> mkVec2 (vo_x vb) (vo_y vb) = b ->
      mkVec2 (vo_x vc) (vo_y vc) = c ->
      draw_tri_3d va vb vc t depth_test st = st).
Proof.
  intros Harea. repeat split.
  - intros col. unfold draw_triangle_filled, draw_tri_flat.
    destruct (tri_bounds st a b c) as [[[minx miny] maxx] maxy].
    now rewrite Harea.
  - intros ca cb cc. unfold draw_triangle_filled_grad, draw_tri_grad.
    now rewrite Harea.
  - intros ua ub uc t tint. unfold draw_triangle_textured, draw_tri_tex.
    destruct (Image_valid t); cbn [negb]; [| reflexivity].
    now rewrite Harea.
  - intros va vb vc t depth_test Ha Hb Hc. unfold draw_tri_3d.
    rewrite Ha, Hb, Hc.
    destruct (tri_bounds st a b c) as [[[minx miny] maxx] maxy].
    now rewrite Harea.
Qed.

Lemma degenerate_triangle_skipped_witness :
  draw_triangle_filled (mkVec2 f_0 f_0) (mkVec2 f_1 f_1) (mkVec2 f_2 f_2)
    (mkColor 255 255 255 255) surface_2x2 = surface_2x2.
Proof.
  assert (Harea : (fabs (edge_fn (mkVec2 f_0 f_0) (mkVec2 f_1 f_1)
                           (mkVec2 f_2 f_2)) <? f_1em8)%f32 = true)
    by (vm_compute; reflexivity).
  exact (proj1 (degenerate_triangle_skipped surface_2x2 (mkVec2 f_0 f_0)
                  (mkVec2 f_1 f_1) (mkVec2 f_2 f_2) Harea)
           (mkColor 255 255 255 255)).
Defined.

(* ===================================================================== *)
(** * Mesh index handling *)
(* ===================================================================== *)

Lemma vget_app_l {A} (d : A) (l1 l2 : list A) (i : Z) :
  0 <= i < Z.of_nat (length l1) -> vget d (l1 ++ l2) i = vget d l1 i.
Proof.
  intros Hi. unfold vget. destruct (i <? 0); [reflexivity |].
  rewrite lookup_app_l by lia. reflexivity.
Qed.

Lemma vget_app_r {A} (d : A) (l1 l2 : list A) (i : Z) :
  Z.of_nat (length l1) <= i ->
  vget d (l1 ++ l2) i = vget d l2 (i - Z.of_nat (length l1)).
Proof.
  intros Hi. unfold vget.
  destruct (Z.ltb_spec i 0) as [Hneg | _]; [lia |].
  destruct (Z.ltb_spec (i - Z.of_nat (length l1)) 0) as [Hneg | _]; [lia |].
  rewrite lookup_app_r by lia. do 2 f_equal. lia.
Qed.

(** The trip count of [for (i = 0; i < 3 * k; i += 3)]. *)
Lemma trip_count3 (k : Z) : 0 <= k -> (3 * k - 0 + 3 - 1) / 3 = k.
Proof. intros Hk. symmetry. apply (Z.div_unique _ _ _ 2); lia. Qed.

(** The triangle at offset [i] only reads the three indices at [i]. *)
Lemma mesh_triangle_ext (ix ix' : list Z) proj ok vcount texture dt i st :
  0 <= i -> i + 2 <= INT_MAX ->
  vget 0 ix i = vget 0 ix' i -> vget 0 ix (i + 1) = vget 0 ix' (i + 1) ->
  vget 0 ix (i + 2) = vget 0 ix' (i + 2) ->
  mesh_triangle ix proj ok vcount texture dt i st
  = mesh_triangle ix' proj ok vcount texture dt i st.
Proof.
  intros Hi Hmax E0 E1 E2. unfold mesh_triangle, iadd.
  rewrite !cast_int_id by (unfold INT_MIN, INT_MAX in *; lia).
  rewrite Z.add_0_r, E0, E1, E2. reflexivity.
Qed.

(** A triangle with an index outside the vertex array draws nothing. *)
Lemma mesh_triangle_bad (ix : list Z) proj ok vcount texture dt i st :
  0 <= i -> i + 2 <= INT_MAX -> 0 < vcount <= INT_MAX ->
  vcount <= vget 0 ix i \/ vcount <= vget 0 ix (i + 1)
  \/ vcount <= vget 0 ix (i + 2) ->
  mesh_triangle ix proj ok vcount texture dt i st = st.
Proof.
  intros Hi Hmax Hv Hbad. unfold mesh_triangle, iadd, cast_u32.
  rewrite !cast_int_id by (unfold INT_MIN, INT_MAX in *; lia).
  rewrite Z.add_0_r. unfold INT_MAX in *.
  rewrite (Z.mod_small vcount) by lia.
  destruct (_ || _ || _) eqn:E; [reflexivity | lia].
Qed.

(** A triple with an index that is not below [vcount] is skipped alone:
    the call is the call on the index list without that triple. *)
Lemma draw_mesh_skips_triple
    (vs : list Vertex3D) (vcount : Z) (mvp : Mat4) (texture : option Image)
    (dt : bool) (st : State) (pre suf : list Z) (ia ib ic : Z) (np ns : nat) :
  0 < vcount <= INT_MAX ->
  length pre = (3 * np)%nat -> length suf = (3 * ns)%nat ->
  Z.of_nat (length (pre ++ ia :: ib :: ic :: suf)) <= INT_MAX ->
  vcount <= ia \/ vcount <= ib \/ vcount <= ic ->
  draw_mesh (Some vs) vcount (Some (pre ++ ia :: ib :: ic :: suf))
    (Z.of_nat (length (pre ++ ia :: ib :: ic :: suf))) mvp texture dt st
  = draw_mesh (Some vs) vcount (Some (pre ++ suf))
      (Z.of_nat (length (pre ++ suf))) mvp texture dt st.
Proof.
  intros Hv Hpre Hsuf Hmax Hbad.
  rewrite !length_app in *. cbn [length] in *.
  set (ix := pre ++ ia :: ib :: ic :: suf).
  set (ix' := pre ++ suf).
  assert (Hlen : Z.of_nat (length pre + Datatypes.S (Datatypes.S
                   (Datatypes.S (length suf))))
                 = 3 * (Z.of_nat np + 1 + Z.of_nat ns)) by lia.
  assert (Hlen' : Z.of_nat (length pre + length suf)
                  = 3 * (Z.of_nat np + Z.of_nat ns)) by lia.
  rewrite Hlen, Hlen'. unfold draw_mesh.
  assert (Hv0 : (vcount <=? 0) = false) by lia. rewrite Hv0. cbn [orb].
  assert (Hrem : forall k, 0 <= k -> (irem (3 * k) 3 =? 0) = true).
  { intros k Hk. unfold irem. rewrite Z.mul_comm, Z.rem_mul by lia.
    reflexivity. }
  rewrite !Hrem by lia. cbn [negb].
  assert (Hi0 : (3 * (Z.of_nat np + 1 + Z.of_nat ns) <=? 0) = false) by lia.
  rewrite Hi0.
  destruct (project_all st vs vcount mvp) as [proj ok].
  unfold for_range_step. rewrite !trip_count3 by lia.
  set (body := mesh_triangle ix proj ok vcount texture dt).
  set (body' := mesh_triangle ix' proj ok vcount texture dt).
  (* the loop over [ix] is: [np] triangles, the skipped one, [ns] more *)
  replace (Z.to_nat (Z.of_nat np + 1 + Z.of_nat ns))
    with (np + (1 + ns))%nat by lia.
  rewrite for_loop_step_app, (for_loop_step_app body 1 ns).
  assert (Hpre_eq : for_loop_step np 0 3 body st
                    = for_loop_step np 0 3 body' st).
  { apply for_loop_step_ext. intros k s' Hk. unfold body, body'.
    apply mesh_triangle_ext; try lia; unfold ix, ix';
      rewrite !vget_app_l by lia; reflexivity. }
  rewrite Hpre_eq. clear Hpre_eq.
  set (s1 := for_loop_step np 0 3 body' st).
  assert (Hskip : for_loop_step 1 (0 + 3 * Z.of_nat np) 3 body s1 = s1).
  { cbn [for_loop_step]. unfold body.
    apply mesh_triangle_bad; try lia. unfold ix.
    rewrite !vget_app_r by lia.
    replace (0 + 3 * Z.of_nat np - Z.of_nat (length pre)) with 0 by lia.
    replace (0 + 3 * Z.of_nat np + 1 - Z.of_nat (length pre)) with 1 by lia.
    replace (0 + 3 * Z.of_nat np + 2 - Z.of_nat (length pre)) with 2 by lia.
    exact Hbad. }
  rewrite Hskip. clear Hskip.
  destruct (Z.leb_spec (3 * (Z.of_nat np + Z.of_nat ns)) 0) as [Hz | Hnz].
  + (* nothing but the skipped triple *)
    assert (np = 0%nat) by lia. assert (ns = 0%nat) by lia. subst np ns.
    reflexivity.
  + replace (Z.to_nat (Z.of_nat np + Z.of_nat ns)) with (np + ns)%nat by lia.
    rewrite for_loop_step_app. fold s1.
    replace (0 + 3 * Z.of_nat np + 3 * Z.of_nat 1)
      with (0 + 3 * Z.of_nat np + 3) by lia.
    rewrite for_loop_step_shift.
    apply for_loop_step_ext. intros k s' Hk. unfold body, body', mesh_triangle.
    unfold iadd.
    rewrite !cast_int_id by (unfold INT_MIN, INT_MAX in *; lia).
    unfold ix, ix'. rewrite !vget_app_r by lia.
    replace (0 + 3 * Z.of_nat np + 3 * k + 3 + 0 - Z.of_nat (length pre))
      with (3 + (3 * k)) by lia.
    replace (0 + 3 * Z.of_nat np + 3 * k + 3 + 1 - Z.of_nat (length pre))
      with (3 + (3 * k + 1)) by lia.
    replace (0 + 3 * Z.of_nat np + 3 * k + 3 + 2 - Z.of_nat (length pre))
      with (3 + (3 * k + 2)) by lia.
    replace (0 + 3 * Z.of_nat np + 3 * k + 0 - Z.of_nat (length pre))
      with (3 * k) by lia.
    replace (0 + 3 * Z.of_nat np + 3 * k + 1 - Z.of_nat (length pre))
      with (3 * k + 1) by lia.
    replace (0 + 3 * Z.of_nat np + 3 * k + 2 - Z.of_nat (length pre))
      with (3 * k + 2) by lia.
    change (ia :: ib :: ic :: suf) with ([ia; ib; ic] ++ suf).
    rewrite !(vget_app_r 0 [ia; ib; ic] suf) by (cbn [length]; lia).
    cbn [length].
    replace (3 + 3 * k - Z.of_nat 3) with (3 * k) by lia.
    replace (3 + (3 * k + 1) - Z.of_nat 3) with (3 * k + 1) by lia.
    replace (3 + (3 * k + 2) - Z.of_nat 3) with (3 * k + 2) by lia.
    reflexivity.
Qed.

(** The result flag of [project_vertex] does not depend on the value
    found in the [out] parameter. *)
Lemma project_vertex_fst (st : State) (v : Vertex3D) (mvp : Mat4)
    (out out' : VOut) :
  fst (project_vertex st v mvp out) = fst (project_vertex st v mvp out').
Proof.
  unfold project_vertex. cbv zeta.
  destruct (fabs _ <? f_1em8)%f32; [reflexivity |].
  destruct (_ || _); reflexivity.
Qed.

(** Inside a vector the default of a read does not matter. *)
Lemma vget_default {A} (d d' : A) (v : list A) (i : Z) :
  0 <= i < Z.of_nat (length v) -> vget d v i = vget d' v i.
Proof.
  intros Hi. destruct (vget_in_range d v i Hi) as (x & Hx & ->).
  destruct (vget_in_range d' v i Hi) as (x' & Hx' & ->). congruence.
Qed.

(** The first loop of [draw_mesh] leaves, for every vertex, its result
    flag in [ok] and its projection in [proj]; both vectors hold [vcount]
    entries. *)
Lemma project_all_spec (st : State) (vs : list Vertex3D) (vcount : Z)
    (mvp : Mat4) :
  0 < vcount <= INT_MAX ->
  Z.of_nat (length (fst (project_all st vs vcount mvp))) = vcount /\
  Z.of_nat (length (snd (project_all st vs vcount mvp))) = vcount /\
  forall k, 0 <= k < vcount ->
    vget false (snd (project_all st vs vcount mvp)) k
    = fst (project_index st vs mvp k) /\
    vget VOut_default (fst (project_all st vs vcount mvp)) k
    = snd (project_index st vs mvp k).
Proof.
  intros Hv. unfold project_all. cbv zeta.
  unfold INT_MAX in *. rewrite (cast_size_t_id vcount) by lia.
  pose (P := fun (i : Z) (s : list VOut * list bool) =>
               Z.of_nat (length (fst s)) = vcount /\
               Z.of_nat (length (snd s)) = vcount /\
               (forall k, 0 <= k < i ->
                  vget false (snd s) k = fst (project_index st vs mvp k) /\
                  vget VOut_default (fst s) k
                  = snd (project_index st vs mvp k)) /\
               (forall k, i <= k -> vget VOut_default (fst s) k = VOut_default)).
  match goal with
  | |- context [for_range 0 vcount ?b ?s0] =>
      assert (HP : P vcount (for_range 0 vcount b s0))
  end.
  { apply (for_range_ind P); [lia | |].
    - unfold P. cbn [fst snd]. rewrite !length_replicate.
      split; [lia |]. split; [lia |]. split; [intros k Hk; lia |].
      intros k Hk. unfold vget. destruct (k <? 0); [reflexivity |].
      destruct (replicate _ _ !! _) as [x |] eqn:E; [| reflexivity].
      apply lookup_replicate in E as [-> _]. reflexivity.
    - intros i [proj ok] Hi (Hlp & Hlo & Hdone & Hrest). cbn [fst snd] in *.
      rewrite (cast_size_t_id i) by lia.
      rewrite (Hrest i) by lia.
      fold (project_index st vs mvp i).
      destruct (project_index st vs mvp i) as [res out] eqn:E.
      unfold P. cbn [fst snd]. rewrite !length_vset.
      split; [exact Hlp |]. split; [exact Hlo |]. split.
      + intros k Hk. destruct (Z.eq_dec k i) as [-> | Hne].
        * rewrite !vget_vset_eq by lia. now rewrite E.
        * rewrite !vget_vset_ne by lia. apply Hdone. lia.
      + intros k Hk. rewrite vget_vset_ne by lia. apply Hrest. lia. }
  destruct HP as (Hlp & Hlo & Hdone & _).
  split; [exact Hlp |]. split; [exact Hlo | exact Hdone].
Qed.

(** The triangle at offset [i] is the triple of its three indices, taken
    in the words of the specification. *)
Lemma mesh_triangle_by_spec (st0 : State) (vs : list Vertex3D) (ix : list Z)
    (vcount : Z) (mvp : Mat4) (texture : option Image) (dt : bool) (i : Z)
    (s : State) :
  0 < vcount <= INT_MAX -> 0 <= i -> i + 2 <= INT_MAX ->
  0 <= vget 0 ix i -> 0 <= vget 0 ix (i + 1) -> 0 <= vget 0 ix (i + 2) ->
  mesh_triangle ix (fst (project_all st0 vs vcount mvp))
    (snd (project_all st0 vs vcount mvp)) vcount texture dt i s
  = triangle_by_spec st0 vs vcount mvp texture dt
      (vget 0 ix i, vget 0 ix (i + 1), vget 0 ix (i + 2)) s.
Proof.
  intros Hv Hi Hmax Ha Hb Hc.
  destruct (project_all_spec st0 vs vcount mvp Hv) as (Hlp & Hlo & Hall).
  unfold mesh_triangle, triangle_by_spec, iadd, cast_u32.
  rewrite !cast_int_id by (unfold INT_MIN, INT_MAX in *; lia).
  rewrite Z.add_0_r. cbv zeta.
  unfold INT_MAX in *. rewrite (Z.mod_small vcount) by lia.
  set (ia := vget 0 ix i) in *. set (ib := vget 0 ix (i + 1)) in *.
  set (ic := vget 0 ix (i + 2)) in *.
  rewrite !Z.geb_leb.
  destruct (Z.leb_spec vcount ia) as [? | Hia]; [reflexivity |].
  destruct (Z.leb_spec vcount ib) as [? | Hib]; [reflexivity |].
  destruct (Z.leb_spec vcount ic) as [? | Hic]; [reflexivity |].
  cbn [orb].
  rewrite (vget_default true false _ ia), (vget_default true false _ ib),
    (vget_default true false _ ic) by lia.
  destruct (Hall ia ltac:(lia)) as [-> ->].
  destruct (Hall ib ltac:(lia)) as [-> ->].
  destruct (Hall ic ltac:(lia)) as [-> ->].
  reflexivity.
Qed.

(** The second loop of [draw_mesh] over the index list [pre ++ rest], from
    the offset of [rest] on: the triples of [rest], one after the other. *)
Lemma mesh_loop_spec (st0 : State) (vs : list Vertex3D) (vcount : Z)
    (mvp : Mat4) (texture : option Image) (dt : bool) (n : nat) :
  0 < vcount <= INT_MAX ->
  forall (rest pre : list Z) (s : State),
    length rest = (3 * n)%nat -> Forall (fun i => 0 <= i) rest ->
    Z.of_nat (length pre + length rest) <= INT_MAX ->
    for_loop_step n (Z.of_nat (length pre)) 3
      (mesh_triangle (pre ++ rest) (fst (project_all st0 vs vcount mvp))
         (snd (project_all st0 vs vcount mvp)) vcount texture dt) s
    = foldl (fun s t => triangle_by_spec st0 vs vcount mvp texture dt t s) s
        (index_triples rest).
Proof.
  intros Hv. induction n as [| n IH]; intros rest pre s Hlen Hpos Hmax.
  - destruct rest; [reflexivity | discriminate Hlen].
  - destruct rest as [| a [| b [| c rest]]]; try (cbn in Hlen; lia).
    cbn [length] in Hlen, Hmax.
    apply Forall_cons in Hpos as [Ha Hpos].
    apply Forall_cons in Hpos as [Hb Hpos].
    apply Forall_cons in Hpos as [Hc Hpos].
    cbn [for_loop_step index_triples foldl].
    assert (Ea : vget 0 (pre ++ a :: b :: c :: rest) (Z.of_nat (length pre))
                 = a).
    { rewrite vget_app_r by lia.
      now replace (Z.of_nat (length pre) - Z.of_nat (length pre)) with 0 by lia. }
    assert (Eb : vget 0 (pre ++ a :: b :: c :: rest)
                   (Z.of_nat (length pre) + 1) = b).
    { rewrite vget_app_r by lia.
      now replace (Z.of_nat (length pre) + 1 - Z.of_nat (length pre))
        with 1 by lia. }
    assert (Ec : vget 0 (pre ++ a :: b :: c :: rest)
                   (Z.of_nat (length pre) + 2) = c).
    { rewrite vget_app_r by lia.
      now replace (Z.of_nat (length pre) + 2 - Z.of_nat (length pre))
        with 2 by lia. }
    rewrite mesh_triangle_by_spec by (rewrite ?Ea, ?Eb, ?Ec; lia).
    rewrite Ea, Eb, Ec.
    replace (pre ++ a :: b :: c :: rest) with ((pre ++ [a; b; c]) ++ rest)
      by (now rewrite <- app_assoc).
    replace (Z.of_nat (length pre) + 3)
      with (Z.of_nat (length (pre ++ [a; b; c])))
      by (rewrite length_app; cbn [length]; lia).
    apply IH; [lia | exact Hpos |].
    rewrite length_app. cbn [length]. lia.
Qed.

(** C7.  [draw_mesh] with an index count that is not a multiple of three
    returns the state unchanged.  Otherwise it rasterizes the index list
    in groups of three: for a list of [uint32_t] indices whose length is a
    multiple of three the call is [draw_mesh_spec], which draws with
    [draw_tri_3d], in order, every triple whose three indices are below
    [vcount] and whose three vertices were projected, and skips the
    others.  A triple with an index that is not below [vcount] is skipped
    alone: the call draws what it draws with that triple removed from the
    index list. *)
Theorem draw_mesh_index_handling
    (vs : list Vertex3D) (vcount : Z) (mvp : Mat4) (texture : option Image)
    (dt : bool) (st : State) :
  (forall verts indices icount,
      irem icount 3 <> 0 ->
      draw_mesh verts vcount indices icount mvp texture dt st = st) /\
  (forall (ix : list Z) (n : nat),
      0 < vcount <= INT_MAX ->
      length ix = (3 * n)%nat -> Z.of_nat (length ix) <= INT_MAX ->
      Forall (fun i => 0 <= i) ix ->
      draw_mesh (Some vs) vcount (Some ix) (Z.of_nat (length ix)) mvp
        texture dt st
      = draw_mesh_spec vs vcount ix mvp texture dt st) /\
  (forall (pre suf : list Z) (ia ib ic : Z) (np ns : nat),
      0 < vcount <= INT_MAX ->
      length pre = (3 * np)%nat -> length suf = (3 * ns)%nat ->
      Z.of_nat (length (pre ++ ia :: ib :: ic :: suf)) <= INT_MAX ->
      vcount <= ia \/ vcount <= ib \/ vcount <= ic ->
      draw_mesh (Some vs) vcount (Some (pre ++ ia :: ib :: ic :: suf))
        (Z.of_nat (length (pre ++ ia :: ib :: ic :: suf))) mvp texture dt st
      = draw_mesh (Some vs) vcount (Some (pre ++ suf))
          (Z.of_nat (length (pre ++ suf))) mvp texture dt st).
Proof.
  split; [| split].
  - intros verts indices icount Hrem. unfold draw_mesh.
    destruct verts as [vs' |], indices as [ix |]; try reflexivity.
    destruct ((vcount <=? 0) || (icount <=? 0)); [reflexivity |].
    destruct (Z.eqb_spec (irem icount 3) 0) as [E | _]; [contradiction |].
    reflexivity.
  - intros ix n Hv Hlen Hmax Hpos.
    unfold draw_mesh, draw_mesh_spec.
    assert (Hv0 : (vcount <=? 0) = false) by lia. rewrite Hv0. cbn [orb].
    destruct (Z.leb_spec (Z.of_nat (length ix)) 0) as [Hz | Hnz].
    { destruct ix; [reflexivity | cbn [length] in Hz; lia]. }
    rewrite Hlen.
    replace (Z.of_nat (3 * n)) with (3 * Z.of_nat n) by lia.
    assert (Hrem : (irem (3 * Z.of_nat n) 3 =? 0) = true).
    { unfold irem. rewrite Z.mul_comm, Z.rem_mul by lia. reflexivity. }
    rewrite Hrem. cbn [negb].
    destruct (project_all st vs vcount mvp) as [proj ok] eqn:Epa.
    unfold for_range_step. rewrite trip_count3 by lia.
    rewrite Nat2Z.id.
    pose proof (mesh_loop_spec st vs vcount mvp texture dt n Hv
                  ix [] st Hlen Hpos) as Hloop.
    rewrite Epa in Hloop. cbn [fst snd length app Nat.add] in Hloop.
    apply Hloop. exact Hmax.
  - intros pre suf ia ib ic np ns.
    apply draw_mesh_skips_triple.
Qed.

Lemma draw_mesh_index_handling_witness :
  let st' := draw_mesh (Some sample_vertices) 3 (Some [0; 1; 7; 0; 1; 2]) 6
               mat4_identity None false surface_2x2 in
  st' = draw_mesh_spec sample_vertices 3 [0; 1; 7; 0; 1; 2]
          mat4_identity None false surface_2x2 /\
  get_pixel surface_2x2 0 1 = mkColor 0 0 0 255 /\
  get_pixel st' 0 1 = mkColor 255 255 255 255.
Proof.
  intros st'.
  assert (Hv : 0 < 3 <= INT_MAX) by (unfold INT_MAX; lia).
  assert (Hmax : Z.of_nat (length [0; 1; 7; 0; 1; 2]) <= INT_MAX)
    by (vm_compute; congruence).
  assert (Hpos : Forall (fun i => 0 <= i) [0; 1; 7; 0; 1; 2])
    by (repeat (apply Forall_cons; split; [lia |]); apply Forall_nil_2).
  pose proof (proj1 (proj2 (draw_mesh_index_handling sample_vertices 3
                              mat4_identity None false surface_2x2))
                [0; 1; 7; 0; 1; 2] 2%nat Hv eq_refl Hmax Hpos) as E.
  split; [exact E |]. split; [reflexivity |].
  unfold st'.
  change (Z.of_nat (length [0; 1; 7; 0; 1; 2])) with 6 in E.
  rewrite E. vm_compute. reflexivity.
Defined.


(* ===================================================================== *)
(** * Resizing the framebuffer *)
(* ===================================================================== *)

Lemma size3_id (w h k : Z) :
  0 <= w <= INT_MAX -> 0 <= h <= INT_MAX -> 0 < k ->
  w * h * k <= INT_MAX -> size3 w h k = w * h * k.
Proof.
  intros Hw Hh Hk Hmax. unfold size3, smul, INT_MAX in *.
  assert (0 <= w * h) by nia.
  assert (w * h <= w * h * k) by nia.
  rewrite (cast_size_t_id w), (cast_size_t_id h) by lia.
  rewrite (cast_size_t_id (w * h)) by lia.
  apply cast_size_t_id. lia.
Qed.

Lemma alpha_done_replicate (n : Z) :
  0 <= n -> alpha_done n 0 (replicate (Z.to_nat n) 0).
Proof.
  intros Hn. split; [rewrite length_replicate; lia |].
  intros j Hj. unfold vget.
  destruct (Z.ltb_spec j 0) as [Hneg | _]; [lia |].
  rewrite lookup_replicate_2 by lia. cbn [default].
  assert (0 <= j / 4) by (apply Z.div_pos; lia).
  destruct (j mod 4 =? 3); cbn [andb]; [| reflexivity].
  destruct (Z.ltb_spec (j / 4) 0); [lia | reflexivity].
Qed.

Lemma alpha_done_step (n p : Z) (v : list Z) :
  alpha_done n p v -> 0 <= p -> 4 * p + 3 < n ->
  alpha_done n (p + 1) (vset v (4 * p + 3) 255).
Proof.
  intros [Hlen Hv] Hp Hlt. split; [rewrite length_vset; exact Hlen |].
  intros j Hj. destruct (Z.eq_dec j (4 * p + 3)) as [-> | Hne].
  - rewrite vget_vset_eq by lia.
    replace (4 * p + 3) with (3 + p * 4) by lia.
    rewrite Z.mod_add, Z.div_add by lia.
    rewrite (Z.mod_small 3 4), (Z.div_small 3 4) by lia. cbn [Z.eqb andb Pos.eqb].
    destruct (Z.ltb_spec (0 + p) (p + 1)); [reflexivity | lia].
  - rewrite vget_vset_ne by lia. rewrite (Hv j Hj).
    pose proof (Z.div_mod j 4 ltac:(lia)) as Hdm.
    pose proof (Z.mod_pos_bound j 4 ltac:(lia)) as Hmb.
    destruct (Z.eqb_spec (j mod 4) 3) as [E3 | _]; cbn [andb]; [| reflexivity].
    destruct (Z.ltb_spec (j / 4) p), (Z.ltb_spec (j / 4) (p + 1));
      try reflexivity; lia.
Qed.

(** Reading a finished pixel: opaque black. *)
Lemma alpha_done_load (n p q : Z) (v : list Z) :
  alpha_done n p v -> 0 <= q < p -> 4 * q + 3 < n -> n <= INT_MAX ->
  load_color v (q * 4) = mkColor 0 0 0 255.
Proof.
  intros [Hlen Hv] Hq Hlt Hmax. unfold load_color, byte_at.
  rewrite !sadd_id by lia.
  rewrite !Hv by lia.
  replace (q * 4 + 0) with (0 + q * 4) by lia.
  replace (q * 4 + 1) with (1 + q * 4) by lia.
  replace (q * 4 + 2) with (2 + q * 4) by lia.
  replace (q * 4 + 3) with (3 + q * 4) by lia.
  rewrite !Z.mod_add, !Z.div_add by lia.
  rewrite (Z.mod_small 0 4), (Z.mod_small 1 4), (Z.mod_small 2 4),
    (Z.mod_small 3 4), (Z.div_small 3 4) by lia.
  cbn [Z.eqb andb Pos.eqb]. rewrite Z.add_0_l.
  destruct (Z.ltb_spec q p); [reflexivity | lia].
Qed.

(** The two loops of [resize_framebuffer] finish every pixel and touch
    nothing but the color buffer. *)
Lemma alpha_loop (w h : Z) (st0 : State) (v0 : list Z) :
  1 <= w -> 1 <= h -> w * h * 4 <= INT_MAX ->
  alpha_done (w * h * 4) 0 v0 ->
  exists v,
    for_range 0 h (fun y st =>
      for_range 0 w (fun x st =>
        set_color (vset (color st) (sadd (idx_rgba w x y) 3) 255) st) st)
      (set_color v0 st0)
    = set_color v st0
    /\ alpha_done (w * h * 4) (w * h) v.
Proof.
  intros Hw Hh Hmax H0.
  pose (P := fun (p : Z) (st : State) =>
               exists v, st = set_color v st0 /\ alpha_done (w * h * 4) p v).
  assert (Hrows : P (h * w) (for_range 0 h (fun y st =>
             for_range 0 w (fun x st =>
               set_color (vset (color st) (sadd (idx_rgba w x y) 3) 255) st) st)
             (set_color v0 st0))).
  { apply (for_range_ind (fun y st => P (y * w) st)); [lia | |].
    - exists v0. split; [reflexivity | exact H0].
    - intros y st Hy HP.
      replace ((y + 1) * w) with (y * w + w) by lia.
      apply (for_range_ind (fun x st => P (y * w + x) st)); [lia | |].
      + now rewrite Z.add_0_r.
      + intros x st' Hx (v & -> & Hv).
        rewrite (idx_rgba_eq w h) by lia.
        destruct (idx_rgba_bound w h x y) as [Hlo Hhi]; [lia | lia |].
        rewrite sadd_id by lia.
        exists (vset v ((y * w + x) * 4 + 3) 255). split; [reflexivity |].
        replace (y * w + (x + 1)) with (y * w + x + 1) by lia.
        replace ((y * w + x) * 4 + 3) with (4 * (y * w + x) + 3) by lia.
        apply alpha_done_step; [exact Hv | nia | lia]. }
  destruct Hrows as (v & E & Hv). exists v. split; [exact E |].
  replace (h * w) with (w * h) in Hv by lia. exact Hv.
Qed.

Lemma create_presenter_surface `{GLDriver} (st : State) :
  fb_w (snd (create_presenter st)) = fb_w st /\
  fb_h (snd (create_presenter st)) = fb_h st /\
  color (snd (create_presenter st)) = color st.
Proof.
  unfold create_presenter.
  repeat match goal with |- context [if ?c then _ else _] => destruct c end;
    repeat split; reflexivity.
Qed.

(** The surface fields after [resize_framebuffer]. *)
Lemma resize_framebuffer_surface `{GLDriver} (w h : Z) (st : State) :
  Z.max 1 w * Z.max 1 h * 4 <= INT_MAX ->
  let st' := resize_framebuffer w h st in
  fb_w st' = Z.max 1 w /\ fb_h st' = Z.max 1 h /\
  alpha_done (Z.max 1 w * Z.max 1 h * 4) (Z.max 1 w * Z.max 1 h) (color st').
Proof.
  intros Hmax. set (W := Z.max 1 w) in *. set (Hh := Z.max 1 h) in *.
  assert (HW : 1 <= W) by lia. assert (HH : 1 <= Hh) by lia.
  assert (Hn : 0 <= W * Hh * 4) by nia.
  assert (HWmax : W <= INT_MAX) by nia.
  assert (HHmax : Hh <= INT_MAX) by nia.
  unfold resize_framebuffer. fold W Hh.
  rewrite size3_id by lia.
  destruct (alpha_loop W Hh (set_fb_h Hh (set_fb_w W st))
              (replicate (Z.to_nat (W * Hh * 4)) 0) HW HH Hmax
              (alpha_done_replicate _ Hn)) as (v & Eloop & Hv).
  change (set_color (replicate (Z.to_nat (W * Hh * 4)) 0)
            (set_fb_h Hh (set_fb_w W st)))
    with (set_color (replicate (Z.to_nat (W * Hh * 4)) 0)
            (set_fb_h Hh (set_fb_w W st))) in Eloop.
  cbv zeta. rewrite Eloop.
  match goal with
  | |- context [if gl_ready ?p then snd (create_presenter ?s) else ?t] =>
      destruct (create_presenter_surface s) as (Ew & Eh & Ec);
      destruct (gl_ready p); [rewrite Ew, Eh, Ec |]
  end;
  destruct (depth_on _); cbn; auto.
Qed.

(** C4 (amended).  [resize_framebuffer(w, h)] clamps both dimensions to at
    least 1.  Whenever the clamped byte count fits an [int], the color
    buffer has exactly [max(1,w) * max(1,h) * 4] bytes, which is
    [w * h * 4] for [w, h >= 1], and every pixel is opaque black, so every
    alpha channel is 255. *)
Theorem resize_framebuffer_spec `{GLDriver} (w h : Z) (st : State) :
  Z.max 1 w * Z.max 1 h * 4 <= INT_MAX ->
  let st' := resize_framebuffer w h st in
  fb_w st' = Z.max 1 w /\ fb_h st' = Z.max 1 h /\
  Z.of_nat (length (color st')) = Z.max 1 w * Z.max 1 h * 4 /\
  (1 <= w -> 1 <= h -> Z.of_nat (length (color st')) = w * h * 4) /\
  (forall x y, in_bounds st' x y = true ->
               get_pixel st' x y = mkColor 0 0 0 255 /\
               col_a (get_pixel st' x y) = 255).
Proof.
  intros Hmax st'.
  destruct (resize_framebuffer_surface w h st Hmax) as (Ew & Eh & Hdone).
  fold st' in Ew, Eh, Hdone.
  split; [exact Ew |]. split; [exact Eh |].
  split; [exact (proj1 Hdone) |].
  split; [intros Hw Hh; rewrite (proj1 Hdone), !Z.max_r by lia; reflexivity |].
  intros x y Hb. apply in_bounds_spec in Hb as Hxy.
  rewrite Ew, Eh in Hxy. destruct Hxy as [Hx Hy].
  assert (E : get_pixel st' x y = mkColor 0 0 0 255).
  { unfold get_pixel. unfold in_bounds in Hb. apply negb_true_iff in Hb.
    rewrite Hb, Ew.
    rewrite (idx_rgba_eq (Z.max 1 w) (Z.max 1 h)) by assumption.
    destruct (idx_rgba_bound (Z.max 1 w) (Z.max 1 h) x y Hx Hy) as [Hlo Hhi].
    apply (alpha_done_load _ _ _ _ Hdone); [nia | lia | exact Hmax]. }
  rewrite E. split; reflexivity.
Qed.

Lemma resize_framebuffer_spec_witness :
  Z.of_nat (length (color (resize_framebuffer (H := headless_driver) 3 2
                             State_initial))) = 24.
Proof.
  assert (Hmax : Z.max 1 3 * Z.max 1 2 * 4 <= INT_MAX)
    by (vm_compute; discriminate).
  exact (proj1 (proj2 (proj2 (resize_framebuffer_spec (H := headless_driver)
                                3 2 State_initial Hmax)))).
Defined.

(** The claim as stated fails for a dimension below 1: [resize(0, 0)]
    leaves a 1 x 1 surface of 4 bytes, not [0 * 0 * 4] bytes. *)
Lemma resize_framebuffer_zero_counterexample :
  Z.of_nat (length (color (resize_framebuffer (H := headless_driver) 0 0
                             State_initial))) <> 0 * 0 * 4.
Proof. vm_compute. discriminate. Qed.


(* ===================================================================== *)
(** * binary32 rounding

    What the proofs below need from [SpecFloat]'s rounding: the number of
    digits of a mantissa, the effect of the right shifts of [shr], and the
    shape of the result of [binary_round_aux] and [binary_round]. *)
(* ===================================================================== *)

Lemma fexp32 (x : Z) : fexp f32_prec f32_emax x = Z.max (x - 24) (-149).
Proof. reflexivity. Qed.

(** [digits2_pos p] is the position of the leading bit of [p]. *)
Lemma digits2_pos_bounds (p : positive) :
  2 ^ (Zpos (digits2_pos p) - 1) <= Zpos p < 2 ^ Zpos (digits2_pos p).
Proof.
  induction p as [p IH | p IH |]; cbn [digits2_pos].
  - rewrite Pos2Z.inj_succ, Pos2Z.inj_xI.
    replace (Z.succ (Zpos (digits2_pos p)) - 1)
      with (Z.succ (Zpos (digits2_pos p) - 1)) by lia.
    rewrite !Z.pow_succ_r by lia.
    replace (Z.succ (Zpos (digits2_pos p) - 1)) with (Zpos (digits2_pos p))
      by lia.
    revert IH. generalize (2 ^ (Zpos (digits2_pos p) - 1)).
    generalize (2 ^ Zpos (digits2_pos p)). intros a b IH. lia.
  - rewrite Pos2Z.inj_succ. change (Zpos p~0) with (2 * Zpos p).
    replace (Z.succ (Zpos (digits2_pos p)) - 1)
      with (Z.succ (Zpos (digits2_pos p) - 1)) by lia.
    rewrite !Z.pow_succ_r by lia.
    replace (Z.succ (Zpos (digits2_pos p) - 1)) with (Zpos (digits2_pos p))
      by lia.
    revert IH. generalize (2 ^ (Zpos (digits2_pos p) - 1)).
    generalize (2 ^ Zpos (digits2_pos p)). intros a b IH. lia.
  - split; [apply Z.leb_le | apply Z.ltb_lt]; reflexivity.
Qed.

Lemma Zdigits2_bounds (m : Z) :
  0 < m -> 2 ^ (Zdigits2 m - 1) <= m < 2 ^ Zdigits2 m.
Proof.
  destruct m as [| p | p]; try lia. intros _. apply digits2_pos_bounds.
Qed.

Lemma Zdigits2_nonneg (m : Z) : 0 <= Zdigits2 m.
Proof. destruct m; cbn; lia. Qed.

(** A mantissa below [2^k] has at most [k] digits, and conversely. *)
Lemma Zdigits2_le (m k : Z) : 0 <= m -> 0 <= k -> m < 2 ^ k -> Zdigits2 m <= k.
Proof.
  intros Hm Hk Hlt. destruct (Z.eq_dec m 0) as [-> | Hne]; [cbn; lia |].
  destruct (Zdigits2_bounds m ltac:(lia)) as [Hlo _].
  destruct (Z.le_gt_cases (Zdigits2 m) k) as [Hle | Hgt]; [exact Hle |].
  assert (2 ^ k <= 2 ^ (Zdigits2 m - 1)) by (apply Z.pow_le_mono_r; lia).
  lia.
Qed.

Lemma Zdigits2_lt_pow (m k : Z) : 0 <= m -> Zdigits2 m <= k -> m < 2 ^ k.
Proof.
  intros Hm Hle. destruct (Z.eq_dec m 0) as [-> | Hne].
  - apply Z.pow_pos_nonneg; [lia |]. pose proof (Zdigits2_nonneg 0). cbn in *. lia.
  - destruct (Zdigits2_bounds m ltac:(lia)) as [_ Hhi].
    assert (2 ^ Zdigits2 m <= 2 ^ k) by (apply Z.pow_le_mono_r; lia).
    lia.
Qed.

Lemma Zdigits2_unique (m k : Z) :
  2 ^ (k - 1) <= m < 2 ^ k -> 0 < k -> Zdigits2 m = k.
Proof.
  intros [Hlo Hhi] Hk.
  assert (Hm : 0 < m).
  { assert (0 < 2 ^ (k - 1)) by (apply Z.pow_pos_nonneg; lia). lia. }
  destruct (Zdigits2_bounds m Hm) as [Hlo' Hhi'].
  pose proof (Zdigits2_nonneg m) as Hd.
  destruct (Z.lt_trichotomy (Zdigits2 m) k) as [Hlt | [Heq | Hgt]];
    [| exact Heq |].
  - assert (2 ^ Zdigits2 m <= 2 ^ (k - 1)) by (apply Z.pow_le_mono_r; lia). lia.
  - assert (2 ^ k <= 2 ^ (Zdigits2 m - 1)) by (apply Z.pow_le_mono_r; lia). lia.
Qed.

(** ** Right shifts *)

Lemma shr_1_m (mrs : shr_record) :
  0 <= shr_m mrs -> shr_m (shr_1 mrs) = shr_m mrs / 2.
Proof.
  destruct mrs as [m r s]. cbn [shr_m]. intros Hm.
  destruct m as [| p | p]; [reflexivity | | lia].
  destruct p as [p | p |]; cbn [shr_1 shr_m].
  - rewrite Pos2Z.inj_xI. apply (Z.div_unique _ _ _ 1); lia.
  - change (Zpos p~0) with (2 * Zpos p).
    apply (Z.div_unique _ _ _ 0); lia.
  - reflexivity.
Qed.

Lemma iter_shr_1_m (p : positive) (mrs : shr_record) :
  0 <= shr_m mrs ->
  shr_m (SpecFloat.iter_pos shr_1 p mrs) = shr_m mrs / 2 ^ Zpos p.
Proof.
  revert mrs. induction p as [p IH | p IH |]; intros mrs Hm; cbn [SpecFloat.iter_pos].
  - assert (H1 : 0 <= shr_m (shr_1 mrs)).
    { rewrite shr_1_m by exact Hm. apply Z.div_pos; lia. }
    assert (H2 : 0 <= shr_m (SpecFloat.iter_pos shr_1 p (shr_1 mrs))).
    { rewrite IH by exact H1. apply Z.div_pos; [exact H1 |].
      apply Z.pow_pos_nonneg; lia. }
    rewrite IH by exact H2. rewrite IH by exact H1. rewrite shr_1_m by exact Hm.
    rewrite !Z.div_div by (try apply Z.pow_pos_nonneg; lia).
    f_equal. rewrite Pos2Z.inj_xI.
    replace (2 * Zpos p + 1) with (1 + Zpos p + Zpos p) by lia.
    rewrite !Z.pow_add_r by lia. lia.
  - assert (H2 : 0 <= shr_m (SpecFloat.iter_pos shr_1 p mrs)).
    { rewrite IH by exact Hm. apply Z.div_pos; [exact Hm |].
      apply Z.pow_pos_nonneg; lia. }
    rewrite IH by exact H2. rewrite IH by exact Hm.
    rewrite Z.div_div by (try apply Z.pow_pos_nonneg; lia).
    f_equal. change (Zpos p~0) with (2 * Zpos p).
    replace (2 * Zpos p) with (Zpos p + Zpos p) by lia.
    rewrite Z.pow_add_r by lia. reflexivity.
  - rewrite shr_1_m by exact Hm. reflexivity.
Qed.

(** The mantissa and the exponent after [shr]. *)
Lemma shr_m_e (mrs : shr_record) (e n : Z) :
  0 <= shr_m mrs ->
  shr_m (fst (shr mrs e n)) = (if 0 <? n then shr_m mrs / 2 ^ n else shr_m mrs)
  /\ snd (shr mrs e n) = (if 0 <? n then e + n else e).
Proof.
  intros Hm. unfold shr. destruct n as [| p | p]; cbn [fst snd Z.ltb Z.compare].
  - split; reflexivity.
  - split; [apply iter_shr_1_m; exact Hm | reflexivity].
  - split; reflexivity.
Qed.

Lemma shr_record_of_loc_m (m : Z) (l : location) :
  shr_m (shr_record_of_loc m l) = m.
Proof. destruct l as [| []]; reflexivity. Qed.

Lemma round_nearest_even_bounds (m : Z) (l : location) :
  m <= round_nearest_even m l <= m + 1.
Proof.
  unfold round_nearest_even. destruct l as [| []]; try lia.
  destruct (Z.even m); lia.
Qed.

(** ** The shape of a rounded result *)

Lemma pow2_24 : 2 ^ 24 = 16777216.
Proof. reflexivity. Qed.

Lemma binary_round_aux_shape (sx : bool) (mx ex : Z) (lx : location) :
  0 <= mx ->
  let fe := Z.max (Zdigits2 mx + ex - 24) (-149) in
  let r := binary_round_aux f32_prec f32_emax sx mx ex lx in
  rounded_shape sx (Z.max ex fe) r /\
  (is_zero r = true -> mx = 0 \/ (ex < fe /\ mx < 2 ^ (fe - ex))).
Proof.
  intros Hmx. cbv zeta. unfold binary_round_aux, shr_fexp. rewrite !fexp32.
  set (d := Zdigits2 mx). set (fe := Z.max (d + ex - 24) (-149)).
  set (e1 := Z.max ex fe).
  pose proof (Zdigits2_nonneg mx) as Hd. fold d in Hd.
  (* first shift *)
  pose proof (shr_m_e (shr_record_of_loc mx lx) ex (fe - ex)) as H1.
  rewrite shr_record_of_loc_m in H1. specialize (H1 Hmx).
  destruct (shr (shr_record_of_loc mx lx) ex (fe - ex)) as [mrs' e'] eqn:E1.
  cbn [fst snd] in H1. destruct H1 as [Hm1 He1].
  assert (He' : e' = e1).
  { rewrite He1. unfold e1. destruct (Z.ltb_spec 0 (fe - ex)); lia. }
  assert (Hm1b : 0 <= shr_m mrs' < 16777216).
  { rewrite Hm1. destruct (Z.ltb_spec 0 (fe - ex)) as [Hn | Hn].
    - assert (Hpow : 0 < 2 ^ (fe - ex)) by (apply Z.pow_pos_nonneg; lia).
      split; [apply Z.div_pos; lia |].
      apply Z.div_lt_upper_bound; [exact Hpow |].
      rewrite <- pow2_24, <- Z.pow_add_r by lia.
      apply Zdigits2_lt_pow; [exact Hmx |]. fold d. unfold fe. lia.
    - split; [exact Hmx |]. rewrite <- pow2_24.
      apply Zdigits2_lt_pow; [exact Hmx |]. fold d. unfold fe in Hn. lia. }
  assert (Hzero : shr_m mrs' = 0 -> mx = 0 \/ (ex < fe /\ mx < 2 ^ (fe - ex))).
  { rewrite Hm1. destruct (Z.ltb_spec 0 (fe - ex)) as [Hn | Hn]; [| auto].
    intros Hq. right. split; [lia |].
    assert (Hpow : 0 < 2 ^ (fe - ex)) by (apply Z.pow_pos_nonneg; lia).
    pose proof (Z.div_mod mx (2 ^ (fe - ex)) ltac:(lia)) as Hdm.
    pose proof (Z.mod_pos_bound mx (2 ^ (fe - ex)) Hpow) as Hmb.
    rewrite Hq in Hdm. lia. }
  clear Hm1 He1 E1. rewrite fexp32.
  (* rounding *)
  pose proof (round_nearest_even_bounds (shr_m mrs') (loc_of_shr_record mrs'))
    as Hr.
  set (m2 := round_nearest_even (shr_m mrs') (loc_of_shr_record mrs')) in *.
  assert (Hm2 : 0 <= m2 <= 16777216) by lia.
  (* second shift *)
  set (d2 := Zdigits2 m2). set (fe2 := Z.max (d2 + e' - 24) (-149)).
  pose proof (shr_m_e (shr_record_of_loc m2 loc_Exact) e' (fe2 - e')) as H2.
  rewrite shr_record_of_loc_m in H2. specialize (H2 ltac:(lia)).
  destruct (shr (shr_record_of_loc m2 loc_Exact) e' (fe2 - e')) as [mrs'' e'']
    eqn:E2.
  cbn [fst snd] in H2. destruct H2 as [Hm3 He3].
  assert (He1lo : -149 <= e1) by (unfold e1, fe; lia).
  destruct (Z.eq_dec m2 0) as [Hz | Hnz].
  - (* rounded to zero *)
    assert (Hm3z : shr_m mrs'' = 0).
    { rewrite Hm3, Hz. destruct (0 <? fe2 - e'); [apply Zdiv_0_l | reflexivity]. }
    rewrite Hm3z. cbn [rounded_shape is_zero]. split; [reflexivity |].
    intros _. apply Hzero. lia.
  - destruct (Z.eq_dec m2 16777216) as [Hc | Hnc].
    + (* carry to 2^24 *)
      assert (Hd2 : d2 = 25).
      { unfold d2. apply Zdigits2_unique; [| lia]. rewrite Hc.
        split; [apply Z.leb_le | apply Z.ltb_lt]; reflexivity. }
      assert (Hn2 : fe2 - e' = 1) by (unfold fe2; lia).
      rewrite Hn2 in Hm3, He3. cbn [Z.ltb Z.compare] in Hm3, He3.
      rewrite Hc in Hm3. change (16777216 / 2 ^ 1) with 8388608 in Hm3.
      rewrite Hm3.
      change (f32_emax - f32_prec) with 104.
      destruct (Z.leb_spec e'' 104) as [Hle | Hgt];
        cbn [rounded_shape is_zero]; (split; [| discriminate]).
      * split; [reflexivity |]. split; [exact Hle |]. right. split; [lia | reflexivity].
      * split; [reflexivity | lia].
    + (* no carry *)
      assert (Hd2 : d2 <= 24).
      { unfold d2. apply Zdigits2_le; [lia | lia |]. rewrite pow2_24. lia. }
      assert (Hn2 : (0 <? fe2 - e') = false).
      { apply Z.ltb_ge. unfold fe2. lia. }
      rewrite Hn2 in Hm3, He3.
      destruct (shr_m mrs'') as [| m3 | m3] eqn:Em3; [lia | | lia].
      change (f32_emax - f32_prec) with 104.
      destruct (Z.leb_spec e'' 104) as [Hle | Hgt];
        cbn [rounded_shape is_zero]; (split; [| discriminate]).
      * split; [reflexivity |]. split; [exact Hle |]. left. split; lia.
      * split; [reflexivity | lia].
Qed.

Lemma pos_iter_xO (m d : positive) :
  Zpos (Pos.iter xO m d) = Zpos m * 2 ^ Zpos d.
Proof.
  induction d as [| d IH] using Pos.peano_ind.
  - cbn [Pos.iter]. change (Zpos m~0) with (2 * Zpos m).
    change (2 ^ 1) with 2. lia.
  - rewrite Pos.iter_succ. change (Zpos (Pos.iter xO m d)~0)
      with (2 * Zpos (Pos.iter xO m d)).
    rewrite IH, Pos2Z.inj_succ, Z.pow_succ_r by lia. lia.
Qed.

(** [shl_align] lowers the exponent to [ex'] when it is below [ex]. *)
Lemma shl_align_spec (mx : positive) (ex ex' : Z) :
  (ex' < ex ->
   snd (shl_align mx ex ex') = ex' /\
   Zpos (fst (shl_align mx ex ex')) = Zpos mx * 2 ^ (ex - ex')) /\
  (ex <= ex' -> shl_align mx ex ex' = (mx, ex)).
Proof.
  unfold shl_align. destruct (ex' - ex) as [| d | d] eqn:E.
  - split; [lia | reflexivity].
  - split; [lia | reflexivity].
  - split; [| lia]. intros _. cbn [fst snd]. split; [reflexivity |].
    rewrite pos_iter_xO. f_equal. f_equal. lia.
Qed.

Lemma Zdigits2_shift (m k : Z) :
  0 < m -> 0 <= k -> Zdigits2 (m * 2 ^ k) = Zdigits2 m + k.
Proof.
  intros Hm Hk. destruct (Zdigits2_bounds m Hm) as [Hlo Hhi].
  assert (Hd : 0 < Zdigits2 m).
  { destruct m; cbn; lia. }
  assert (Hp : 0 < 2 ^ k) by (apply Z.pow_pos_nonneg; lia).
  apply Zdigits2_unique; [| lia].
  replace (Zdigits2 m + k - 1) with (Zdigits2 m - 1 + k) by lia.
  rewrite !Z.pow_add_r by lia. split; nia.
Qed.

Lemma binary_round_shape (sx : bool) (mx : positive) (ex : Z) :
  rounded_shape sx (Z.max (Zpos (digits2_pos mx) + ex - 24) (-149))
    (binary_round f32_prec f32_emax sx mx ex) /\
  (-125 <= Zpos (digits2_pos mx) + ex ->
   is_zero (binary_round f32_prec f32_emax sx mx ex) = false).
Proof.
  unfold binary_round. rewrite fexp32.
  set (fe := Z.max (Zpos (digits2_pos mx) + ex - 24) (-149)).
  destruct (shl_align_spec mx ex fe) as [Hlt Hge].
  destruct (Z.lt_ge_cases fe ex) as [Hcase | Hcase].
  - destruct (Hlt Hcase) as [He Hm].
    destruct (shl_align mx ex fe) as [mz ez]. cbn [fst snd] in He, Hm.
    subst ez.
    destruct (binary_round_aux_shape sx (Zpos mz) fe loc_Exact ltac:(lia))
      as [Hs Hz].
    rewrite Hm, Zdigits2_shift in Hs, Hz by lia. cbn [Zdigits2] in Hs, Hz.
    replace (Z.max (Zpos (digits2_pos mx) + (ex - fe) + fe - 24) (-149))
      with fe in Hs, Hz by (unfold fe; lia).
    rewrite Z.max_id in Hs. rewrite <- Hm in Hs, Hz. split; [exact Hs |].
    intros _. destruct (is_zero _); [| reflexivity].
    destruct (Hz eq_refl) as [H0 | [H0 _]]; lia.
  - rewrite (Hge Hcase).
    destruct (binary_round_aux_shape sx (Zpos mx) ex loc_Exact ltac:(lia))
      as [Hs Hz].
    cbn [Zdigits2] in Hs, Hz. fold fe in Hs, Hz.
    replace (Z.max ex fe) with fe in Hs by lia. split; [exact Hs |].
    intros Hmag. destruct (is_zero _); [| reflexivity].
    destruct (Hz eq_refl) as [H0 | [H0 H1]]; [lia |].
    destruct (digits2_pos_bounds mx) as [Hlo _].
    assert (2 ^ (fe - ex) <= 2 ^ (Zpos (digits2_pos mx) - 1)).
    { apply Z.pow_le_mono_r; [lia |]. unfold fe. lia. }
    lia.
Qed.

(** ** Sums that stay below one *)

Lemma round_below_one (mx : positive) (ex : Z) :
  Zpos (digits2_pos mx) + ex <= 0 ->
  le_one (binary_round f32_prec f32_emax false mx ex).
Proof.
  intros Hmag. pose proof (proj1 (binary_round_shape false mx ex)) as Hs.
  destruct (binary_round f32_prec f32_emax false mx ex) as [s | s | | s m e];
    cbn [rounded_shape le_one] in *.
  - exact I.
  - lia.
  - exact Hs.
  - destruct Hs as (-> & _ & Hcases).
    destruct Hcases as [[He Hm] | [He Hm]].
    + split; [lia |].
      assert (2 ^ 24 <= 2 ^ (- e)) by (apply Z.pow_le_mono_r; lia).
      rewrite pow2_24 in *. lia.
    + split; [lia |].
      assert (2 ^ 23 <= 2 ^ (- e)) by (apply Z.pow_le_mono_r; lia).
      change (2 ^ 23) with 8388608 in *. lia.
Qed.

Lemma scaled_finite_le_one (m : positive) (e v : Z) :
  scaled 60 (S754_finite false m e) = Some v -> v < 2 ^ 60 ->
  e < 0 /\ Zpos m < 2 ^ (- e).
Proof.
  cbn [scaled]. destruct (Z.leb_spec 0 (e + 60)) as [He | He]; [| discriminate].
  intros [= <-] Hv.
  assert (He0 : e < 0).
  { destruct (Z.lt_ge_cases e 0) as [Hn | Hp]; [exact Hn |].
    assert (2 ^ 60 <= 2 ^ (e + 60)) by (apply Z.pow_le_mono_r; lia).
    nia. }
  split; [exact He0 |].
  replace (2 ^ 60) with (2 ^ (- e + (e + 60))) in Hv by (f_equal; lia).
  rewrite (Z.pow_add_r 2 (- e) (e + 60)) in Hv by lia.
  assert (0 < 2 ^ (e + 60)) by (apply Z.pow_pos_nonneg; lia).
  nia.
Qed.

Lemma fadd_le_one (s c : float) (vs vc : Z) :
  scaled 60 s = Some vs -> scaled 60 c = Some vc -> vs + vc < 2 ^ 60 ->
  le_one (s + c)%f32.
Proof.
  intros Hs Hc Hsum.
  assert (Hnn : forall x v, scaled 60 x = Some v -> 0 <= v).
  { intros x v. destruct x as [? | ? | | [] m e]; cbn [scaled]; try discriminate.
    - intros [= <-]. lia.
    - destruct (0 <=? e + 60) eqn:E; [| discriminate]. intros [= <-].
      apply Z.mul_nonneg_nonneg; [lia |]. apply Z.pow_nonneg. lia. }
  pose proof (Hnn _ _ Hs) as Hvs. pose proof (Hnn _ _ Hc) as Hvc.
  destruct s as [ss | ss | | [] ms es]; try discriminate Hs;
  destruct c as [sc | sc | | [] mc ec]; try discriminate Hc.
  - (* zero + zero *)
    unfold fadd, SFadd. destruct ss, sc; exact I.
  - (* zero + finite *)
    unfold fadd, SFadd. cbn [le_one].
    destruct (scaled_finite_le_one mc ec vc Hc ltac:(lia)). split; lia.
  - (* finite + zero *)
    unfold fadd, SFadd. cbn [le_one].
    destruct (scaled_finite_le_one ms es vs Hs ltac:(lia)). split; lia.
  - (* finite + finite *)
    unfold fadd, SFadd. cbn [cond_Zopp].
    set (ez := Z.min es ec).
    cbn [scaled] in Hs, Hc.
    destruct (Z.leb_spec 0 (es + 60)) as [Hes | Hes]; [| discriminate Hs].
    destruct (Z.leb_spec 0 (ec + 60)) as [Hec | Hec]; [| discriminate Hc].
    injection Hs as <-. injection Hc as <-.
    assert (HA : Zpos (fst (shl_align ms es ez)) = Zpos ms * 2 ^ (es - ez)).
    { destruct (shl_align_spec ms es ez) as [Hlt Hge].
      destruct (Z.lt_ge_cases ez es) as [Hc' | Hc'].
      - apply Hlt, Hc'.
      - rewrite (Hge Hc'). cbn [fst]. replace (es - ez) with 0 by (unfold ez in *; lia).
        change (2 ^ 0) with 1. lia. }
    assert (HB : Zpos (fst (shl_align mc ec ez)) = Zpos mc * 2 ^ (ec - ez)).
    { destruct (shl_align_spec mc ec ez) as [Hlt Hge].
      destruct (Z.lt_ge_cases ez ec) as [Hc' | Hc'].
      - apply Hlt, Hc'.
      - rewrite (Hge Hc'). cbn [fst]. replace (ec - ez) with 0 by (unfold ez in *; lia).
        change (2 ^ 0) with 1. lia. }
    set (M := Zpos (fst (shl_align ms es ez)) + Zpos (fst (shl_align mc ec ez))).
    assert (HM : M * 2 ^ (ez + 60) = Zpos ms * 2 ^ (es + 60) + Zpos mc * 2 ^ (ec + 60)).
    { unfold M. rewrite HA, HB.
      replace (es + 60) with ((es - ez) + (ez + 60)) by lia.
      replace (ec + 60) with ((ec - ez) + (ez + 60)) by lia.
      rewrite (Z.pow_add_r 2 (es - ez) (ez + 60)) by (unfold ez; lia).
      rewrite (Z.pow_add_r 2 (ec - ez) (ez + 60)) by (unfold ez; lia).
      ring. }
    assert (HMpos : 0 < M) by (unfold M; lia).
    assert (Hez60 : 0 <= ez + 60) by (unfold ez; lia).
    assert (Hez : ez < 0).
    { destruct (Z.lt_ge_cases ez 0) as [Hn | Hp]; [exact Hn |].
      assert (2 ^ 60 <= 2 ^ (ez + 60)) by (apply Z.pow_le_mono_r; lia).
      nia. }
    assert (HMlt : M < 2 ^ (- ez)).
    { rewrite <- HM in Hsum.
      replace (2 ^ 60) with (2 ^ (- ez + (ez + 60))) in Hsum by (f_equal; lia).
      rewrite (Z.pow_add_r 2 (- ez) (ez + 60)) in Hsum by lia.
      assert (0 < 2 ^ (ez + 60)) by (apply Z.pow_pos_nonneg; lia).
      nia. }
    destruct M as [| pM | pM] eqn:EM; [lia | | lia].
    unfold binary_normalize. apply round_below_one.
    pose proof (Zdigits2_le (Zpos pM) (- ez) ltac:(lia) ltac:(lia) HMlt) as Hd.
    cbn [Zdigits2] in Hd. lia.
Qed.

(** The bright-pass test [k > 0] fails for [k = x - 1] when [x <= 1]. *)
Lemma sub_one_not_pos (x : float) :
  le_one x -> ((x - f_1) >? f_0)%f32 = false.
Proof.
  intros Hx. unfold fgt, fsub, f_1, f_0.
  assert (Hneg : forall D e, D <= 0 ->
            SFltb (S754_zero false)
              (binary_normalize f32_prec f32_emax D e false) = false).
  { intros D e HD. destruct D as [| p | p]; [reflexivity | lia |].
    cbn [binary_normalize].
    pose proof (proj1 (binary_round_shape true p e)) as Hs.
    destruct (binary_round f32_prec f32_emax true p e) as [s | s | | s m e'];
      cbn [rounded_shape] in Hs.
    - reflexivity.
    - destruct Hs as [-> _]. reflexivity.
    - contradiction.
    - destruct Hs as [-> _]. reflexivity. }
  destruct x as [s | s | | s m e]; cbn [le_one] in Hx; try contradiction.
  - reflexivity.
  - unfold SFsub. apply Hneg. destruct s; cbn [cond_Zopp].
    + lia.
    + destruct Hx as [He Hm].
      set (ez := Z.min e (-23)).
      assert (HA : Zpos (fst (shl_align m e ez)) = Zpos m * 2 ^ (e - ez)).
      { destruct (shl_align_spec m e ez) as [Hlt Hge].
        destruct (Z.lt_ge_cases ez e) as [Hc' | Hc'].
        - apply Hlt, Hc'.
        - rewrite (Hge Hc'). cbn [fst].
          replace (e - ez) with 0 by (unfold ez in *; lia).
          change (2 ^ 0) with 1. lia. }
      assert (HB : Zpos (fst (shl_align 8388608 (-23) ez))
                   = 8388608 * 2 ^ (-23 - ez)).
      { destruct (shl_align_spec 8388608 (-23) ez) as [Hlt Hge].
        destruct (Z.lt_ge_cases ez (-23)) as [Hc' | Hc'].
        - apply Hlt, Hc'.
        - rewrite (Hge Hc'). cbn [fst].
          replace (-23 - ez) with 0 by (unfold ez in *; lia).
          change (2 ^ 0) with 1. lia. }
      rewrite HA, HB.
      assert (Hpow : 8388608 * 2 ^ (-23 - ez) = 2 ^ (- ez)).
      { change 8388608 with (2 ^ 23). rewrite <- Z.pow_add_r by (unfold ez; lia).
        f_equal. lia. }
      rewrite Hpow.
      assert (Zpos m * 2 ^ (e - ez) <= 2 ^ (- e) * 2 ^ (e - ez)).
      { apply Z.mul_le_mono_nonneg_r; [apply Z.pow_nonneg; lia | exact Hm]. }
      rewrite <- Z.pow_add_r in H by (unfold ez; lia).
      replace (- e + (e - ez)) with (- ez) in H by lia. lia.
Qed.

(** ** Integers that are exactly representable *)

Lemma binary_round_aux_exact (s : bool) (mz : positive) (ez : Z) :
  Zpos (digits2_pos mz) = 24 -> -149 <= ez <= 104 ->
  binary_round_aux f32_prec f32_emax s (Zpos mz) ez loc_Exact
  = S754_finite s mz ez.
Proof.
  intros Hd He. unfold binary_round_aux, shr_fexp. rewrite fexp32.
  cbn [Zdigits2]. rewrite Hd.
  replace (Z.max (24 + ez - 24) (-149) - ez) with 0 by lia.
  cbn [shr shr_record_of_loc shr_m loc_of_shr_record round_nearest_even].
  rewrite fexp32. cbn [Zdigits2]. rewrite Hd.
  replace (Z.max (24 + ez - 24) (-149) - ez) with 0 by lia.
  cbn [shr shr_record_of_loc shr_m].
  change (f32_emax - f32_prec) with 104.
  destruct (Z.leb_spec ez 104); [reflexivity | lia].
Qed.

(** An integer [n] with [0 < n < 2^24] converts to the float with a 24-bit
    mantissa that has its value. *)
Lemma float_of_int_exact (n : Z) :
  0 < n < 16777216 ->
  exists m e, float_of_int n = S754_finite false m e /\
              -23 <= e <= 0 /\ Zpos m = n * 2 ^ (- e) /\
              Zpos (digits2_pos m) = 24.
Proof.
  intros Hn. destruct n as [| p | p]; try lia.
  unfold float_of_int, binary_normalize, binary_round. rewrite fexp32.
  pose proof (Zdigits2_le (Zpos p) 24 ltac:(lia) ltac:(lia)
                ltac:(rewrite pow2_24; lia)) as Hd.
  cbn [Zdigits2] in Hd.
  set (d := Zpos (digits2_pos p)) in *.
  assert (Hd1 : 1 <= d) by (unfold d; lia).
  replace (Z.max (d + 0 - 24) (-149)) with (d - 24) by lia.
  destruct (shl_align_spec p 0 (d - 24)) as [Hlt Hge].
  destruct (Z.lt_ge_cases (d - 24) 0) as [Hcase | Hcase].
  - destruct (Hlt Hcase) as [He Hm].
    destruct (shl_align p 0 (d - 24)) as [mz ez]. cbn [fst snd] in He, Hm.
    subst ez.
    assert (Hdz : Zpos (digits2_pos mz) = 24).
    { change (Zpos (digits2_pos mz)) with (Zdigits2 (Zpos mz)).
      rewrite Hm, Zdigits2_shift by lia. cbn [Zdigits2]. fold d. lia. }
    rewrite binary_round_aux_exact by (auto; lia).
    exists mz, (d - 24). repeat split; try lia; auto.
  - rewrite (Hge Hcase).
    assert (Hd24 : d = 24) by lia.
    rewrite binary_round_aux_exact by (unfold d in *; lia).
    exists p, 0. repeat split; lia.
Qed.

Lemma int_of_float_exact (m : positive) (e n : Z) :
  e <= 0 -> Zpos m = n * 2 ^ (- e) -> 0 <= n <= INT_MAX ->
  int_of_float (S754_finite false m e) = n.
Proof.
  intros He Hm Hn. unfold int_of_float, trunc_mag. cbn [cond_Zopp].
  assert (Hv : (if 0 <=? e then Zpos m * 2 ^ e else Zpos m / 2 ^ (- e)) = n).
  { destruct (Z.leb_spec 0 e) as [H0 | H0].
    - assert (e = 0) by lia. subst e. change (2 ^ (- 0)) with 1 in Hm.
      change (2 ^ 0) with 1. lia.
    - rewrite Hm. apply Z.div_mul.
      assert (0 < 2 ^ (- e)) by (apply Z.pow_pos_nonneg; lia). lia. }
  rewrite Hv. unfold INT_MIN, INT_MAX in *.
  destruct (Z.leb_spec (-2147483648) n), (Z.leb_spec n 2147483647);
    cbn [andb]; lia.
Qed.

(** Conversion to float, floor and conversion back give the integer. *)
Lemma floor_float_of_int (n : Z) :
  0 <= n < 16777216 ->
  ffloor (float_of_int n) = float_of_int n /\
  int_of_float (float_of_int n) = n.
Proof.
  intros Hn. destruct (Z.eq_dec n 0) as [-> | Hne]; [split; reflexivity |].
  destruct (float_of_int_exact n ltac:(lia)) as (m & e & E & He & Hm & Hd).
  split.
  - rewrite E. unfold ffloor. destruct (Z.leb_spec 0 e) as [H0 | H0];
      [reflexivity |].
    cbn [cond_Zopp]. rewrite Hm, Z.div_mul.
    + exact E.
    + assert (0 < 2 ^ (- e)) by (apply Z.pow_pos_nonneg; lia). lia.
  - rewrite E. apply int_of_float_exact; try lia. unfold INT_MAX. lia.
Qed.

Lemma float_of_int_mag (n : Z) :
  0 <= n < 16777216 -> mag_le 24 (float_of_int n) /\ mant24 (float_of_int n).
Proof.
  intros Hn. destruct (Z.eq_dec n 0) as [-> | Hne]; [split; exact I |].
  destruct (float_of_int_exact n ltac:(lia)) as (m & e & E & He & Hm & Hd).
  rewrite E. cbn [mag_le mant24]. split; [lia |].
  pose proof (digits2_pos_bounds m) as [_ Hhi]. rewrite Hd, pow2_24 in Hhi.
  exact Hhi.
Qed.

(** A positive [int] converts to a positive finite float. *)
Lemma float_of_int_pos (n : Z) :
  0 < n <= INT_MAX -> exists m e, float_of_int n = S754_finite false m e.
Proof.
  intros Hn. destruct n as [| p | p]; try lia.
  unfold float_of_int, binary_normalize.
  destruct (binary_round_shape false p 0) as [Hs Hz].
  assert (Hd : Zpos (digits2_pos p) <= 31).
  { change (Zpos (digits2_pos p)) with (Zdigits2 (Zpos p)).
    apply Zdigits2_le; [lia | lia |]. unfold INT_MAX in Hn.
    change (2 ^ 31) with 2147483648. lia. }
  specialize (Hz ltac:(lia)).
  destruct (binary_round f32_prec f32_emax false p 0) as [s | s | | s m e];
    cbn [rounded_shape is_zero] in *.
  - discriminate.
  - lia.
  - contradiction.
  - destruct Hs as (-> & _). eauto.
Qed.

(** ** Comparisons *)

Lemma flt_pos_cases (mu mh : positive) (eu eh : Z) :
  (S754_finite false mu eu <? S754_finite false mh eh)%f32 = true ->
  eu < eh \/ (eu = eh /\ Zpos mu < Zpos mh).
Proof.
  unfold flt, SFltb, SFcompare.
  destruct (Z.compare_spec eu eh) as [E | E | E]; try discriminate; [| lia].
  intros H. right. split; [exact E |].
  change (Pos.compare_cont Eq mu mh) with (Pos.compare mu mh) in H.
  destruct (Pos.compare_spec mu mh); try discriminate. lia.
Qed.

(** A float above [+0] is positive. *)
Lemma flt_zero_pos (u : float) :
  (f_0 <? u)%f32 = true ->
  (exists m e, u = S754_finite false m e) \/ u = S754_infinity false.
Proof.
  unfold flt, SFltb, SFcompare, f_0.
  destruct u as [s | [] | | [] m e]; try discriminate; eauto.
Qed.

(** ** Arithmetic on zeros *)

Lemma fmul_zero_l (a w : float) :
  zero_f a -> is_finite w = true -> zero_f (a * w)%f32.
Proof.
  unfold zero_f. destruct a; try discriminate.
  destruct w; try discriminate; intros _ _; reflexivity.
Qed.

Lemma fadd_zero_zero (a b : float) : zero_f a -> zero_f b -> zero_f (a + b)%f32.
Proof.
  unfold zero_f. destruct a as [[] | | |]; try discriminate;
    destruct b as [[] | | |]; try discriminate; intros _ _; reflexivity.
Qed.

(** Adding a zero to [+0] or to a finite number changes nothing. *)
Lemma fadd_keep (x z : float) :
  x = f_0 \/ (exists s m e, x = S754_finite s m e) -> zero_f z ->
  (x + z)%f32 = x.
Proof.
  unfold zero_f. intros Hx Hz. destruct z as [sz | | |]; try discriminate.
  destruct Hx as [-> | (s & m & e & ->)].
  - destruct sz; reflexivity.
  - reflexivity.
Qed.

Lemma fdiv_zero_pos (m : positive) (e : Z) :
  (f_0 / S754_finite false m e)%f32 = f_0.
Proof. reflexivity. Qed.

Lemma lerp_zero (a b t : float) :
  zero_f a -> zero_f b -> is_finite t = true -> is_finite (f_1 - t)%f32 = true ->
  zero_f (lerp a b t).
Proof.
  intros Ha Hb Ht H1t. unfold lerp.
  apply fadd_zero_zero; apply fmul_zero_l; assumption.
Qed.

(** ** Differences of bounded floats are finite *)

Lemma mag_le_finite (k : Z) (x : float) : mag_le k x -> is_finite x = true.
Proof. destruct x; cbn; try contradiction; reflexivity. Qed.

Lemma shl_align_value (m : positive) (e ez : Z) :
  ez <= e -> Zpos (fst (shl_align m e ez)) = Zpos m * 2 ^ (e - ez).
Proof.
  intros Hle. destruct (shl_align_spec m e ez) as [Hlt Hge].
  destruct (Z.lt_ge_cases ez e) as [Hc | Hc].
  - apply Hlt, Hc.
  - rewrite (Hge Hc). cbn [fst]. replace (e - ez) with 0 by lia.
    change (2 ^ 0) with 1. lia.
Qed.

Lemma fsub_mag (k : Z) (x y : float) :
  -100 <= k <= 100 -> mag_le k x -> mag_le k y -> mag_le (k + 2) (x - y)%f32.
Proof.
  intros Hk Hx Hy.
  destruct x as [sx | sx | | sx mx ex]; cbn [mag_le] in Hx; try contradiction;
  destruct y as [sy | sy | | sy my ey]; cbn [mag_le] in Hy; try contradiction.
  - unfold fsub, SFsub. destruct sx, sy; exact I.
  - unfold fsub, SFsub. cbn [mag_le]. lia.
  - unfold fsub, SFsub. cbn [mag_le]. lia.
  - unfold fsub, SFsub. set (ez := Z.min ex ey).
    rewrite !shl_align_value by (unfold ez; lia).
    set (A := Zpos mx * 2 ^ (ex - ez)). set (B := Zpos my * 2 ^ (ey - ez)).
    assert (HA : 0 < A < 2 ^ (k - ez)).
    { unfold A. destruct (digits2_pos_bounds mx) as [_ Hhi].
      assert (0 < 2 ^ (ex - ez)) by (apply Z.pow_pos_nonneg; unfold ez; lia).
      split; [nia |].
      assert (2 ^ Zpos (digits2_pos mx) * 2 ^ (ex - ez) <= 2 ^ (k - ez)).
      { rewrite <- Z.pow_add_r by (unfold ez; lia).
        apply Z.pow_le_mono_r; lia. }
      nia. }
    assert (HB : 0 < B < 2 ^ (k - ez)).
    { unfold B. destruct (digits2_pos_bounds my) as [_ Hhi].
      assert (0 < 2 ^ (ey - ez)) by (apply Z.pow_pos_nonneg; unfold ez; lia).
      split; [nia |].
      assert (2 ^ Zpos (digits2_pos my) * 2 ^ (ey - ez) <= 2 ^ (k - ez)).
      { rewrite <- Z.pow_add_r by (unfold ez; lia).
        apply Z.pow_le_mono_r; lia. }
      nia. }
    assert (Hkez : 0 <= k - ez).
    { destruct (Z.lt_ge_cases (k - ez) 0) as [Hn | Hp]; [| exact Hp].
      rewrite (Z.pow_neg_r 2 (k - ez)) in HA by lia. lia. }
    assert (HD : forall s (p : positive),
               Zpos p < 2 ^ (k - ez + 1) ->
               mag_le (k + 2) (binary_round f32_prec f32_emax s p ez)).
    { intros s p Hp.
      pose proof (Zdigits2_le (Zpos p) (k - ez + 1) ltac:(lia) ltac:(lia) Hp)
        as Hd. cbn [Zdigits2] in Hd.
      pose proof (proj1 (binary_round_shape s p ez)) as Hs.
      destruct (binary_round f32_prec f32_emax s p ez) as [s' | s' | | s' m e];
        cbn [rounded_shape mag_le] in *.
      - exact I.
      - lia.
      - exact Hs.
      - destruct Hs as (_ & _ & Hc).
        assert (Hdm : Zpos m < 16777216 -> Zpos (digits2_pos m) <= 24).
        { intros Hm. change (Zpos (digits2_pos m)) with (Zdigits2 (Zpos m)).
          apply Zdigits2_le; [lia | lia |]. rewrite pow2_24. exact Hm. }
        destruct Hc as [[He Hm] | [He Hm]].
        + specialize (Hdm Hm). lia.
        + specialize (Hdm ltac:(lia)). lia. }
    rewrite Z.pow_add_r in HD by lia. change (2 ^ 1) with 2 in HD.
    destruct (cond_Zopp sx A - cond_Zopp sy B) as [| p | p] eqn:ED;
      cbn [binary_normalize].
    + exact I.
    + apply HD. destruct sx, sy; cbn [cond_Zopp] in ED; lia.
    + apply HD. destruct sx, sy; cbn [cond_Zopp] in ED; lia.
Qed.

(** Subtracting a finite non-zero float with a 24-bit mantissa leaves a
    24-bit mantissa, whatever the first operand. *)
Lemma fsub_mant24 (x : float) (sy : bool) (my : positive) (ey : Z) :
  Zpos my < 16777216 -> mant24 (x - S754_finite sy my ey)%f32.
Proof.
  intros Hy. destruct x as [sx | sx | | sx mx ex]; unfold fsub, SFsub.
  - exact Hy.
  - exact I.
  - exact I.
  - set (D := _ - _). destruct D as [| p | p]; cbn [binary_normalize].
    + exact I.
    + pose proof (proj1 (binary_round_shape false p (Z.min ex ey))) as Hs.
      destruct (binary_round _ _ _ _ _); cbn [rounded_shape mant24] in *; auto.
      destruct Hs as (_ & _ & [[_ Hm] | [_ Hm]]); lia.
    + pose proof (proj1 (binary_round_shape true p (Z.min ex ey))) as Hs.
      destruct (binary_round _ _ _ _ _); cbn [rounded_shape mant24] in *; auto.
      destruct Hs as (_ & _ & [[_ Hm] | [_ Hm]]); lia.
Qed.


(* ===================================================================== *)
(** * The luminance of a pixel never exceeds one *)
(* ===================================================================== *)

Lemma float_beq_eq (x y : float) : float_beq x y = true -> x = y.
Proof.
  destruct x as [s | s | | s m e], y as [s' | s' | | s' m' e'];
    cbn [float_beq]; try discriminate; try reflexivity.
  - intros H. apply Bool.eqb_prop in H. now subst.
  - intros H. apply Bool.eqb_prop in H. now subst.
  - intros H. apply andb_prop in H as [H He]. apply andb_prop in H as [Hs Hm].
    apply Bool.eqb_prop in Hs. apply Pos.eqb_eq in Hm. apply Z.eqb_eq in He.
    now subst.
Qed.

Lemma all_bytes_spec (c : Z) : 0 <= c < 256 -> In c all_bytes.
Proof.
  intros Hc. unfold all_bytes. rewrite <- (Z2Nat.id c) by lia.
  apply in_map, in_seq. lia.
Qed.

Lemma lum_terms_spec (k : float) (c : Z) :
  0 <= c < 256 -> In (k * byte_float c)%f32 (lum_terms k).
Proof.
  intros Hc. unfold lum_terms.
  apply (in_map (fun c => (k * byte_float c)%f32)), all_bytes_spec, Hc.
Qed.

(** The 65536 partial sums. *)
Lemma lum_check_rg_all :
  forallb (fun x => forallb (lum_check_rg x) (lum_terms f_0_7152))
    (lum_terms f_0_2126) = true.
Proof. vm_compute. reflexivity. Qed.

Lemma lum_check_b_all : forallb lum_check_b (lum_terms f_0_0722) = true.
Proof. vm_compute. reflexivity. Qed.

Lemma lum_check_top_all : forallb lum_check_top (lum_terms f_0_0722) = true.
Proof. vm_compute. reflexivity. Qed.

(** With threshold one, no pixel passes the bright-pass test. *)
Lemma luminance_not_bright (r g b : Z) :
  0 <= r < 256 -> 0 <= g < 256 -> 0 <= b < 256 ->
  ((luminance (byte_float r) (byte_float g) (byte_float b) - f_1) >? f_0)%f32
  = false.
Proof.
  intros Hr Hg Hb. unfold luminance.
  set (x := (f_0_2126 * byte_float r)%f32).
  set (y := (f_0_7152 * byte_float g)%f32).
  set (z := (f_0_0722 * byte_float b)%f32).
  assert (Hxy : lum_check_rg x y = true).
  { pose proof lum_check_rg_all as H.
    rewrite forallb_forall in H.
    specialize (H x (lum_terms_spec _ r Hr)).
    rewrite forallb_forall in H. apply H, lum_terms_spec, Hg. }
  assert (Hz : lum_check_b z = true).
  { pose proof lum_check_b_all as H. rewrite forallb_forall in H.
    apply H, lum_terms_spec, Hb. }
  assert (Htop : lum_check_top z = true).
  { pose proof lum_check_top_all as H. rewrite forallb_forall in H.
    apply H, lum_terms_spec, Hb. }
  unfold lum_check_rg in Hxy. apply orb_prop in Hxy as [Heq | Hlt].
  - apply float_beq_eq in Heq. rewrite Heq.
    unfold lum_check_top in Htop. now apply negb_true_iff in Htop.
  - apply sub_one_not_pos.
    unfold lum_check_b in Hz.
    destruct (scaled 60 (x + y)%f32) as [vs |] eqn:Es; [| discriminate].
    destruct (scaled 60 z) as [vc |] eqn:Ec; [| discriminate].
    apply (fadd_le_one _ _ vs vc Es Ec). lia.
Qed.


(* ===================================================================== *)
(** * Bright pass at threshold one *)
(* ===================================================================== *)

Lemma cast_int_range (z : Z) : INT_MIN <= cast_int z <= INT_MAX.
Proof.
  unfold cast_int, INT_MIN, INT_MAX.
  pose proof (Z.mod_pos_bound (z + 2147483648) 4294967296 ltac:(lia)). lia.
Qed.

(** A byte read is a byte, also outside the buffer (the default is 0). *)
Lemma byte_at_ok (v : list Z) (i : Z) : bytes_ok v -> 0 <= byte_at v i < 256.
Proof.
  intros Hv. unfold byte_at, vget. destruct (i <? 0); [lia |].
  destruct (v !! Z.to_nat i) as [c |] eqn:E; cbn [default]; [| lia].
  exact (Forall_lookup_1 _ _ _ _ Hv E).
Qed.

Lemma for_loop_break_ind {S} (P : S -> Prop) (body : Z -> S -> option S)
    (n : nat) (i : Z) (s : S) :
  P s -> (forall j s1 s2, P s1 -> body j s1 = Some s2 -> P s2) ->
  P (for_loop_break n i body s).
Proof.
  revert i s. induction n as [| n IH]; intros i s Hs Hstep; [exact Hs |].
  cbn [for_loop_break]. destruct (body i s) as [s' |] eqn:E; [| exact Hs].
  apply IH; [eapply Hstep; eauto | exact Hstep].
Qed.

Lemma clampf_one : clampf f_1 f_0 f_1 = f_1.
Proof. reflexivity. Qed.

Lemma some_eq {A} (a b : A) : Some a = Some b -> a = b.
Proof. intros H. congruence. Qed.

(** At threshold one a source pixel adds nothing to the block sums. *)
Lemma brightpass_pixel_none (st : State) (x y : Z) (r gc b : float) (count : Z) :
  bytes_ok (color st) ->
  brightpass_pixel st f_1 x y (r, gc, b, count) = (r, gc, b, (count + 1)%int).
Proof.
  intros Hbytes. unfold brightpass_pixel. cbv zeta.
  set (c0 := byte_at (color st) (sadd (idx_rgba (fb_w st) x y) 0)).
  set (c1 := byte_at (color st) (sadd (idx_rgba (fb_w st) x y) 1)).
  set (c2 := byte_at (color st) (sadd (idx_rgba (fb_w st) x y) 2)).
  assert (Hk : ((luminance (float_of_int c0 / f_255) (float_of_int c1 / f_255)
                   (float_of_int c2 / f_255) - f_1) >? f_0)%f32 = false).
  { pose proof (luminance_not_bright c0 c1 c2) as H.
    unfold byte_float in H. apply H; apply byte_at_ok; exact Hbytes. }
  rewrite Hk. reflexivity.
Qed.

(** So the sums of a block are [+0], whatever its pixel count. *)
Lemma brightpass_block_zero (st : State) (ds x0 y0 : Z) :
  bytes_ok (color st) ->
  exists count, brightpass_block st f_1 ds x0 y0 = (f_0, f_0, f_0, count) /\
                INT_MIN <= count <= INT_MAX.
Proof.
  intros Hbytes. unfold brightpass_block, for_range_break.
  set (P := fun acc : float * float * float * Z =>
              exists count, acc = (f_0, f_0, f_0, count) /\
                            INT_MIN <= count <= INT_MAX).
  match goal with
  | |- context [for_loop_break ?n ?i ?body ?s] =>
      change (P (for_loop_break n i body s))
  end.
  apply for_loop_break_ind.
  - exists 0. split; [reflexivity |]. unfold INT_MIN, INT_MAX. lia.
  - intros oy acc1 acc2 H1 Hbody.
    destruct (_ >=? fb_h st); [discriminate |].
    apply some_eq in Hbody. subst acc2.
    apply for_loop_break_ind; [exact H1 |].
    intros ox a1 a2 (c & -> & Hc) Hb.
    destruct (_ >=? fb_w st); [discriminate |].
    apply some_eq in Hb. subst a2.
    rewrite brightpass_pixel_none by exact Hbytes.
    exists (c + 1)%int. split; [reflexivity | apply cast_int_range].
Qed.

(** The averaged sums written to the bloom buffer are [+0]. *)
Lemma brightpass_average_zero (count : Z) :
  INT_MIN <= count <= INT_MAX ->
  (if count >? 0 then
     ((f_0 / float_of_int count)%f32, (f_0 / float_of_int count)%f32,
      (f_0 / float_of_int count)%f32)
   else (f_0, f_0, f_0)) = (f_0, f_0, f_0).
Proof.
  intros Hc. destruct (Z.gtb_spec count 0) as [Hpos | Hnp]; [| reflexivity].
  destruct (float_of_int_pos count ltac:(lia)) as (m & e & ->).
  reflexivity.
Qed.

(* ===================================================================== *)
(** * Buffers of zeros *)
(* ===================================================================== *)

Lemma cells_upto_weaken (P Q : float -> Prop) (n p : Z) (v : list float) :
  (forall x, P x -> Q x) -> cells_upto P n p v -> cells_upto Q n p v.
Proof. intros HPQ [Hlen Hc]. split; [exact Hlen | intros j Hj; auto]. Qed.

(** Storing three values at cell [p] extends the prefix by one cell. *)
Lemma cells_store3 (P : float -> Prop) (n p : Z) (v : list float)
    (x y z : float) :
  cells_upto P n (3 * p) v -> 0 <= p -> 3 * p + 2 < n -> n <= INT_MAX ->
  P x -> P y -> P z ->
  cells_upto P n (3 * (p + 1)) (store3 v (3 * p) x y z).
Proof.
  intros [Hlen Hc] Hp Hlt Hmax Hx Hy Hz. unfold store3.
  rewrite !sadd_id by lia.
  split; [rewrite !length_vset; exact Hlen |].
  intros j Hj. unfold float_at.
  destruct (Z.eq_dec j (3 * p + 2)) as [-> | H2].
  { rewrite vget_vset_eq by (rewrite !length_vset; lia). exact Hz. }
  rewrite (vget_vset_ne _ _ (3 * p + 2)) by lia.
  destruct (Z.eq_dec j (3 * p + 1)) as [-> | H1].
  { rewrite vget_vset_eq by (rewrite !length_vset; lia). exact Hy. }
  rewrite (vget_vset_ne _ _ (3 * p + 1)) by lia.
  destruct (Z.eq_dec j (3 * p + 0)) as [-> | H0].
  { rewrite vget_vset_eq by lia. exact Hx. }
  rewrite (vget_vset_ne _ _ (3 * p + 0)) by lia.
  apply Hc. lia.
Qed.

(** Invariant rule for the two nested loops over a [w * h] grid, row by
    row: [p] counts the finished cells. *)
Lemma grid_loop {S} (P : Z -> S -> Prop) (cell : Z -> Z -> S -> S)
    (w h : Z) (s : S) :
  0 <= w -> 0 <= h -> P 0 s ->
  (forall x y s', 0 <= x < w -> 0 <= y < h ->
                  P (y * w + x) s' -> P (y * w + x + 1) (cell x y s')) ->
  P (w * h)
    (for_range 0 h (fun y s => for_range 0 w (fun x s => cell x y s) s) s).
Proof.
  intros Hw Hh H0 Hstep.
  replace (w * h) with (h * w) by lia.
  apply (for_range_ind (fun y s => P (y * w) s)); [lia | exact H0 |].
  intros y s1 Hy H1.
  replace ((y + 1) * w) with (y * w + w) by lia.
  apply (for_range_ind (fun x s => P (y * w + x) s)); [lia | |].
  - now rewrite Z.add_0_r.
  - intros x s2 Hx H2.
    replace (y * w + (x + 1)) with (y * w + x + 1) by lia.
    apply Hstep; [lia | lia | exact H2].
Qed.

(** The cell index of a bloom texel and its bounds. *)
Lemma bloom_index (w h x y : Z) :
  0 <= x < w -> 0 <= y < h -> w * h * 3 <= INT_MAX ->
  cast_size_t ((y * w + x) * 3)%int = 3 * (y * w + x) /\
  0 <= y * w + x /\ 3 * (y * w + x) + 2 < w * h * 3.
Proof.
  intros Hx Hy Hmax. unfold imul, iadd.
  assert (H0 : 0 <= y * w) by nia.
  assert (H1 : (y + 1) * w <= w * h) by nia.
  unfold INT_MAX in *.
  rewrite (cast_int_id (y * w)) by (unfold INT_MIN, INT_MAX; lia).
  rewrite (cast_int_id (y * w + x)) by (unfold INT_MIN, INT_MAX; lia).
  rewrite (cast_int_id ((y * w + x) * 3)) by (unfold INT_MIN, INT_MAX; lia).
  rewrite cast_size_t_id by lia. lia.
Qed.

(** The bloom buffers have between 1 and [n] cells per direction. *)
Lemma bloom_dim_bounds (n : Z) (bs : BloomSettings) :
  1 <= n -> n + Z.max 2 (downsample bs) <= INT_MAX ->
  1 <= bloom_dim n bs <= n.
Proof.
  intros Hn Hmax. unfold bloom_dim, idiv, isub, iadd.
  set (ds := Z.max 2 (downsample bs)) in *.
  assert (Hds : 2 <= ds) by (unfold ds; lia).
  unfold INT_MAX in *.
  rewrite (cast_int_id (n + ds)) by (unfold INT_MIN, INT_MAX; lia).
  rewrite (cast_int_id (n + ds - 1)) by (unfold INT_MIN, INT_MAX; lia).
  rewrite Z.quot_div_nonneg by lia.
  assert (Hlo : 1 <= (n + ds - 1) / ds).
  { apply Z.div_le_lower_bound; lia. }
  assert (Hhi : (n + ds - 1) / ds <= n).
  { apply Z.lt_succ_r. apply Z.div_lt_upper_bound; [lia |]. nia. }
  rewrite cast_int_id by (unfold INT_MIN, INT_MAX; lia). lia.
Qed.


(* ===================================================================== *)
(** * The bright pass fills buffer [a] with zeros *)
(* ===================================================================== *)

(** After [bloom_ensure_buffers(w, h)] both buffers hold [w * h * 3]
    floats; nothing but the bloom buffers changes. *)
Lemma bloom_ensure_buffers_shape (w h : Z) (st : State) :
  bloom_ok (bloom st) -> 0 <= w <= INT_MAX -> 0 <= h <= INT_MAX ->
  w * h * 3 <= INT_MAX ->
  exists va vb,
    bloom_ensure_buffers w h st
    = set_bloom (mkBloomBuffers w h va vb (bb_tmp (bloom st))
                   (bb_kernel (bloom st)) (bb_radius (bloom st))) st /\
    Z.of_nat (length va) = w * h * 3 /\ Z.of_nat (length vb) = w * h * 3.
Proof.
  intros [Ha Hb] Hw Hh Hmax. unfold bloom_ensure_buffers.
  assert (Hn : 0 <= w * h * 3) by nia.
  destruct (_ && _) eqn:E.
  - apply andb_prop in E as [E _]. apply andb_prop in E as [E _].
    apply andb_prop in E as [Ew Eh].
    apply Z.eqb_eq in Ew. apply Z.eqb_eq in Eh.
    rewrite Ew, Eh, size3_id in Ha, Hb by lia.
    exists (bb_a (bloom st)), (bb_b (bloom st)). split; [| split; assumption].
    rewrite <- Ew, <- Eh. destruct st as [? ? ? ? ? ? ? ? ? ? ? bl].
    destruct bl. reflexivity.
  - rewrite size3_id by lia.
    exists (replicate (Z.to_nat (w * h * 3)) f_0),
           (replicate (Z.to_nat (w * h * 3)) f_0).
    split; [reflexivity |]. rewrite length_replicate. lia.
Qed.

(** At threshold one every bloom texel is stored as three [+0]. *)
Lemma brightpass_cell_zero (st : State) (ds bw b_x b_y : Z) :
  bytes_ok (color st) ->
  brightpass_cell f_1 ds bw b_x b_y st
  = set_bloom
      (set_bb_a (store3 (bb_a (bloom st))
                   (cast_size_t ((b_y * bw + b_x) * 3)%int) f_0 f_0 f_0)
         (bloom st)) st.
Proof.
  intros Hbytes. unfold brightpass_cell.
  destruct (brightpass_block_zero st ds (b_x * ds)%int (b_y * ds)%int Hbytes)
    as (c & E & Hc).
  cbv zeta. rewrite E. cbv beta iota.
  rewrite (brightpass_average_zero c Hc). reflexivity.
Qed.

(** The sizes of the bloom buffers of a surface. *)
Lemma bloom_size_bounds (W H : Z) (bs : BloomSettings) :
  1 <= W -> 1 <= H -> W * H * 4 <= INT_MAX ->
  W + Z.max 2 (downsample bs) <= INT_MAX ->
  H + Z.max 2 (downsample bs) <= INT_MAX ->
  1 <= bloom_dim W bs <= W /\ 1 <= bloom_dim H bs <= H /\
  bloom_dim W bs * bloom_dim H bs * 3 <= INT_MAX.
Proof.
  intros HW HH Hmax HdW HdH.
  pose proof (bloom_dim_bounds W bs HW HdW) as Hbw.
  pose proof (bloom_dim_bounds H bs HH HdH) as Hbh.
  split; [exact Hbw | split; [exact Hbh |]].
  assert (bloom_dim W bs * bloom_dim H bs <= W * H) by nia. nia.
Qed.

(** The same for a surface that may be empty. *)
Lemma bloom_dim_bounds0 (n : Z) (bs : BloomSettings) :
  0 <= n -> n + Z.max 2 (downsample bs) <= INT_MAX ->
  0 <= bloom_dim n bs <= n /\ (n = 0 -> bloom_dim n bs = 0).
Proof.
  intros Hn Hmax. destruct (Z.eq_dec n 0) as [-> | Hne].
  - assert (E : bloom_dim 0 bs = 0).
    { unfold bloom_dim, idiv, isub, iadd.
      set (ds := Z.max 2 (downsample bs)) in *.
      assert (Hds : 2 <= ds) by (unfold ds; lia).
      unfold INT_MAX in *.
      rewrite (cast_int_id (0 + ds)) by (unfold INT_MIN, INT_MAX; lia).
      rewrite (cast_int_id (0 + ds - 1)) by (unfold INT_MIN, INT_MAX; lia).
      rewrite Z.quot_div_nonneg by lia.
      rewrite Z.div_small by lia. reflexivity. }
    rewrite E. split; [lia | reflexivity].
  - pose proof (bloom_dim_bounds n bs ltac:(lia) Hmax). split; [lia | lia].
Qed.

Lemma bloom_size_bounds0 (W H : Z) (bs : BloomSettings) :
  0 <= W -> 0 <= H -> W * H * 4 <= INT_MAX ->
  W + Z.max 2 (downsample bs) <= INT_MAX ->
  H + Z.max 2 (downsample bs) <= INT_MAX ->
  0 <= bloom_dim W bs <= W /\ 0 <= bloom_dim H bs <= H /\
  bloom_dim W bs * bloom_dim H bs * 3 <= INT_MAX.
Proof.
  intros HW HH Hmax HdW HdH.
  pose proof (proj1 (bloom_dim_bounds0 W bs HW HdW)) as Hbw.
  pose proof (proj1 (bloom_dim_bounds0 H bs HH HdH)) as Hbh.
  split; [exact Hbw | split; [exact Hbh |]].
  assert (bloom_dim W bs * bloom_dim H bs <= W * H) by nia. nia.
Qed.

Lemma brightpass_zero (bs : BloomSettings) (st : State) :
  bytes_ok (color st) -> bloom_ok (bloom st) ->
  0 <= fb_w st -> 0 <= fb_h st -> fb_w st * fb_h st * 4 <= INT_MAX ->
  fb_w st + Z.max 2 (downsample bs) <= INT_MAX ->
  fb_h st + Z.max 2 (downsample bs) <= INT_MAX ->
  threshold bs = f_1 ->
  let bw := bloom_dim (fb_w st) bs in
  let bh := bloom_dim (fb_h st) bs in
  exists va vb,
    bloom_brightpass_downsample bs st
    = set_bloom (mkBloomBuffers bw bh va vb (bb_tmp (bloom st))
                   (bb_kernel (bloom st)) (bb_radius (bloom st))) st /\
    zeros_upto (bw * bh * 3) (bw * bh * 3) va /\
    Z.of_nat (length vb) = bw * bh * 3.
Proof.
  intros Hbytes Hbl HW HH Hmax HdW HdH Hthr bw bh.
  destruct (bloom_size_bounds0 (fb_w st) (fb_h st) bs HW HH Hmax HdW HdH)
    as (Hbw & Hbh & HN).
  fold bw bh in Hbw, Hbh, HN.
  unfold bloom_brightpass_downsample. cbv zeta.
  change ((fb_w st + Z.max 2 (downsample bs) - 1) / Z.max 2 (downsample bs))%int
    with bw.
  change ((fb_h st + Z.max 2 (downsample bs) - 1) / Z.max 2 (downsample bs))%int
    with bh.
  rewrite Hthr, clampf_one.
  destruct (bloom_ensure_buffers_shape bw bh st Hbl) as (va0 & vb & -> & Ha0 & Hb0);
    [lia | lia | exact HN |].
  set (tmp := bb_tmp (bloom st)). set (kern := bb_kernel (bloom st)).
  set (rad := bb_radius (bloom st)).
  pose (P := fun (p : Z) (s : State) =>
               exists va, s = set_bloom (mkBloomBuffers bw bh va vb tmp kern rad) st
                          /\ zeros_upto (bw * bh * 3) (3 * p) va).
  assert (HP : P (bw * bh)
    (for_range 0 bh (fun b_y s =>
       for_range 0 bw (fun b_x s =>
         brightpass_cell f_1 (Z.max 2 (downsample bs)) bw b_x b_y s) s)
       (set_bloom (mkBloomBuffers bw bh va0 vb tmp kern rad) st))).
  { apply (grid_loop P
             (fun x y s => brightpass_cell f_1 (Z.max 2 (downsample bs)) bw x y s));
      [lia | lia | |].
    - exists va0. split; [reflexivity |]. split; [exact Ha0 | intros j Hj; lia].
    - intros x y s Hx Hy (va & -> & Hva).
      rewrite brightpass_cell_zero by exact Hbytes.
      destruct (bloom_index bw bh x y Hx Hy HN) as (Ei & Hlo & Hhi).
      rewrite Ei.
      exists (store3 va (3 * (y * bw + x)) f_0 f_0 f_0).
      split; [reflexivity |].
      apply (cells_store3 (fun v => v = f_0)); auto; lia. }
  destruct HP as (va & E & Hva). exists va, vb.
  split; [exact E | split; [| exact Hb0]].
  replace (3 * (bw * bh)) with (bw * bh * 3) in Hva by lia. exact Hva.
Qed.


(* ===================================================================== *)
(** * The blur of a buffer of zeros *)
(* ===================================================================== *)

(** The kernel has [2 * radius + 1] weights, with a radius in [1, 32]. *)
Lemma kernel_shape `{LibM} (sg : float) (kern : list float) :
  1 <= snd (build_gaussian_kernel sg kern) <= 32 /\
  Z.of_nat (length (fst (build_gaussian_kernel sg kern)))
  = 2 * snd (build_gaussian_kernel sg kern) + 1.
Proof.
  unfold build_gaussian_kernel. cbv zeta.
  set (R := clampi _ 1 32).
  assert (HR : 1 <= R <= 32) by (unfold R, clampi; lia).
  match goal with
  | |- context [for_range ?lo ?hi ?b ?i] =>
      assert (HL : Z.of_nat (length (fst (for_range lo hi b i))) = 2 * R + 1)
  end.
  { apply (for_range_ind (fun _ s => Z.of_nat (length (fst s)) = 2 * R + 1));
      [lia | |].
    - cbn [fst]. rewrite length_resize. unfold imul, iadd.
      rewrite (cast_int_id (R * 2)) by (unfold INT_MIN, INT_MAX; lia).
      rewrite cast_int_id by (unfold INT_MIN, INT_MAX; lia).
      rewrite cast_size_t_id by lia. lia.
    - intros i [k s] Hi Hk. cbn [fst] in *. rewrite length_vset. exact Hk. }
  destruct (for_range _ _ _ _) as [k s]. cbn [fst snd] in *.
  split; [exact HR |]. rewrite length_map. exact HL.
Qed.

(** A weighted sum of zeros with finite weights is a zero. *)
Lemma blur_tap_zero (src K : list float) (R n : Z) (off : Z -> Z) :
  cells_upto zero_f n n src -> n <= INT_MAX ->
  1 <= R <= 32 -> Z.of_nat (length K) = 2 * R + 1 ->
  Forall (fun w => is_finite w = true) K ->
  (forall k, - R <= k <= R -> 0 <= off k /\ off k + 2 < n) ->
  zero_f (fst (fst (blur_tap src K R off))) /\
  zero_f (snd (fst (blur_tap src K R off))) /\
  zero_f (snd (blur_tap src K R off)).
Proof.
  intros [Hlen Hsrc] Hmax HR HK Hfin Hoff. unfold blur_tap.
  apply (for_range_ind
           (fun _ s => zero_f (fst (fst s)) /\ zero_f (snd (fst s)) /\
                       zero_f (snd s))); [lia | |].
  - repeat split; reflexivity.
  - intros k [[rr gg] bb] Hk (Hr & Hg & Hb). cbn [fst snd] in *.
    destruct (Hoff k ltac:(lia)) as [Hlo Hhi].
    assert (Hw : is_finite (float_at K (cast_size_t (k + R)%int)) = true).
    { unfold iadd. rewrite cast_int_id by (unfold INT_MIN, INT_MAX; lia).
      rewrite cast_size_t_id by lia.
      apply (vget_Forall (fun w => is_finite w = true)); [exact Hfin | lia]. }
    rewrite !sadd_id by lia.
    repeat split; apply fadd_zero_zero; try assumption;
      (apply fmul_zero_l; [apply Hsrc; lia | exact Hw]).
Qed.

Lemma clampi_range (v n : Z) : 1 <= n -> 0 <= clampi v 0 (n - 1) < n.
Proof. intros Hn. unfold clampi. lia. Qed.

Lemma isub_one (n : Z) : 1 <= n <= INT_MAX -> (n - 1)%int = n - 1.
Proof.
  intros Hn. unfold isub. apply cast_int_id. unfold INT_MIN, INT_MAX in *. lia.
Qed.

(** One texel of the horizontal pass. *)
Lemma blur_h_cell_zero (K : list float) (R bw bh x y : Z) (st : State) :
  cells_upto zero_f (bw * bh * 3) (bw * bh * 3) (bb_a (bloom st)) ->
  bw * bh * 3 <= INT_MAX -> 0 <= x < bw -> 0 <= y < bh ->
  1 <= R <= 32 -> Z.of_nat (length K) = 2 * R + 1 ->
  Forall (fun w => is_finite w = true) K ->
  exists rr gg bb,
    blur_h_cell K R bw x y st
    = set_bloom (set_bb_b (store3 (bb_b (bloom st)) (3 * (y * bw + x)) rr gg bb)
                   (bloom st)) st /\
    zero_f rr /\ zero_f gg /\ zero_f bb.
Proof.
  intros Hsrc Hmax Hx Hy HR HK Hfin. unfold blur_h_cell.
  assert (Hbw : 1 <= bw <= INT_MAX) by nia.
  match goal with
  | |- context [blur_tap ?s ?k ?r ?off] =>
      destruct (blur_tap_zero s k r (bw * bh * 3) off Hsrc Hmax HR HK Hfin)
        as (Hr & Hg & Hb)
  end.
  { intros k Hk. cbv beta zeta. rewrite isub_one by exact Hbw.
    pose proof (clampi_range (x + k)%int bw ltac:(lia)) as Hsx.
    destruct (bloom_index bw bh _ y Hsx Hy Hmax) as (-> & Hlo & Hhi). lia. }
  destruct (blur_tap _ _ _ _) as [[rr gg] bb]. cbn [fst snd] in *.
  destruct (bloom_index bw bh x y Hx Hy Hmax) as (-> & _ & _).
  exists rr, gg, bb. repeat split; assumption.
Qed.

(** One texel of the vertical pass. *)
Lemma blur_v_cell_zero (K : list float) (R bw bh x y : Z) (st : State) :
  cells_upto zero_f (bw * bh * 3) (bw * bh * 3) (bb_b (bloom st)) ->
  bw * bh * 3 <= INT_MAX -> 0 <= x < bw -> 0 <= y < bh ->
  1 <= R <= 32 -> Z.of_nat (length K) = 2 * R + 1 ->
  Forall (fun w => is_finite w = true) K ->
  exists rr gg bb,
    blur_v_cell K R bw bh x y st
    = set_bloom (set_bb_a (store3 (bb_a (bloom st)) (3 * (y * bw + x)) rr gg bb)
                   (bloom st)) st /\
    zero_f rr /\ zero_f gg /\ zero_f bb.
Proof.
  intros Hsrc Hmax Hx Hy HR HK Hfin. unfold blur_v_cell.
  assert (Hbh : 1 <= bh <= INT_MAX) by nia.
  match goal with
  | |- context [blur_tap ?s ?k ?r ?off] =>
      destruct (blur_tap_zero s k r (bw * bh * 3) off Hsrc Hmax HR HK Hfin)
        as (Hr & Hg & Hb)
  end.
  { intros k Hk. cbv beta zeta. rewrite isub_one by exact Hbh.
    pose proof (clampi_range (y + k)%int bh ltac:(lia)) as Hsy.
    destruct (bloom_index bw bh x _ Hx Hsy Hmax) as (-> & Hlo & Hhi). lia. }
  destruct (blur_tap _ _ _ _) as [[rr gg] bb]. cbn [fst snd] in *.
  destruct (bloom_index bw bh x y Hx Hy Hmax) as (-> & _ & _).
  exists rr, gg, bb. repeat split; assumption.
Qed.

(** Both passes over a buffer [a] of zeros leave a buffer [a] of zeros;
    the state outside the bloom buffers is untouched. *)
Lemma blur_zero `{LibM} (bs : BloomSettings) (st0 : State) (bw bh : Z)
    (va vb tmp kern : list float) (rad : Z) :
  1 <= bw -> 1 <= bh -> bw * bh * 3 <= INT_MAX ->
  cells_upto zero_f (bw * bh * 3) (bw * bh * 3) va ->
  Z.of_nat (length vb) = bw * bh * 3 ->
  Forall (fun w => is_finite w = true)
         (fst (build_gaussian_kernel (sigma bs) kern)) ->
  exists va' vb' K R,
    bloom_blur_separable bs
      (set_bloom (mkBloomBuffers bw bh va vb tmp kern rad) st0)
    = set_bloom (mkBloomBuffers bw bh va' vb' tmp K R) st0 /\
    cells_upto zero_f (bw * bh * 3) (bw * bh * 3) va'.
Proof.
  intros Hbw Hbh Hmax Hva Hvb Hfin. unfold bloom_blur_separable.
  cbn [bloom set_bloom bb_w bb_h bb_kernel].
  destruct (Z.leb_spec bw 0) as [? | _]; [lia |].
  destruct (Z.leb_spec bh 0) as [? | _]; [lia |].
  cbn [orb].
  destruct (kernel_shape (sigma bs) kern) as [HR HK].
  destruct (build_gaussian_kernel (sigma bs) kern) as [K R].
  cbn [fst snd] in *.
  pose (Ph := fun (p : Z) (s : State) =>
                exists v, s = set_bloom (mkBloomBuffers bw bh va v tmp K R) st0
                          /\ cells_upto zero_f (bw * bh * 3) (3 * p) v).
  pose (Pv := fun (vb' : list float) (p : Z) (s : State) =>
                exists v, s = set_bloom (mkBloomBuffers bw bh v vb' tmp K R) st0
                          /\ cells_upto zero_f (bw * bh * 3) (3 * p) v).
  match goal with
  | |- context [for_range 0 bh ?f (for_range 0 bh ?g ?s)] =>
      assert (Hh : Ph (bw * bh) (for_range 0 bh g s))
  end.
  { apply (grid_loop Ph (fun x y s => blur_h_cell K R bw x y s));
      [lia | lia | |].
    - exists vb. split; [reflexivity |]. split; [exact Hvb | intros j Hj; lia].
    - intros x y s Hx Hy (v & -> & Hv).
      destruct (blur_h_cell_zero K R bw bh x y
                  (set_bloom (mkBloomBuffers bw bh va v tmp K R) st0)
                  Hva Hmax Hx Hy HR HK Hfin) as (rr & gg & bb & -> & Hr & Hg & Hb).
      exists (store3 v (3 * (y * bw + x)) rr gg bb). split; [reflexivity |].
      assert (0 <= y * bw) by nia. assert ((y + 1) * bw <= bh * bw) by nia.
      apply cells_store3; auto; lia. }
  destruct Hh as (vb' & -> & Hvb').
  replace (3 * (bw * bh)) with (bw * bh * 3) in Hvb' by lia.
  match goal with
  | |- context [for_range 0 bh ?f ?s] =>
      assert (Hv : Pv vb' (bw * bh) (for_range 0 bh f s))
  end.
  { apply (grid_loop (Pv vb') (fun x y s => blur_v_cell K R bw bh x y s));
      [lia | lia | |].
    - exists va. split; [reflexivity |].
      split; [exact (proj1 Hva) | intros j Hj; lia].
    - intros x y s Hx Hy (v & -> & Hv).
      destruct (blur_v_cell_zero K R bw bh x y
                  (set_bloom (mkBloomBuffers bw bh v vb' tmp K R) st0)
                  Hvb' Hmax Hx Hy HR HK Hfin) as (rr & gg & bb & -> & Hr & Hg & Hb).
      exists (store3 v (3 * (y * bw + x)) rr gg bb). split; [reflexivity |].
      assert (0 <= y * bw) by nia. assert ((y + 1) * bw <= bh * bw) by nia.
      apply cells_store3; auto; lia. }
  destruct Hv as (va' & E & Hva').
  replace (3 * (bw * bh)) with (bw * bh * 3) in Hva' by lia.
  exists va', vb', K, R. split; [exact E | exact Hva'].
Qed.


(* ===================================================================== *)
(** * Bilinear sampling of a buffer of zeros *)
(* ===================================================================== *)

(** [clampf(u, 0, b)] is [0], or it is positive and one of [b] and [u],
    the latter only below [b]. *)
Lemma clampf_cases (u b : float) :
  clampf u f_0 b = f_0 \/
  ((f_0 <? clampf u f_0 b)%f32 = true /\
   (clampf u f_0 b = b \/ (clampf u f_0 b = u /\ (u <? b)%f32 = true))).
Proof.
  unfold clampf, fmax, fmin.
  destruct (u <? b)%f32 eqn:E1; destruct (f_0 <? _)%f32 eqn:E2; auto.
Qed.

Lemma mant24_digits (m : positive) :
  Zpos m < 16777216 -> Zpos (digits2_pos m) <= 24.
Proof.
  intros Hm. change (Zdigits2 (Zpos m) <= 24).
  apply Zdigits2_le; [lia | lia |]. rewrite pow2_24. exact Hm.
Qed.

(** The floor of a positive float below the float of [n - 1]. *)
Lemma floor_below (m : positive) (e n : Z) :
  0 < n < 16777216 -> Zpos m < 16777216 ->
  (S754_finite false m e <? float_of_int n)%f32 = true ->
  0 <= int_of_float (ffloor (S754_finite false m e)) <= n /\
  mag_le 24 (S754_finite false m e).
Proof.
  intros Hn Hm Hlt.
  destruct (float_of_int_exact n Hn) as (mh & eh & Eb & Heh & Hmh & Hdh).
  rewrite Eb in Hlt. apply flt_pos_cases in Hlt.
  pose proof (mant24_digits m Hm) as Hd.
  pose proof (digits2_pos_bounds mh) as Hbh. rewrite Hdh in Hbh.
  change (2 ^ (24 - 1)) with 8388608 in Hbh.
  split; [| cbn [mag_le]; lia].
  unfold ffloor. destruct (Z.leb_spec 0 e) as [He | He].
  - assert (e = 0) by lia. subst e.
    assert (eh = 0) by lia. subst eh.
    change (2 ^ (- 0)) with 1 in Hmh.
    rewrite (int_of_float_exact m 0 (Zpos m));
      [lia | lia | change (2 ^ (- 0)) with 1; lia | unfold INT_MAX; lia].
  - cbn [cond_Zopp].
    change (binary_normalize f32_prec f32_emax (Zpos m / 2 ^ (- e)) 0 false)
      with (float_of_int (Zpos m / 2 ^ (- e))).
    set (q := Zpos m / 2 ^ (- e)).
    assert (Hpe : 0 < 2 ^ (- e)) by (apply Z.pow_pos_nonneg; lia).
    assert (Hq0 : 0 <= q) by (apply Z.div_pos; lia).
    assert (Hqm : q * 2 ^ (- e) <= Zpos m).
    { unfold q. rewrite Z.mul_comm. apply Z.mul_div_le. exact Hpe. }
    assert (Hqn : q <= n).
    { clearbody q.
      assert (HA : 0 < 2 ^ (- eh)) by (apply Z.pow_pos_nonneg; lia).
      destruct Hlt as [Hlt | [-> Hlt]].
      - assert (Hsplit : 2 ^ (- e) = 2 ^ (- eh) * 2 ^ (eh - e)).
        { rewrite <- Z.pow_add_r by lia. f_equal. lia. }
        assert (HB : 2 <= 2 ^ (eh - e)).
        { change 2 with (2 ^ 1) at 1. apply Z.pow_le_mono_r; lia. }
        rewrite Hsplit in Hqm. clear Hsplit Hpe.
        revert Hmh HA HB Hqm.
        generalize (2 ^ (eh - e)). generalize (2 ^ (- eh)).
        intros A B HmA HA HB Hqm.
        assert (H1 : q * A * 2 <= q * (A * B)) by nia.
        assert (H2 : q * A < n * A) by lia.
        apply Z.mul_lt_mono_pos_r in H2; lia.
      - revert Hmh HA Hqm. generalize (2 ^ (- eh)). intros A HmA HA Hqm.
        assert (H2 : q * A < n * A) by lia.
        apply Z.mul_lt_mono_pos_r in H2; lia. }
    destruct (floor_float_of_int q ltac:(lia)) as [_ ->]. lia.
Qed.

(** The cell of a sample coordinate and the magnitude of the clamped
    coordinate, for a buffer of [n] cells in the direction. *)
Lemma sample_axis (n : Z) (u : float) :
  1 <= n <= 16777216 -> mant24 u ->
  0 <= int_of_float (ffloor (clampf u f_0 (float_of_int (n - 1)))) <= n - 1 /\
  mag_le 24 (clampf u f_0 (float_of_int (n - 1))).
Proof.
  intros Hn Hu.
  destruct (clampf_cases u (float_of_int (n - 1)))
    as [E | [Hpos [E | [E Hlt]]]]; rewrite E in *; clear E.
  - cbn. lia.
  - destruct (floor_float_of_int (n - 1) ltac:(lia)) as [-> ->].
    split; [lia | apply float_of_int_mag; lia].
  - destruct (flt_zero_pos u Hpos) as [(m & e & ->) | ->].
    + destruct (Z.eq_dec n 1) as [-> | Hn1].
      * exfalso. change (float_of_int (1 - 1)) with f_0 in Hlt.
        revert Hlt. clear. unfold flt, SFltb. cbn [SFcompare f_0].
        discriminate.
      * apply floor_below; [lia | exact Hu | exact Hlt].
    + exfalso. revert Hlt. clear.
      unfold flt, SFltb.
      destruct (float_of_int (n - 1)) as [| [] | |]; cbn [SFcompare];
        discriminate.
Qed.

(** The two interpolation weights of a direction are finite. *)
Lemma sample_frac (n : Z) (u : float) :
  1 <= n <= 16777216 -> mant24 u ->
  let c := clampf u f_0 (float_of_int (n - 1)) in
  let t := (c - float_of_int (int_of_float (ffloor c)))%f32 in
  is_finite t = true /\ is_finite (f_1 - t)%f32 = true.
Proof.
  intros Hn Hu c t.
  destruct (sample_axis n u Hn Hu) as [Hx Hc]. fold c in Hx, Hc.
  assert (Ht : mag_le 26 t).
  { apply (fsub_mag 24); [lia | exact Hc | apply float_of_int_mag; lia]. }
  split; [exact (mag_le_finite _ _ Ht) |].
  apply (mag_le_finite 28). apply (fsub_mag 26); [lia | | exact Ht].
  cbn. lia.
Qed.

(** A texel of a buffer of zeros. *)
Lemma fetch_zero (va : list float) (bw bh x y k : Z) :
  cells_upto zero_f (bw * bh * 3) (bw * bh * 3) va ->
  bw * bh * 3 <= INT_MAX -> 0 <= x < bw -> 0 <= y < bh -> 0 <= k <= 2 ->
  zero_f (float_at va (sadd (cast_size_t ((y * bw + x) * 3)%int) k)).
Proof.
  intros [_ Hc] Hmax Hx Hy Hk.
  destruct (bloom_index bw bh x y Hx Hy Hmax) as (-> & Hlo & Hhi).
  rewrite sadd_id by lia. apply Hc. lia.
Qed.

Lemma bloom_sample_bilinear_zero (st : State) (u v : float) :
  1 <= bb_w (bloom st) <= 16777216 -> 1 <= bb_h (bloom st) <= 16777216 ->
  bb_w (bloom st) * bb_h (bloom st) * 3 <= INT_MAX ->
  cells_upto zero_f (bb_w (bloom st) * bb_h (bloom st) * 3)
    (bb_w (bloom st) * bb_h (bloom st) * 3) (bb_a (bloom st)) ->
  mant24 u -> mant24 v ->
  zero_f (fst (fst (bloom_sample_bilinear st u v))) /\
  zero_f (snd (fst (bloom_sample_bilinear st u v))) /\
  zero_f (snd (bloom_sample_bilinear st u v)).
Proof.
  intros Hbw Hbh Hmax Hva Hu Hv. unfold bloom_sample_bilinear.
  set (bw := bb_w (bloom st)) in *. set (bh := bb_h (bloom st)) in *.
  destruct (Z.leb_spec bw 0) as [? | _]; [lia |].
  destruct (Z.leb_spec bh 0) as [? | _]; [lia |].
  cbn [orb]. cbv zeta.
  rewrite !isub_one by (unfold INT_MAX; lia).
  destruct (sample_axis bw u Hbw Hu) as [Hx0 _].
  destruct (sample_axis bh v Hbh Hv) as [Hy0 _].
  destruct (sample_frac bw u Hbw Hu) as [Htx Htx1].
  destruct (sample_frac bh v Hbh Hv) as [Hty Hty1].
  set (x0 := int_of_float (ffloor (clampf u f_0 (float_of_int (bw - 1))))) in *.
  set (y0 := int_of_float (ffloor (clampf v f_0 (float_of_int (bh - 1))))) in *.
  pose proof (clampi_range (x0 + 1)%int bw ltac:(lia)) as Hx1.
  pose proof (clampi_range (y0 + 1)%int bh ltac:(lia)) as Hy1.
  cbn [fst snd].
  repeat split; repeat apply lerp_zero; try assumption;
    apply (fetch_zero _ bw bh); try assumption; lia.
Qed.


(* ===================================================================== *)
(** * Compositing a bloom of zeros *)
(* ===================================================================== *)

Lemma byte_roundtrip_all : forallb byte_roundtrip all_bytes = true.
Proof. vm_compute. reflexivity. Qed.

(** [to_u8(c / 255.0f) = c] for every byte [c], and the channel value is
    [+0] or a finite number. *)
Lemma byte_float_roundtrip (c : Z) :
  0 <= c < 256 ->
  to_u8 (byte_float c) = c /\
  (byte_float c = f_0 \/ exists s m e, byte_float c = S754_finite s m e).
Proof.
  intros Hc.
  pose proof (proj1 (forallb_forall _ _) byte_roundtrip_all c
                (all_bytes_spec c Hc)) as H.
  unfold byte_roundtrip in H. apply andb_prop in H as [H1 H2].
  apply Z.eqb_eq in H1. split; [exact H1 |].
  destruct (byte_float c) as [[] | | | s m e]; try discriminate;
    [left; reflexivity | right; eauto].
Qed.

(** Adding a zero bloom sample, scaled by a finite intensity, to a channel
    gives the channel byte back. *)
Lemma channel_plus_zero (c : Z) (z inten : float) :
  0 <= c < 256 -> zero_f z -> is_finite inten = true ->
  to_u8 (float_of_int c / f_255 + z * inten)%f32 = c.
Proof.
  intros Hc Hz Hi. destruct (byte_float_roundtrip c Hc) as [Hr Hk].
  unfold byte_float in *.
  rewrite fadd_keep; [exact Hr | exact Hk | apply fmul_zero_l; assumption].
Qed.

(** One pixel of the compositing loop with bloom on and tone mapping off,
    over a bloom buffer of zeros: the three color bytes are copied, the
    alpha byte is 255. *)
Lemma postprocess_pixel_bloom_zero `{LibM} (ex ig : float) (ds : Z)
    (inten : float) (x y : Z) (st : State) :
  bytes_ok (color st) ->
  1 <= bb_w (bloom st) <= 16777216 -> 1 <= bb_h (bloom st) <= 16777216 ->
  bb_w (bloom st) * bb_h (bloom st) * 3 <= INT_MAX ->
  cells_upto zero_f (bb_w (bloom st) * bb_h (bloom st) * 3)
    (bb_w (bloom st) * bb_h (bloom st) * 3) (bb_a (bloom st)) ->
  is_finite inten = true ->
  postprocess_pixel true false ex ig ds inten x y st
  = set_post_out
      (store_color (post_out st) (idx_rgba (fb_w st) x y)
         (mkColor (byte_at (color st) (sadd (idx_rgba (fb_w st) x y) 0))
                  (byte_at (color st) (sadd (idx_rgba (fb_w st) x y) 1))
                  (byte_at (color st) (sadd (idx_rgba (fb_w st) x y) 2))
                  255)) st.
Proof.
  intros Hbytes Hbw Hbh Hmax Hva Hi. unfold postprocess_pixel. cbv zeta.
  match goal with
  | |- context [bloom_sample_bilinear st ?u ?v] =>
      destruct (bloom_sample_bilinear_zero st u v Hbw Hbh Hmax Hva)
        as (Hr & Hg & Hb);
      [apply (fsub_mant24 _ false 8388608 (-24)); lia
      |apply (fsub_mant24 _ false 8388608 (-24)); lia |];
      destruct (bloom_sample_bilinear st u v) as [[br bg] bb]
  end.
  cbn [fst snd] in *. cbv beta iota.
  rewrite !channel_plus_zero by (try apply byte_at_ok; assumption).
  reflexivity.
Qed.

(** The pixels finished by the compositing loop: the first [p] pixels of
    [po] carry the color bytes of [col] and alpha 255. *)
Lemma composite_step (col po : list Z) (n p : Z) :
  Z.of_nat (length po) = n -> n <= INT_MAX -> 0 <= p -> p * 4 + 3 < n ->
  (forall q, 0 <= q < p ->
     load_color po (q * 4)
     = mkColor (byte_at col (sadd (q * 4) 0)) (byte_at col (sadd (q * 4) 1))
               (byte_at col (sadd (q * 4) 2)) 255) ->
  forall q, 0 <= q < p + 1 ->
    load_color
      (store_color po (p * 4)
         (mkColor (byte_at col (sadd (p * 4) 0)) (byte_at col (sadd (p * 4) 1))
                  (byte_at col (sadd (p * 4) 2)) 255)) (q * 4)
    = mkColor (byte_at col (sadd (q * 4) 0)) (byte_at col (sadd (q * 4) 1))
              (byte_at col (sadd (q * 4) 2)) 255.
Proof.
  intros Hlen Hmax Hp Hlt Hdone q Hq.
  destruct (Z.eq_dec q p) as [-> | Hne].
  - apply load_store_color; lia.
  - rewrite load_store_color_other by lia. apply Hdone. lia.
Qed.

(** Invariant rule for two nested loops whose inner bound is read from the
    state, when the invariant fixes the bound. *)
Lemma grid_loop_dep {S} (P : Z -> S -> Prop) (wf : S -> Z)
    (cell : Z -> Z -> S -> S) (w h : Z) (s : S) :
  0 <= w -> 0 <= h -> P 0 s ->
  (forall p s', P p s' -> wf s' = w) ->
  (forall x y s', 0 <= x < w -> 0 <= y < h ->
                  P (y * w + x) s' -> P (y * w + x + 1) (cell x y s')) ->
  P (w * h)
    (for_range 0 h (fun y s => for_range 0 (wf s) (fun x s => cell x y s) s) s).
Proof.
  intros Hw Hh H0 Hwf Hstep.
  replace (w * h) with (h * w) by lia.
  apply (for_range_ind (fun y s => P (y * w) s)); [lia | exact H0 |].
  intros y s1 Hy H1. rewrite (Hwf _ _ H1).
  replace ((y + 1) * w) with (y * w + w) by lia.
  apply (for_range_ind (fun x s => P (y * w + x) s)); [lia | |].
  - now rewrite Z.add_0_r.
  - intros x s2 Hx H2.
    replace (y * w + (x + 1)) with (y * w + x + 1) by lia.
    apply Hstep; [lia | lia | exact H2].
Qed.

(** The compositing loop over a bloom buffer of zeros. *)
Lemma composite_loop `{LibM} (ex ig : float) (ds : Z) (inten : float)
    (st1 : State) :
  bytes_ok (color st1) ->
  1 <= fb_w st1 -> 1 <= fb_h st1 -> fb_w st1 * fb_h st1 * 4 <= INT_MAX ->
  Z.of_nat (length (post_out st1)) = fb_w st1 * fb_h st1 * 4 ->
  1 <= bb_w (bloom st1) <= 16777216 -> 1 <= bb_h (bloom st1) <= 16777216 ->
  bb_w (bloom st1) * bb_h (bloom st1) * 3 <= INT_MAX ->
  cells_upto zero_f (bb_w (bloom st1) * bb_h (bloom st1) * 3)
    (bb_w (bloom st1) * bb_h (bloom st1) * 3) (bb_a (bloom st1)) ->
  is_finite inten = true ->
  exists po,
    for_range 0 (fb_h st1) (fun y s =>
      for_range 0 (fb_w s) (fun x s =>
        postprocess_pixel true false ex ig ds inten x y s) s) st1
    = set_post_out po st1 /\
    Z.of_nat (length po) = fb_w st1 * fb_h st1 * 4 /\
    forall q, 0 <= q < fb_w st1 * fb_h st1 ->
      load_color po (q * 4)
      = mkColor (byte_at (color st1) (sadd (q * 4) 0))
                (byte_at (color st1) (sadd (q * 4) 1))
                (byte_at (color st1) (sadd (q * 4) 2)) 255.
Proof.
  destruct st1 as [g W Hh col don dep cl bld dr pst po0 bl].
  cbn [color fb_w fb_h post_out bloom].
  intros Hbytes HW HH Hmax Hlen Hbw Hbh HN Hva Hint.
  pose (st := fun po => Build_State g W Hh col don dep cl bld dr pst po bl).
  pose (P := fun (p : Z) (s : State) =>
               exists po, s = st po /\
                 Z.of_nat (length po) = W * Hh * 4 /\
                 forall q, 0 <= q < p ->
                   load_color po (q * 4)
                   = mkColor (byte_at col (sadd (q * 4) 0))
                             (byte_at col (sadd (q * 4) 1))
                             (byte_at col (sadd (q * 4) 2)) 255).
  apply (grid_loop_dep P fb_w
           (fun x y s => postprocess_pixel true false ex ig ds inten x y s));
    [lia | lia | | |].
  - exists po0. split; [reflexivity |]. split; [exact Hlen | intros q Hq; lia].
  - intros p s (po & -> & _). reflexivity.
  - intros x y s Hx Hy (po & -> & Hpo & Hdone).
    rewrite (postprocess_pixel_bloom_zero ex ig ds inten x y (st po)
               Hbytes Hbw Hbh HN Hva Hint).
    unfold st. cbn [color fb_w post_out set_post_out].
    rewrite (idx_rgba_eq W Hh) by lia.
    destruct (idx_rgba_bound W Hh x y) as [Hlo Hhi]; [lia | lia |].
    eexists. split; [reflexivity |].
    split; [rewrite length_store_color; exact Hpo |].
    apply composite_step with (n := W * Hh * 4); auto; lia.
Qed.


(* ===================================================================== *)
(** * Bloom at threshold one *)
(* ===================================================================== *)

Lemma zeros_upto_zero_f (n p : Z) (v : list float) :
  zeros_upto n p v -> cells_upto zero_f n p v.
Proof.
  intros [Hlen Hz]. split; [exact Hlen |].
  intros j Hj. rewrite (Hz j Hj). reflexivity.
Qed.

(** The whole post-process with bloom at threshold one and tone mapping
    off, on a surface with at least one pixel: the output buffer carries
    the color bytes of the surface and alpha 255; outside [post_out] and
    the bloom buffers only the dirty flag changes. *)
Lemma build_postprocess_output_bloom `{LibM} (st : State) :
  surface_ok st -> bytes_ok (color st) -> bloom_ok (bloom st) ->
  1 <= fb_w st -> 1 <= fb_h st ->
  bloom_dim (fb_w st) (pp_bloom (post st)) <= 16777216 ->
  bloom_dim (fb_h st) (pp_bloom (post st)) <= 16777216 ->
  fb_w st + Z.max 2 (downsample (pp_bloom (post st))) <= INT_MAX ->
  fb_h st + Z.max 2 (downsample (pp_bloom (post st))) <= INT_MAX ->
  threshold (pp_bloom (post st)) = f_1 ->
  bloom_enabled (pp_bloom (post st)) = true ->
  tone_enabled (pp_tone (post st)) = false ->
  is_finite (intensity (pp_bloom (post st))) = true ->
  Forall (fun w => is_finite w = true)
         (fst (build_gaussian_kernel (sigma (pp_bloom (post st)))
                 (bb_kernel (bloom st)))) ->
  exists po bl,
    build_postprocess_output true st
    = (BufPostOut, set_dirty_empty true (set_post_out po (set_bloom bl st))) /\
    Z.of_nat (length po) = fb_w st * fb_h st * 4 /\
    forall q, 0 <= q < fb_w st * fb_h st ->
      load_color po (q * 4)
      = mkColor (byte_at (color st) (sadd (q * 4) 0))
                (byte_at (color st) (sadd (q * 4) 1))
                (byte_at (color st) (sadd (q * 4) 2)) 255.
Proof.
  intros Hs Hbytes Hbl HW HH Hbw24 Hbh24 HdW HdH Hthr Hbon Htoff Hint Hfin.
  destruct Hs as (_ & _ & Hmax & _).
  unfold build_postprocess_output. cbv zeta.
  rewrite Hbon, Htoff. cbn [negb andb].
  rewrite size3_id by (unfold INT_MAX in *; nia).
  set (po0 := resize _ 0 (post_out st)).
  assert (Hpo0 : Z.of_nat (length po0) = fb_w st * fb_h st * 4).
  { unfold po0. rewrite length_resize. nia. }
  change (post (set_post_out po0 st)) with (post st).
  pose proof (brightpass_zero (pp_bloom (post st)) (set_post_out po0 st)
                Hbytes Hbl ltac:(cbn; lia) ltac:(cbn; lia) Hmax HdW HdH Hthr)
    as Hbp.
  cbv zeta in Hbp.
  change (fb_w (set_post_out po0 st)) with (fb_w st) in Hbp.
  change (fb_h (set_post_out po0 st)) with (fb_h st) in Hbp.
  change (bloom (set_post_out po0 st)) with (bloom st) in Hbp.
  destruct (bloom_size_bounds (fb_w st) (fb_h st) (pp_bloom (post st))
              HW HH Hmax HdW HdH) as (Hbw & Hbh & HN).
  set (bw := bloom_dim (fb_w st) (pp_bloom (post st))) in *.
  set (bh := bloom_dim (fb_h st) (pp_bloom (post st))) in *.
  destruct Hbp as (va & vb & -> & Hva & Hvb).
  destruct (blur_zero (pp_bloom (post st)) (set_post_out po0 st) bw bh va vb
              (bb_tmp (bloom st)) (bb_kernel (bloom st)) (bb_radius (bloom st))
              (proj1 Hbw) (proj1 Hbh) HN
              (zeros_upto_zero_f _ _ _ Hva) Hvb Hfin)
    as (va' & vb' & K & R & -> & Hva').
  set (bl := mkBloomBuffers bw bh va' vb' (bb_tmp (bloom st)) K R).
  set (st1 := set_bloom bl (set_post_out po0 st)).
  destruct (composite_loop
              (fmax f_1em4 (exposure (pp_tone (post st1))))
              (f_1 / fmax f_0_1 (gamma (pp_tone (post st1))))%f32
              (Z.max 2 (downsample (pp_bloom (post st1))))
              (intensity (pp_bloom (post st1))) st1)
    as (po & -> & Hpo & Hdone);
    [exact Hbytes | exact HW | exact HH | exact Hmax
    | exact Hpo0 | change (1 <= bw <= 16777216); lia
    | change (1 <= bh <= 16777216); lia | exact HN | exact Hva' | exact Hint |].
  exists po, bl. split; [reflexivity |]. split; [exact Hpo | exact Hdone].
Qed.

(** The same on a surface without pixels: there is nothing to blur and
    nothing to composite, and the output buffer is empty. *)
Lemma build_postprocess_output_empty `{LibM} (st : State) :
  surface_ok st -> bytes_ok (color st) -> bloom_ok (bloom st) ->
  fb_w st = 0 \/ fb_h st = 0 ->
  fb_w st + Z.max 2 (downsample (pp_bloom (post st))) <= INT_MAX ->
  fb_h st + Z.max 2 (downsample (pp_bloom (post st))) <= INT_MAX ->
  threshold (pp_bloom (post st)) = f_1 ->
  bloom_enabled (pp_bloom (post st)) = true ->
  exists po bl,
    build_postprocess_output true st
    = (BufPostOut, set_dirty_empty true (set_post_out po (set_bloom bl st))) /\
    Z.of_nat (length po) = fb_w st * fb_h st * 4.
Proof.
  intros Hs Hbytes Hbl Hempty HdW HdH Hthr Hbon.
  destruct Hs as (HW & HH & Hmax & _).
  unfold build_postprocess_output. cbv zeta.
  rewrite Hbon. cbn [negb andb].
  rewrite size3_id by (unfold INT_MAX in *; nia).
  set (po0 := resize _ 0 (post_out st)).
  assert (Hpo0 : Z.of_nat (length po0) = fb_w st * fb_h st * 4).
  { unfold po0. rewrite length_resize. nia. }
  change (post (set_post_out po0 st)) with (post st).
  pose proof (brightpass_zero (pp_bloom (post st)) (set_post_out po0 st)
                Hbytes Hbl HW HH Hmax HdW HdH Hthr) as Hbp.
  cbv zeta in Hbp.
  change (fb_w (set_post_out po0 st)) with (fb_w st) in Hbp.
  change (fb_h (set_post_out po0 st)) with (fb_h st) in Hbp.
  change (bloom (set_post_out po0 st)) with (bloom st) in Hbp.
  pose proof (bloom_dim_bounds0 (fb_w st) (pp_bloom (post st)) HW HdW)
    as [Hbw Hbw0].
  pose proof (bloom_dim_bounds0 (fb_h st) (pp_bloom (post st)) HH HdH)
    as [Hbh Hbh0].
  set (bw := bloom_dim (fb_w st) (pp_bloom (post st))) in *.
  set (bh := bloom_dim (fb_h st) (pp_bloom (post st))) in *.
  destruct Hbp as (va & vb & -> & Hva & Hvb).
  set (bl := mkBloomBuffers bw bh va vb (bb_tmp (bloom st))
               (bb_kernel (bloom st)) (bb_radius (bloom st))).
  assert (Eblur : bloom_blur_separable (pp_bloom (post st))
                    (set_bloom bl (set_post_out po0 st))
                  = set_bloom bl (set_post_out po0 st)).
  { unfold bloom_blur_separable. cbn [bloom set_bloom bb_w bb_h bl].
    assert (E : (bw <=? 0) || (bh <=? 0) = true).
    { apply orb_true_iff. destruct Hempty as [E | E]; [left | right];
        apply Z.leb_le; [rewrite (Hbw0 E) | rewrite (Hbh0 E)]; lia. }
    now rewrite E. }
  rewrite Eblur.
  set (st1 := set_bloom bl (set_post_out po0 st)).
  match goal with
  | |- context [for_range 0 (fb_h st1) ?body st1] =>
      assert (Eloop : for_range 0 (fb_h st1) body st1 = st1)
  end.
  { apply (for_range_ind (fun _ s => s = st1)); [exact HH | reflexivity |].
    intros y s Hy ->. apply for_range_empty.
    change (fb_w st1) with (fb_w st). change (fb_h st1) with (fb_h st) in Hy.
    destruct Hempty as [E | E]; lia. }
  rewrite Eloop.
  exists po0, bl. split; [reflexivity | exact Hpo0].
Qed.

(** C3 (amended).  Bloom neutrality at threshold one.  For a surface
    state with bytes in its color buffer and consistent bloom buffers,
    when the bloom threshold equals 1.0: (1) the bright pass stores [+0]
    in every cell of the bloom buffer, because no luminance of a 0..1
    color exceeds 1.0 in binary32 arithmetic; (2) when the bloom buffer
    has at most 2^24 cells in each direction, with bloom enabled, tone
    mapping disabled, a finite intensity and finite kernel weights, the
    post-processed output is the [post_out] buffer of [W * H * 4] bytes,
    the color buffer is unmodified, and every output pixel has the red,
    green and blue bytes of the input pixel and alpha 255; it equals the
    input pixel whenever the input pixel's alpha is 255. *)
Theorem bloom_threshold_one_neutral `{LibM} (st : State) :
  surface_ok st -> bytes_ok (color st) -> bloom_ok (bloom st) ->
  fb_w st + Z.max 2 (downsample (pp_bloom (post st))) <= INT_MAX ->
  fb_h st + Z.max 2 (downsample (pp_bloom (post st))) <= INT_MAX ->
  threshold (pp_bloom (post st)) = f_1 ->
  let bs := pp_bloom (post st) in
  let bw := bloom_dim (fb_w st) bs in
  let bh := bloom_dim (fb_h st) bs in
  let lit := bloom_brightpass_downsample bs st in
  let out := build_postprocess_output true st in
  (bb_w (bloom lit) = bw /\ bb_h (bloom lit) = bh /\
   zeros_upto (bw * bh * 3) (bw * bh * 3) (bb_a (bloom lit))) /\
  (bw <= 16777216 -> bh <= 16777216 ->
   bloom_enabled bs = true -> tone_enabled (pp_tone (post st)) = false ->
   is_finite (intensity bs) = true ->
   Forall (fun w => is_finite w = true)
          (fst (build_gaussian_kernel (sigma bs) (bb_kernel (bloom st)))) ->
   fst out = BufPostOut /\ color (snd out) = color st /\
   Z.of_nat (length (buffer_of (snd out) (fst out))) = fb_w st * fb_h st * 4 /\
   forall x y, in_bounds st x y = true ->
     let c := get_pixel st x y in
     buffer_pixel (fb_w st) (buffer_of (snd out) (fst out)) x y
     = mkColor (col_r c) (col_g c) (col_b c) 255 /\
     (col_a c = 255 ->
      buffer_pixel (fb_w st) (buffer_of (snd out) (fst out)) x y = c)).
Proof.
  intros Hs Hbytes Hbl HdW HdH Hthr bs bw bh lit out. split.
  - destruct Hs as (HW & HH & Hmax & _).
    destruct (brightpass_zero bs st Hbytes Hbl HW HH Hmax HdW HdH Hthr)
      as (va & vb & E & Hva & _).
    unfold lit. rewrite E. cbn [bloom set_bloom bb_w bb_h bb_a].
    split; [reflexivity | split; [reflexivity | exact Hva]].
  - intros Hbw24 Hbh24 Hbon Htoff Hint Hfin.
    pose proof Hs as (HW & HH & Hmax & _).
    destruct (Z.eq_dec (fb_w st) 0) as [EW | NW];
      [| destruct (Z.eq_dec (fb_h st) 0) as [EH | NH]].
    + destruct (build_postprocess_output_empty st Hs Hbytes Hbl
                  (or_introl EW) HdW HdH Hthr Hbon) as (po & bl & E & Hpo).
      unfold out. rewrite E. cbn [fst snd buffer_of].
      split; [reflexivity | split; [reflexivity | split; [exact Hpo |]]].
      intros x y Hin. apply in_bounds_spec in Hin. lia.
    + destruct (build_postprocess_output_empty st Hs Hbytes Hbl
                  (or_intror EH) HdW HdH Hthr Hbon) as (po & bl & E & Hpo).
      unfold out. rewrite E. cbn [fst snd buffer_of].
      split; [reflexivity | split; [reflexivity | split; [exact Hpo |]]].
      intros x y Hin. apply in_bounds_spec in Hin. lia.
    + destruct (build_postprocess_output_bloom st Hs Hbytes Hbl
                  ltac:(lia) ltac:(lia) Hbw24 Hbh24 HdW HdH Hthr Hbon Htoff
                  Hint Hfin) as (po & bl & E & Hpo & Hdone).
      unfold out. rewrite E. cbn [fst snd buffer_of].
      split; [reflexivity | split; [reflexivity | split; [exact Hpo |]]].
      intros x y Hin. set (c := get_pixel st x y).
      pose proof (proj1 (in_bounds_spec st x y) Hin) as [Hx Hy].
      assert (Hc : buffer_pixel (fb_w st) po x y
                   = mkColor (col_r c) (col_g c) (col_b c) 255).
      { unfold c, get_pixel, buffer_pixel.
        unfold in_bounds in Hin. apply negb_true_iff in Hin. rewrite Hin.
        rewrite (idx_rgba_eq (fb_w st) (fb_h st)) by lia.
        assert (0 <= y * fb_w st) by nia.
        assert ((y + 1) * fb_w st <= fb_h st * fb_w st) by nia.
        rewrite Hdone by lia. reflexivity. }
      change (post_out (set_dirty_empty true
                          (set_post_out po (set_bloom bl st)))) with po.
      split; [exact Hc |].
      intros Ha. rewrite Hc. destruct c as [r g b a]. cbn in Ha. subst a.
      reflexivity.
Qed.

Lemma bloom_threshold_one_neutral_witness :
  let st := surface_bloom_sample in
  let out := build_postprocess_output (H := libm_sample) true st in
  zeros_upto 3 3
    (bb_a (bloom (bloom_brightpass_downsample (pp_bloom (post st)) st))) /\
  fst out = BufPostOut /\
  buffer_pixel 2 (buffer_of (snd out) (fst out)) 1 1
  = mkColor 255 255 255 255.
Proof.
  intros st out.
  assert (Hs : surface_ok st).
  { unfold surface_ok. vm_compute. repeat split; congruence. }
  assert (Hbytes : bytes_ok (color st)).
  { unfold bytes_ok. vm_compute.
    repeat (apply Forall_cons; split; [split; congruence |]).
    apply Forall_nil_2. }
  assert (Hbl : bloom_ok (bloom st)).
  { unfold bloom_ok. vm_compute. split; reflexivity. }
  assert (HdW : fb_w st + Z.max 2 (downsample (pp_bloom (post st)))
                <= INT_MAX) by (vm_compute; congruence).
  assert (HdH : fb_h st + Z.max 2 (downsample (pp_bloom (post st)))
                <= INT_MAX) by (vm_compute; congruence).
  assert (Hbw : bloom_dim (fb_w st) (pp_bloom (post st)) <= 16777216)
    by (vm_compute; congruence).
  assert (Hbh : bloom_dim (fb_h st) (pp_bloom (post st)) <= 16777216)
    by (vm_compute; congruence).
  assert (Hfin : Forall (fun w => is_finite w = true)
                   (fst (build_gaussian_kernel (H := libm_sample)
                           (sigma (pp_bloom (post st)))
                           (bb_kernel (bloom st))))).
  { vm_compute. repeat (apply Forall_cons; split; [reflexivity |]).
    apply Forall_nil_2. }
  destruct (bloom_threshold_one_neutral (H := libm_sample) st Hs Hbytes Hbl
              HdW HdH eq_refl) as [(_ & _ & Hz) Hout].
  destruct (Hout Hbw Hbh eq_refl eq_refl eq_refl Hfin) as (Hp & _ & _ & Hpix).
  split; [exact Hz |]. split; [exact Hp |].
  exact (proj1 (Hpix 1 1 eq_refl)).
Defined.

(** C3 as stated fails: the output alpha is forced to 255, so a surface
    with a pixel whose alpha is not 255 is not reproduced byte for byte.
    On the sample surface, bloom at threshold one with tone mapping off
    turns the transparent pixel (0, 0) opaque. *)
Lemma bloom_output_alpha_counterexample :
  let st := surface_bloom_sample in
  let out := build_postprocess_output (H := libm_sample) true st in
  threshold (pp_bloom (post st)) = f_1 /\
  bloom_enabled (pp_bloom (post st)) = true /\
  tone_enabled (pp_tone (post st)) = false /\
  get_pixel st 0 0 = mkColor 0 0 0 0 /\
  buffer_pixel (fb_w st) (buffer_of (snd out) (fst out)) 0 0
  = mkColor 0 0 0 255 /\
  buffer_of (snd out) (fst out) <> color st.
Proof.
  vm_compute. repeat split; congruence.
Qed.


(* ===================================================================== *)
(** * Color writes: what a write touches *)
(* ===================================================================== *)

Lemma same_frame_refl (st : State) : same_frame st st.
Proof. unfold same_frame. repeat split; reflexivity. Qed.

Lemma same_frame_trans (s1 s2 s3 : State) :
  same_frame s1 s2 -> same_frame s2 s3 -> same_frame s1 s3.
Proof.
  unfold same_frame.
  intros (A1 & A2 & A3 & A4 & A5 & A6 & A7 & A8 & A9 & A10 & A11)
         (B1 & B2 & B3 & B4 & B5 & B6 & B7 & B8 & B9 & B10 & B11).
  repeat split; congruence.
Qed.

Lemma dirty_add_same_frame (x y : Z) (st : State) :
  same_frame st (dirty_add x y st) /\ color (dirty_add x y st) = color st.
Proof.
  unfold dirty_add, same_frame.
  repeat match goal with |- context [if ?c then _ else _] => destruct c end;
    repeat split; reflexivity.
Qed.

Lemma dirty_add_keeps (x y : Z) (st0 st : State) :
  same_frame st0 st /\ color st = color st0 ->
  same_frame st0 (dirty_add x y st) /\ color (dirty_add x y st) = color st0.
Proof.
  intros [Hf Hc]. destruct (dirty_add_same_frame x y st) as [Hf' Hc'].
  split; [eapply same_frame_trans; eauto | congruence].
Qed.

Lemma dirty_add_rect_same_frame (x y w h : Z) (st : State) :
  same_frame st (dirty_add_rect x y w h st) /\
  color (dirty_add_rect x y w h st) = color st.
Proof.
  unfold dirty_add_rect. destruct (negb _).
  - split; [apply same_frame_refl | reflexivity].
  - repeat apply dirty_add_keeps.
    split; [apply same_frame_refl | reflexivity].
Qed.

(** The two outcomes of [write_pixel]. *)
Lemma write_pixel_reject (st : State) (x y : Z) (c : Color) :
  in_bounds st x y = false \/ in_clip st x y = false ->
  write_pixel x y c st = st.
Proof.
  unfold write_pixel, in_bounds. intros [Hb | Hc].
  - apply negb_false_iff in Hb. now rewrite Hb.
  - rewrite Hc. cbn [negb]. now destruct (_ || _).
Qed.

Lemma write_pixel_accept (st : State) (x y : Z) (c : Color) :
  in_bounds st x y = true -> in_clip st x y = true ->
  write_pixel x y c st
  = dirty_add x y
      (set_color
         (store_color (color st) (idx_rgba (fb_w st) x y)
            (blend_out (blend st) c
               (load_color (color st) (idx_rgba (fb_w st) x y)))) st).
Proof.
  unfold write_pixel, in_bounds. intros Hb Hc.
  apply negb_true_iff in Hb. now rewrite Hb, Hc.
Qed.

Lemma write_pixel_same_frame (x y : Z) (c : Color) (st : State) :
  same_frame st (write_pixel x y c st).
Proof.
  destruct (in_bounds st x y) eqn:Hb;
    [destruct (in_clip st x y) eqn:Hc |].
  - rewrite write_pixel_accept by assumption.
    eapply same_frame_trans; [| apply dirty_add_same_frame].
    unfold same_frame. cbn [gl fb_w fb_h color depth_on depth clip blend post
                             post_out bloom set_color].
    rewrite length_store_color. repeat split; reflexivity.
  - rewrite write_pixel_reject by auto. apply same_frame_refl.
  - rewrite write_pixel_reject by auto. apply same_frame_refl.
Qed.

Lemma same_frame_surface_ok (st st' : State) :
  same_frame st st' -> surface_ok st -> surface_ok st'.
Proof.
  unfold same_frame, surface_ok.
  intros (_ & Ew & Eh & El & _) (Hw & Hh & Hmax & Hlen).
  rewrite Ew, Eh, El. auto.
Qed.

Lemma same_frame_in_bounds (st st' : State) (x y : Z) :
  same_frame st st' -> in_bounds st' x y = in_bounds st x y.
Proof.
  unfold same_frame, in_bounds. intros (_ & Ew & Eh & _). now rewrite Ew, Eh.
Qed.

Lemma same_frame_in_clip (st st' : State) (x y : Z) :
  same_frame st st' -> in_clip st' x y = in_clip st x y.
Proof.
  unfold same_frame, in_clip.
  intros (_ & _ & _ & _ & _ & _ & Ec & _). now rewrite Ec.
Qed.

(** Two different pixels of the surface are at least four bytes apart. *)
Lemma pixel_offsets_apart (w x y x' y' : Z) :
  0 <= x < w -> 0 <= x' < w -> 0 <= y -> 0 <= y' ->
  (x', y') <> (x, y) ->
  (y * w + x) * 4 + 3 < (y' * w + x') * 4 \/
  (y' * w + x') * 4 + 3 < (y * w + x) * 4.
Proof.
  intros Hx Hx' Hy Hy' Hne.
  assert (Hd : y * w + x <> y' * w + x').
  { intros E. destruct (pixel_offset_inj w x y x' y' Hx Hx' Hy Hy' E).
    apply Hne. congruence. }
  lia.
Qed.

Lemma get_pixel_write_pixel_other (st : State) (x y x' y' : Z) (c : Color) :
  surface_ok st -> in_bounds st x' y' = true -> (x', y') <> (x, y) ->
  get_pixel (write_pixel x y c st) x' y' = get_pixel st x' y'.
Proof.
  intros Hok Hb' Hne.
  destruct (in_bounds st x y) eqn:Hb;
    [destruct (in_clip st x y) eqn:Hc |];
    try (rewrite write_pixel_reject by auto; reflexivity).
  rewrite write_pixel_accept by assumption.
  destruct Hok as (Hw & Hh & Hmax & Hlen).
  apply in_bounds_spec in Hb as [Hx Hy].
  apply in_bounds_spec in Hb' as [Hx' Hy'].
  assert (Hcond : (x' <? 0) || (y' <? 0) || (x' >=? fb_w st)
                  || (y' >=? fb_h st) = false) by lia.
  unfold get_pixel.
  match goal with
  | |- context [dirty_add x y ?s] =>
      destruct (dirty_add_frame x y s) as (Ew & Eh & Ec & _)
  end.
  rewrite Ew, Eh, Ec. cbn [fb_w fb_h color set_color]. rewrite Hcond.
  rewrite !(idx_rgba_eq (fb_w st) (fb_h st)) by assumption.
  destruct (idx_rgba_bound (fb_w st) (fb_h st) x y Hx Hy) as [Hlo Hhi].
  destruct (idx_rgba_bound (fb_w st) (fb_h st) x' y' Hx' Hy') as [Hlo' Hhi'].
  apply load_store_color_other; try lia.
  apply pixel_offsets_apart; auto; lia.
Qed.

(** X1.  A write outside the surface or outside the clip rectangle is
    dropped: the whole state, dirty rectangle included, is unchanged. *)
Theorem write_pixel_rejected (st : State) (x y : Z) (c : Color) :
  in_bounds st x y = false \/ in_clip st x y = false ->
  write_pixel x y c st = st /\ set_pixel x y c st = st.
Proof.
  intros H. unfold set_pixel. split; apply write_pixel_reject; exact H.
Qed.

Lemma write_pixel_rejected_witness :
  write_pixel 2 0 (mkColor 1 2 3 4) surface_2x2 = surface_2x2 /\
  set_pixel 2 0 (mkColor 1 2 3 4) surface_2x2 = surface_2x2.
Proof.
  apply (write_pixel_rejected surface_2x2 2 0 (mkColor 1 2 3 4)).
  left. reflexivity.
Defined.

(** X2.  A write changes at most the addressed pixel: every other pixel
    of the surface reads as before, and the surface size, the buffer
    length, the depth buffer, the clip rectangle, the blend mode and the
    post-process state are never touched. *)
Theorem write_pixel_other_pixels (st : State) (x y : Z) (c : Color) :
  surface_ok st ->
  same_frame st (write_pixel x y c st) /\
  forall x' y', in_bounds st x' y' = true -> (x', y') <> (x, y) ->
    get_pixel (write_pixel x y c st) x' y' = get_pixel st x' y'.
Proof.
  intros Hok. split; [apply write_pixel_same_frame |].
  intros x' y' Hb Hne. now apply get_pixel_write_pixel_other.
Qed.

Lemma write_pixel_other_pixels_witness :
  get_pixel (write_pixel 0 0 (mkColor 9 9 9 9) surface_2x2) 1 1
  = get_pixel surface_2x2 1 1.
Proof.
  assert (Hok : surface_ok surface_2x2).
  { unfold surface_ok. vm_compute. repeat split; congruence. }
  apply (proj2 (write_pixel_other_pixels surface_2x2 0 0 (mkColor 9 9 9 9) Hok));
    [reflexivity | congruence].
Defined.

(* ===================================================================== *)
(** * Color writes keep the buffer invariants *)
(* ===================================================================== *)

Lemma cast_u8_ok (z : Z) : u8_ok (cast_u8 z).
Proof. unfold u8_ok, cast_u8. apply Z.mod_pos_bound. lia. Qed.

Lemma blend_out_ok (m : BlendMode) (c d : Color) :
  (m = Overwrite -> Color_ok c) -> Color_ok (blend_out m c d).
Proof.
  intros Hc. destruct m; cbn [blend_out].
  - now apply Hc.
  - unfold blend_chan, Color_ok. cbn [col_r col_g col_b col_a].
    repeat split; apply cast_u8_ok.
  - unfold Color_ok. cbn [col_r col_g col_b col_a].
    repeat split; try apply cast_u8_ok; unfold u8_ok; lia.
  - unfold Color_ok. cbn [col_r col_g col_b col_a].
    repeat split; try apply cast_u8_ok; unfold u8_ok; lia.
Qed.

Lemma bytes_ok_vset (v : list Z) (i x : Z) :
  bytes_ok v -> u8_ok x -> bytes_ok (vset v i x).
Proof.
  unfold bytes_ok, vset. intros Hv Hx. destruct (i <? 0); [exact Hv |].
  now apply Forall_insert.
Qed.

Lemma bytes_ok_store_color (v : list Z) (i : Z) (c : Color) :
  bytes_ok v -> Color_ok c -> bytes_ok (store_color v i c).
Proof.
  intros Hv (Hr & Hg & Hb & Ha). unfold store_color.
  repeat apply bytes_ok_vset; assumption.
Qed.

Lemma write_pixel_bytes_ok (st : State) (x y : Z) (c : Color) :
  bytes_ok (color st) -> (blend st = Overwrite -> Color_ok c) ->
  bytes_ok (color (write_pixel x y c st)).
Proof.
  intros Hbytes Hc.
  destruct (in_bounds st x y) eqn:Hb;
    [destruct (in_clip st x y) eqn:Hcl |];
    try (rewrite write_pixel_reject by auto; exact Hbytes).
  rewrite write_pixel_accept by assumption.
  rewrite (proj2 (dirty_add_same_frame _ _ _)). cbn [color set_color].
  apply bytes_ok_store_color; [exact Hbytes | now apply blend_out_ok].
Qed.

(** X3.  Every write keeps the invariants of the color buffer: it still
    holds [W * H * 4] entries and every entry is a byte.  Under
    [Overwrite] the source color is stored as given, so its channels
    must be bytes; the other blend modes produce bytes from any source. *)
Theorem write_pixel_keeps_invariants (st : State) (x y : Z) (c : Color) :
  surface_ok st -> bytes_ok (color st) ->
  (blend st = Overwrite -> Color_ok c) ->
  surface_ok (write_pixel x y c st) /\
  bytes_ok (color (write_pixel x y c st)).
Proof.
  intros Hok Hbytes Hc. split.
  - exact (same_frame_surface_ok _ _ (write_pixel_same_frame x y c st) Hok).
  - now apply write_pixel_bytes_ok.
Qed.

Lemma write_pixel_keeps_invariants_witness :
  let st := set_blend_mode Additive surface_2x2 in
  surface_ok (write_pixel 1 0 (mkColor 300 (-5) 7 1000) st) /\
  bytes_ok (color (write_pixel 1 0 (mkColor 300 (-5) 7 1000) st)).
Proof.
  intros st.
  assert (Hok : surface_ok st).
  { unfold surface_ok. vm_compute. repeat split; congruence. }
  assert (Hbytes : bytes_ok (color st)).
  { unfold bytes_ok. vm_compute.
    repeat (apply Forall_cons; split; [split; congruence |]).
    apply Forall_nil_2. }
  apply (write_pixel_keeps_invariants st 1 0 (mkColor 300 (-5) 7 1000) Hok Hbytes).
  intros E. discriminate E.
Defined.

(* ===================================================================== *)
(** * Alpha blending with an opaque or a transparent source *)
(* ===================================================================== *)

Lemma byte_unit_all : forallb byte_unit_check all_bytes = true.
Proof. vm_compute. reflexivity. Qed.

Lemma byte_unit (c : Z) :
  u8_ok c ->
  pos_or_zero (byte_float c) = true /\
  pos_or_zero (byte_float c * f_1)%f32 = true /\
  cast_u8 (clampi (cast_int (lround (byte_float c * f_1 * f_255)%f32)) 0 255)
  = c.
Proof.
  intros Hc.
  pose proof (proj1 (forallb_forall _ _) byte_unit_all c
                (all_bytes_spec c Hc)) as H.
  unfold byte_unit_check in H.
  apply andb_prop in H as [H H3]. apply andb_prop in H as [H1 H2].
  apply Z.eqb_eq in H3. auto.
Qed.

Lemma fmul_pos_zero (x : float) :
  pos_or_zero x = true -> (x * f_0)%f32 = f_0.
Proof. destruct x as [[] | | | [] m e]; try discriminate; reflexivity. Qed.

Lemma fadd_pos_zero_r (x : float) :
  pos_or_zero x = true -> (x + f_0)%f32 = x.
Proof. destruct x as [[] | | | [] m e]; try discriminate; reflexivity. Qed.

Lemma fadd_pos_zero_l (x : float) :
  pos_or_zero x = true -> (f_0 + x)%f32 = x.
Proof. destruct x as [[] | | | [] m e]; try discriminate; reflexivity. Qed.

Lemma blend_chan_opaque (sc dc : Z) :
  u8_ok sc -> u8_ok dc -> blend_chan f_1 sc dc = sc.
Proof.
  intros Hs Hd. unfold blend_chan.
  destruct (byte_unit sc Hs) as (_ & Hs1 & Hs2).
  destruct (byte_unit dc Hd) as (Hd0 & _ & _).
  fold (byte_float sc) (byte_float dc).
  change (f_1 - f_1)%f32 with f_0.
  rewrite (fmul_pos_zero _ Hd0), (fadd_pos_zero_r _ Hs1). exact Hs2.
Qed.

Lemma blend_chan_transparent (sc dc : Z) :
  u8_ok sc -> u8_ok dc -> blend_chan f_0 sc dc = dc.
Proof.
  intros Hs Hd. unfold blend_chan.
  destruct (byte_unit sc Hs) as (Hs0 & _ & _).
  destruct (byte_unit dc Hd) as (_ & Hd1 & Hd2).
  fold (byte_float sc) (byte_float dc).
  change (f_1 - f_0)%f32 with f_1.
  rewrite (fmul_pos_zero _ Hs0), (fadd_pos_zero_l _ Hd1). exact Hd2.
Qed.

Lemma blend_out_alpha_extremes (c d : Color) :
  Color_ok c -> Color_ok d ->
  (col_a c = 255 ->
   blend_out Alpha c d = mkColor (col_r c) (col_g c) (col_b c) 255) /\
  (col_a c = 0 -> blend_out Alpha c d = d).
Proof.
  intros (Hcr & Hcg & Hcb & Hca) (Hdr & Hdg & Hdb & Hda).
  split; intros Ea; cbn [blend_out]; rewrite Ea.
  - change (float_of_int 255 / f_255)%f32 with f_1.
    rewrite !blend_chan_opaque by assumption.
    f_equal.
    destruct (byte_unit (col_a d) Hda) as (Hd0 & _ & _).
    fold (byte_float (col_a d)).
    change (f_1 - f_1)%f32 with f_0.
    rewrite (fmul_pos_zero _ Hd0). reflexivity.
  - change (float_of_int 0 / f_255)%f32 with f_0.
    rewrite !blend_chan_transparent by assumption.
    destruct (byte_unit (col_a d) Hda) as (_ & Hd1 & Hd2).
    fold (byte_float (col_a d)).
    change (f_1 - f_0)%f32 with f_1.
    rewrite (fadd_pos_zero_l _ Hd1), Hd2. now destruct d.
Qed.

(** X4.  Alpha blending at its two extremes, on byte-valued colors: a
    source with alpha 255 replaces the red, green and blue bytes of the
    pixel and leaves it with alpha 255; a source with alpha 0 leaves the
    pixel exactly as it was. *)
Theorem alpha_blend_extremes (st : State) (x y : Z) (c : Color) :
  surface_ok st -> bytes_ok (color st) -> Color_ok c ->
  in_bounds st x y = true -> in_clip st x y = true -> blend st = Alpha ->
  (col_a c = 255 ->
   get_pixel (write_pixel x y c st) x y
   = mkColor (col_r c) (col_g c) (col_b c) 255) /\
  (col_a c = 0 ->
   get_pixel (write_pixel x y c st) x y = get_pixel st x y).
Proof.
  intros Hok Hbytes Hc Hb Hcl Hm.
  rewrite get_pixel_write_pixel by assumption. rewrite Hm.
  apply blend_out_alpha_extremes; [exact Hc |].
  now apply get_pixel_ok.
Qed.

Lemma alpha_blend_extremes_witness :
  let st := set_blend_mode Alpha surface_2x2 in
  get_pixel (write_pixel 1 1 (mkColor 10 20 30 255) st) 1 1
  = mkColor 10 20 30 255 /\
  get_pixel (write_pixel 1 1 (mkColor 10 20 30 0) st) 1 1 = get_pixel st 1 1.
Proof.
  intros st.
  assert (Hok : surface_ok st).
  { unfold surface_ok. vm_compute. repeat split; congruence. }
  assert (Hbytes : bytes_ok (color st)).
  { unfold bytes_ok. vm_compute.
    repeat (apply Forall_cons; split; [split; congruence |]).
    apply Forall_nil_2. }
  assert (Hc1 : Color_ok (mkColor 10 20 30 255)).
  { unfold Color_ok, u8_ok. cbn. lia. }
  assert (Hc0 : Color_ok (mkColor 10 20 30 0)).
  { unfold Color_ok, u8_ok. cbn. lia. }
  split.
  - exact (proj1 (alpha_blend_extremes st 1 1 _ Hok Hbytes Hc1
                    eq_refl eq_refl eq_refl) eq_refl).
  - exact (proj2 (alpha_blend_extremes st 1 1 _ Hok Hbytes Hc0
                    eq_refl eq_refl eq_refl) eq_refl).
Defined.

(* ===================================================================== *)
(** * The dirty rectangle *)
(* ===================================================================== *)

(** X5.  Dirty tracking of a write that lands.  With tracking on, the
    dirty rectangle afterwards is not empty and contains the written
    pixel, and it still contains every point it contained before (it only
    grows).  With tracking off the rectangle is left alone. *)
Theorem write_pixel_marks_dirty (st : State) (x y : Z) (c : Color) :
  in_bounds st x y = true -> in_clip st x y = true ->
  (dirty_on (dirty st) = true ->
   dirty_covers (write_pixel x y c st) x y /\
   forall px py, dirty_covers st px py ->
                 dirty_covers (write_pixel x y c st) px py) /\
  (dirty_on (dirty st) = false -> dirty (write_pixel x y c st) = dirty st).
Proof.
  intros Hb Hcl. rewrite write_pixel_accept by assumption.
  unfold in_bounds in Hb. apply negb_true_iff in Hb.
  unfold dirty_add, dirty_covers.
  cbn [dirty fb_w fb_h set_color]. rewrite Hb.
  split; intros Hon; rewrite Hon; cbn [negb]; [| reflexivity].
  destruct (dirty_empty (dirty st)) eqn:He;
    cbn [dirty set_dirty dirty_empty dirty_minx dirty_maxx dirty_miny
         dirty_maxy].
  - split; [repeat split; lia |].
    intros px py (Hne & _). discriminate Hne.
  - split; [repeat split; lia |].
    intros px py (_ & Hx & Hy). repeat split; lia.
Qed.

Lemma write_pixel_marks_dirty_witness :
  dirty_covers (write_pixel 1 0 (mkColor 1 2 3 4) surface_2x2) 1 0.
Proof.
  exact (proj1 (proj1 (write_pixel_marks_dirty surface_2x2 1 0
                         (mkColor 1 2 3 4) eq_refl eq_refl) eq_refl)).
Defined.

(* ===================================================================== *)
(** * Channel conversion *)
(* ===================================================================== *)

Lemma clampf_unit_high (v : float) :
  (v <? f_1)%f32 = false -> clampf v f_0 f_1 = f_1.
Proof. intros H. unfold clampf, fmin, fmax. rewrite H. reflexivity. Qed.

Lemma clampf_unit_low (v : float) :
  (v <? f_1)%f32 = true -> (f_0 <? v)%f32 = false -> clampf v f_0 f_1 = f_0.
Proof. intros H1 H0. unfold clampf, fmin, fmax. now rewrite H1, H0. Qed.

Lemma to_u8_of_clamped (v : float) :
  to_u8 v
  = cast_u8 (clampi (cast_int (lround (clampf v f_0 f_1 * f_255)%f32)) 0 255).
Proof. reflexivity. Qed.

(** X6.  [to_u8] saturates.  Its result is always a byte; a value that
    is not below [1.0f] gives 255, and that includes [+inf] and the NaN
    (for which [std::min(1.0f, v)] keeps [1.0f]); a value below [1.0f]
    that is not above [0.0f] gives 0. *)
Theorem to_u8_saturates (v : float) :
  0 <= to_u8 v < 256 /\
  ((v <? f_1)%f32 = false -> to_u8 v = 255) /\
  (is_nan v = true -> to_u8 v = 255) /\
  ((v <? f_1)%f32 = true -> (f_0 <? v)%f32 = false -> to_u8 v = 0).
Proof.
  split; [apply cast_u8_ok |].
  split; [| split].
  - intros H. rewrite to_u8_of_clamped, (clampf_unit_high v H). reflexivity.
  - intros H. destruct v; try discriminate H. reflexivity.
  - intros H1 H0. rewrite to_u8_of_clamped, (clampf_unit_low v H1 H0).
    reflexivity.
Qed.

(** X7.  Round trip of a channel: a byte converted to its channel value
    [c / 255.0f] and back by [to_u8] is the same byte, for all 256
    bytes. *)
Theorem to_u8_byte_roundtrip (c : Z) :
  0 <= c < 256 -> to_u8 (float_of_int c / f_255)%f32 = c.
Proof.
  intros Hc. exact (proj1 (byte_float_roundtrip c Hc)).
Qed.

Lemma to_u8_byte_roundtrip_witness :
  to_u8 (float_of_int 77 / f_255)%f32 = 77.
Proof. apply (to_u8_byte_roundtrip 77). lia. Defined.


(* ===================================================================== *)
(** * The depth buffer *)
(* ===================================================================== *)

Lemma flt_nan_l (z : float) : (f_nan <? z)%f32 = false.
Proof. reflexivity. Qed.

(** The test of a pixel against the stored depth, NaN included. *)
Lemma depth_test_write_fst (st : State) (x y : Z) (z : float) :
  depth_ok st -> depth_on st = true ->
  in_bounds st x y = true -> in_clip st x y = true ->
  fst (depth_test_write x y z st) = (z <? depth_at st x y)%f32.
Proof.
  intros Hok Hon Hb Hc. destruct (is_nan z) eqn:Hn.
  - destruct z; try discriminate Hn.
    unfold depth_test_write. rewrite Hon, Hc.
    unfold in_bounds in Hb. apply negb_true_iff in Hb. rewrite Hb.
    reflexivity.
  - rewrite depth_test_write_compare by assumption.
    now destruct (z <? depth_at st x y)%f32.
Qed.

(** An accepted test went through every guard. *)
Lemma depth_test_write_accepted (st : State) (x y : Z) (z : float) :
  depth_ok st -> depth_on st = true ->
  fst (depth_test_write x y z st) = true ->
  in_bounds st x y = true /\ in_clip st x y = true /\ is_nan z = false /\
  depth_test_write x y z st
  = (true, set_depth (vset (depth st) (y * fb_w st + x) z) st).
Proof.
  intros Hok Hon Hacc.
  assert (Hb : in_bounds st x y = true).
  { destruct (in_bounds st x y) eqn:Hb; [reflexivity |].
    unfold depth_test_write in Hacc. rewrite Hon in Hacc.
    unfold in_bounds in Hb. apply negb_false_iff in Hb.
    rewrite Hb in Hacc. discriminate Hacc. }
  assert (Hc : in_clip st x y = true).
  { destruct (in_clip st x y) eqn:Hc; [reflexivity |].
    unfold depth_test_write in Hacc. rewrite Hon, Hc in Hacc.
    now destruct (_ || _). }
  assert (Hn : is_nan z = false).
  { destruct z; try reflexivity.
    rewrite depth_test_write_fst in Hacc by assumption. discriminate Hacc. }
  repeat split; try assumption.
  rewrite depth_test_write_compare in * by assumption.
  destruct (z <? depth_at st x y)%f32; [reflexivity | discriminate Hacc].
Qed.

Lemma depth_at_vset (st : State) (x y : Z) (z : float) :
  depth_ok st -> in_bounds st x y = true ->
  depth_at (set_depth (vset (depth st) (y * fb_w st + x) z) st) x y = z.
Proof.
  intros Hok Hb. destruct (depth_index_eq st x y Hok Hb) as [_ Hr].
  unfold depth_at, float_at. cbn [depth fb_w set_depth].
  now apply vget_vset_eq.
Qed.

Lemma depth_ok_vset (st : State) (i : Z) (z : float) :
  depth_ok st -> depth_ok (set_depth (vset (depth st) i z) st).
Proof.
  unfold depth_ok. cbn [depth fb_w fb_h set_depth].
  now rewrite length_vset.
Qed.

(** X8.  Two tests at one pixel.  Once a depth [z] has been accepted at
    [(x, y)], it is the stored depth there, a later test at that pixel
    passes exactly when its depth is smaller than [z], and the same depth
    submitted again is rejected. *)
Theorem depth_test_write_twice (st : State) (x y : Z) (z z2 : float) :
  depth_ok st -> depth_on st = true ->
  fst (depth_test_write x y z st) = true ->
  let st' := snd (depth_test_write x y z st) in
  depth_at st' x y = z /\
  fst (depth_test_write x y z2 st') = (z2 <? z)%f32 /\
  depth_test_write x y z st' = (false, st').
Proof.
  intros Hok Hon Hacc.
  destruct (depth_test_write_accepted st x y z Hok Hon Hacc)
    as (Hb & Hc & Hn & E).
  rewrite E. cbn [snd].
  set (st' := set_depth (vset (depth st) (y * fb_w st + x) z) st).
  assert (Hok' : depth_ok st') by now apply depth_ok_vset.
  assert (Hat : depth_at st' x y = z) by now apply depth_at_vset.
  split; [exact Hat | split].
  - rewrite depth_test_write_fst by assumption. now rewrite Hat.
  - rewrite depth_test_write_compare by assumption. rewrite Hat.
    assert (Hirr : (z <? z)%f32 = false).
    { unfold flt, SFltb, SFcompare.
      destruct z as [[] | [] | | [] m e]; try reflexivity;
        rewrite Z.compare_refl, ?Pos.compare_cont_refl, ?Pos.compare_refl;
        reflexivity. }
    now rewrite Hirr.
Qed.

Lemma depth_test_write_twice_witness :
  let st' := snd (depth_test_write 1 1 f_0_5 surface_2x2_depth) in
  depth_at st' 1 1 = f_0_5 /\
  fst (depth_test_write 1 1 f_0_75 st') = (f_0_75 <? f_0_5)%f32 /\
  depth_test_write 1 1 f_0_5 st' = (false, st').
Proof.
  assert (Hok : depth_ok surface_2x2_depth).
  { unfold depth_ok. vm_compute. repeat split; congruence. }
  exact (depth_test_write_twice surface_2x2_depth 1 1 f_0_5 f_0_75 Hok
           eq_refl eq_refl).
Defined.

Lemma depth_len_id (w h : Z) :
  0 <= w -> 0 <= h -> w * h <= INT_MAX ->
  smul (cast_size_t w) (cast_size_t h) = w * h.
Proof.
  intros Hw Hh Hmax. unfold smul, INT_MAX in *.
  assert (0 <= w * h) by nia.
  destruct (Z.eq_dec h 0) as [-> | Hh0].
  { change (cast_size_t 0) with 0. now rewrite !Z.mul_0_r. }
  destruct (Z.eq_dec w 0) as [-> | Hw0].
  { change (cast_size_t 0) with 0. now rewrite !Z.mul_0_l. }
  assert (w <= w * h) by nia. assert (h <= w * h) by nia.
  rewrite (cast_size_t_id w), (cast_size_t_id h) by lia.
  apply cast_size_t_id. lia.
Qed.

Lemma float_at_replicate (n : nat) (z : float) (i : Z) :
  0 <= i < Z.of_nat n -> float_at (replicate n z) i = z.
Proof.
  intros Hi. unfold float_at, vget.
  destruct (Z.ltb_spec i 0) as [? | _]; [lia |].
  rewrite lookup_replicate_2 by lia. reflexivity.
Qed.

Lemma pixel_index_range (w h x y : Z) :
  0 <= x < w -> 0 <= y < h -> 0 <= y * w + x < w * h.
Proof. intros Hx Hy. nia. Qed.

(** X9.  Switching depth testing.  [enable_depth(true)] leaves a depth
    buffer of [W * H] entries, all [1.0f], so that the first test at a
    pixel of the surface that is not clipped passes exactly for depths
    below [1.0f]; [enable_depth(false)] empties the buffer, after which
    every depth test passes without storing anything.  Neither touches
    the color buffer. *)
Theorem enable_depth_resets (st : State) :
  0 <= fb_w st -> 0 <= fb_h st -> fb_w st * fb_h st <= INT_MAX ->
  (let st' := enable_depth true st in
   depth_on st' = true /\ depth_ok st' /\ color st' = color st /\
   forall x y, in_bounds st x y = true ->
     depth_at st' x y = f_1 /\
     (in_clip st x y = true ->
      forall z, fst (depth_test_write x y z st') = (z <? f_1)%f32)) /\
  (let st' := enable_depth false st in
   depth_on st' = false /\ depth st' = [] /\ color st' = color st /\
   forall x y z, depth_test_write x y z st' = (true, st')).
Proof.
  intros Hw Hh Hmax. split.
  - unfold enable_depth. cbn [depth_on set_depth_on set_depth fb_w fb_h].
    rewrite depth_len_id by assumption.
    set (st' := set_depth _ _).
    assert (Hok : depth_ok st').
    { unfold depth_ok, st'. cbn [depth fb_w fb_h set_depth set_depth_on].
      rewrite length_replicate. repeat split; try assumption. nia. }
    assert (Hat : forall x y, in_bounds st x y = true -> depth_at st' x y = f_1).
    { intros x y Hb. apply in_bounds_spec in Hb as [Hx Hy].
      unfold depth_at, st'. cbn [depth fb_w set_depth set_depth_on].
      apply float_at_replicate.
      pose proof (pixel_index_range _ _ x y Hx Hy). lia. }
    split; [reflexivity | split; [exact Hok | split; [reflexivity |]]].
    intros x y Hb. split; [now apply Hat |].
    intros Hc z.
    rewrite depth_test_write_fst; [now rewrite Hat | exact Hok | reflexivity
                                  | exact Hb | exact Hc].
  - unfold enable_depth. cbn [depth_on set_depth_on set_depth depth color].
    repeat split; reflexivity.
Qed.

Lemma enable_depth_resets_witness :
  depth_ok (enable_depth true surface_2x2) /\
  depth_test_write 0 0 f_0_5 (enable_depth false surface_2x2)
  = (true, enable_depth false surface_2x2).
Proof.
  assert (H0 : 0 <= fb_w surface_2x2) by (vm_compute; congruence).
  assert (H1 : 0 <= fb_h surface_2x2) by (vm_compute; congruence).
  assert (H2 : fb_w surface_2x2 * fb_h surface_2x2 <= INT_MAX)
    by (vm_compute; congruence).
  destruct (enable_depth_resets surface_2x2 H0 H1 H2)
    as [(_ & Hok & _) (_ & _ & _ & Hoff)].
  split; [exact Hok | apply Hoff].
Defined.

Lemma lookup_map {A B} (f : A -> B) (l : list A) (i : nat) :
  map f l !! i = option_map f (l !! i).
Proof.
  revert i. induction l as [| a l IH]; intros [| i]; cbn; auto.
Qed.

(** X10.  [clear_depth(z)].  With depth testing on, every stored depth
    becomes [z] and the buffer keeps its size, so that the next test at a
    pixel of the surface that is not clipped passes exactly for depths
    below [z]; with depth testing off the call does nothing. *)
Theorem clear_depth_all (st : State) (z : float) :
  (depth_on st = true -> depth_ok st ->
   depth_ok (clear_depth z st) /\ color (clear_depth z st) = color st /\
   forall x y, in_bounds st x y = true ->
     depth_at (clear_depth z st) x y = z /\
     (in_clip st x y = true ->
      forall z2,
        fst (depth_test_write x y z2 (clear_depth z st)) = (z2 <? z)%f32)) /\
  (depth_on st = false -> clear_depth z st = st).
Proof.
  unfold clear_depth. split; intros Hon; rewrite Hon; cbn [negb];
    [| reflexivity].
  intros Hok. set (st' := set_depth _ _).
  assert (Hok' : depth_ok st').
  { unfold depth_ok, st' in *. cbn [depth fb_w fb_h set_depth].
    now rewrite length_map. }
  assert (Hat : forall x y, in_bounds st x y = true -> depth_at st' x y = z).
  { intros x y Hb. destruct (depth_index_eq st x y Hok Hb) as [_ Hr].
    unfold depth_at, float_at, vget, st'. cbn [depth fb_w set_depth].
    destruct (Z.ltb_spec (y * fb_w st + x) 0) as [? | _]; [lia |].
    rewrite lookup_map.
    destruct (lookup_lt_is_Some_2 (depth st) (Z.to_nat (y * fb_w st + x)))
      as [d ->]; [lia | reflexivity]. }
  split; [exact Hok' | split; [reflexivity |]].
  intros x y Hb. split; [now apply Hat |].
  intros Hc z2.
  rewrite depth_test_write_fst; [now rewrite Hat | exact Hok' | exact Hon
                                | exact Hb | exact Hc].
Qed.

Lemma clear_depth_all_witness :
  depth_at (clear_depth f_0_5 surface_2x2_depth) 1 0 = f_0_5 /\
  clear_depth f_0_5 surface_2x2 = surface_2x2.
Proof.
  assert (Hok : depth_ok surface_2x2_depth).
  { unfold depth_ok. vm_compute. repeat split; congruence. }
  split.
  - exact (proj1 (proj2 (proj2 (proj1 (clear_depth_all surface_2x2_depth f_0_5)
                                  eq_refl Hok)) 1 0 eq_refl)).
  - exact (proj2 (clear_depth_all surface_2x2 f_0_5) eq_refl).
Defined.


(* ===================================================================== *)
(** * The clip rectangle *)
(* ===================================================================== *)

Lemma isub_id (a b : Z) :
  INT_MIN <= a - b <= INT_MAX -> (a - b)%int = a - b.
Proof. intros H. unfold isub. now apply cast_int_id. Qed.

Lemma iadd_id (a b : Z) :
  INT_MIN <= a + b <= INT_MAX -> (a + b)%int = a + b.
Proof. intros H. unfold iadd. now apply cast_int_id. Qed.

(** X11.  [set_clip_rect] clamps the rectangle into the surface.  After
    the call a pixel that passes the clip test lies inside the surface; a
    rectangle of non-positive width or height lets no pixel pass; a
    rectangle that lies inside the surface is taken as given.  After
    [disable_clip_rect] every pixel passes. *)
Theorem set_clip_rect_inside (st : State) (x y w h : Z) :
  0 <= fb_w st <= INT_MAX -> 0 <= fb_h st <= INT_MAX ->
  let st' := set_clip_rect x y w h st in
  (forall px py, in_clip st' px py = true -> in_bounds st px py = true) /\
  (w <= 0 \/ h <= 0 -> forall px py, in_clip st' px py = false) /\
  (0 <= x -> 0 <= y -> 0 <= w -> 0 <= h ->
   x + w <= fb_w st -> y + h <= fb_h st ->
   forall px py, in_clip st' px py = in_rect x y w h px py) /\
  (forall px py, in_clip (disable_clip_rect st') px py = true).
Proof.
  intros HW HH st'. unfold INT_MAX in *.
  assert (E : forall px py,
    in_clip st' px py
    = in_rect (clampi x 0 (fb_w st)) (clampi y 0 (fb_h st))
        (clampi w 0 (fb_w st - clampi x 0 (fb_w st)))
        (clampi h 0 (fb_h st - clampi y 0 (fb_h st))) px py).
  { intros px py. unfold st', set_clip_rect, in_clip, in_rect.
    cbn [clip set_clip clip_on clip_x clip_y clip_w clip_h negb].
    unfold clampi.
    rewrite !isub_id by (unfold INT_MIN, INT_MAX; lia).
    rewrite !iadd_id by (unfold INT_MIN, INT_MAX; lia).
    lia. }
  split; [| split; [| split]].
  - intros px py Hc. rewrite E in Hc. unfold in_rect, clampi in Hc.
    apply in_bounds_spec. lia.
  - intros Hwh px py. rewrite E. unfold in_rect, clampi. lia.
  - intros Hx Hy Hw Hh Hxw Hyh px py. rewrite E. unfold in_rect, clampi.
    lia.
  - intros px py. reflexivity.
Qed.

Lemma set_clip_rect_inside_witness :
  in_clip (set_clip_rect 1 0 1 2 surface_2x2) 0 0 = in_rect 1 0 1 2 0 0 /\
  in_clip (set_clip_rect 0 0 (-3) 2 surface_2x2) 0 0 = false.
Proof.
  assert (HW : 0 <= fb_w surface_2x2 <= INT_MAX)
    by (vm_compute; split; congruence).
  assert (HH : 0 <= fb_h surface_2x2 <= INT_MAX)
    by (vm_compute; split; congruence).
  split.
  - apply (proj1 (proj2 (proj2 (set_clip_rect_inside surface_2x2 1 0 1 2
                                  HW HH)))); vm_compute; congruence.
  - apply (proj1 (proj2 (set_clip_rect_inside surface_2x2 0 0 (-3) 2
                           HW HH))).
    left. lia.
Defined.

(* ===================================================================== *)
(** * Clearing the color buffer *)
(* ===================================================================== *)

(** Filling an RGBA buffer pixel by pixel, in row-major order, with the
    colors [f q]. *)
Lemma fill_step (f : Z -> Color) (po : list Z) (n p : Z) :
  Z.of_nat (length po) = n -> n <= INT_MAX -> 0 <= p -> p * 4 + 3 < n ->
  (forall q, 0 <= q < p -> load_color po (q * 4) = f q) ->
  forall q, 0 <= q < p + 1 ->
    load_color (store_color po (p * 4) (f p)) (q * 4) = f q.
Proof.
  intros Hlen Hmax Hp Hlt Hdone q Hq.
  destruct (Z.eq_dec q p) as [-> | Hne].
  - apply load_store_color; lia.
  - rewrite load_store_color_other by lia. apply Hdone. lia.
Qed.

Lemma clear_color_loop (c : Color) (st : State) :
  surface_ok st ->
  exists v,
    for_range 0 (fb_h st) (fun y st =>
      for_range 0 (fb_w st) (fun x st =>
        set_color (store_color (color st) (idx_rgba (fb_w st) x y) c) st) st)
      st
    = set_color v st /\
    Z.of_nat (length v) = fb_w st * fb_h st * 4 /\
    forall q, 0 <= q < fb_w st * fb_h st -> load_color v (q * 4) = c.
Proof.
  destruct st as [g W Hh col don dep cl bld dr pst po bl].
  unfold surface_ok. cbn [color fb_w fb_h].
  intros (HW & HH & Hmax & Hlen).
  pose (st := fun v => Build_State g W Hh v don dep cl bld dr pst po bl).
  pose (P := fun (p : Z) (s : State) =>
               exists v, s = st v /\ Z.of_nat (length v) = W * Hh * 4 /\
                 forall q, 0 <= q < p -> load_color v (q * 4) = c).
  apply (grid_loop_dep P fb_w
           (fun x y s =>
              set_color (store_color (color s) (idx_rgba (fb_w s) x y) c) s));
    [lia | lia | | |].
  - exists col. split; [reflexivity |]. split; [exact Hlen | intros q Hq; lia].
  - intros p s (v & -> & _). reflexivity.
  - intros x y s Hx Hy (v & -> & Hv & Hdone).
    unfold st. cbn [color fb_w set_color].
    rewrite (idx_rgba_eq W Hh) by lia.
    destruct (idx_rgba_bound W Hh x y) as [Hlo Hhi]; [lia | lia |].
    eexists. split; [reflexivity |].
    split; [rewrite length_store_color; exact Hv |].
    apply (fill_step (fun _ => c)) with (n := W * Hh * 4); auto; lia.
Qed.

(** X12.  [clear_color(c)] stores [c] in every pixel of the surface,
    whatever the clip rectangle and the blend mode are: afterwards every
    pixel reads [c], the buffer has its [W * H * 4] entries, and the
    dirty rectangle is the whole surface.  Nothing but the color buffer
    and the dirty rectangle changes. *)
Theorem clear_color_all (st : State) (c : Color) :
  surface_ok st ->
  let st' := clear_color c st in
  surface_ok st' /\ same_frame st st' /\
  forall x y, in_bounds st x y = true ->
    get_pixel st' x y = c /\ dirty_covers st' x y.
Proof.
  intros Hok st'.
  destruct (clear_color_loop c st Hok) as (v & E & Hlen & Hall).
  assert (Est : st' = set_dirty (mkDirtyRect (dirty_on (dirty (set_color v st)))
                                   false 0 0 (fb_w st - 1)%int (fb_h st - 1)%int)
                        (set_color v st)).
  { unfold st', clear_color. cbv zeta. rewrite E. reflexivity. }
  destruct Hok as (HW & HH & Hmax & Hlen0).
  assert (Hframe : same_frame st st').
  { rewrite Est. unfold same_frame.
    cbn [gl fb_w fb_h color depth_on depth clip blend post post_out bloom
         set_dirty set_color].
    repeat split; try reflexivity. lia. }
  split; [| split; [exact Hframe |]].
  - apply (same_frame_surface_ok st); [exact Hframe |].
    repeat split; assumption.
  - intros x y Hb. pose proof Hb as Hb'.
    apply in_bounds_spec in Hb as [Hx Hy].
    assert (Hcond : (x <? 0) || (y <? 0) || (x >=? fb_w st) || (y >=? fb_h st)
                    = false) by lia.
    assert (HWm : fb_w st <= INT_MAX /\ fb_h st <= INT_MAX) by nia.
    split.
    + rewrite Est. unfold get_pixel.
      cbn [fb_w fb_h color set_dirty set_color]. rewrite Hcond.
      rewrite (idx_rgba_eq (fb_w st) (fb_h st)) by lia.
      apply Hall. nia.
    + rewrite Est. unfold dirty_covers.
      cbn [dirty set_dirty dirty_empty dirty_minx dirty_maxx dirty_miny
           dirty_maxy].
      rewrite !isub_id by (unfold INT_MIN, INT_MAX in *; lia).
      repeat split; lia.
Qed.

Lemma clear_color_all_witness :
  let st := set_clip_rect 0 0 1 1 (set_blend_mode Multiply surface_2x2) in
  get_pixel (clear_color (mkColor 5 6 7 8) st) 1 1 = mkColor 5 6 7 8.
Proof.
  intros st.
  assert (Hok : surface_ok st).
  { unfold surface_ok. vm_compute. repeat split; congruence. }
  exact (proj1 (proj2 (proj2 (clear_color_all st (mkColor 5 6 7 8) Hok))
                  1 1 eq_refl)).
Defined.


(* ===================================================================== *)
(** * Grids of writes *)
(* ===================================================================== *)

Lemma for_loop_ext {S} (body1 body2 : Z -> S -> S) (n : nat) (lo : Z) (s : S) :
  (forall i s', lo <= i < lo + Z.of_nat n -> body1 i s' = body2 i s') ->
  for_loop n lo body1 s = for_loop n lo body2 s.
Proof.
  revert lo s. induction n as [| n IH]; intros lo s Hext; [reflexivity |].
  cbn [for_loop]. rewrite (Hext lo s) by lia.
  apply IH. intros i s' Hi. apply Hext. lia.
Qed.

Lemma for_range_ext {S} (body1 body2 : Z -> S -> S) (lo hi : Z) (s : S) :
  (forall i s', lo <= i < hi -> body1 i s' = body2 i s') ->
  for_range lo hi body1 s = for_range lo hi body2 s.
Proof.
  intros Hext. unfold for_range. apply for_loop_ext.
  intros i s' Hi. apply Hext. lia.
Qed.

Lemma for_loop_shift {S} (body : Z -> S -> S) (n : nat) (lo d : Z) (s : S) :
  for_loop n (lo + d) body s = for_loop n lo (fun i => body (i + d)) s.
Proof.
  revert lo s. induction n as [| n IH]; intros lo s; [reflexivity |].
  cbn [for_loop]. replace (lo + d + 1) with (lo + 1 + d) by lia. apply IH.
Qed.

(** [for (i = a; i < a + n; ++i) body(i)] runs [body(a + i)] for
    [i = 0 .. n - 1]. *)
Lemma for_range_shift {S} (body : Z -> S -> S) (a n : Z) (s : S) :
  for_range a (a + n) body s = for_range 0 n (fun i => body (a + i)) s.
Proof.
  unfold for_range.
  replace (a + n - a) with (n - 0) by lia.
  replace a with (0 + a) at 1 by lia.
  rewrite for_loop_shift. apply for_loop_ext.
  intros i s' _. f_equal. lia.
Qed.

(** A loop whose body keeps a property keeps it. *)
Lemma for_range_keeps {S} (I : S -> Prop) (body : Z -> S -> S) (lo hi : Z)
    (s : S) :
  I s -> (forall i s', I s' -> I (body i s')) -> I (for_range lo hi body s).
Proof.
  intros Hs Hstep. unfold for_range.
  generalize (Z.to_nat (hi - lo)) as n. intros n. revert lo s Hs.
  induction n as [| n IH]; intros lo s Hs; [exact Hs |].
  cbn [for_loop]. apply IH. now apply Hstep.
Qed.

Lemma get_pixel_ext (st st' : State) (x y : Z) :
  fb_w st' = fb_w st -> fb_h st' = fb_h st -> color st' = color st ->
  get_pixel st' x y = get_pixel st x y.
Proof. intros Ew Eh Ec. unfold get_pixel. now rewrite Ew, Eh, Ec. Qed.

(** The cells of the grid finished before cell [(i, j)], row by row. *)
Lemma grid_done_step (x y w h i j px py : Z) :
  0 <= i < w -> 0 <= j < h -> (px, py) <> (x + i, y + j) ->
  in_rect x y w h px py
  && ((py - y <? j) || ((py - y =? j) && (px - x <? i + 1)))
  = in_rect x y w h px py
    && ((py - y <? j) || ((py - y =? j) && (px - x <? i))).
Proof.
  intros Hi Hj Hne. unfold in_rect.
  assert (Hd : px <> x + i \/ py <> y + j).
  { destruct (Z.eq_dec px (x + i)) as [-> | ?]; [| now left].
    destruct (Z.eq_dec py (y + j)) as [-> | ?]; [| now right].
    now destruct Hne. }
  lia.
Qed.

Lemma grid_done_row (x y w h j px py : Z) :
  in_rect x y w h px py
  && ((py - y <? j) || ((py - y =? j) && (px - x <? w)))
  = in_rect x y w h px py
    && ((py - y <? j + 1) || ((py - y =? j + 1) && (px - x <? 0))).
Proof. unfold in_rect. lia. Qed.

(** A grid of masked writes blends one color into each pixel of the
    rectangle that the mask selects, that lies on the surface and inside
    the clip rectangle, once, and leaves every other pixel alone. *)
Lemma masked_grid (m : Z -> Z -> bool) (f : Z -> Z -> Color) (st0 : State)
    (x y w h : Z) :
  surface_ok st0 -> 0 <= w -> 0 <= h ->
  let s :=
    for_range 0 h (fun j s =>
      for_range 0 w (fun i s =>
        if m i j then write_pixel (x + i) (y + j) (f i j) s else s) s)
      st0 in
  same_frame st0 s /\
  forall px py, in_bounds st0 px py = true ->
    get_pixel s px py
    = if in_rect x y w h px py && m (px - x) (py - y) && in_clip st0 px py
      then blend_out (blend st0) (f (px - x) (py - y)) (get_pixel st0 px py)
      else get_pixel st0 px py.
Proof.
  intros Hok Hw Hh.
  pose (Inv := fun (j i : Z) (s : State) =>
    same_frame st0 s /\
    forall px py, in_bounds st0 px py = true ->
      get_pixel s px py
      = if in_rect x y w h px py
           && ((py - y <? j) || ((py - y =? j) && (px - x <? i)))
           && (m (px - x) (py - y) && in_clip st0 px py)
        then blend_out (blend st0) (f (px - x) (py - y)) (get_pixel st0 px py)
        else get_pixel st0 px py).
  assert (Hfin : Inv h 0
    (for_range 0 h (fun j s =>
       for_range 0 w (fun i s =>
         if m i j then write_pixel (x + i) (y + j) (f i j) s else s) s)
       st0)).
  { apply (for_range_ind (fun j s => Inv j 0 s)); [lia | |].
    - split; [apply same_frame_refl |].
      intros px py Hb.
      replace (in_rect x y w h px py
               && ((py - y <? 0) || ((py - y =? 0) && (px - x <? 0))))
        with false by (unfold in_rect; lia).
      reflexivity.
    - intros j s Hj HI.
      assert (HIw : Inv j w
        (for_range 0 w (fun i s =>
           if m i j then write_pixel (x + i) (y + j) (f i j) s else s) s)).
      { apply (for_range_ind (fun i s => Inv j i s)); [lia | exact HI |].
        intros i s1 Hi [Hf Hpix].
        assert (Hok1 : surface_ok s1) by now apply (same_frame_surface_ok st0).
        set (s1' := if m i j then write_pixel (x + i) (y + j) (f i j) s1
                    else s1).
        assert (Hf' : same_frame st0 s1').
        { unfold s1'. destruct (m i j); [| exact Hf].
          eapply same_frame_trans; [exact Hf | apply write_pixel_same_frame]. }
        split; [exact Hf' |].
        intros px py Hb.
        assert (Hb1 : in_bounds s1 px py = true)
          by now rewrite (same_frame_in_bounds st0 s1).
        destruct (decide ((px, py) = (x + i, y + j))) as [E | Hne].
        - injection E as -> ->.
          replace (in_rect x y w h (x + i) (y + j)
                   && ((y + j - y <? j)
                       || ((y + j - y =? j) && (x + i - x <? i + 1))))
            with true by (unfold in_rect; lia).
          specialize (Hpix (x + i) (y + j) Hb).
          replace (in_rect x y w h (x + i) (y + j)
                   && ((y + j - y <? j)
                       || ((y + j - y =? j) && (x + i - x <? i))))
            with false in Hpix by (unfold in_rect; lia).
          cbn [andb] in Hpix |- *.
          replace (x + i - x) with i by lia. replace (y + j - y) with j by lia.
          unfold s1'. destruct (m i j); cbn [andb]; [| exact Hpix].
          destruct (in_clip st0 (x + i) (y + j)) eqn:Hc.
          + rewrite get_pixel_write_pixel;
              [| exact Hok1 | exact Hb1
               | now rewrite (same_frame_in_clip st0 s1)].
            rewrite Hpix.
            destruct Hf as (_ & _ & _ & _ & _ & _ & _ & -> & _). reflexivity.
          + rewrite write_pixel_reject; [exact Hpix |].
            right. now rewrite (same_frame_in_clip st0 s1).
        - assert (Epix : get_pixel s1' px py = get_pixel s1 px py).
          { unfold s1'. destruct (m i j); [| reflexivity].
            now apply get_pixel_write_pixel_other. }
          rewrite Epix.
          rewrite (grid_done_step x y w h i j px py Hi Hj Hne).
          now apply Hpix. }
      destruct HIw as [Hf Hpix]. split; [exact Hf |].
      intros px py Hb. rewrite <- grid_done_row. now apply Hpix. }
  destruct Hfin as [Hf Hpix]. split; [exact Hf |].
  intros px py Hb. rewrite (Hpix px py Hb).
  replace (in_rect x y w h px py
           && ((py - y <? h) || ((py - y =? h) && (px - x <? 0))))
    with (in_rect x y w h px py) by (unfold in_rect; lia).
  now rewrite andb_assoc.
Qed.

(** The same for the loops [for (yy = y0; yy < y1; ++yy)] and
    [for (xx = x0; xx < x1; ++xx)], empty ranges included. *)
Lemma masked_writes (m : Z -> Z -> bool) (f : Z -> Z -> Color) (st0 : State)
    (x0 y0 x1 y1 : Z) :
  surface_ok st0 ->
  let s :=
    for_range y0 y1 (fun yy s =>
      for_range x0 x1 (fun xx s =>
        if m xx yy then write_pixel xx yy (f xx yy) s else s) s) st0 in
  same_frame st0 s /\
  forall px py, in_bounds st0 px py = true ->
    get_pixel s px py
    = if in_rect x0 y0 (x1 - x0) (y1 - y0) px py && m px py
         && in_clip st0 px py
      then blend_out (blend st0) (f px py) (get_pixel st0 px py)
      else get_pixel st0 px py.
Proof.
  intros Hok s.
  destruct (Z.le_gt_cases y1 y0) as [Hy | Hy];
    [| destruct (Z.le_gt_cases x1 x0) as [Hx | Hx]].
  - assert (E : s = st0) by (unfold s; now apply for_range_empty).
    rewrite E. split; [apply same_frame_refl |].
    intros px py _.
    replace (in_rect x0 y0 (x1 - x0) (y1 - y0) px py) with false
      by (unfold in_rect; lia).
    reflexivity.
  - assert (E : s = st0).
    { unfold s. apply (for_range_keeps (fun s => s = st0)); [reflexivity |].
      intros yy s' ->. now apply for_range_empty. }
    rewrite E. split; [apply same_frame_refl |].
    intros px py _.
    replace (in_rect x0 y0 (x1 - x0) (y1 - y0) px py) with false
      by (unfold in_rect; lia).
    reflexivity.
  - assert (E : s = for_range 0 (y1 - y0) (fun j s =>
                      for_range 0 (x1 - x0) (fun i s =>
                        if m (x0 + i) (y0 + j)
                        then write_pixel (x0 + i) (y0 + j)
                               (f (x0 + i) (y0 + j)) s
                        else s) s) st0).
    { unfold s. replace y1 with (y0 + (y1 - y0)) at 1 by lia.
      rewrite for_range_shift. apply for_range_ext. intros j s' _.
      replace x1 with (x0 + (x1 - x0)) at 1 by lia.
      apply for_range_shift. }
    destruct (masked_grid (fun i j => m (x0 + i) (y0 + j))
                (fun i j => f (x0 + i) (y0 + j)) st0 x0 y0 (x1 - x0) (y1 - y0)
                Hok) as [Hf Hpix]; [lia | lia |].
    rewrite E. split; [exact Hf |].
    intros px py Hb. rewrite (Hpix px py Hb).
    replace (x0 + (px - x0)) with px by lia.
    replace (y0 + (py - y0)) with py by lia. reflexivity.
Qed.

(** The unmasked grid at an offset. *)
Lemma write_grid (f : Z -> Z -> Color) (st0 : State) (x y w h : Z) :
  surface_ok st0 -> 0 <= w -> 0 <= h ->
  let s :=
    for_range 0 h (fun j s =>
      for_range 0 w (fun i s => write_pixel (x + i) (y + j) (f i j) s) s)
      st0 in
  same_frame st0 s /\
  forall px py, in_bounds st0 px py = true ->
    get_pixel s px py
    = if in_rect x y w h px py && in_clip st0 px py
      then blend_out (blend st0) (f (px - x) (py - y)) (get_pixel st0 px py)
      else get_pixel st0 px py.
Proof.
  intros Hok Hw Hh.
  destruct (masked_grid (fun _ _ => true) f st0 x y w h Hok Hw Hh)
    as [Hf Hpix].
  split; [exact Hf |].
  intros px py Hb. rewrite (Hpix px py Hb). now rewrite andb_true_r.
Qed.

(* ===================================================================== *)
(** * Rectangles *)
(* ===================================================================== *)

Lemma get_pixel_dirty_add_rect (x y w h : Z) (st : State) (px py : Z) :
  get_pixel (dirty_add_rect x y w h st) px py = get_pixel st px py.
Proof.
  destruct (dirty_add_rect_same_frame x y w h st)
    as [(_ & Ew & Eh & _) Ec].
  now apply get_pixel_ext.
Qed.

(** X13.  A filled rectangle.  [draw_rect] with a non-positive width or
    height does nothing.  Otherwise the filled rectangle blends [c],
    under the current blend mode, exactly once into every pixel of the
    rectangle that lies on the surface and passes the clip test (under
    [Overwrite] the pixel becomes [c]); every other pixel, the depth
    buffer, the clip rectangle and the blend mode are unchanged. *)
Theorem draw_rect_filled (st : State) (x y w h : Z) (c : Color) (t : Z) :
  surface_ok st ->
  (w <= 0 \/ h <= 0 -> forall filled, draw_rect x y w h c filled t st = st) /\
  (0 < w -> 0 < h -> INT_MIN <= x -> INT_MIN <= y ->
   x + w <= INT_MAX -> y + h <= INT_MAX ->
   let st' := draw_rect x y w h c true t st in
   same_frame st st' /\
   forall px py, in_bounds st px py = true ->
     get_pixel st' px py
     = if in_rect x y w h px py && in_clip st px py
       then blend_out (blend st) c (get_pixel st px py)
       else get_pixel st px py).
Proof.
  intros Hok. split.
  - intros Hwh filled. unfold draw_rect.
    replace ((w <=? 0) || (h <=? 0)) with true by lia. reflexivity.
  - intros Hw Hh Hx Hy Hxw Hyh st'.
    assert (E : st' = dirty_add_rect x y w h
                  (for_range 0 h (fun j s =>
                     for_range 0 w (fun i s =>
                       write_pixel (x + i) (y + j) c s) s) st)).
    { unfold st', draw_rect.
      replace ((w <=? 0) || (h <=? 0)) with false by lia.
      cbv zeta. f_equal.
      rewrite !iadd_id by (unfold INT_MIN, INT_MAX in *; lia).
      rewrite for_range_shift. apply for_range_ext.
      intros j s _. apply for_range_shift. }
    destruct (write_grid (fun _ _ => c) st x y w h Hok) as [Hf Hpix];
      [lia | lia |].
    rewrite E. split.
    + eapply same_frame_trans;
        [exact Hf | apply dirty_add_rect_same_frame].
    + intros px py Hb. rewrite get_pixel_dirty_add_rect. now apply Hpix.
Qed.

Lemma draw_rect_filled_witness :
  let st' := draw_rect 1 0 5 1 (mkColor 9 8 7 6) true 1 surface_2x2 in
  get_pixel st' 1 0 = mkColor 9 8 7 6 /\
  get_pixel st' 1 1 = get_pixel surface_2x2 1 1 /\
  draw_rect 0 0 0 3 (mkColor 9 8 7 6) false 1 surface_2x2 = surface_2x2.
Proof.
  assert (Hok : surface_ok surface_2x2).
  { unfold surface_ok. vm_compute. repeat split; congruence. }
  destruct (draw_rect_filled surface_2x2 1 0 5 1 (mkColor 9 8 7 6) 1 Hok)
    as [_ Hfill].
  destruct Hfill as [_ Hpix]; try (vm_compute; congruence).
  split; [exact (Hpix 1 0 eq_refl) | split; [exact (Hpix 1 1 eq_refl) |]].
  apply (proj1 (draw_rect_filled surface_2x2 0 0 0 3 (mkColor 9 8 7 6) 1 Hok)).
  left. lia.
Defined.

(* ===================================================================== *)
(** * Images *)
(* ===================================================================== *)





(* ===================================================================== *)
(** * The checker image *)
(* ===================================================================== *)

Lemma checker_on_odd (cell x y : Z) :
  0 < cell -> 0 <= x <= INT_MAX -> 0 <= y <= INT_MAX ->
  checker_on cell x y = Z.odd (x / cell + y / cell).
Proof.
  intros Hc Hx Hy. unfold checker_on, idiv.
  rewrite !Z.quot_div_nonneg by lia.
  assert (Hqx : 0 <= x / cell <= x).
  { split; [apply Z.div_pos; lia | apply Z.div_le_upper_bound; nia]. }
  assert (Hqy : 0 <= y / cell <= y).
  { split; [apply Z.div_pos; lia | apply Z.div_le_upper_bound; nia]. }
  rewrite !cast_int_id by (unfold INT_MIN, INT_MAX in *; lia).
  set (a := x / cell). set (b := y / cell).
  change 1 with (Z.ones 1) at 1. rewrite Z.land_ones by lia.
  change (2 ^ 1) with 2.
  rewrite Zmod_odd, <- Z.bit0_odd, Z.lxor_spec, !Z.bit0_odd, Z.odd_add.
  destruct (Z.odd a), (Z.odd b); reflexivity.
Qed.

Lemma div_mod_pixel (w x y : Z) :
  0 <= x < w -> (y * w + x) mod w = x /\ (y * w + x) / w = y.
Proof.
  intros Hx. split.
  - rewrite Z.add_comm, Z.mod_add by lia. apply Z.mod_small. lia.
  - rewrite Z.add_comm, Z.div_add by lia. rewrite Z.div_small by lia. lia.
Qed.

(** X15.  [make_checker_rgba(w, h, cell)] builds a valid [w * h] image
    of [w * h * 4] bytes whose pixel [(x, y)] is the opaque gray 230
    when the cell coordinates [x / k] and [y / k] have an odd sum and the
    opaque gray 40 otherwise, with [k = max(1, cell)]: a non-positive
    cell size is treated as 1. *)
Theorem make_checker_rgba_pattern (w h cell : Z) :
  1 <= w -> 1 <= h -> w * h * 4 <= INT_MAX ->
  let img := make_checker_rgba w h cell in
  Image_valid img = true /\ img_w img = w /\ img_h img = h /\
  Z.of_nat (length (img_rgba img)) = w * h * 4 /\
  forall x y, 0 <= x < w -> 0 <= y < h ->
    image_texel img (idx_rgba w x y) = checker_gray (Z.max 1 cell) x y.
Proof.
  intros Hw Hh Hmax img.
  set (k := Z.max 1 cell).
  pose (f := fun q => checker_gray k (q mod w) (q / w)).
  pose (P := fun (p : Z) (v : list Z) =>
               Z.of_nat (length v) = w * h * 4 /\
               forall q, 0 <= q < p -> load_color v (q * 4) = f q).
  assert (HWm : w <= INT_MAX /\ h <= INT_MAX) by nia.
  assert (HP : P (w * h) (img_rgba img)).
  { unfold img, make_checker_rgba. cbv zeta. cbn [img_rgba]. fold k.
    apply (grid_loop P
             (fun x y rgba =>
                vset (vset (vset (vset rgba (sadd (idx_rgba w x y) 0)
                                    (if checker_on k x y then 230 else 40))
                              (sadd (idx_rgba w x y) 1)
                              (if checker_on k x y then 230 else 40))
                        (sadd (idx_rgba w x y) 2)
                        (if checker_on k x y then 230 else 40))
                  (sadd (idx_rgba w x y) 3) 255)); [lia | lia | |].
    - split; [| intros q Hq; lia].
      rewrite length_resize, size3_id by lia. nia.
    - intros x y v Hx Hy [Hlen Hdone].
      assert (Ef : mkColor (if checker_on k x y then 230 else 40)
                     (if checker_on k x y then 230 else 40)
                     (if checker_on k x y then 230 else 40) 255
                   = f (y * w + x)).
      { unfold f. destruct (div_mod_pixel w x y Hx) as [-> ->].
        unfold checker_gray.
        rewrite checker_on_odd by (unfold k; nia). reflexivity. }
      change (P (y * w + x + 1)
                (store_color v (idx_rgba w x y)
                   (mkColor (if checker_on k x y then 230 else 40)
                      (if checker_on k x y then 230 else 40)
                      (if checker_on k x y then 230 else 40) 255))).
      rewrite Ef, (idx_rgba_eq w h) by lia.
      destruct (idx_rgba_bound w h x y Hx Hy) as [Hlo Hhi].
      split; [rewrite length_store_color; exact Hlen |].
      apply (fill_step f) with (n := w * h * 4); auto; lia. }
  destruct HP as [Hlen Hall].
  split; [| split; [reflexivity | split; [reflexivity | split; [exact Hlen |]]]].
  - unfold Image_valid. change (img_w img) with w. change (img_h img) with h.
    rewrite Hlen. unfold imul.
    assert (0 <= w * h <= w * h * 4) by nia.
    rewrite (cast_int_id (w * h)) by (unfold INT_MIN, INT_MAX in *; lia).
    rewrite !cast_int_id by (unfold INT_MIN, INT_MAX in *; lia).
    lia.
  - intros x y Hx Hy.
    rewrite (idx_rgba_eq w h) by lia.
    change (image_texel img ((y * w + x) * 4))
      with (load_color (img_rgba img) ((y * w + x) * 4)).
    rewrite Hall by nia. unfold f.
    now destruct (div_mod_pixel w x y Hx) as [-> ->].
Qed.

Lemma make_checker_rgba_pattern_witness :
  Image_valid (make_checker_rgba 4 2 0) = true /\
  image_texel (make_checker_rgba 4 2 0) (idx_rgba 4 3 0)
  = checker_gray (Z.max 1 0) 3 0.
Proof.
  destruct (make_checker_rgba_pattern 4 2 0) as (Hv & _ & _ & _ & Hpix);
    try lia; [vm_compute; congruence |].
  split; [exact Hv | apply Hpix; lia].
Defined.


(* ===================================================================== *)
(** * Filled triangles *)
(* ===================================================================== *)

(** X16.  The pixels of a flat triangle.  For a triangle that is not
    degenerate, [draw_triangle_filled] blends [col], under the current
    blend mode, exactly once into every pixel that lies in the clamped
    bounding box, whose centre passes the three edge tests and that
    passes the clip test; every other pixel of the surface is unchanged,
    and so are the depth buffer, the clip rectangle and the blend mode. *)
Theorem draw_triangle_filled_pixels (st : State) (a b c : Vec2) (col : Color) :
  surface_ok st ->
  (fabs (edge_fn a b c) <? f_1em8)%f32 = false ->
  let st' := draw_triangle_filled a b c col st in
  same_frame st st' /\
  forall px py, in_bounds st px py = true ->
    get_pixel st' px py
    = if in_tri_bounds st a b c px py && tri_covers a b c px py
         && in_clip st px py
      then blend_out (blend st) col (get_pixel st px py)
      else get_pixel st px py.
Proof.
  intros Hok Harea st'.
  unfold st', draw_triangle_filled, draw_tri_flat, in_tri_bounds.
  destruct (tri_bounds st a b c) as [[[minx miny] maxx] maxy].
  rewrite Harea. cbv zeta.
  destruct (masked_writes (fun x y => tri_covers a b c x y) (fun _ _ => col)
              st minx miny (maxx + 1) (maxy + 1) Hok) as [Hf Hpix].
  split.
  - eapply same_frame_trans; [exact Hf | apply dirty_add_rect_same_frame].
  - intros px py Hb. rewrite get_pixel_dirty_add_rect.
    change (get_pixel _ px py = ?r)
      with (get_pixel
              (for_range miny (maxy + 1) (fun yy s =>
                 for_range minx (maxx + 1) (fun xx s =>
                   if tri_covers a b c xx yy
                   then write_pixel xx yy col s else s) s) st) px py = r).
    rewrite (Hpix px py Hb).
    replace (in_rect minx miny (maxx + 1 - minx) (maxy + 1 - miny) px py)
      with ((minx <=? px) && (px <=? maxx) && (miny <=? py) && (py <=? maxy))
      by (unfold in_rect; lia).
    reflexivity.
Qed.

Lemma draw_triangle_filled_pixels_witness :
  let a := mkVec2 f_0 f_0 in
  let b := mkVec2 f_2 f_0 in
  let c := mkVec2 f_0 f_2 in
  let col := mkColor 1 2 3 4 in
  let st' := draw_triangle_filled a b c col surface_2x2 in
  get_pixel st' 0 0
  = if in_tri_bounds surface_2x2 a b c 0 0 && tri_covers a b c 0 0
       && in_clip surface_2x2 0 0
    then blend_out (blend surface_2x2) col (get_pixel surface_2x2 0 0)
    else get_pixel surface_2x2 0 0.
Proof.
  intros a b c col st'.
  assert (Hok : surface_ok surface_2x2).
  { unfold surface_ok. vm_compute. repeat split; congruence. }
  assert (Harea : (fabs (edge_fn a b c) <? f_1em8)%f32 = false)
    by (vm_compute; reflexivity).
  exact (proj2 (draw_triangle_filled_pixels surface_2x2 a b c col Hok Harea)
           0 0 eq_refl).
Defined.

(* ===================================================================== *)
(** * What the rasterizers keep *)
(* ===================================================================== *)









(** The loop invariant of the 2D rasterizers. *)
Lemma write_pixel_kept_frame (st0 s : State) (x y : Z) (c : Color) :
  (blend st0 = Overwrite -> Color_ok c) ->
  same_frame st0 s /\ bytes_ok (color s) ->
  same_frame st0 (write_pixel x y c s) /\
  bytes_ok (color (write_pixel x y c s)).
Proof.
  intros Hc [Hf Hb]. split.
  - eapply same_frame_trans; [exact Hf | apply write_pixel_same_frame].
  - apply write_pixel_bytes_ok; [exact Hb |].
    destruct Hf as (_ & _ & _ & _ & _ & _ & _ & -> & _). exact Hc.
Qed.









(* ===================================================================== *)
(** * The 3D pipeline keeps the buffers in shape *)
(* ===================================================================== *)

Lemma for_loop_step_keeps {S} (I : S -> Prop) (body : Z -> S -> S) (n : nat)
    (i step : Z) (s : S) :
  I s -> (forall j s', I s' -> I (body j s')) ->
  I (for_loop_step n i step body s).
Proof.
  intros Hs Hstep. revert i s Hs.
  induction n as [| n IH]; intros i s Hs; [exact Hs |].
  cbn [for_loop_step]. apply IH. now apply Hstep.
Qed.









(* ===================================================================== *)
(** * Culled vertices *)
(* ===================================================================== *)

(** The [ok] vector of [draw_mesh] holds the result flags. *)
Lemma project_all_ok (st : State) (vs : list Vertex3D) (vcount : Z)
    (mvp : Mat4) :
  0 < vcount <= INT_MAX ->
  forall d k, 0 <= k < vcount ->
    vget d (snd (project_all st vs vcount mvp)) k
    = negb (vertex_culled st (vget Vertex3D_zero vs k) mvp).
Proof.
  intros Hv d k Hk.
  destruct (project_all_spec st vs vcount mvp Hv) as (_ & Hlo & Hall).
  rewrite (vget_default d false) by lia.
  rewrite (proj1 (Hall k Hk)).
  unfold vertex_culled. now rewrite negb_involutive.
Qed.

(** A triangle with a culled vertex draws nothing. *)
Lemma mesh_triangle_culled (st0 : State) (vs : list Vertex3D) (ix : list Z)
    (vcount : Z) (mvp : Mat4) texture dt (i j : Z) (st : State) :
  0 < vcount <= INT_MAX -> 0 <= i -> i + 2 <= INT_MAX -> 0 <= j <= 2 ->
  0 <= vget 0 ix (i + j) < vcount ->
  vertex_culled st0 (vget Vertex3D_zero vs (vget 0 ix (i + j))) mvp = true ->
  mesh_triangle ix (fst (project_all st0 vs vcount mvp))
    (snd (project_all st0 vs vcount mvp)) vcount texture dt i st = st.
Proof.
  intros Hv Hi Hmax Hj Hr Hc. unfold mesh_triangle, iadd.
  rewrite !cast_int_id by (unfold INT_MIN, INT_MAX in *; lia).
  destruct (_ || _ || _); [reflexivity |].
  assert (Hok : vget true (snd (project_all st0 vs vcount mvp))
                  (vget 0 ix (i + j)) = false).
  { rewrite project_all_ok by assumption. now rewrite Hc. }
  assert (Ej : j = 0 \/ j = 1 \/ j = 2) by lia.
  destruct Ej as [-> | [-> | ->]]; rewrite Hok;
    cbn [negb orb]; rewrite ?orb_true_r; reflexivity.
Qed.

Lemma for_loop_step_id {S} (body : Z -> S -> S) (n : nat) (i step : Z) (s : S) :
  (forall k s', 0 <= k < Z.of_nat n -> body (i + step * k) s' = s') ->
  for_loop_step n i step body s = s.
Proof.
  intros Hid.
  rewrite (for_loop_step_ext body (fun _ s' => s') n i step s Hid).
  apply (for_loop_step_keeps (fun s' => s' = s)); [reflexivity | auto].
Qed.

(** X19.  Culling in [draw_mesh].  The vertices are projected once; a
    vertex whose clip-space [w] is within [1e-8] of zero is rejected (so
    is one whose normalized depth leaves [-1.2, 1.2]), and a triangle
    with a rejected vertex is skipped.  A mesh in which every triangle
    has a rejected vertex leaves the whole state unchanged. *)
Theorem draw_mesh_culled (vs : list Vertex3D) (ix : list Z)
    (vcount ntri : Z) (mvp : Mat4) (texture : option Image) (dt : bool)
    (st : State) :
  0 < vcount <= INT_MAX -> 0 < ntri -> 3 * ntri + 2 <= INT_MAX ->
  (forall v,
     (fabs (v4_w (mat4_mul_vec mvp
                    (mkVec4 (v3_x (vt_pos v)) (v3_y (vt_pos v))
                       (v3_z (vt_pos v)) f_1))) <? f_1em8)%f32 = true ->
     vertex_culled st v mvp = true) /\
  ((forall t, 0 <= t < ntri ->
      exists j, 0 <= j <= 2 /\
        0 <= vget 0 ix (3 * t + j) < vcount /\
        vertex_culled st
          (vget Vertex3D_zero vs (vget 0 ix (3 * t + j))) mvp = true) ->
   draw_mesh (Some vs) vcount (Some ix) (3 * ntri) mvp texture dt st = st).
Proof.
  intros Hv Hn Hmax. split.
  - intros v Hw. unfold vertex_culled, project_vertex. cbv zeta.
    now rewrite Hw.
  - intros Hall. unfold draw_mesh.
    replace ((vcount <=? 0) || (3 * ntri <=? 0)) with false by lia.
    assert (Hrem : irem (3 * ntri) 3 = 0).
    { unfold irem. rewrite Z.mul_comm. apply Z.rem_mul. lia. }
    rewrite Hrem. cbn [Z.eqb negb].
    rewrite (surjective_pairing (project_all st vs vcount mvp)).
    unfold for_range_step. rewrite trip_count3 by lia.
    apply for_loop_step_id. intros k s' Hk.
    destruct (Hall k ltac:(lia)) as (j & Hj & Hr & Hc).
    replace (0 + 3 * k) with (3 * k) by lia.
    apply (mesh_triangle_culled st vs ix vcount mvp texture dt (3 * k) j);
      try assumption; lia.
Qed.

Lemma draw_mesh_culled_witness :
  draw_mesh (Some sample_vertices) 3 (Some [0; 1; 2]) (3 * 1) mat4_zero None
    true surface_2x2_depth = surface_2x2_depth.
Proof.
  assert (Hv : 0 < 3 <= INT_MAX) by (unfold INT_MAX; lia).
  assert (Hm : 3 * 1 + 2 <= INT_MAX) by (unfold INT_MAX; lia).
  apply (proj2 (draw_mesh_culled sample_vertices [0; 1; 2] 3 1 mat4_zero None
                  true surface_2x2_depth Hv ltac:(lia) Hm)).
  intros t Ht. exists 0. assert (t = 0) as -> by lia.
  split; [lia |]. split; [vm_compute; split; congruence |].
  vm_compute. reflexivity.
Defined.


(* ===================================================================== *)
(** * Texture sampling *)
(* ===================================================================== *)

(** A valid image holds at least [w * h * 4] bytes. *)
Lemma Image_valid_length (t : Image) :
  Image_valid t = true -> img_w t * img_h t * 4 <= INT_MAX ->
  1 <= img_w t /\ 1 <= img_h t /\
  img_w t * img_h t * 4 <= Z.of_nat (length (img_rgba t)).
Proof.
  unfold Image_valid. intros Hv Hmax.
  apply andb_prop in Hv as [Hv Hl]. apply andb_prop in Hv as [Hw Hh].
  apply Z.eqb_eq in Hl.
  assert (Hw1 : 1 <= img_w t) by lia. assert (Hh1 : 1 <= img_h t) by lia.
  split; [exact Hw1 | split; [exact Hh1 |]].
  assert (0 <= img_w t * img_h t <= img_w t * img_h t * 4) by nia.
  unfold imul in Hl.
  rewrite (cast_int_id (img_w t * img_h t)) in Hl
    by (unfold INT_MIN, INT_MAX in *; lia).
  rewrite (cast_int_id (img_w t * img_h t * 4)) in Hl
    by (unfold INT_MIN, INT_MAX in *; lia).
  unfold cast_int in Hl.
  set (L := Z.of_nat (length (img_rgba t))) in *.
  pose proof (Z.div_mod (L + 2147483648) 4294967296 ltac:(lia)) as Hdm.
  assert (0 <= (L + 2147483648) / 4294967296) by (apply Z.div_pos; lia).
  lia.
Qed.

Lemma tint_white (b : Z) : u8_ok b -> cast_u8 ((b * 255) / 255)%int = b.
Proof.
  unfold u8_ok, idiv, imul. intros Hb.
  rewrite (cast_int_id (b * 255)) by (unfold INT_MIN, INT_MAX; lia).
  rewrite Z.quot_div_nonneg by lia. rewrite Z.div_mul by lia.
  rewrite cast_int_id by (unfold INT_MIN, INT_MAX; lia).
  apply cast_u8_id. exact Hb.
Qed.

(** X20.  Nearest sampling stays inside the texture.  For a valid image
    and any coordinates [u], [v] (out of [0, 1], infinite or NaN), the
    sample is the texel of some pixel [(x, y)] of the image, read inside
    the byte array, multiplied by the tint; with a white opaque tint it
    is that texel itself. *)
Theorem sample_tex_nearest_texel (t : Image) (u v : float) (tint : Color) :
  Image_valid t = true -> img_w t * img_h t * 4 <= INT_MAX ->
  exists x y,
    0 <= x < img_w t /\ 0 <= y < img_h t /\
    idx_rgba (img_w t) x y = (y * img_w t + x) * 4 /\
    (y * img_w t + x) * 4 + 3 < Z.of_nat (length (img_rgba t)) /\
    sample_tex_nearest t u v tint
    = tint_texel (image_texel t (idx_rgba (img_w t) x y)) tint /\
    (tint = mkColor 255 255 255 255 -> bytes_ok (img_rgba t) ->
     sample_tex_nearest t u v tint
     = image_texel t (idx_rgba (img_w t) x y)).
Proof.
  intros Hv Hmax.
  destruct (Image_valid_length t Hv Hmax) as (Hw & Hh & Hlen).
  assert (HWm : img_w t <= INT_MAX /\ img_h t <= INT_MAX) by nia.
  unfold sample_tex_nearest. cbv zeta.
  rewrite !isub_one by lia.
  set (x := clampi _ 0 (img_w t - 1)). set (y := clampi _ 0 (img_h t - 1)).
  assert (Hx : 0 <= x < img_w t) by (apply clampi_range; lia).
  assert (Hy : 0 <= y < img_h t) by (apply clampi_range; lia).
  destruct (idx_rgba_bound (img_w t) (img_h t) x y Hx Hy) as [Hlo Hhi].
  exists x, y.
  split; [exact Hx | split; [exact Hy | split; [| split; [| split]]]].
  - apply (idx_rgba_eq (img_w t) (img_h t)); assumption.
  - lia.
  - reflexivity.
  - intros -> Hb. cbn [col_r col_g col_b col_a].
    rewrite (idx_rgba_eq (img_w t) (img_h t)) by assumption.
    unfold image_texel.
    rewrite !tint_white; [reflexivity | | | |];
      rewrite sadd_id by lia; apply (vget_Forall u8_ok); auto; lia.
Qed.

Lemma sample_tex_nearest_texel_witness :
  exists x y,
    0 <= x < 2 /\ 0 <= y < 1 /\
    sample_tex_nearest image_2x1 f_nan f_2 (mkColor 255 255 255 255)
    = image_texel image_2x1 (idx_rgba 2 x y).
Proof.
  assert (Hb : bytes_ok (img_rgba image_2x1)).
  { unfold bytes_ok. vm_compute.
    repeat (apply Forall_cons; split; [split; congruence |]).
    apply Forall_nil_2. }
  destruct (sample_tex_nearest_texel image_2x1 f_nan f_2
              (mkColor 255 255 255 255) eq_refl)
    as (x & y & Hx & Hy & _ & _ & _ & Hs); [vm_compute; congruence |].
  exists x, y. split; [exact Hx | split; [exact Hy |]].
  exact (Hs eq_refl Hb).
Defined.


(* ===================================================================== *)
(** * The Gaussian kernel *)
(* ===================================================================== *)

(** Two runs of a loop in lockstep. *)
Lemma for_loop_rel {S T} (Rel : Z -> S -> T -> Prop)
    (body1 : Z -> S -> S) (body2 : Z -> T -> T) (n : nat) (lo : Z)
    (s : S) (t : T) :
  Rel lo s t ->
  (forall i s' t', lo <= i < lo + Z.of_nat n -> Rel i s' t' ->
                   Rel (i + 1) (body1 i s') (body2 i t')) ->
  Rel (lo + Z.of_nat n) (for_loop n lo body1 s) (for_loop n lo body2 t).
Proof.
  revert lo s t. induction n as [| n IH]; intros lo s t H0 Hstep.
  - cbn. now rewrite Z.add_0_r.
  - cbn [for_loop].
    replace (lo + Z.of_nat (Datatypes.S n)) with (lo + 1 + Z.of_nat n) by lia.
    apply IH.
    + apply Hstep; [lia | exact H0].
    + intros i s' t' Hi. apply Hstep. lia.
Qed.

Lemma list_eq_vget {A} (d : A) (l1 l2 : list A) :
  length l1 = length l2 ->
  (forall j, 0 <= j < Z.of_nat (length l1) -> vget d l1 j = vget d l2 j) ->
  l1 = l2.
Proof.
  intros Hlen Hget. apply list_eq. intros i.
  destruct (Nat.lt_ge_cases i (length l1)) as [Hi | Hi].
  - destruct (lookup_lt_is_Some_2 l1 i Hi) as [a Ea].
    destruct (lookup_lt_is_Some_2 l2 i ltac:(lia)) as [b Eb].
    specialize (Hget (Z.of_nat i) ltac:(lia)). unfold vget in Hget.
    destruct (Z.ltb_spec (Z.of_nat i) 0) as [? | _]; [lia |].
    rewrite Nat2Z.id, Ea, Eb in Hget. cbn in Hget. now rewrite Ea, Eb, Hget.
  - rewrite !lookup_ge_None_2 by lia. reflexivity.
Qed.

(** The kernel is rebuilt from scratch: nothing of the previous content
    of the vector survives. *)
Lemma build_gaussian_kernel_fresh `{LibM} (sg : float) (k1 k2 : list float) :
  build_gaussian_kernel sg k1 = build_gaussian_kernel sg k2.
Proof.
  unfold build_gaussian_kernel. cbv zeta.
  set (R := clampi _ 1 32).
  assert (HR : 1 <= R <= 32) by (unfold R, clampi; lia).
  assert (Hn : cast_size_t (R * 2 + 1)%int = 2 * R + 1).
  { unfold imul, iadd.
    rewrite (cast_int_id (R * 2)) by (unfold INT_MIN, INT_MAX; lia).
    rewrite cast_int_id by (unfold INT_MIN, INT_MAX; lia).
    rewrite cast_size_t_id by lia. lia. }
  rewrite Hn.
  pose (Rel := fun (i : Z) (s t : list float * float) =>
                 snd s = snd t /\
                 Z.of_nat (length (fst s)) = 2 * R + 1 /\
                 Z.of_nat (length (fst t)) = 2 * R + 1 /\
                 forall j, 0 <= j < i + R ->
                   vget f_nan (fst s) j = vget f_nan (fst t) j).
  match goal with
  | |- context [for_range (- R) (R + 1) ?b (?a1, f_0)] =>
      assert (HRel : Rel (R + 1)
                (for_range (- R) (R + 1) b
                   (resize (Z.to_nat (2 * R + 1)) f_0 k1, f_0))
                (for_range (- R) (R + 1) b
                   (resize (Z.to_nat (2 * R + 1)) f_0 k2, f_0)))
  end.
  { unfold for_range.
    replace (R + 1) with (- R + Z.of_nat (Z.to_nat (R + 1 - - R))) at 1 by lia.
    apply for_loop_rel.
    - unfold Rel. cbn [fst snd]. rewrite !length_resize.
      split; [reflexivity | split; [lia | split; [lia | intros j Hj; lia]]].
    - intros i [ka sa] [kb sb] Hi (Es & La & Lb & Hj). cbn [fst snd] in *.
      subst sb. unfold Rel. cbn [fst snd].
      assert (Ei : cast_size_t (i + R)%int = i + R).
      { unfold iadd. rewrite cast_int_id by (unfold INT_MIN, INT_MAX; lia).
        apply cast_size_t_id. lia. }
      rewrite Ei, !length_vset.
      split; [reflexivity | split; [exact La | split; [exact Lb |]]].
      intros j Hjr. destruct (Z.eq_dec j (i + R)) as [-> | Hne].
      + rewrite !vget_vset_eq by lia. reflexivity.
      + rewrite !vget_vset_ne by lia. apply Hj. lia. }
  destruct (for_range _ _ _ (resize _ f_0 k1, f_0)) as [ka sa].
  destruct (for_range _ _ _ (resize _ f_0 k2, f_0)) as [kb sb].
  destruct HRel as (Es & La & Lb & Hj). cbn [fst snd] in *. subst sb.
  f_equal. f_equal. apply (list_eq_vget f_nan); [lia |].
  intros j Hjr. apply Hj. lia.
Qed.

(** X21.  The blur kernel.  For every [sigma] (negative, infinite and
    NaN included) and every [exp], the radius lies in [1, 32] and the
    kernel has [2 * radius + 1] weights; the kernel is rebuilt from
    scratch, so the result does not depend on what the kernel vector
    held before the call. *)
Theorem build_gaussian_kernel_shape `{LibM} (sg : float) (kern : list float) :
  1 <= snd (build_gaussian_kernel sg kern) <= 32 /\
  Z.of_nat (length (fst (build_gaussian_kernel sg kern)))
  = 2 * snd (build_gaussian_kernel sg kern) + 1 /\
  forall kern', build_gaussian_kernel sg kern' = build_gaussian_kernel sg kern.
Proof.
  destruct (kernel_shape sg kern) as [HR HL].
  split; [exact HR | split; [exact HL |]].
  intros kern'. apply build_gaussian_kernel_fresh.
Qed.

(* ===================================================================== *)
(** * What post-processing touches *)
(* ===================================================================== *)


Lemma same_core_trans (s1 s2 s3 : State) :
  same_core s1 s2 -> same_core s2 s3 -> same_core s1 s3.
Proof.
  unfold same_core.
  intros (A1 & A2 & A3 & A4 & A5 & A6 & A7 & A8 & A9)
         (B1 & B2 & B3 & B4 & B5 & B6 & B7 & B8 & B9).
  repeat split; congruence.
Qed.

(** The bloom stages write the bloom buffers only: they keep every
    property of the state that does not depend on the bloom buffers. *)
Section BloomFrame.
Context `{LibM}.
Variable I : State -> Prop.
Hypothesis HI : forall bl s, I s -> I (set_bloom bl s).






End BloomFrame.







(* ===================================================================== *)
(** * What a resize resets *)
(* ===================================================================== *)

(** [create_presenter] writes the presenter fields only. *)
Lemma create_presenter_only_gl `{GLDriver} (st : State) :
  exists p, snd (create_presenter st) = set_gl p st.
Proof.
  unfold create_presenter. cbv zeta.
  repeat match goal with |- context [if ?c then _ else _] => destruct c end;
    eexists; reflexivity.
Qed.

(** X23.  What [resize_framebuffer] resets and what it keeps, besides
    the color buffer.  The post-process output buffer is emptied, the
    bloom buffers are reset and the dirty rectangle is marked empty.
    With depth testing on, the depth buffer is reallocated to
    [W * H] entries, all [1.0f]; with depth testing off it is left as it
    was.  The depth switch, the blend mode, the settings and the clip
    rectangle are kept: the clip rectangle is not clamped to the new
    size. *)
Theorem resize_framebuffer_resets `{GLDriver} (w h : Z) (st : State) :
  Z.max 1 w * Z.max 1 h * 4 <= INT_MAX ->
  let st' := resize_framebuffer w h st in
  post_out st' = [] /\ bloom st' = BloomBuffers_reset /\
  dirty_empty (dirty st') = true /\
  depth_on st' = depth_on st /\ clip st' = clip st /\
  blend st' = blend st /\ post st' = post st /\
  (depth_on st = true ->
   depth_ok st' /\
   forall x y, in_bounds st' x y = true -> depth_at st' x y = f_1) /\
  (depth_on st = false -> depth st' = depth st).
Proof.
  intros Hmax. set (W := Z.max 1 w) in *. set (Hh := Z.max 1 h) in *.
  assert (HW : 1 <= W) by lia. assert (HH : 1 <= Hh) by lia.
  assert (Hn : 0 <= W * Hh * 4) by nia.
  assert (HWmax : W <= INT_MAX) by nia.
  assert (HHmax : Hh <= INT_MAX) by nia.
  assert (HWH : W * Hh <= INT_MAX) by nia.
  unfold resize_framebuffer. fold W Hh.
  rewrite size3_id by lia.
  destruct (alpha_loop W Hh (set_fb_h Hh (set_fb_w W st))
              (replicate (Z.to_nat (W * Hh * 4)) 0) HW HH Hmax
              (alpha_done_replicate _ Hn)) as (v & Eloop & Hv).
  cbv zeta. rewrite Eloop. rewrite depth_len_id by lia.
  cbn [depth_on set_color set_fb_h set_fb_w].
  assert (Hrep : forall x y, 0 <= x < W -> 0 <= y < Hh ->
            float_at (replicate (Z.to_nat (W * Hh)) f_1) (y * W + x) = f_1).
  { intros x y Hx Hy. apply float_at_replicate.
    pose proof (pixel_index_range W Hh x y Hx Hy). lia. }
  assert (Hdone : forall s : State,
            post_out s = [] -> bloom s = BloomBuffers_reset ->
            dirty_empty (dirty s) = true ->
            depth_on s = depth_on st -> clip s = clip st ->
            blend s = blend st -> post s = post st ->
            fb_w s = W -> fb_h s = Hh ->
            depth s = (if depth_on st
                       then replicate (Z.to_nat (W * Hh)) f_1
                       else depth st) ->
            post_out s = [] /\ bloom s = BloomBuffers_reset /\
            dirty_empty (dirty s) = true /\
            depth_on s = depth_on st /\ clip s = clip st /\
            blend s = blend st /\ post s = post st /\
            (depth_on st = true ->
             depth_ok s /\
             forall x y, in_bounds s x y = true -> depth_at s x y = f_1) /\
            (depth_on st = false -> depth s = depth st)).
  { intros s E1 E2 E3 E4 E5 E6 E7 Ew Eh Ed.
    do 7 (split; [assumption |]). split.
    - intros Hon. rewrite Hon in Ed. split.
      + unfold depth_ok. rewrite Ed, Ew, Eh, length_replicate.
        rewrite Z2Nat.id by nia. lia.
      + intros x y Hb. apply in_bounds_spec in Hb. rewrite Ew, Eh in Hb.
        unfold depth_at. rewrite Ed, Ew. apply Hrep; lia.
    - intros Hoff. now rewrite Hoff in Ed. }
  match goal with
  | |- context [if gl_ready ?p then snd (create_presenter ?s) else ?t] =>
      destruct (create_presenter_only_gl s) as [p' ->];
      destruct (gl_ready p)
  end;
    destruct (depth_on st) eqn:Hon; apply Hdone;
    solve [reflexivity | exact Hon].
Qed.

Lemma resize_framebuffer_resets_witness :
  let st' := resize_framebuffer (H := headless_driver) 3 2
               (set_clip_rect 0 0 2 2 surface_2x2_depth) in
  post_out st' = [] /\ depth_ok st' /\
  clip st' = clip (set_clip_rect 0 0 2 2 surface_2x2_depth).
Proof.
  intros st'.
  assert (Hmax : Z.max 1 3 * Z.max 1 2 * 4 <= INT_MAX)
    by (vm_compute; discriminate).
  destruct (resize_framebuffer_resets (H := headless_driver) 3 2
              (set_clip_rect 0 0 2 2 surface_2x2_depth) Hmax)
    as (H1 & _ & _ & _ & H5 & _ & _ & H8 & _).
  split; [exact H1 | split; [exact (proj1 (H8 eq_refl)) | exact H5]].
Defined.


(* ===================================================================== *)
(** * Keyboard and mouse state *)
(* ===================================================================== *)

Lemma key_in_range (k : Z) :
  0 <= k < KEY_MAX -> (k <? 0) || (k >=? KEY_MAX) = false.
Proof. intros Hk. apply orb_false_iff. lia. Qed.

Lemma key_out_of_range (k : Z) :
  ~ 0 <= k < KEY_MAX -> (k <? 0) || (k >=? KEY_MAX) = true.
Proof. intros Hk. apply orb_true_iff. lia. Qed.

Lemma Input_ok_keys (d p r : list bool) (i : Input) :
  Input_ok i ->
  Z.of_nat (length d) = KEY_MAX -> Z.of_nat (length p) = KEY_MAX ->
  Z.of_nat (length r) = KEY_MAX -> Input_ok (set_keys d p r i).
Proof.
  intros (_ & _ & _ & H4 & H5 & H6) Hd Hp Hr.
  unfold Input_ok. cbn. tauto.
Qed.

Lemma Input_ok_buttons (d p r : list bool) (i : Input) :
  Input_ok i ->
  Z.of_nat (length d) = MOUSE_BUTTON_MAX ->
  Z.of_nat (length p) = MOUSE_BUTTON_MAX ->
  Z.of_nat (length r) = MOUSE_BUTTON_MAX -> Input_ok (set_buttons d p r i).
Proof.
  intros (H1 & H2 & H3 & _) Hd Hp Hr.
  unfold Input_ok. cbn. tauto.
Qed.

(** One key event, seen through the three key queries. *)
Lemma glfw_key_cb_queries (key action k : Z) (i : Input) :
  Input_ok i ->
  let i' := glfw_key_cb key action i in
  Input_ok i' /\
  ((key = k /\ action = GLFW_PRESS /\ 0 <= k < KEY_MAX /\
    key_down k i' = true /\
    key_pressed k i' = negb (key_down k i) || key_pressed k i /\
    key_released k i' = key_released k i) \/
   (key = k /\ action = GLFW_RELEASE /\ 0 <= k < KEY_MAX /\
    key_down k i' = false /\
    key_pressed k i' = key_pressed k i /\
    key_released k i' = true) \/
   (key_down k i' = key_down k i /\
    key_pressed k i' = key_pressed k i /\
    key_released k i' = key_released k i)).
Proof.
  intros Hok. pose proof Hok as (Hd & Hp & Hr & _).
  unfold glfw_key_cb.
  destruct ((key <? 0) || (key >=? KEY_MAX)) eqn:Hrange; cbv zeta.
  { split; [exact Hok | right; right; now repeat split]. }
  apply orb_false_iff in Hrange.
  assert (Hkey : 0 <= key < KEY_MAX) by lia.
  destruct (Z.eqb_spec action GLFW_PRESS) as [Ea | Ea].
  - split.
    { apply Input_ok_keys; try assumption.
      - now rewrite length_vset.
      - destruct (negb _); [now rewrite length_vset | assumption]. }
    destruct (Z.eq_dec key k) as [-> | Hne].
    + left. repeat split; try assumption; try lia.
      * unfold key_down. rewrite key_in_range by assumption.
        cbn [in_key_down set_keys]. apply vget_vset_eq. lia.
      * unfold key_pressed, key_down. rewrite key_in_range by assumption.
        cbn [in_key_pressed set_keys].
        destruct (vget false (in_key_down i) k); cbn [negb orb];
          [reflexivity | apply vget_vset_eq; lia].
    + right; right. unfold key_down, key_pressed, key_released.
      cbn [in_key_down in_key_pressed in_key_released set_keys].
      destruct ((k <? 0) || (k >=? KEY_MAX)); [now repeat split |].
      repeat split.
      * now apply vget_vset_ne.
      * destruct (negb _); [now apply vget_vset_ne | reflexivity].
  - destruct (Z.eqb_spec action GLFW_RELEASE) as [Er | Er].
    + split.
      { apply Input_ok_keys; try assumption; now rewrite length_vset. }
      destruct (Z.eq_dec key k) as [-> | Hne].
      * right; left. repeat split; try assumption; try lia.
        -- unfold key_down. rewrite key_in_range by assumption.
           cbn [in_key_down set_keys]. apply vget_vset_eq. lia.
        -- unfold key_released. rewrite key_in_range by assumption.
           cbn [in_key_released set_keys]. apply vget_vset_eq. lia.
      * right; right. unfold key_down, key_pressed, key_released.
        cbn [in_key_down in_key_pressed in_key_released set_keys].
        destruct ((k <? 0) || (k >=? KEY_MAX)); [now repeat split |].
        repeat split; now apply vget_vset_ne.
    + split; [exact Hok | right; right; now repeat split].
Qed.

(** One event of any kind, seen through the three key queries. *)
Lemma dispatch_key_queries (e : Event) (k : Z) (i : Input) :
  Input_ok i ->
  let i' := dispatch i e in
  Input_ok i' /\
  ((e = EvKey k GLFW_PRESS /\ 0 <= k < KEY_MAX /\
    key_down k i' = true /\
    key_pressed k i' = negb (key_down k i) || key_pressed k i /\
    key_released k i' = key_released k i) \/
   (e = EvKey k GLFW_RELEASE /\ 0 <= k < KEY_MAX /\
    key_down k i' = false /\
    key_pressed k i' = key_pressed k i /\
    key_released k i' = true) \/
   (key_down k i' = key_down k i /\
    key_pressed k i' = key_pressed k i /\
    key_released k i' = key_released k i)).
Proof.
  intros Hok. destruct e as [key a | w h | x y | b a | x y | en];
    cbn [dispatch]; cbv zeta.
  - destruct (glfw_key_cb_queries key a k i Hok) as [Hok' Hc].
    split; [exact Hok' |].
    destruct Hc as [(-> & -> & Hc) | [(-> & -> & Hc) | Hc]];
      [left | right; left | right; right]; try (split; [reflexivity |]);
      exact Hc.
  - split; [exact Hok | right; right; now repeat split].
  - split; [exact Hok | right; right; now repeat split].
  - split; [| right; right].
    + unfold glfw_mouse_button_cb. pose proof Hok as (_ & _ & _ & H4 & H5 & H6).
      destruct ((b <? 0) || (b >=? MOUSE_BUTTON_MAX)); [exact Hok |].
      cbv zeta.
      destruct (a =? GLFW_PRESS).
      * apply Input_ok_buttons; try assumption.
        -- now rewrite length_vset.
        -- destruct (negb _); [now rewrite length_vset | assumption].
      * destruct (a =? GLFW_RELEASE); [| exact Hok].
        apply Input_ok_buttons; try assumption; now rewrite length_vset.
    + unfold glfw_mouse_button_cb.
      destruct ((b <? 0) || (b >=? MOUSE_BUTTON_MAX)); [now repeat split |].
      cbv zeta.
      destruct (a =? GLFW_PRESS); [now repeat split |].
      destruct (a =? GLFW_RELEASE); now repeat split.
  - split; [exact Hok | right; right; now repeat split].
  - unfold glfw_cursor_enter_cb.
    destruct (en =? GLFW_TRUE);
      (split; [exact Hok | right; right; now repeat split]).
Qed.

Lemma vget_false_all (p : list bool) (n : Z) :
  (forall j, 0 <= j < n -> vget false p j = false) ->
  Z.of_nat (length p) = n -> forall j, vget false p j = false.
Proof.
  intros Hall Hlen j. unfold vget.
  destruct (Z.ltb_spec j 0) as [? | Hj]; [reflexivity |].
  destruct (Z_lt_ge_dec j n) as [Hlt | Hge].
  - specialize (Hall j (conj Hj Hlt)). unfold vget in Hall.
    destruct (Z.ltb_spec j 0); [lia | exact Hall].
  - rewrite lookup_ge_None_2 by lia. reflexivity.
Qed.

(** The first loop of [poll_events]. *)
Lemma clear_keys_loop (i : Input) :
  Input_ok i ->
  exists p r,
    for_range 0 KEY_MAX (fun k i =>
      set_keys (in_key_down i) (vset (in_key_pressed i) k false)
        (vset (in_key_released i) k false) i) i
    = set_keys (in_key_down i) p r i /\
    Z.of_nat (length p) = KEY_MAX /\ Z.of_nat (length r) = KEY_MAX /\
    forall j, vget false p j = false /\ vget false r j = false.
Proof.
  intros (Hd & Hp & Hr & _).
  pose (P := fun (k : Z) (s : Input) =>
    exists p r, s = set_keys (in_key_down i) p r i /\
      Z.of_nat (length p) = KEY_MAX /\ Z.of_nat (length r) = KEY_MAX /\
      forall j, 0 <= j < k -> vget false p j = false /\ vget false r j = false).
  assert (HP : P KEY_MAX (for_range 0 KEY_MAX (fun k i =>
      set_keys (in_key_down i) (vset (in_key_pressed i) k false)
        (vset (in_key_released i) k false) i) i)).
  { apply for_range_ind; [unfold KEY_MAX; lia | |].
    - exists (in_key_pressed i), (in_key_released i).
      split; [destruct i; reflexivity |]. repeat split; try assumption; lia.
    - intros k s Hk (p & r & -> & Hlp & Hlr & Hall).
      exists (vset p k false), (vset r k false).
      split; [reflexivity |]. rewrite !length_vset.
      split; [assumption |]. split; [assumption |].
      intros j Hj. destruct (Z.eq_dec k j) as [-> | Hne].
      + split; apply vget_vset_eq; lia.
      + rewrite !vget_vset_ne by assumption. apply Hall. lia. }
  destruct HP as (p & r & E & Hlp & Hlr & Hall).
  exists p, r. split; [exact E |]. split; [assumption |].
  split; [assumption |]. intros j.
  split; eapply vget_false_all; try eassumption; intros j' Hj'; now apply Hall.
Qed.

(** The second loop of [poll_events]. *)
Lemma clear_buttons_loop (i : Input) :
  Input_ok i ->
  exists p r,
    for_range 0 MOUSE_BUTTON_MAX (fun k i =>
      set_buttons (in_mouse_down i) (vset (in_mouse_pressed i) k false)
        (vset (in_mouse_released i) k false) i) i
    = set_buttons (in_mouse_down i) p r i /\
    Z.of_nat (length p) = MOUSE_BUTTON_MAX /\
    Z.of_nat (length r) = MOUSE_BUTTON_MAX /\
    forall j, vget false p j = false /\ vget false r j = false.
Proof.
  intros (_ & _ & _ & Hd & Hp & Hr).
  pose (P := fun (k : Z) (s : Input) =>
    exists p r, s = set_buttons (in_mouse_down i) p r i /\
      Z.of_nat (length p) = MOUSE_BUTTON_MAX /\
      Z.of_nat (length r) = MOUSE_BUTTON_MAX /\
      forall j, 0 <= j < k -> vget false p j = false /\ vget false r j = false).
  assert (HP : P MOUSE_BUTTON_MAX (for_range 0 MOUSE_BUTTON_MAX (fun k i =>
      set_buttons (in_mouse_down i) (vset (in_mouse_pressed i) k false)
        (vset (in_mouse_released i) k false) i) i)).
  { apply for_range_ind; [unfold MOUSE_BUTTON_MAX; lia | |].
    - exists (in_mouse_pressed i), (in_mouse_released i).
      split; [destruct i; reflexivity |]. repeat split; try assumption; lia.
    - intros k s Hk (p & r & -> & Hlp & Hlr & Hall).
      exists (vset p k false), (vset r k false).
      split; [reflexivity |]. rewrite !length_vset.
      split; [assumption |]. split; [assumption |].
      intros j Hj. destruct (Z.eq_dec k j) as [-> | Hne].
      + split; apply vget_vset_eq; lia.
      + rewrite !vget_vset_ne by assumption. apply Hall. lia. }
  destruct HP as (p & r & E & Hlp & Hlr & Hall).
  exists p, r. split; [exact E |]. split; [assumption |].
  split; [assumption |]. intros j.
  split; eapply vget_false_all; try eassumption; intros j' Hj'; now apply Hall.
Qed.

(** [poll_events] first brings the state to a cleared one, in which no
    edge flag is raised and the held keys and buttons are as before, then
    lets the callbacks run on it and reads the clock. *)
Lemma poll_events_cleared (evs : list Event) (now : double) (i : Input) :
  Input_ok i ->
  exists c,
    Input_ok c /\
    (forall k, key_down k c = key_down k i /\
               key_pressed k c = false /\ key_released k c = false) /\
    (forall b, mouse_down b c = mouse_down b i /\
               mouse_pressed b c = false /\ mouse_released b c = false) /\
    (in_mouse_x c = in_mouse_x i /\ in_mouse_y c = in_mouse_y i /\
     in_mouse_prev_x c = in_mouse_x i /\ in_mouse_prev_y c = in_mouse_y i /\
     in_mouse_dx c = d_0 /\ in_mouse_dy c = d_0 /\
     in_mouse_moved c = false /\
     in_mouse_scroll_x c = d_0 /\ in_mouse_scroll_y c = d_0 /\
     in_mouse_scrolled c = false /\
     in_mouse_in_window c = in_mouse_in_window i /\
     in_mouse_entered c = false /\ in_mouse_left c = false /\
     in_display_w c = in_display_w i /\ in_display_h c = in_display_h i /\
     in_last_time c = in_last_time i) /\
    poll_events evs now i =
      (let j := if in_headless i then c else foldl dispatch c evs in
       set_timer now
         (if deq (in_last_time j) d_0 then d_0
          else dsub now (in_last_time j)) j).
Proof.
  intros Hok. unfold poll_events.
  destruct (clear_keys_loop i Hok) as (p & r & -> & Hlp & Hlr & Hkeys).
  pose proof Hok as (Hd & _ & _ & Hmd & _).
  assert (Hok1 : Input_ok (set_keys (in_key_down i) p r i))
    by (apply Input_ok_keys; assumption).
  destruct (clear_buttons_loop _ Hok1) as (p' & r' & -> & Hlp' & Hlr' & Hbtn).
  cbn [in_mouse_down set_keys].
  eexists. split; [| split; [| split; [| split; [| reflexivity]]]].
  - unfold Input_ok. cbn. destruct Hok as (? & ? & ? & ? & ? & ?).
    repeat split; assumption.
  - intros k. unfold key_down, key_pressed, key_released. cbn.
    destruct ((k <? 0) || (k >=? KEY_MAX)); [now repeat split |].
    repeat split; apply Hkeys.
  - intros b. unfold mouse_down, mouse_pressed, mouse_released. cbn.
    destruct ((b <? 0) || (b >=? MOUSE_BUTTON_MAX)); [now repeat split |].
    repeat split; apply Hbtn.
  - cbn. now repeat split.
Qed.

Lemma button_in_range (k : Z) :
  0 <= k < MOUSE_BUTTON_MAX -> (k <? 0) || (k >=? MOUSE_BUTTON_MAX) = false.
Proof. intros Hk. apply orb_false_iff. lia. Qed.

(** One button event, seen through the three button queries. *)
Lemma glfw_mouse_button_cb_queries (button action k : Z) (i : Input) :
  Input_ok i ->
  let i' := glfw_mouse_button_cb button action i in
  Input_ok i' /\
  ((button = k /\ action = GLFW_PRESS /\ 0 <= k < MOUSE_BUTTON_MAX /\
    mouse_down k i' = true /\
    mouse_pressed k i' = negb (mouse_down k i) || mouse_pressed k i /\
    mouse_released k i' = mouse_released k i) \/
   (button = k /\ action = GLFW_RELEASE /\ 0 <= k < MOUSE_BUTTON_MAX /\
    mouse_down k i' = false /\
    mouse_pressed k i' = mouse_pressed k i /\
    mouse_released k i' = true) \/
   (mouse_down k i' = mouse_down k i /\
    mouse_pressed k i' = mouse_pressed k i /\
    mouse_released k i' = mouse_released k i)).
Proof.
  intros Hok. pose proof Hok as (_ & _ & _ & Hd & Hp & Hr).
  unfold glfw_mouse_button_cb.
  destruct ((button <? 0) || (button >=? MOUSE_BUTTON_MAX)) eqn:Hrange; cbv zeta.
  { split; [exact Hok | right; right; now repeat split]. }
  apply orb_false_iff in Hrange.
  assert (Hkey : 0 <= button < MOUSE_BUTTON_MAX) by lia.
  destruct (Z.eqb_spec action GLFW_PRESS) as [Ea | Ea].
  - split.
    { apply Input_ok_buttons; try assumption.
      - now rewrite length_vset.
      - destruct (negb _); [now rewrite length_vset | assumption]. }
    destruct (Z.eq_dec button k) as [-> | Hne].
    + left. repeat split; try assumption; try lia.
      * unfold mouse_down. rewrite button_in_range by assumption.
        cbn [in_mouse_down set_buttons]. apply vget_vset_eq. lia.
      * unfold mouse_pressed, mouse_down. rewrite button_in_range by assumption.
        cbn [in_mouse_pressed set_buttons].
        destruct (vget false (in_mouse_down i) k); cbn [negb orb];
          [reflexivity | apply vget_vset_eq; lia].
    + right; right. unfold mouse_down, mouse_pressed, mouse_released.
      cbn [in_mouse_down in_mouse_pressed in_mouse_released set_buttons].
      destruct ((k <? 0) || (k >=? MOUSE_BUTTON_MAX)); [now repeat split |].
      repeat split.
      * now apply vget_vset_ne.
      * destruct (negb _); [now apply vget_vset_ne | reflexivity].
  - destruct (Z.eqb_spec action GLFW_RELEASE) as [Er | Er].
    + split.
      { apply Input_ok_buttons; try assumption; now rewrite length_vset. }
      destruct (Z.eq_dec button k) as [-> | Hne].
      * right; left. repeat split; try assumption; try lia.
        -- unfold mouse_down. rewrite button_in_range by assumption.
           cbn [in_mouse_down set_buttons]. apply vget_vset_eq. lia.
        -- unfold mouse_released. rewrite button_in_range by assumption.
           cbn [in_mouse_released set_buttons]. apply vget_vset_eq. lia.
      * right; right. unfold mouse_down, mouse_pressed, mouse_released.
        cbn [in_mouse_down in_mouse_pressed in_mouse_released set_buttons].
        destruct ((k <? 0) || (k >=? MOUSE_BUTTON_MAX)); [now repeat split |].
        repeat split; now apply vget_vset_ne.
    + split; [exact Hok | right; right; now repeat split].
Qed.

(** One event of any kind, seen through the three button queries. *)
Lemma dispatch_button_queries (e : Event) (k : Z) (i : Input) :
  Input_ok i ->
  let i' := dispatch i e in
  Input_ok i' /\
  ((e = EvMouseButton k GLFW_PRESS /\ 0 <= k < MOUSE_BUTTON_MAX /\
    mouse_down k i' = true /\
    mouse_pressed k i' = negb (mouse_down k i) || mouse_pressed k i /\
    mouse_released k i' = mouse_released k i) \/
   (e = EvMouseButton k GLFW_RELEASE /\ 0 <= k < MOUSE_BUTTON_MAX /\
    mouse_down k i' = false /\
    mouse_pressed k i' = mouse_pressed k i /\
    mouse_released k i' = true) \/
   (mouse_down k i' = mouse_down k i /\
    mouse_pressed k i' = mouse_pressed k i /\
    mouse_released k i' = mouse_released k i)).
Proof.
  intros Hok. split; [exact (proj1 (dispatch_key_queries e 0 i Hok)) |].
  destruct e as [key a | w h | x y | b a | x y | en]; cbn [dispatch].
  - right; right. unfold glfw_key_cb.
    destruct ((key <? 0) || (key >=? KEY_MAX)); [now repeat split |].
    cbv zeta.
    destruct (a =? GLFW_PRESS); [now repeat split |].
    destruct (a =? GLFW_RELEASE); now repeat split.
  - right; right; now repeat split.
  - right; right; now repeat split.
  - destruct (glfw_mouse_button_cb_queries b a k i Hok) as [_ Hc].
    cbv zeta in Hc.
    destruct Hc as [(-> & -> & Hc) | [(-> & -> & Hc) | Hc]];
      [left | right; left | right; right]; try (split; [reflexivity |]);
      exact Hc.
  - right; right; now repeat split.
  - unfold glfw_cursor_enter_cb.
    destruct (en =? GLFW_TRUE); right; right; now repeat split.
Qed.

(** The key queries after a run of callbacks. *)
Lemma foldl_dispatch_keys (k : Z) (evs : list Event) (c : Input) :
  Input_ok c ->
  let j := foldl dispatch c evs in
  Input_ok j /\
  (key_pressed k c = true \/ key_down k c = false ->
   key_down k j = true -> key_pressed k j = true) /\
  (key_released k c = true \/ key_down k c = true ->
   key_down k j = false -> key_released k j = true) /\
  (key_pressed k j = true ->
   key_pressed k c = true \/ In (EvKey k GLFW_PRESS) evs) /\
  (key_released k j = true ->
   key_released k c = true \/ In (EvKey k GLFW_RELEASE) evs) /\
  ((forall a, ~ In (EvKey k a) evs) -> key_down k j = key_down k c).
Proof.
  revert c. induction evs as [| e evs IH]; intros c Hok; cbn [foldl].
  - split; [exact Hok |]. repeat split; intros; try tauto; try congruence.
    + destruct H as [H | H]; congruence.
    + destruct H as [H | H]; congruence.
  - destruct (dispatch_key_queries e k c Hok) as [Hok1 Hc].
    destruct (IH (dispatch c e) Hok1) as (Hokj & HA & HB & HC & HD & HE).
    cbv zeta in *. split; [exact Hokj |].
    set (c1 := dispatch c e) in *. set (j := foldl dispatch c1 evs) in *.
    destruct Hc as [(-> & Hk & E1 & E2 & E3) | [(-> & Hk & E1 & E2 & E3)
                                                | (E1 & E2 & E3)]].
    + repeat split.
      * intros Hc Hj. apply HA; [| exact Hj]. left. rewrite E2.
        destruct Hc as [-> | ->]; [apply orb_true_r | reflexivity].
      * intros _ Hj. apply HB; [| exact Hj]. right. exact E1.
      * intros Hj. right. left. reflexivity.
      * intros Hj. destruct (HD Hj) as [H | H];
          [left; now rewrite <- E3 | right; now right].
      * intros Hno. exfalso. apply (Hno GLFW_PRESS). now left.
    + repeat split.
      * intros _ Hj. apply HA; [| exact Hj]. right. exact E1.
      * intros _ Hj. apply HB; [| exact Hj]. left. exact E3.
      * intros Hj. destruct (HC Hj) as [H | H];
          [left; now rewrite <- E2 | right; now right].
      * intros Hj. right. left. reflexivity.
      * intros Hno. exfalso. apply (Hno GLFW_RELEASE). now left.
    + rewrite E1, E2, E3 in *. repeat split.
      * exact HA.
      * exact HB.
      * intros Hj. destruct (HC Hj) as [H | H]; [now left | right; now right].
      * intros Hj. destruct (HD Hj) as [H | H]; [now left | right; now right].
      * intros Hno. apply HE. intros a Ha. apply (Hno a). now right.
Qed.

(** The button queries after a run of callbacks. *)
Lemma foldl_dispatch_buttons (k : Z) (evs : list Event) (c : Input) :
  Input_ok c ->
  let j := foldl dispatch c evs in
  Input_ok j /\
  (mouse_pressed k c = true \/ mouse_down k c = false ->
   mouse_down k j = true -> mouse_pressed k j = true) /\
  (mouse_released k c = true \/ mouse_down k c = true ->
   mouse_down k j = false -> mouse_released k j = true) /\
  (mouse_pressed k j = true ->
   mouse_pressed k c = true \/ In (EvMouseButton k GLFW_PRESS) evs) /\
  (mouse_released k j = true ->
   mouse_released k c = true \/ In (EvMouseButton k GLFW_RELEASE) evs) /\
  ((forall a, ~ In (EvMouseButton k a) evs) -> mouse_down k j = mouse_down k c).
Proof.
  revert c. induction evs as [| e evs IH]; intros c Hok; cbn [foldl].
  - split; [exact Hok |]. repeat split; intros; try tauto; try congruence.
    + destruct H as [H | H]; congruence.
    + destruct H as [H | H]; congruence.
  - destruct (dispatch_button_queries e k c Hok) as [Hok1 Hc].
    destruct (IH (dispatch c e) Hok1) as (Hokj & HA & HB & HC & HD & HE).
    cbv zeta in *. split; [exact Hokj |].
    set (c1 := dispatch c e) in *. set (j := foldl dispatch c1 evs) in *.
    destruct Hc as [(-> & Hk & E1 & E2 & E3) | [(-> & Hk & E1 & E2 & E3)
                                                | (E1 & E2 & E3)]].
    + repeat split.
      * intros Hc Hj. apply HA; [| exact Hj]. left. rewrite E2.
        destruct Hc as [-> | ->]; [apply orb_true_r | reflexivity].
      * intros _ Hj. apply HB; [| exact Hj]. right. exact E1.
      * intros Hj. right. left. reflexivity.
      * intros Hj. destruct (HD Hj) as [H | H];
          [left; now rewrite <- E3 | right; now right].
      * intros Hno. exfalso. apply (Hno GLFW_PRESS). now left.
    + repeat split.
      * intros _ Hj. apply HA; [| exact Hj]. right. exact E1.
      * intros _ Hj. apply HB; [| exact Hj]. left. exact E3.
      * intros Hj. destruct (HC Hj) as [H | H];
          [left; now rewrite <- E2 | right; now right].
      * intros Hj. right. left. reflexivity.
      * intros Hno. exfalso. apply (Hno GLFW_RELEASE). now left.
    + rewrite E1, E2, E3 in *. repeat split.
      * exact HA.
      * exact HB.
      * intros Hj. destruct (HC Hj) as [H | H]; [now left | right; now right].
      * intros Hj. destruct (HD Hj) as [H | H]; [now left | right; now right].
      * intros Hno. apply HE. intros a Ha. apply (Hno a). now right.
Qed.

(** X24.  [poll_events] starts a new input frame.  When no event is
    delivered (a headless run, or an empty event queue), afterwards no
    key and no mouse button is reported as pressed or released, the held
    keys and buttons are as before, the previous cursor position is the
    current one, and the cursor deltas, the scroll offsets and the
    moved, scrolled, entered and left flags are cleared. *)
Theorem poll_events_new_frame (evs : list Event) (now : double) (i : Input) :
  Input_ok i ->
  in_headless i = true \/ evs = [] ->
  let i' := poll_events evs now i in
  Input_ok i' /\
  (forall k, key_down k i' = key_down k i /\
             key_pressed k i' = false /\ key_released k i' = false) /\
  (forall b, mouse_down b i' = mouse_down b i /\
             mouse_pressed b i' = false /\ mouse_released b i' = false) /\
  in_mouse_x i' = in_mouse_x i /\ in_mouse_y i' = in_mouse_y i /\
  in_mouse_prev_x i' = in_mouse_x i /\ in_mouse_prev_y i' = in_mouse_y i /\
  in_mouse_dx i' = d_0 /\ in_mouse_dy i' = d_0 /\
  in_mouse_moved i' = false /\
  in_mouse_scroll_x i' = d_0 /\ in_mouse_scroll_y i' = d_0 /\
  in_mouse_scrolled i' = false /\
  in_mouse_in_window i' = in_mouse_in_window i /\
  in_mouse_entered i' = false /\ in_mouse_left i' = false /\
  in_last_time i' = now.
Proof.
  intros Hok Hquiet.
  destruct (poll_events_cleared evs now i Hok)
    as (c & Hokc & Hkeys & Hbtn & Hrest & ->).
  assert (Ej : (if in_headless i then c else foldl dispatch c evs) = c).
  { destruct Hquiet as [-> | ->]; [reflexivity |].
    now destruct (in_headless i). }
  cbv zeta. rewrite Ej.
  destruct Hrest as (? & ? & ? & ? & ? & ? & ? & ? & ? & ? & ? & ? & ? & _).
  split; [exact Hokc |]. split; [exact Hkeys |]. split; [exact Hbtn |].
  cbn [set_timer in_mouse_x in_mouse_y in_mouse_prev_x in_mouse_prev_y
       in_mouse_dx in_mouse_dy in_mouse_moved in_mouse_scroll_x
       in_mouse_scroll_y in_mouse_scrolled in_mouse_in_window
       in_mouse_entered in_mouse_left in_last_time].
  repeat split; assumption.
Qed.

Lemma poll_events_new_frame_witness :
  key_down 65 (poll_events [] d_0
                 (glfw_key_cb 65 GLFW_PRESS (Input_initial false))) = true /\
  key_pressed 65 (poll_events [] d_0
                    (glfw_key_cb 65 GLFW_PRESS (Input_initial false))) = false.
Proof.
  assert (Hok : Input_ok (glfw_key_cb 65 GLFW_PRESS (Input_initial false)))
    by (vm_compute; repeat split; reflexivity).
  destruct (poll_events_new_frame [] d_0
              (glfw_key_cb 65 GLFW_PRESS (Input_initial false)) Hok
              (or_intror eq_refl)) as (_ & Hk & _).
  destruct (Hk 65) as (Hd & Hp & _).
  split; [rewrite Hd; vm_compute; reflexivity | exact Hp].
Defined.

(** X25.  Key transitions are never lost.  Whatever events one
    [poll_events] delivers, a key that was up before the call and is
    down after it is reported by [key_pressed], and a key that was down
    before and is up after is reported by [key_released]. *)
Theorem poll_events_key_edges (evs : list Event) (now : double) (i : Input)
    (k : Z) :
  Input_ok i ->
  let i' := poll_events evs now i in
  (key_down k i = false -> key_down k i' = true -> key_pressed k i' = true) /\
  (key_down k i = true -> key_down k i' = false -> key_released k i' = true).
Proof.
  intros Hok.
  destruct (poll_events_cleared evs now i Hok)
    as (c & Hokc & Hkeys & _ & _ & ->).
  destruct (Hkeys k) as (Ed & Ep & Er).
  destruct (foldl_dispatch_keys k evs c Hokc) as (_ & HA & HB & _).
  cbv zeta in *.
  destruct (in_headless i).
  - change (key_down k (set_timer ?a ?b ?j)) with (key_down k j).
    change (key_pressed k (set_timer ?a ?b ?j)) with (key_pressed k j).
    change (key_released k (set_timer ?a ?b ?j)) with (key_released k j).
    rewrite Ed. split; intros H1 H2; congruence.
  - change (key_down k (set_timer ?a ?b ?j)) with (key_down k j).
    change (key_pressed k (set_timer ?a ?b ?j)) with (key_pressed k j).
    change (key_released k (set_timer ?a ?b ?j)) with (key_released k j).
    rewrite <- Ed. split; intros H1 H2; [apply HA | apply HB]; auto.
Qed.

Lemma poll_events_key_edges_witness :
  key_pressed 65
    (poll_events [EvKey 65 GLFW_PRESS; EvKey 65 GLFW_RELEASE;
                  EvKey 65 GLFW_PRESS] d_0 (Input_initial false)) = true.
Proof.
  assert (Hok : Input_ok (Input_initial false))
    by (vm_compute; repeat split; reflexivity).
  apply (proj1 (poll_events_key_edges
           [EvKey 65 GLFW_PRESS; EvKey 65 GLFW_RELEASE; EvKey 65 GLFW_PRESS]
           d_0 (Input_initial false) 65 Hok)); vm_compute; reflexivity.
Defined.

(** X26.  Key reports have a cause.  After [poll_events],
    [key_pressed] answers true only if a press of that key was among the
    delivered events, [key_released] only if a release of it was, and a
    key none of the delivered events names is held exactly if it was
    held before. *)
Theorem poll_events_key_cause (evs : list Event) (now : double) (i : Input)
    (k : Z) :
  Input_ok i ->
  let i' := poll_events evs now i in
  (key_pressed k i' = true -> In (EvKey k GLFW_PRESS) evs) /\
  (key_released k i' = true -> In (EvKey k GLFW_RELEASE) evs) /\
  ((forall a, ~ In (EvKey k a) evs) -> key_down k i' = key_down k i).
Proof.
  intros Hok.
  destruct (poll_events_cleared evs now i Hok)
    as (c & Hokc & Hkeys & _ & _ & ->).
  destruct (Hkeys k) as (Ed & Ep & Er).
  destruct (foldl_dispatch_keys k evs c Hokc) as (_ & _ & _ & HC & HD & HE).
  cbv zeta in *.
  destruct (in_headless i).
  - change (key_down k (set_timer ?a ?b ?j)) with (key_down k j).
    change (key_pressed k (set_timer ?a ?b ?j)) with (key_pressed k j).
    change (key_released k (set_timer ?a ?b ?j)) with (key_released k j).
    repeat split; intros; congruence.
  - change (key_down k (set_timer ?a ?b ?j)) with (key_down k j).
    change (key_pressed k (set_timer ?a ?b ?j)) with (key_pressed k j).
    change (key_released k (set_timer ?a ?b ?j)) with (key_released k j).
    rewrite <- Ed. repeat split.
    + intros Hj. destruct (HC Hj) as [H | H]; [congruence | exact H].
    + intros Hj. destruct (HD Hj) as [H | H]; [congruence | exact H].
    + exact HE.
Qed.

Lemma poll_events_key_cause_witness :
  key_down 66
    (poll_events [EvKey 65 GLFW_RELEASE; EvCursorEnter 1] d_0
       (glfw_key_cb 66 GLFW_PRESS (Input_initial false))) = true.
Proof.
  assert (Hok : Input_ok (glfw_key_cb 66 GLFW_PRESS (Input_initial false)))
    by (vm_compute; repeat split; reflexivity).
  destruct (poll_events_key_cause [EvKey 65 GLFW_RELEASE; EvCursorEnter 1]
              d_0 (glfw_key_cb 66 GLFW_PRESS (Input_initial false)) 66 Hok)
    as (_ & _ & H3).
  rewrite H3; [vm_compute; reflexivity |].
  intros a [E | [E | []]]; discriminate E.
Defined.

(** X27.  Mouse buttons are tracked like keys.  Whatever events one
    [poll_events] delivers, a button that goes from up to down across
    the call is reported by [mouse_pressed] and one that goes from down
    to up by [mouse_released]; both answer true only if such an event
    was delivered, and a button no delivered event names stays as it
    was. *)
Theorem poll_events_mouse_buttons (evs : list Event) (now : double)
    (i : Input) (b : Z) :
  Input_ok i ->
  let i' := poll_events evs now i in
  (mouse_down b i = false -> mouse_down b i' = true ->
   mouse_pressed b i' = true) /\
  (mouse_down b i = true -> mouse_down b i' = false ->
   mouse_released b i' = true) /\
  (mouse_pressed b i' = true -> In (EvMouseButton b GLFW_PRESS) evs) /\
  (mouse_released b i' = true -> In (EvMouseButton b GLFW_RELEASE) evs) /\
  ((forall a, ~ In (EvMouseButton b a) evs) ->
   mouse_down b i' = mouse_down b i).
Proof.
  intros Hok.
  destruct (poll_events_cleared evs now i Hok)
    as (c & Hokc & _ & Hbtn & _ & ->).
  destruct (Hbtn b) as (Ed & Ep & Er).
  destruct (foldl_dispatch_buttons b evs c Hokc)
    as (_ & HA & HB & HC & HD & HE).
  cbv zeta in *.
  destruct (in_headless i).
  - change (mouse_down b (set_timer ?a ?d ?j)) with (mouse_down b j).
    change (mouse_pressed b (set_timer ?a ?d ?j)) with (mouse_pressed b j).
    change (mouse_released b (set_timer ?a ?d ?j)) with (mouse_released b j).
    repeat split; intros; congruence.
  - change (mouse_down b (set_timer ?a ?d ?j)) with (mouse_down b j).
    change (mouse_pressed b (set_timer ?a ?d ?j)) with (mouse_pressed b j).
    change (mouse_released b (set_timer ?a ?d ?j)) with (mouse_released b j).
    rewrite <- Ed. repeat split.
    + intros H1 H2. apply HA; auto.
    + intros H1 H2. apply HB; auto.
    + intros Hj. destruct (HC Hj) as [H | H]; [congruence | exact H].
    + intros Hj. destruct (HD Hj) as [H | H]; [congruence | exact H].
    + exact HE.
Qed.

Lemma poll_events_mouse_buttons_witness :
  mouse_released 0
    (poll_events [EvMouseButton 0 GLFW_RELEASE] d_0
       (glfw_mouse_button_cb 0 GLFW_PRESS (Input_initial false))) = true.
Proof.
  assert (Hok : Input_ok
                  (glfw_mouse_button_cb 0 GLFW_PRESS (Input_initial false)))
    by (vm_compute; repeat split; reflexivity).
  destruct (poll_events_mouse_buttons [EvMouseButton 0 GLFW_RELEASE] d_0
              (glfw_mouse_button_cb 0 GLFW_PRESS (Input_initial false)) 0 Hok)
    as (_ & H2 & _).
  apply H2; vm_compute; reflexivity.
Defined.


(* ===================================================================== *)
(** * Lines *)
(* ===================================================================== *)

Lemma imul_id (a b : Z) :
  INT_MIN <= a * b <= INT_MAX -> (a * b)%int = a * b.
Proof. intros H. unfold imul. now apply cast_int_id. Qed.

(** The brush is a grid of writes. *)
Lemma line_stamp_grid (x y rad : Z) (c : Color) (st : State) :
  0 <= rad -> INT_MIN <= x - rad -> x + rad <= INT_MAX ->
  INT_MIN <= y - rad -> y + rad <= INT_MAX ->
  line_stamp x y rad c st
  = for_range 0 (2 * rad + 1) (fun j s =>
      for_range 0 (2 * rad + 1) (fun i s =>
        write_pixel (x - rad + i) (y - rad + j) c s) s) st.
Proof.
  intros Hr Hx1 Hx2 Hy1 Hy2. unfold line_stamp.
  assert (Hmin : INT_MIN <= - rad <= INT_MAX) by (unfold INT_MIN, INT_MAX in *; lia).
  rewrite (cast_int_id _ Hmin).
  replace (rad + 1) with (- rad + (2 * rad + 1)) by lia.
  rewrite for_range_shift. apply for_range_ext. intros j s Hj.
  rewrite for_range_shift. apply for_range_ext. intros i s' Hi.
  rewrite !iadd_id by lia. f_equal; lia.
Qed.

Lemma line_stamp_pixels (x y rad : Z) (c : Color) (st : State) :
  surface_ok st ->
  0 <= rad -> INT_MIN <= x - rad -> x + rad <= INT_MAX ->
  INT_MIN <= y - rad -> y + rad <= INT_MAX ->
  same_frame st (line_stamp x y rad c st) /\
  forall px py, in_bounds st px py = true ->
    get_pixel (line_stamp x y rad c st) px py
    = if in_rect (x - rad) (y - rad) (2 * rad + 1) (2 * rad + 1) px py
         && in_clip st px py
      then blend_out (blend st) c (get_pixel st px py)
      else get_pixel st px py.
Proof.
  intros Hok Hr Hx1 Hx2 Hy1 Hy2.
  rewrite line_stamp_grid by assumption.
  exact (write_grid (fun _ _ => c) st (x - rad) (y - rad)
           (2 * rad + 1) (2 * rad + 1) Hok ltac:(lia) ltac:(lia)).
Qed.

(** The brush keeps the buffer made of bytes, wherever it is put. *)
Lemma line_stamp_kept (st0 s : State) (x y rad : Z) (c : Color) :
  (blend st0 = Overwrite -> Color_ok c) ->
  same_frame st0 s /\ bytes_ok (color s) ->
  same_frame st0 (line_stamp x y rad c s) /\
  bytes_ok (color (line_stamp x y rad c s)).
Proof.
  intros Hc Hs. unfold line_stamp.
  apply (for_range_keeps
           (fun s => same_frame st0 s /\ bytes_ok (color s))); [exact Hs |].
  intros oy s1 Hs1.
  apply (for_range_keeps
           (fun s => same_frame st0 s /\ bytes_ok (color s))); [exact Hs1 |].
  intros ox s2 Hs2. now apply write_pixel_kept_frame.
Qed.

(** The loop of [draw_line_bres] from its [a]-th step in [x] and [b]-th
    step in [y]: within [dx - a + ady - b + 1] iterations it reaches the
    last point, stamps it and stops.  [K a b] is what holds before the
    stamp at position [(a, b)] and [Inv] what holds after a stamp. *)
Lemma bres_loop_run (x0 y0 x1 y1 dx ady sx sy rad : Z) (c : Color)
    (K : Z -> Z -> State -> Prop) (Inv : State -> Prop) :
  0 <= dx <= 2 ^ 28 -> 0 <= ady <= 2 ^ 28 ->
  (sx = 1 \/ sx = -1) -> (sy = 1 \/ sy = -1) ->
  line_arg_ok x0 -> line_arg_ok y0 -> line_arg_ok x1 -> line_arg_ok y1 ->
  x1 = x0 + sx * dx -> y1 = y0 + sy * ady ->
  (forall a b s, 0 <= a <= dx -> 0 <= b <= ady -> K a b s ->
     Inv (line_stamp (x0 + sx * a) (y0 + sy * b) rad c s)) ->
  (forall a b s, Inv s -> K a b s) ->
  forall (fuel : nat) (a b err : Z) (s : State),
    0 <= a <= dx -> 0 <= b <= ady ->
    err = dx * (1 + b) - ady * (1 + a) ->
    - (2 * ady) <= err <= 2 * dx ->
    (dx - a) + (ady - b) + 1 <= Z.of_nat fuel ->
    K a b s ->
    exists s_pre,
      K dx ady s_pre /\
      bres_loop fuel (x0 + sx * a) (y0 + sy * b) x1 y1 dx (- ady) sx sy err
        rad c s
      = Some (line_stamp x1 y1 rad c s_pre).
Proof.
  intros Hdx Hady Hsx Hsy Hx0 Hy0 Hx1 Hy1 Ex1 Ey1 Hstamp Hnext.
  unfold line_arg_ok in *.
  assert (H28 : 2 ^ 28 = 268435456) by reflexivity.
  assert (H27 : 2 ^ 27 = 134217728) by reflexivity.
  rewrite H28 in *. rewrite H27 in *.
  induction fuel as [| fuel IH]; intros a b err s Ha Hb Eerr Herr Hfuel HK.
  { cbn in Hfuel. lia. }
  cbn [bres_loop].
  set (s1 := line_stamp (x0 + sx * a) (y0 + sy * b) rad c s).
  assert (HK1 : forall a' b', K a' b' s1).
  { intros a' b'. apply Hnext. now apply Hstamp. }
  assert (Hxa : (x0 + sx * a =? x1) = (a =? dx)).
  { destruct (Z.eqb_spec a dx) as [-> | Hne].
    - apply Z.eqb_eq. lia.
    - apply Z.eqb_neq. destruct Hsx as [-> | ->]; lia. }
  assert (Hyb : (y0 + sy * b =? y1) = (b =? ady)).
  { destruct (Z.eqb_spec b ady) as [-> | Hne].
    - apply Z.eqb_eq. lia.
    - apply Z.eqb_neq. destruct Hsy as [-> | ->]; lia. }
  rewrite Hxa, Hyb.
  destruct (Z.eqb_spec a dx) as [Ea | Na];
    [destruct (Z.eqb_spec b ady) as [Eb | Nb] |]; cbn [andb].
  - (* the last point *)
    exists s. subst a b. split; [exact HK |].
    unfold s1. now rewrite <- Ex1, <- Ey1.
  - (* [x] is done: only [y] steps *)
    subst a.
    assert (Hb' : b < ady) by lia.
    assert (Hm : dx * (1 + b) <= dx * ady) by (apply Z.mul_le_mono_nonneg_l; lia).
    assert (He2 : INT_MIN <= 2 * err <= INT_MAX)
      by (unfold INT_MIN, INT_MAX; clear - Herr Hdx Hady; lia).
    rewrite (imul_id 2 err He2).
    destruct (Z.geb_spec (2 * err) (- ady)) as [Hge | Hlt];
      [exfalso; clear - Hge Eerr Hm Hb' Hb; lia |].
    destruct (Z.leb_spec (2 * err) dx) as [Hle | Hgt];
      [| exfalso; clear - Hgt Hlt Hdx Hady; lia].
    rewrite (iadd_id err dx)
      by (unfold INT_MIN, INT_MAX; clear - Herr Hdx Hady; lia).
    rewrite (iadd_id (y0 + sy * b) sy)
      by (unfold INT_MIN, INT_MAX; clear - Hsy Hy0 Hy1 Ey1 Hb Hady;
          destruct Hsy as [-> | ->]; lia).
    replace (y0 + sy * b + sy) with (y0 + sy * (b + 1)) by ring.
    apply IH; [lia | lia | subst err; ring | clear - Herr Hlt Hle Hdx Hady; lia
              | clear - Hfuel Hb'; lia | apply HK1].
  - (* [x] is not done *)
    assert (Ha' : a < dx) by lia.
    assert (He2 : INT_MIN <= 2 * err <= INT_MAX)
      by (unfold INT_MIN, INT_MAX; clear - Herr Hdx Hady; lia).
    rewrite (imul_id 2 err He2).
    assert (Hb' : 2 * err <= dx -> b < ady).
    { intros Hle. destruct (Z.eq_dec b ady) as [-> | Hne]; [| lia].
      assert (ady * (1 + a) <= ady * dx)
        by (apply Z.mul_le_mono_nonneg_l; lia).
      exfalso. clear - Hle Eerr H Ha' Ha. lia. }
    destruct (Z.geb_spec (2 * err) (- ady)) as [Hge | Hlt].
    + rewrite (iadd_id err (- ady))
        by (unfold INT_MIN, INT_MAX; clear - Herr Hdx Hady; lia).
      rewrite (iadd_id (x0 + sx * a) sx)
        by (unfold INT_MIN, INT_MAX; clear - Hsx Hx0 Hx1 Ex1 Ha Hdx;
            destruct Hsx as [-> | ->]; lia).
      replace (x0 + sx * a + sx) with (x0 + sx * (a + 1)) by ring.
      destruct (Z.leb_spec (2 * err) dx) as [Hle | Hgt].
      * (* a step in both directions *)
        specialize (Hb' Hle).
        rewrite (iadd_id (err + - ady) dx)
          by (unfold INT_MIN, INT_MAX; clear - Herr Hdx Hady; lia).
        rewrite (iadd_id (y0 + sy * b) sy)
          by (unfold INT_MIN, INT_MAX; clear - Hsy Hy0 Hy1 Ey1 Hb Hady;
              destruct Hsy as [-> | ->]; lia).
        replace (y0 + sy * b + sy) with (y0 + sy * (b + 1)) by ring.
        apply IH; [lia | lia | subst err; ring
                  | clear - Herr Hge Hle Hdx Hady; lia
                  | clear - Hfuel Hb' Ha'; lia | apply HK1].
      * apply IH; [lia | lia | subst err; ring
                  | clear - Herr Hge Hgt Hdx Hady; lia
                  | clear - Hfuel Ha'; lia | apply HK1].
    + destruct (Z.leb_spec (2 * err) dx) as [Hle | Hgt];
        [| exfalso; clear - Hgt Hlt Hdx Hady; lia].
      specialize (Hb' Hle).
      rewrite (iadd_id err dx)
        by (unfold INT_MIN, INT_MAX; clear - Herr Hdx Hady; lia).
      rewrite (iadd_id (y0 + sy * b) sy)
        by (unfold INT_MIN, INT_MAX; clear - Hsy Hy0 Hy1 Ey1 Hb Hady;
            destruct Hsy as [-> | ->]; lia).
      replace (y0 + sy * b + sy) with (y0 + sy * (b + 1)) by ring.
      apply IH; [lia | lia | subst err; ring
                | clear - Herr Hlt Hle Hdx Hady; lia
                | clear - Hfuel Hb'; lia | apply HK1].
Qed.

(** The set-up of [draw_line_bres], for arguments in range. *)
Lemma draw_line_bres_args (fuel : nat) (x0 y0 x1 y1 : Z) (c : Color)
    (thickness : Z) (st : State) :
  line_arg_ok x0 -> line_arg_ok y0 -> line_arg_ok x1 -> line_arg_ok y1 ->
  thickness <= 2 ^ 27 ->
  draw_line_bres fuel x0 y0 x1 y1 c thickness st
  = bres_loop fuel x0 y0 x1 y1 (Z.abs (x1 - x0)) (- Z.abs (y1 - y0))
      (if x0 <? x1 then 1 else -1) (if y0 <? y1 then 1 else -1)
      (Z.abs (x1 - x0) * (1 + 0) - Z.abs (y1 - y0) * (1 + 0))
      (Z.max 1 thickness / 2) c st.
Proof.
  unfold line_arg_ok. assert (H27 : 2 ^ 27 = 134217728) by reflexivity.
  rewrite H27. intros Hx0 Hy0 Hx1 Hy1 Ht.
  unfold draw_line_bres. cbv zeta.
  assert (Et : (if thickness <? 1 then 1 else thickness) = Z.max 1 thickness).
  { destruct (Z.ltb_spec thickness 1); lia. }
  rewrite Et.
  assert (Ex : iabs (x1 - x0)%int = Z.abs (x1 - x0)).
  { rewrite isub_id by (unfold INT_MIN, INT_MAX; lia).
    unfold iabs. apply cast_int_id. unfold INT_MIN, INT_MAX. lia. }
  assert (Ey : iabs (y1 - y0)%int = Z.abs (y1 - y0)).
  { rewrite isub_id by (unfold INT_MIN, INT_MAX; lia).
    unfold iabs. apply cast_int_id. unfold INT_MIN, INT_MAX. lia. }
  rewrite Ex, Ey.
  rewrite (cast_int_id (- Z.abs (y1 - y0)))
    by (unfold INT_MIN, INT_MAX; lia).
  rewrite iadd_id by (unfold INT_MIN, INT_MAX; lia).
  assert (Er : (Z.max 1 thickness / 2)%int = Z.max 1 thickness / 2).
  { unfold idiv. rewrite Z.quot_div_nonneg by lia.
    apply cast_int_id. unfold INT_MIN, INT_MAX.
    pose proof (Z.div_pos (Z.max 1 thickness) 2 ltac:(lia) ltac:(lia)).
    assert (Z.max 1 thickness / 2 <= Z.max 1 thickness)
      by (apply Z.div_le_upper_bound; lia).
    lia. }
  rewrite Er. f_equal. ring.
Qed.

(** X28.  [draw_line] terminates and stays in its box.  For endpoints
    and a thickness of magnitude at most [2^27], the unbounded loop of
    the Bresenham walk reaches the second endpoint and stops within
    [|x1 - x0| + |y1 - y0| + 1] iterations.  The call changes no pixel
    outside the bounding box of the two endpoints grown by
    [thickness / 2] on every side, leaves the surface size, the depth
    buffer, the clip rectangle and the blend mode alone, keeps the color
    buffer made of bytes, and under [Overwrite] both endpoints (on the
    surface and not clipped) end up with the line color. *)
Theorem draw_line_reaches_end (fuel : nat) (x0 y0 x1 y1 : Z) (c : Color)
    (thickness : Z) (st : State) :
  surface_ok st ->
  line_arg_ok x0 -> line_arg_ok y0 -> line_arg_ok x1 -> line_arg_ok y1 ->
  thickness <= 2 ^ 27 ->
  Z.abs (x1 - x0) + Z.abs (y1 - y0) + 1 <= Z.of_nat fuel ->
  let rad := Z.max 1 thickness / 2 in
  exists st',
    draw_line fuel x0 y0 x1 y1 c thickness st = Some st' /\
    same_frame st st' /\
    (bytes_ok (color st) -> (blend st = Overwrite -> Color_ok c) ->
     bytes_ok (color st')) /\
    (forall px py, in_bounds st px py = true ->
       in_rect (Z.min x0 x1 - rad) (Z.min y0 y1 - rad)
         (Z.abs (x1 - x0) + 2 * rad + 1) (Z.abs (y1 - y0) + 2 * rad + 1)
         px py = false ->
       get_pixel st' px py = get_pixel st px py) /\
    (blend st = Overwrite ->
     (in_bounds st x0 y0 = true -> in_clip st x0 y0 = true ->
      get_pixel st' x0 y0 = c) /\
     (in_bounds st x1 y1 = true -> in_clip st x1 y1 = true ->
      get_pixel st' x1 y1 = c)).
Proof.
  intros Hok Hx0 Hy0 Hx1 Hy1 Ht Hfuel rad.
  unfold draw_line.
  rewrite draw_line_bres_args by assumption. fold rad.
  set (dx := Z.abs (x1 - x0)) in *. set (ady := Z.abs (y1 - y0)) in *.
  set (sx := if x0 <? x1 then 1 else -1).
  set (sy := if y0 <? y1 then 1 else -1).
  assert (H27 : 2 ^ 27 = 134217728) by reflexivity.
  assert (H28 : 2 ^ 28 = 268435456) by reflexivity.
  pose proof Hx0 as Hx0'. pose proof Hy0 as Hy0'.
  pose proof Hx1 as Hx1'. pose proof Hy1 as Hy1'.
  unfold line_arg_ok in Hx0', Hy0', Hx1', Hy1'.
  rewrite H27 in Hx0', Hy0', Hx1', Hy1', Ht.
  assert (Hrad : 0 <= rad <= 67108864).
  { unfold rad. split; [apply Z.div_pos; lia |].
    apply Z.div_le_upper_bound; lia. }
  assert (Hdx : 0 <= dx <= 2 ^ 28) by (rewrite H28; unfold dx; lia).
  assert (Hady : 0 <= ady <= 2 ^ 28) by (rewrite H28; unfold ady; lia).
  assert (Hsx : sx = 1 \/ sx = -1) by (unfold sx; destruct (x0 <? x1); auto).
  assert (Hsy : sy = 1 \/ sy = -1) by (unfold sy; destruct (y0 <? y1); auto).
  assert (Ex1 : x1 = x0 + sx * dx)
    by (unfold sx, dx; destruct (Z.ltb_spec x0 x1); lia).
  assert (Ey1 : y1 = y0 + sy * ady)
    by (unfold sy, ady; destruct (Z.ltb_spec y0 y1); lia).
  set (BX := Z.min x0 x1 - rad). set (BY := Z.min y0 y1 - rad).
  pose (Inv0 := fun s : State =>
    same_frame st s /\
    (bytes_ok (color st) -> (blend st = Overwrite -> Color_ok c) ->
     bytes_ok (color s)) /\
    (forall px py, in_bounds st px py = true ->
       in_rect BX BY (dx + 2 * rad + 1) (ady + 2 * rad + 1) px py = false ->
       get_pixel s px py = get_pixel st px py)).
  pose (First := fun s : State =>
    blend st = Overwrite -> in_bounds st x0 y0 = true ->
    in_clip st x0 y0 = true -> get_pixel s x0 y0 = c).
  pose (Inv := fun s : State => Inv0 s /\ First s).
  pose (K := fun (a b : Z) (s : State) =>
    Inv0 s /\ ((a = 0 /\ b = 0) \/ First s)).
  assert (Hstamp : forall a b s, 0 <= a <= dx -> 0 <= b <= ady -> K a b s ->
            Inv (line_stamp (x0 + sx * a) (y0 + sy * b) rad c s) /\
            (blend st = Overwrite ->
             in_bounds st (x0 + sx * a) (y0 + sy * b) = true ->
             in_clip st (x0 + sx * a) (y0 + sy * b) = true ->
             get_pixel (line_stamp (x0 + sx * a) (y0 + sy * b) rad c s)
               (x0 + sx * a) (y0 + sy * b) = c)).
  { intros a b s Ha Hb [(Hf & Hbytes & Hout) HF].
    set (x := x0 + sx * a). set (y := y0 + sy * b).
    assert (Hx : Z.min x0 x1 <= x <= Z.min x0 x1 + dx).
    { unfold x. rewrite H28 in Hdx. clear - Hsx Ex1 Ha Hdx.
      destruct Hsx as [-> | ->]; lia. }
    assert (Hy : Z.min y0 y1 <= y <= Z.min y0 y1 + ady).
    { unfold y. rewrite H28 in Hady. clear - Hsy Ey1 Hb Hady.
      destruct Hsy as [-> | ->]; lia. }
    assert (Hdx' : Z.min x0 x1 + dx = Z.max x0 x1) by (unfold dx; lia).
    assert (Hady' : Z.min y0 y1 + ady = Z.max y0 y1) by (unfold ady; lia).
    pose proof (same_frame_surface_ok st s Hf Hok) as Hoks.
    destruct (line_stamp_pixels x y rad c s Hoks (proj1 Hrad))
      as [Hfs Hpix]; try (unfold INT_MIN, INT_MAX; lia).
    assert (Eblend : blend s = blend st)
      by (destruct Hf as (_ & _ & _ & _ & _ & _ & _ & E & _); exact E).
    split; [split; [split; [| split] |] |].
    - eapply same_frame_trans; eassumption.
    - intros Hb0 Hc0.
      exact (proj2 (line_stamp_kept st s x y rad c Hc0
                      (conj Hf (Hbytes Hb0 Hc0)))).
    - intros px py Hin Hbox.
      rewrite Hpix by (now rewrite (same_frame_in_bounds st s px py Hf)).
      assert (Esq : in_rect (x - rad) (y - rad) (2 * rad + 1) (2 * rad + 1)
                      px py = false).
      { unfold in_rect in *. unfold BX, BY in Hbox. lia. }
      rewrite Esq. cbn [andb]. now apply Hout.
    - intros Ho Hin Hcl.
      rewrite Hpix by (now rewrite (same_frame_in_bounds st s x0 y0 Hf)).
      rewrite (same_frame_in_clip st s x0 y0 Hf), Hcl, andb_true_r.
      destruct (in_rect (x - rad) (y - rad) (2 * rad + 1) (2 * rad + 1)
                  x0 y0) eqn:Esq.
      + now rewrite Eblend, Ho.
      + destruct HF as [[-> ->] | HF]; [| now apply HF].
        exfalso. unfold in_rect, x, y in Esq. lia.
    - intros Ho Hin Hcl.
      rewrite Hpix by (now rewrite (same_frame_in_bounds st s x y Hf)).
      rewrite (same_frame_in_clip st s x y Hf), Hcl, andb_true_r.
      assert (Esq : in_rect (x - rad) (y - rad) (2 * rad + 1) (2 * rad + 1)
                      x y = true) by (unfold in_rect; lia).
      now rewrite Esq, Eblend, Ho. }
  assert (HK0 : K 0 0 st).
  { split; [| left; split; reflexivity].
    split; [apply same_frame_refl |]. split; [auto |]. reflexivity. }
  destruct (bres_loop_run x0 y0 x1 y1 dx ady sx sy rad c K Inv
              Hdx Hady Hsx Hsy Hx0 Hy0 Hx1 Hy1 Ex1 Ey1
              (fun a b s Ha Hb HK => proj1 (Hstamp a b s Ha Hb HK))
              (fun a b s HI => conj (proj1 HI) (or_intror (proj2 HI)))
              fuel 0 0 (dx * (1 + 0) - ady * (1 + 0)) st
              ltac:(lia) ltac:(lia) eq_refl ltac:(lia) ltac:(lia) HK0)
    as (s_pre & HKpre & Erun).
  replace (x0 + sx * 0) with x0 in Erun by lia.
  replace (y0 + sy * 0) with y0 in Erun by lia.
  rewrite Erun.
  destruct (Hstamp dx ady s_pre ltac:(lia) ltac:(lia) HKpre)
    as [[(Hf & Hbytes & Hout) HF] Hend].
  rewrite <- Ex1, <- Ey1 in Hf, Hbytes, Hout, HF, Hend.
  eexists. split; [reflexivity |].
  split; [| split; [| split; [| split]]].
  - eapply same_frame_trans; [exact Hf |].
    apply (dirty_add_rect_same_frame _ _ _ _ _).
  - intros Hb0 Hc0.
    rewrite (proj2 (dirty_add_rect_same_frame _ _ _ _ _)). now apply Hbytes.
  - intros px py Hin Hbox. rewrite get_pixel_dirty_add_rect.
    now apply Hout.
  - intros Hin Hcl. rewrite get_pixel_dirty_add_rect. now apply HF.
  - intros Hin Hcl. rewrite get_pixel_dirty_add_rect. now apply Hend.
Qed.

Lemma draw_line_reaches_end_witness :
  exists st',
    draw_line 3 0 0 1 1 (mkColor 9 8 7 255) 1 surface_2x2 = Some st' /\
    get_pixel st' 1 1 = mkColor 9 8 7 255.
Proof.
  assert (Hok : surface_ok surface_2x2).
  { unfold surface_ok. vm_compute. repeat split; congruence. }
  assert (H0 : line_arg_ok 0) by (vm_compute; split; congruence).
  assert (H1 : line_arg_ok 1) by (vm_compute; split; congruence).
  assert (Ht : 1 <= 2 ^ 27) by (vm_compute; congruence).
  assert (Hfuel : Z.abs (1 - 0) + Z.abs (1 - 0) + 1 <= Z.of_nat 3)
    by (vm_compute; congruence).
  destruct (draw_line_reaches_end 3 0 0 1 1 (mkColor 9 8 7 255) 1
              surface_2x2 Hok H0 H0 H1 H1 Ht Hfuel)
    as (st' & E & _ & _ & _ & Hend).
  exists st'. split; [exact E |].
  apply (proj2 (Hend eq_refl)); reflexivity.
Defined.


(* ===================================================================== *)
(** * Circles *)
(* ===================================================================== *)

(** A write inside a box keeps a drawing inside that box. *)
Lemma write_pixel_in_box (st s : State) (c : Color) (bx by_ w h x y : Z) :
  surface_ok st -> in_rect bx by_ w h x y = true ->
  drawn_in_box st c bx by_ w h s ->
  drawn_in_box st c bx by_ w h (write_pixel x y c s).
Proof.
  intros Hok Hin (Hf & Hb & Hout). split; [| split].
  - eapply same_frame_trans; [exact Hf | apply write_pixel_same_frame].
  - intros Hb0 Hc0.
    exact (proj2 (write_pixel_kept_frame st s x y c Hc0
                    (conj Hf (Hb Hb0 Hc0)))).
  - intros px py Hpb Hbox.
    rewrite get_pixel_write_pixel_other.
    + now apply Hout.
    + exact (same_frame_surface_ok st s Hf Hok).
    + now rewrite (same_frame_in_bounds st s px py Hf).
    + intros E. injection E as -> ->. congruence.
Qed.

(** Under [Overwrite], a pixel that has received the color [c] keeps it
    through every later write of [c]. *)
Lemma write_pixel_sticky (st s : State) (c : Color) (x y qx qy : Z) :
  surface_ok st -> same_frame st s -> blend st = Overwrite ->
  in_bounds st qx qy = true -> in_clip st qx qy = true ->
  (x, y) = (qx, qy) \/ get_pixel s qx qy = c ->
  get_pixel (write_pixel x y c s) qx qy = c.
Proof.
  intros Hok Hf Ho Hb Hc Hcase.
  pose proof (same_frame_surface_ok st s Hf Hok) as Hoks.
  assert (Hbs : in_bounds s qx qy = true)
    by (now rewrite (same_frame_in_bounds st s qx qy Hf)).
  assert (Hcs : in_clip s qx qy = true)
    by (now rewrite (same_frame_in_clip st s qx qy Hf)).
  assert (Eblend : blend s = Overwrite).
  { destruct Hf as (_ & _ & _ & _ & _ & _ & _ & E & _). now rewrite E. }
  destruct (decide ((x, y) = (qx, qy))) as [E | Hne].
  - injection E as -> ->.
    rewrite get_pixel_write_pixel by assumption. now rewrite Eblend.
  - destruct Hcase as [E | Hq]; [contradiction |].
    rewrite get_pixel_write_pixel_other; auto.
Qed.

(** A descending loop whose body succeeds and keeps [I]. *)
Lemma for_down_run {S} (I : S -> Prop) (body : Z -> S -> option S)
    (n : nat) (i : Z) (s : S) :
  Z.of_nat n <= i <= INT_MAX -> I s ->
  (forall k s1, i - Z.of_nat n < k <= i -> I s1 ->
     exists s2, body k s1 = Some s2 /\ I s2) ->
  exists s', for_down n i body s = Some s' /\ I s'.
Proof.
  revert i s. induction n as [| n IH]; intros i s Hi Hs Hbody.
  - exists s. split; [reflexivity | exact Hs].
  - cbn [for_down].
    destruct (Hbody i s ltac:(lia) Hs) as (s2 & -> & Hs2).
    rewrite isub_id by (unfold INT_MIN, INT_MAX in *; lia).
    apply IH; [lia | exact Hs2 |].
    intros k s1 Hk. apply Hbody. lia.
Qed.

(** One ring of [draw_circle_outline], from any state of its loop: the
    loop is left after at most [x - y + 2] tests, and what every write
    inside the box of the circle keeps is kept. *)
Lemma circle_ring_run (cx cy r rr : Z) (c : Color) (I : State -> Prop) :
  line_arg_ok cx -> line_arg_ok cy -> 1 <= rr <= r -> r <= 2 ^ 27 ->
  (forall x y s, cx - r <= x <= cx + r -> cy - r <= y <= cy + r ->
     I s -> I (write_pixel x y c s)) ->
  forall (fuel : nat) (x y err : Z) (s : State),
    x <= rr ->
    (y = 0 /\ x = rr /\ err = 0) \/
    (1 <= y /\ - (2 * rr + 3) <= err <= 2 * rr + 3) ->
    Z.max 0 (x - y + 1) + 1 <= Z.of_nat fuel ->
    I s ->
    exists s', circle_ring fuel cx cy x y err c s = Some s' /\ I s'.
Proof.
  unfold line_arg_ok. assert (H27 : 2 ^ 27 = 134217728) by reflexivity.
  rewrite H27. intros Hcx Hcy Hrr Hr Hwrite.
  induction fuel as [| fuel IH]; intros x y err s Hx Hst Hfuel Hs.
  { cbn in Hfuel. lia. }
  cbn [circle_ring].
  destruct (Z.geb_spec x y) as [Hxy | Hxy];
    [| exists s; split; [reflexivity | exact Hs]].
  assert (Hy : 0 <= y) by (destruct Hst as [(-> & _) | (? & _)]; lia).
  rewrite (iadd_id cx x), (iadd_id cy y), (iadd_id cx y), (iadd_id cy x),
    (isub_id cx y), (isub_id cx x), (isub_id cy y), (isub_id cy x)
    by (unfold INT_MIN, INT_MAX; lia).
  set (s8 := write_pixel (cx + x) (cy - y) c _).
  assert (Hs8 : I s8).
  { unfold s8. repeat (apply Hwrite; [lia | lia |]). exact Hs. }
  clearbody s8.
  assert (Herr : - (2 * rr + 3) <= err <= 2 * rr + 3)
    by (destruct Hst as [(_ & _ & ->) | (_ & ?)]; lia).
  assert (Hx1 : y = 0 \/ 1 <= y) by lia.
  assert (Hx2 : 1 <= x).
  { destruct Hst as [(_ & -> & _) | (? & _)]; lia. }
  destruct (Z.leb_spec err 0) as [Hle | Hgt].
  - rewrite (iadd_id y 1) by (unfold INT_MIN, INT_MAX; lia).
    rewrite (imul_id 2 (y + 1)) by (unfold INT_MIN, INT_MAX; lia).
    rewrite (iadd_id (2 * (y + 1)) 1) by (unfold INT_MIN, INT_MAX; lia).
    rewrite (iadd_id err (2 * (y + 1) + 1))
      by (unfold INT_MIN, INT_MAX; lia).
    destruct (Z.gtb_spec (err + (2 * (y + 1) + 1)) 0) as [Hpos | Hnpos].
    + rewrite (isub_id x 1) by (unfold INT_MIN, INT_MAX; lia).
      rewrite (imul_id 2 (x - 1)) by (unfold INT_MIN, INT_MAX; lia).
      rewrite (iadd_id (2 * (x - 1)) 1) by (unfold INT_MIN, INT_MAX; lia).
      rewrite (isub_id (err + (2 * (y + 1) + 1)) (2 * (x - 1) + 1))
        by (unfold INT_MIN, INT_MAX; lia).
      apply IH; [lia | right; lia | lia | exact Hs8].
    + apply IH; [lia | right; lia | lia | exact Hs8].
  - destruct (Z.gtb_spec err 0) as [Hpos | Hnpos]; [| lia].
    rewrite (isub_id x 1) by (unfold INT_MIN, INT_MAX; lia).
    rewrite (imul_id 2 (x - 1)) by (unfold INT_MIN, INT_MAX; lia).
    rewrite (iadd_id (2 * (x - 1)) 1) by (unfold INT_MIN, INT_MAX; lia).
    rewrite (isub_id err (2 * (x - 1) + 1))
      by (unfold INT_MIN, INT_MAX; lia).
    assert (1 <= y) by (destruct Hst as [(_ & _ & ->) | (? & _)]; lia).
    apply IH; [lia | right; lia | lia | exact Hs8].
Qed.

(** The first turn of the loop of the ring of radius [r]: the eight
    writes land on the four axis points of the circle. *)
Lemma circle_ring_first (fuel : nat) (cx cy r : Z) (c : Color) (s : State) :
  line_arg_ok cx -> line_arg_ok cy -> 1 <= r <= 2 ^ 27 ->
  circle_ring (Datatypes.S fuel) cx cy r 0 0 c s
  = circle_ring fuel cx cy (r - 1) 1 (4 - 2 * r) c
      (write_pixel (cx + r) cy c
         (write_pixel cx (cy - r) c
            (write_pixel cx (cy - r) c
               (write_pixel (cx - r) cy c
                  (write_pixel (cx - r) cy c
                     (write_pixel cx (cy + r) c
                        (write_pixel cx (cy + r) c
                           (write_pixel (cx + r) cy c s)))))))).
Proof.
  unfold line_arg_ok. assert (H27 : 2 ^ 27 = 134217728) by reflexivity.
  rewrite H27. intros Hcx Hcy Hr.
  cbn [circle_ring].
  destruct (Z.geb_spec r 0) as [_ | ?]; [| lia].
  rewrite (iadd_id cx r), (iadd_id cy 0), (iadd_id cx 0), (iadd_id cy r),
    (isub_id cx 0), (isub_id cx r), (isub_id cy 0), (isub_id cy r)
    by (unfold INT_MIN, INT_MAX; lia).
  rewrite !Z.add_0_r, !Z.sub_0_r.
  change (0 <=? 0) with true. cbv beta iota zeta.
  change ((0 + 1)%int) with 1.
  change ((2 * 1 + 1)%int) with 3.
  change ((0 + 3)%int) with 3.
  change (3 >? 0) with true. cbv beta iota zeta.
  rewrite (isub_id r 1) by (unfold INT_MIN, INT_MAX; lia).
  rewrite (imul_id 2 (r - 1)) by (unfold INT_MIN, INT_MAX; lia).
  rewrite (iadd_id (2 * (r - 1)) 1) by (unfold INT_MIN, INT_MAX; lia).
  rewrite (isub_id 3 (2 * (r - 1) + 1)) by (unfold INT_MIN, INT_MAX; lia).
  replace (3 - (2 * (r - 1) + 1)) with (4 - 2 * r) by lia.
  reflexivity.
Qed.

Lemma write_pixel_frame_step (st s : State) (x y : Z) (c : Color) :
  same_frame st s -> same_frame st (write_pixel x y c s).
Proof.
  intros Hf. eapply same_frame_trans; [exact Hf |].
  apply write_pixel_same_frame.
Qed.

(** X29.  [draw_circle_outline] terminates and stays in its box.  A
    radius [r <= 0] draws nothing.  For a centre of magnitude at most
    [2^27] and a radius of at most [2^27], the loop of every ring is left
    within [r + 2] tests, for every thickness.  The call changes no
    pixel outside the square of side [2 r + 1] around the centre, keeps
    the frame and keeps the color buffer made of bytes, and under
    [Overwrite] the four axis points [(cx +- r, cy)] and [(cx, cy +- r)]
    (on the surface and not clipped) end up with the circle color. *)
Theorem draw_circle_outline_ends (fuel : nat) (cx cy r : Z) (c : Color)
    (thickness : Z) (st : State) :
  surface_ok st ->
  line_arg_ok cx -> line_arg_ok cy -> r <= 2 ^ 27 -> thickness <= INT_MAX ->
  r + 2 <= Z.of_nat fuel ->
  exists st',
    draw_circle_outline fuel cx cy r c thickness st = Some st' /\
    (r <= 0 -> st' = st) /\
    drawn_in_box st c (cx - r) (cy - r) (2 * r + 1) (2 * r + 1) st' /\
    (0 < r -> blend st = Overwrite ->
     forall qx qy,
       (qx, qy) = (cx + r, cy) \/ (qx, qy) = (cx - r, cy) \/
       (qx, qy) = (cx, cy + r) \/ (qx, qy) = (cx, cy - r) ->
       in_bounds st qx qy = true -> in_clip st qx qy = true ->
       get_pixel st' qx qy = c).
Proof.
  intros Hok Hcx Hcy Hr Ht Hfuel.
  assert (H27 : 2 ^ 27 = 134217728) by reflexivity.
  assert (Hbox0 : drawn_in_box st c (cx - r) (cy - r) (2 * r + 1)
                    (2 * r + 1) st).
  { split; [apply same_frame_refl |]. split; [auto |]. reflexivity. }
  unfold draw_circle_outline.
  destruct (Z.leb_spec r 0) as [Hr0 | Hr0].
  { exists st. split; [reflexivity |]. split; [reflexivity |].
    split; [exact Hbox0 |]. intros ?. lia. }
  cbv zeta.
  set (t := if thickness <? 1 then 1 else thickness).
  assert (Ht' : 1 <= t <= INT_MAX).
  { unfold t. destruct (Z.ltb_spec thickness 1); unfold INT_MAX in *; lia. }
  rewrite isub_id by (unfold INT_MIN, INT_MAX in *; rewrite H27 in Hr; lia).
  unfold for_range_down.
  pose (I := fun s : State =>
    drawn_in_box st c (cx - r) (cy - r) (2 * r + 1) (2 * r + 1) s /\
    (blend st = Overwrite ->
     forall qx qy,
       (qx, qy) = (cx + r, cy) \/ (qx, qy) = (cx - r, cy) \/
       (qx, qy) = (cx, cy + r) \/ (qx, qy) = (cx, cy - r) ->
       in_bounds st qx qy = true -> in_clip st qx qy = true ->
       get_pixel s qx qy = c)).
  assert (Hwrite : forall x y s, cx - r <= x <= cx + r ->
            cy - r <= y <= cy + r -> I s -> I (write_pixel x y c s)).
  { intros x y s Hx Hy [Hb Hs]. split.
    - apply write_pixel_in_box; [exact Hok | unfold in_rect; lia | exact Hb].
    - intros Ho qx qy Hq Hqb Hqc.
      apply (write_pixel_sticky st s c x y qx qy Hok (proj1 Hb) Ho Hqb Hqc).
      right. now apply Hs. }
  destruct (Z.to_nat (r - Z.max 0 (r - t))) as [| n] eqn:En; [lia |].
  destruct fuel as [| f]; [lia |].
  cbn [for_down].
  rewrite circle_ring_first by (try assumption; lia).
  set (s8 := write_pixel (cx + r) cy c _).
  assert (Hs8 : I s8).
  { split.
    - unfold s8.
      repeat (apply write_pixel_in_box;
              [exact Hok | unfold in_rect; lia |]).
      exact Hbox0.
    - intros Ho qx qy Hq Hqb Hqc. unfold s8.
      destruct Hq as [E | [E | [E | E]]]; injection E as -> ->;
        repeat (apply (write_pixel_sticky st);
                [exact Hok
                | repeat apply write_pixel_frame_step; apply same_frame_refl
                | exact Ho | exact Hqb | exact Hqc
                | first [left; reflexivity | right]]). }
  clearbody s8.
  assert (Hr' : r <= 134217728) by (now rewrite <- H27).
  assert (Hrr : 1 <= r <= r) by lia.
  assert (Hx1 : r - 1 <= r) by lia.
  assert (Hst1 : (1 = 0 /\ r - 1 = r /\ 4 - 2 * r = 0) \/
                 (1 <= 1 /\ - (2 * r + 3) <= 4 - 2 * r <= 2 * r + 3))
    by (right; lia).
  assert (Hf1 : Z.max 0 (r - 1 - 1 + 1) + 1 <= Z.of_nat f) by lia.
  destruct (circle_ring_run cx cy r r c I Hcx Hcy Hrr Hr Hwrite
              f (r - 1) 1 (4 - 2 * r) s8 Hx1 Hst1 Hf1 Hs8)
    as (s1 & -> & Hs1).
  rewrite isub_id by (unfold INT_MIN, INT_MAX; lia).
  assert (Hn : Z.of_nat n <= r - 1 <= INT_MAX) by (unfold INT_MAX; lia).
  destruct (for_down_run I
              (fun rr s => circle_ring (Datatypes.S f) cx cy rr 0 0 c s)
              n (r - 1) s1 Hn Hs1)
    as (s' & Es' & Hs').
  { intros k s2 Hk Hs2.
    assert (Hk1 : 1 <= k <= r) by lia.
    apply (circle_ring_run cx cy r k c I Hcx Hcy Hk1 Hr Hwrite
             (Datatypes.S f) k 0 0 s2 (Z.le_refl k));
      [left; repeat split; reflexivity | lia | exact Hs2]. }
  exists s'. split; [exact Es' |]. split; [lia |].
  split; [exact (proj1 Hs') |].
  intros _ Ho. exact (proj2 Hs' Ho).
Qed.

Lemma draw_circle_outline_ends_witness :
  exists st',
    draw_circle_outline 3 0 0 1 (mkColor 9 8 7 255) 1 surface_2x2 = Some st' /\
    get_pixel st' 1 0 = mkColor 9 8 7 255.
Proof.
  assert (Hok : surface_ok surface_2x2).
  { unfold surface_ok. vm_compute. repeat split; congruence. }
  assert (H0 : line_arg_ok 0) by (vm_compute; split; congruence).
  assert (Hr : 1 <= 2 ^ 27) by (vm_compute; congruence).
  assert (Ht : 1 <= INT_MAX) by (vm_compute; congruence).
  assert (Hfuel : 1 + 2 <= Z.of_nat 3) by (vm_compute; congruence).
  destruct (draw_circle_outline_ends 3 0 0 1 (mkColor 9 8 7 255) 1
              surface_2x2 Hok H0 H0 Hr Ht Hfuel)
    as (st' & E & _ & _ & Hax).
  exists st'. split; [exact E |].
  apply (Hax ltac:(lia) eq_refl 1 0); [left; reflexivity | |]; reflexivity.
Defined.

